(** * monitor-operator: the MonitorStack reconciliation engine

    A shallow embedding of [internal/controller] (the name helpers, the
    validation and defaulting helpers, the resource builders and the
    reconciler) together with the [api/v1] types they work on, and the
    properties of the engine proved over it.

    Go strings are [string], [int32] fields are [Z] (the engine only compares
    and prints them), [map[string]string] is [gmap string string], slices are
    lists.  A method that mutates its receiver's argument through a pointer
    returns the updated value. *)

From stdpp Require Import base gmap strings list fin_maps pretty.
From Stdlib Require Import ZArith String Ascii Lia.

Open Scope string_scope.
Open Scope Z_scope.

(** ** api/v1: the MonitorStack types *)

Record ResourceList := mkResourceList {
  rl_CPU : string;
  rl_Memory : string }.

Record ResourceRequirements := mkResourceRequirements {
  rr_Limits : ResourceList;
  rr_Requests : ResourceList }.

Record StorageSpec := mkStorageSpec {
  st_Size : string;
  st_StorageClass : string }.

Record ServiceSpec := mkServiceSpec {
  svc_Type : string;
  svc_Port : Z;
  svc_NodePort : Z;
  svc_Labels : gmap string string }.

Record DatasourceSpec := mkDatasourceSpec {
  ds_Name : string;
  ds_Type : string;
  ds_URL : string }.

Record DashboardSpec := mkDashboardSpec {
  db_Name : string;
  db_JSON : string;
  db_URL : string }.

Record PrometheusSpec := mkPrometheusSpec {
  p_Enabled : bool;
  p_Image : string;
  p_Tag : string;
  p_Resources : ResourceRequirements;
  p_Storage : StorageSpec;
  p_Service : ServiceSpec;
  p_Config : string;
  p_Retention : string }.

Record GrafanaSpec := mkGrafanaSpec {
  g_Enabled : bool;
  g_Image : string;
  g_Tag : string;
  g_Resources : ResourceRequirements;
  g_Service : ServiceSpec;
  g_AdminPassword : string;
  g_Datasources : list DatasourceSpec;
  g_Dashboards : list DashboardSpec }.

Record MonitorStackSpec := mkMonitorStackSpec {
  Prometheus : PrometheusSpec;
  Grafana : GrafanaSpec;
  spec_Namespace : string;
  spec_Labels : gmap string string }.

Record ComponentStatus := mkComponentStatus {
  cs_Ready : bool;
  cs_Replicas : Z;
  cs_Message : string;
  cs_Endpoint : string }.

(** [metav1.Time]: an instant, as a number of seconds. *)
Definition Time := Z.

Record MonitorStackStatus := mkMonitorStackStatus {
  Phase : string;
  Message : string;
  PrometheusStatus : ComponentStatus;
  GrafanaStatus : ComponentStatus;
  LastUpdated : Time }.

(** The object itself: the part of [metav1.ObjectMeta] the engine reads or
    writes, the spec and the status. *)
Record MonitorStack := mkMonitorStack {
  Name : string;
  Namespace : string;
  UID : string;
  DeletionTimestamp : option Time;
  Finalizers : list string;
  Spec : MonitorStackSpec;
  Status : MonitorStackStatus }.

(** ** helpers.go: child-resource names *)

Definition getPrometheusName (monitorStack : MonitorStack) : string :=
  Name monitorStack +:+ "-prometheus".

Definition getPrometheusServiceName (monitorStack : MonitorStack) : string :=
  Name monitorStack +:+ "-prometheus".

Definition getPrometheusConfigMapName (monitorStack : MonitorStack) : string :=
  Name monitorStack +:+ "-prometheus-config".

Definition getPrometheusPVCName (monitorStack : MonitorStack) : string :=
  Name monitorStack +:+ "-prometheus-data".

Definition getGrafanaName (monitorStack : MonitorStack) : string :=
  Name monitorStack +:+ "-grafana".

Definition getGrafanaServiceName (monitorStack : MonitorStack) : string :=
  Name monitorStack +:+ "-grafana".

Definition getGrafanaDatasourcesConfigMapName (monitorStack : MonitorStack) : string :=
  Name monitorStack +:+ "-grafana-datasources".

(** Every name the helpers give to a child of the stack. *)
Definition childNames (monitorStack : MonitorStack) : list string :=
  [ getPrometheusName monitorStack;
    getPrometheusServiceName monitorStack;
    getPrometheusConfigMapName monitorStack;
    getPrometheusPVCName monitorStack;
    getGrafanaName monitorStack;
    getGrafanaServiceName monitorStack;
    getGrafanaDatasourcesConfigMapName monitorStack ].

(** The five suffixes the helpers append to the stack name. *)
Definition childSuffixes : list string :=
  [ "-prometheus"; "-prometheus-config"; "-prometheus-data";
    "-grafana"; "-grafana-datasources" ].

(** ** Go errors

    [errorString] is an error made by [fmt.Errorf] without [%w];
    [wrapError prefix err] is [fmt.Errorf(prefix + ": %w", err)];
    [StatusError] is an API error of [k8s.io/apimachinery/pkg/api/errors]. *)

Inductive StatusReason :=
| StatusReasonNotFound
| StatusReasonAlreadyExists
| StatusReasonInternalError.

Inductive error :=
| errorString (msg : string)
| wrapError (prefix : string) (err : error)
| StatusError (reason : StatusReason) (msg : string)
| AlreadyOwnedError (object owner : string)
| crossNamespaceOwnerError (object owner : string).

(** The [Error()] method. *)
Fixpoint Error (err : error) : string :=
  match err with
  | errorString msg => msg
  | wrapError prefix err => prefix +:+ ": " +:+ Error err
  | StatusError _ msg => msg
  | AlreadyOwnedError object owner =>
      "Object " +:+ object +:+ " is already owned by another controller " +:+ owner
  | crossNamespaceOwnerError object owner =>
      "cross-namespace owner references are disallowed, owner " +:+ owner
      +:+ ", object " +:+ object
  end.

(** [errors.IsNotFound]: the reason of the API error, seen through wrapping. *)
Fixpoint IsNotFound (err : error) : bool :=
  match err with
  | StatusError StatusReasonNotFound _ => true
  | wrapError _ err => IsNotFound err
  | _ => false
  end.

(** ** helpers.go: validation *)

Definition validatePrometheusConfig (monitorStack : MonitorStack) : option error :=
  let prometheus := Prometheus (Spec monitorStack) in
  if (svc_Port (p_Service prometheus) <? 1) || (svc_Port (p_Service prometheus) >? 65535) then
    Some (errorString ("service port must be between 1 and 65535, got "
                       +:+ pretty (svc_Port (p_Service prometheus))))
  else if (svc_Type (p_Service prometheus) =? "NodePort")%string
          && (svc_NodePort (p_Service prometheus) >? 0)
          && ((svc_NodePort (p_Service prometheus) <? 30000)
              || (svc_NodePort (p_Service prometheus) >? 32767)) then
    Some (errorString ("nodePort must be between 30000 and 32767, got "
                       +:+ pretty (svc_NodePort (p_Service prometheus))))
  else if (p_Image prometheus =? "")%string then
    Some (errorString "prometheus image cannot be empty")
  else if (p_Tag prometheus =? "")%string then
    Some (errorString "prometheus tag cannot be empty")
  else None.

(** The loop [for i, ds := range grafana.Datasources], from index [i] on. *)
Fixpoint validateDatasources (i : Z) (datasources : list DatasourceSpec) : option error :=
  match datasources with
  | [] => None
  | ds :: rest =>
      if (ds_Name ds =? "")%string then
        Some (errorString ("datasource[" +:+ pretty i +:+ "] name cannot be empty"))
      else if (ds_Type ds =? "")%string then
        Some (errorString ("datasource[" +:+ pretty i +:+ "] type cannot be empty"))
      else if (ds_URL ds =? "")%string then
        Some (errorString ("datasource[" +:+ pretty i +:+ "] URL cannot be empty"))
      else validateDatasources (i + 1) rest
  end.

Definition validateGrafanaConfig (monitorStack : MonitorStack) : option error :=
  let grafana := Grafana (Spec monitorStack) in
  if (svc_Port (g_Service grafana) <? 1) || (svc_Port (g_Service grafana) >? 65535) then
    Some (errorString ("service port must be between 1 and 65535, got "
                       +:+ pretty (svc_Port (g_Service grafana))))
  else if (svc_Type (g_Service grafana) =? "NodePort")%string
          && (svc_NodePort (g_Service grafana) >? 0)
          && ((svc_NodePort (g_Service grafana) <? 30000)
              || (svc_NodePort (g_Service grafana) >? 32767)) then
    Some (errorString ("nodePort must be between 30000 and 32767, got "
                       +:+ pretty (svc_NodePort (g_Service grafana))))
  else if (g_Image grafana =? "")%string then
    Some (errorString "grafana image cannot be empty")
  else if (g_Tag grafana =? "")%string then
    Some (errorString "grafana tag cannot be empty")
  else if (g_AdminPassword grafana =? "")%string then
    Some (errorString "grafana admin password cannot be empty")
  else validateDatasources 0 (g_Datasources grafana).

Definition validateMonitorStack (monitorStack : MonitorStack) : option error :=
  if negb (p_Enabled (Prometheus (Spec monitorStack)))
     && negb (g_Enabled (Grafana (Spec monitorStack))) then
    Some (errorString "at least one component (Prometheus or Grafana) must be enabled")
  else
    match (if p_Enabled (Prometheus (Spec monitorStack))
           then validatePrometheusConfig monitorStack else None) with
    | Some err => Some (wrapError "prometheus configuration error" err)
    | None =>
        match (if g_Enabled (Grafana (Spec monitorStack))
               then validateGrafanaConfig monitorStack else None) with
        | Some err => Some (wrapError "grafana configuration error" err)
        | None => None
        end
    end.

(** ** helpers.go: defaulting *)

Definition orDefault (s default : string) : string :=
  if (s =? "")%string then default else s.

Definition setServiceDefaults (port : Z) (service : ServiceSpec) : ServiceSpec :=
  {| svc_Type := orDefault (svc_Type service) "ClusterIP";
     svc_Port := if svc_Port service =? 0 then port else svc_Port service;
     svc_NodePort := svc_NodePort service;
     svc_Labels := svc_Labels service |}.

Definition setRequestDefaults (cpu memory : string) (resources : ResourceRequirements)
  : ResourceRequirements :=
  {| rr_Limits := rr_Limits resources;
     rr_Requests :=
       {| rl_CPU := orDefault (rl_CPU (rr_Requests resources)) cpu;
          rl_Memory := orDefault (rl_Memory (rr_Requests resources)) memory |} |}.

Definition setPrometheusDefaults (prometheus : PrometheusSpec) : PrometheusSpec :=
  {| p_Enabled := p_Enabled prometheus;
     p_Image := orDefault (p_Image prometheus) "prom/prometheus";
     p_Tag := orDefault (p_Tag prometheus) "latest";
     p_Resources := setRequestDefaults "100m" "256Mi" (p_Resources prometheus);
     p_Storage := p_Storage prometheus;
     p_Service := setServiceDefaults 9090 (p_Service prometheus);
     p_Config := p_Config prometheus;
     p_Retention := orDefault (p_Retention prometheus) "15d" |}.

Definition setGrafanaDefaults (grafana : GrafanaSpec) : GrafanaSpec :=
  {| g_Enabled := g_Enabled grafana;
     g_Image := orDefault (g_Image grafana) "grafana/grafana";
     g_Tag := orDefault (g_Tag grafana) "latest";
     g_Resources := setRequestDefaults "100m" "128Mi" (g_Resources grafana);
     g_Service := setServiceDefaults 3000 (g_Service grafana);
     g_AdminPassword := orDefault (g_AdminPassword grafana) "admin";
     g_Datasources := g_Datasources grafana;
     g_Dashboards := g_Dashboards grafana |}.

Definition withSpec (monitorStack : MonitorStack) (spec : MonitorStackSpec) : MonitorStack :=
  {| Name := Name monitorStack; Namespace := Namespace monitorStack;
     UID := UID monitorStack;
     DeletionTimestamp := DeletionTimestamp monitorStack;
     Finalizers := Finalizers monitorStack;
     Spec := spec; Status := Status monitorStack |}.

Definition setDefaultValues (monitorStack : MonitorStack) : MonitorStack :=
  let spec := Spec monitorStack in
  withSpec monitorStack
    {| Prometheus := if p_Enabled (Prometheus spec)
                     then setPrometheusDefaults (Prometheus spec) else Prometheus spec;
       Grafana := if g_Enabled (Grafana spec)
                  then setGrafanaDefaults (Grafana spec) else Grafana spec;
       spec_Namespace := spec_Namespace spec;
       spec_Labels := spec_Labels spec |}.

(** The zero values of the spec types, and a stack whose spec only enables
    the collector. *)
Definition zeroResources : ResourceRequirements :=
  {| rr_Limits := {| rl_CPU := ""; rl_Memory := "" |};
     rr_Requests := {| rl_CPU := ""; rl_Memory := "" |} |}.

Definition zeroService : ServiceSpec :=
  {| svc_Type := ""; svc_Port := 0; svc_NodePort := 0; svc_Labels := ∅ |}.

Definition zeroPrometheus : PrometheusSpec :=
  {| p_Enabled := false; p_Image := ""; p_Tag := ""; p_Resources := zeroResources;
     p_Storage := {| st_Size := ""; st_StorageClass := "" |};
     p_Service := zeroService; p_Config := ""; p_Retention := "" |}.

Definition zeroGrafana : GrafanaSpec :=
  {| g_Enabled := false; g_Image := ""; g_Tag := ""; g_Resources := zeroResources;
     g_Service := zeroService; g_AdminPassword := "";
     g_Datasources := []; g_Dashboards := [] |}.

Definition zeroComponentStatus : ComponentStatus :=
  {| cs_Ready := false; cs_Replicas := 0; cs_Message := ""; cs_Endpoint := "" |}.

Definition zeroStatus : MonitorStackStatus :=
  {| Phase := ""; Message := ""; PrometheusStatus := zeroComponentStatus;
     GrafanaStatus := zeroComponentStatus; LastUpdated := 0 |}.

Definition enablePrometheus (prometheus : PrometheusSpec) : PrometheusSpec :=
  {| p_Enabled := true; p_Image := p_Image prometheus; p_Tag := p_Tag prometheus;
     p_Resources := p_Resources prometheus; p_Storage := p_Storage prometheus;
     p_Service := p_Service prometheus; p_Config := p_Config prometheus;
     p_Retention := p_Retention prometheus |}.

Definition newStack (name namespace : string)
  (prometheus : PrometheusSpec) (grafana : GrafanaSpec) : MonitorStack :=
  {| Name := name; Namespace := namespace; UID := "uid-" +:+ name;
     DeletionTimestamp := None; Finalizers := [];
     Spec := {| Prometheus := prometheus; Grafana := grafana;
                spec_Namespace := ""; spec_Labels := ∅ |};
     Status := zeroStatus |}.

(** ** helpers.go: labels *)

Definition getLabels (monitorStack : MonitorStack) (component : string)
  : gmap string string :=
  let labels : gmap string string :=
    <["app.kubernetes.io/name" := "monitor-operator"]>
      (<["app.kubernetes.io/instance" := Name monitorStack]>
        (<["app.kubernetes.io/component" := component]>
          (<["app.kubernetes.io/managed-by" := "monitor-operator"]>
            (<["app.kubernetes.io/part-of" := "monitoring-stack"]> ∅)))) in
  (* for k, v := range Spec.Labels { labels[k] = v } *)
  spec_Labels (Spec monitorStack) ∪ labels.

(** ** The child resources (the fields of the Kubernetes types the engine sets) *)

Record OwnerReference := mkOwnerReference {
  or_Kind : string;
  or_Name : string;
  or_UID : string;
  or_Controller : bool;
  or_BlockOwnerDeletion : bool }.

Record ObjectMeta := mkObjectMeta {
  om_Name : string;
  om_Namespace : string;
  om_Labels : gmap string string;
  om_OwnerReferences : list OwnerReference }.

Record ConfigMap := mkConfigMap {
  cm_Meta : ObjectMeta;
  cm_Data : gmap string string }.

(** A parsed [resource.Quantity], kept as the text it was parsed from. *)
Definition Quantity := string.

Record PersistentVolumeClaim := mkPersistentVolumeClaim {
  pvc_Meta : ObjectMeta;
  pvc_AccessModes : list string;
  pvc_Requests : gmap string Quantity;
  pvc_StorageClassName : option string }.

Record ContainerPort := mkContainerPort {
  cp_Name : string;
  cp_ContainerPort : Z;
  cp_Protocol : string }.

Record VolumeMount := mkVolumeMount {
  vm_Name : string;
  vm_MountPath : string;
  vm_ReadOnly : bool }.

Record EnvVar := mkEnvVar {
  ev_Name : string;
  ev_Value : string }.

Record Probe := mkProbe {
  pr_Path : string;
  pr_Port : Z;
  pr_InitialDelaySeconds : Z;
  pr_PeriodSeconds : Z;
  pr_TimeoutSeconds : Z;
  pr_FailureThreshold : Z }.

(** [corev1.ResourceRequirements]; a nil [ResourceList] is the empty map. *)
Record ContainerResources := mkContainerResources {
  cr_Limits : gmap string Quantity;
  cr_Requests : gmap string Quantity }.

Record Container := mkContainer {
  c_Name : string;
  c_Image : string;
  c_Ports : list ContainerPort;
  c_Args : list string;
  c_Env : list EnvVar;
  c_VolumeMounts : list VolumeMount;
  c_Resources : ContainerResources;
  c_LivenessProbe : option Probe;
  c_ReadinessProbe : option Probe }.

Inductive VolumeSource :=
| ConfigMapVolumeSource (name : string)
| PersistentVolumeClaimVolumeSource (claimName : string)
| EmptyDirVolumeSource.

Record Volume := mkVolume {
  v_Name : string;
  v_VolumeSource : VolumeSource }.

Record PodSecurityContext := mkPodSecurityContext {
  sc_RunAsNonRoot : bool;
  sc_RunAsUser : Z;
  sc_FSGroup : Z }.

Record PodSpec := mkPodSpec {
  ps_SecurityContext : option PodSecurityContext;
  ps_Containers : list Container;
  ps_Volumes : list Volume }.

Record DeploymentSpec := mkDeploymentSpec {
  d_Replicas : Z;
  d_MatchLabels : gmap string string;
  d_TemplateLabels : gmap string string;
  d_TemplateSpec : PodSpec }.

Record DeploymentStatus := mkDeploymentStatus {
  dst_Replicas : Z;
  dst_ReadyReplicas : Z }.

Record Deployment := mkDeployment {
  dep_Meta : ObjectMeta;
  dep_Spec : DeploymentSpec;
  dep_Status : DeploymentStatus }.

Record ServicePort := mkServicePort {
  sp_Name : string;
  sp_Port : Z;
  sp_TargetPort : Z;
  sp_Protocol : string;
  sp_NodePort : Z }.

Record ServiceSpecK := mkServiceSpecK {
  ss_Type : string;
  ss_Selector : gmap string string;
  ss_Ports : list ServicePort }.

Record Service := mkService {
  s_Meta : ObjectMeta;
  s_Spec : ServiceSpecK }.

(** ** Panics

    [resource.MustParse] and an index out of range panic; a computation that
    can panic returns [Res]. *)

Inductive Res (A : Type) :=
| Val (a : A)
| Panic (msg : string).
Arguments Val {A} a.
Arguments Panic {A} msg.

Definition res_bind {A B : Type} (r : Res A) (k : A -> Res B) : Res B :=
  match r with
  | Val a => k a
  | Panic msg => Panic msg
  end.

Notation "'do' x <- r ; k" := (res_bind r (fun x => k))
  (at level 10, x name, r at level 100, k at level 200).

(** ** controllerutil: owner references and finalizers *)

Definition finalizerName : string := "monitoring.cillian.website/finalizer".

Definition ContainsFinalizer (monitorStack : MonitorStack) (finalizer : string) : bool :=
  bool_decide (finalizer ∈ Finalizers monitorStack).

Definition withFinalizers (monitorStack : MonitorStack) (finalizers : list string)
  : MonitorStack :=
  {| Name := Name monitorStack; Namespace := Namespace monitorStack;
     UID := UID monitorStack;
     DeletionTimestamp := DeletionTimestamp monitorStack;
     Finalizers := finalizers;
     Spec := Spec monitorStack; Status := Status monitorStack |}.

Definition AddFinalizer (monitorStack : MonitorStack) (finalizer : string) : MonitorStack :=
  if ContainsFinalizer monitorStack finalizer then monitorStack
  else withFinalizers monitorStack (Finalizers monitorStack ++ [finalizer]).

Definition RemoveFinalizer (monitorStack : MonitorStack) (finalizer : string) : MonitorStack :=
  withFinalizers monitorStack
    (filter (fun f => f ≠ finalizer) (Finalizers monitorStack)).

Definition controllerRef (owner : MonitorStack) : OwnerReference :=
  {| or_Kind := "MonitorStack"; or_Name := Name owner; or_UID := UID owner;
     or_Controller := true; or_BlockOwnerDeletion := true |}.

Definition referSameObject (a b : OwnerReference) : bool :=
  (or_Kind a =? or_Kind b)%string && (or_Name a =? or_Name b)%string.

Definition withOwnerReferences (meta : ObjectMeta) (refs : list OwnerReference) : ObjectMeta :=
  {| om_Name := om_Name meta; om_Namespace := om_Namespace meta;
     om_Labels := om_Labels meta; om_OwnerReferences := refs |}.

(** [upsertOwnerRef]: replace the reference to the same object, or append. *)
Fixpoint upsertOwnerRef (ref : OwnerReference) (refs : list OwnerReference)
  : list OwnerReference :=
  match refs with
  | [] => [ref]
  | r :: rest => if referSameObject r ref then ref :: rest
                 else r :: upsertOwnerRef ref rest
  end.

(** [controllerutil.SetControllerReference] on the metadata of the child:
    the owner must live in the child's namespace, and the child must not be
    controlled by another object. *)
Definition SetControllerReference (owner : MonitorStack) (meta : ObjectMeta)
  : error + ObjectMeta :=
  if negb (Namespace owner =? om_Namespace meta)%string then
    inl (crossNamespaceOwnerError (om_Name meta) (Name owner))
  else
    match List.find or_Controller (om_OwnerReferences meta) with
    | Some existing =>
        if referSameObject existing (controllerRef owner) then
          inr (withOwnerReferences meta
                 (upsertOwnerRef (controllerRef owner) (om_OwnerReferences meta)))
        else inl (AlreadyOwnedError (om_Name meta) (or_Name existing))
    | None =>
        inr (withOwnerReferences meta
               (upsertOwnerRef (controllerRef owner) (om_OwnerReferences meta)))
    end.

(** A namespace and a name: the key of an object in the cluster. *)
Abbreviation NamespacedName := (string * string)%type.

(** ** The cluster

    The API server's object store, one map per kind, keyed by
    (namespace, name); the clock read by [metav1.Now]; and, for each request
    of the run, whether the API server fails it.  [faults w n = Some msg]
    makes the request number [n] fail with an internal error, so a theorem
    over every [faults] covers every way the API can fail.  [requests] logs
    the requests issued, newest first. *)

Inductive Verb := VerbGet | VerbCreate | VerbUpdate | VerbStatusUpdate | VerbDelete.

Inductive Kind :=
| KindMonitorStack
| KindConfigMap
| KindPersistentVolumeClaim
| KindDeployment
| KindService.

Record Request := mkRequest {
  rq_Verb : Verb;
  rq_Kind : Kind;
  rq_Key : NamespacedName }.

Record World := mkWorld {
  monitorStacks : gmap NamespacedName MonitorStack;
  configMaps : gmap NamespacedName ConfigMap;
  persistentVolumeClaims : gmap NamespacedName PersistentVolumeClaim;
  deployments : gmap NamespacedName Deployment;
  services : gmap NamespacedName Service;
  now : Time;
  faults : nat -> option string;
  requests : list Request }.

(** A computation of the engine: it reads and changes the cluster, and
    either returns or panics. *)
Definition M (A : Type) : Type := World -> Res A * World.

Definition ret {A : Type} (a : A) : M A := fun w => (Val a, w).

Definition bind {A B : Type} (m : M A) (k : A -> M B) : M B :=
  fun w =>
    match m w with
    | (Val a, w') => k a w'
    | (Panic msg, w') => (Panic msg, w')
    end.

Definition lift {A : Type} (r : Res A) : M A := fun w => (r, w).

Notation "'let*' x ':=' m 'in' k" := (bind m (fun x => k))
  (at level 10, x pattern, m at level 100, k at level 200).

Definition Now : M Time := fun w => (Val (now w), w).

(** Log the request and ask whether the API server fails it. *)
Definition request (verb : Verb) (kind : Kind) (key : NamespacedName) : M (option error) :=
  fun w =>
    (Val (match faults w (List.length (requests w)) with
          | Some msg => Some (StatusError StatusReasonInternalError msg)
          | None => None
          end),
     {| monitorStacks := monitorStacks w; configMaps := configMaps w;
        persistentVolumeClaims := persistentVolumeClaims w;
        deployments := deployments w; services := services w;
        now := now w; faults := faults w;
        requests := {| rq_Verb := verb; rq_Kind := kind; rq_Key := key |}
                    :: requests w |}).

(** [client.Object]: a kind of child resource, its metadata and its store. *)
Class Object (T : Type) := {
  kindOf : Kind;
  metaOf : T -> ObjectMeta;
  objects : World -> gmap NamespacedName T;
  setObjects : gmap NamespacedName T -> World -> World }.

#[export] Instance ConfigMap_Object : Object ConfigMap := {|
  kindOf := KindConfigMap;
  metaOf := cm_Meta;
  objects := configMaps;
  setObjects m w :=
    {| monitorStacks := monitorStacks w; configMaps := m;
       persistentVolumeClaims := persistentVolumeClaims w;
       deployments := deployments w; services := services w;
       now := now w; faults := faults w; requests := requests w |} |}.

#[export] Instance PersistentVolumeClaim_Object : Object PersistentVolumeClaim := {|
  kindOf := KindPersistentVolumeClaim;
  metaOf := pvc_Meta;
  objects := persistentVolumeClaims;
  setObjects m w :=
    {| monitorStacks := monitorStacks w; configMaps := configMaps w;
       persistentVolumeClaims := m;
       deployments := deployments w; services := services w;
       now := now w; faults := faults w; requests := requests w |} |}.

#[export] Instance Deployment_Object : Object Deployment := {|
  kindOf := KindDeployment;
  metaOf := dep_Meta;
  objects := deployments;
  setObjects m w :=
    {| monitorStacks := monitorStacks w; configMaps := configMaps w;
       persistentVolumeClaims := persistentVolumeClaims w;
       deployments := m; services := services w;
       now := now w; faults := faults w; requests := requests w |} |}.

#[export] Instance Service_Object : Object Service := {|
  kindOf := KindService;
  metaOf := s_Meta;
  objects := services;
  setObjects m w :=
    {| monitorStacks := monitorStacks w; configMaps := configMaps w;
       persistentVolumeClaims := persistentVolumeClaims w;
       deployments := deployments w; services := m;
       now := now w; faults := faults w; requests := requests w |} |}.

Definition keyOf `{Object T} (obj : T) : NamespacedName :=
  (om_Namespace (metaOf obj), om_Name (metaOf obj)).

Definition notFound (key : NamespacedName) : error :=
  StatusError StatusReasonNotFound (key.2 +:+ " not found").

Definition alreadyExists (key : NamespacedName) : error :=
  StatusError StatusReasonAlreadyExists (key.2 +:+ " already exists").

(** ** client.Client *)

Definition Get `{Object T} (key : NamespacedName) : M (error + T) :=
  let* fault := request VerbGet kindOf key in
  match fault with
  | Some err => ret (inl err)
  | None => fun w =>
      match objects w !! key with
      | Some obj => (Val (inr obj), w)
      | None => (Val (inl (notFound key)), w)
      end
  end.

Definition Create `{Object T} (obj : T) : M (option error) :=
  let* fault := request VerbCreate kindOf (keyOf obj) in
  match fault with
  | Some err => ret (Some err)
  | None => fun w =>
      match objects w !! keyOf obj with
      | Some _ => (Val (Some (alreadyExists (keyOf obj))), w)
      | None => (Val None, setObjects (<[keyOf obj := obj]> (objects w)) w)
      end
  end.

Definition Update `{Object T} (obj : T) : M (option error) :=
  let* fault := request VerbUpdate kindOf (keyOf obj) in
  match fault with
  | Some err => ret (Some err)
  | None => fun w =>
      match objects w !! keyOf obj with
      | Some _ => (Val None, setObjects (<[keyOf obj := obj]> (objects w)) w)
      | None => (Val (Some (notFound (keyOf obj))), w)
      end
  end.

Definition Delete `{Object T} (obj : T) : M (option error) :=
  let* fault := request VerbDelete kindOf (keyOf obj) in
  match fault with
  | Some err => ret (Some err)
  | None => fun w =>
      match objects w !! keyOf obj with
      | Some _ => (Val None, setObjects (delete (keyOf obj) (objects w)) w)
      | None => (Val (Some (notFound (keyOf obj))), w)
      end
  end.

(** The MonitorStack itself.  [Update] writes the metadata and the spec (the
    status is a sub-resource and is left as stored); once a stack marked for
    deletion has no finalizer left, the API server removes it.
    [Status().Update] writes the status only. *)

Definition setMonitorStacks (m : gmap NamespacedName MonitorStack) (w : World) : World :=
  {| monitorStacks := m; configMaps := configMaps w;
     persistentVolumeClaims := persistentVolumeClaims w;
     deployments := deployments w; services := services w;
     now := now w; faults := faults w; requests := requests w |}.

Definition stackKey (monitorStack : MonitorStack) : NamespacedName :=
  (Namespace monitorStack, Name monitorStack).

Definition withStatus (monitorStack : MonitorStack) (status : MonitorStackStatus)
  : MonitorStack :=
  {| Name := Name monitorStack; Namespace := Namespace monitorStack;
     UID := UID monitorStack;
     DeletionTimestamp := DeletionTimestamp monitorStack;
     Finalizers := Finalizers monitorStack;
     Spec := Spec monitorStack; Status := status |}.

Definition GetMonitorStack (key : NamespacedName) : M (error + MonitorStack) :=
  let* fault := request VerbGet KindMonitorStack key in
  match fault with
  | Some err => ret (inl err)
  | None => fun w =>
      match monitorStacks w !! key with
      | Some obj => (Val (inr obj), w)
      | None => (Val (inl (notFound key)), w)
      end
  end.

Definition UpdateMonitorStack (monitorStack : MonitorStack) : M (option error) :=
  let* fault := request VerbUpdate KindMonitorStack (stackKey monitorStack) in
  match fault with
  | Some err => ret (Some err)
  | None => fun w =>
      match monitorStacks w !! stackKey monitorStack with
      | Some stored =>
          let updated :=
            withSpec (withFinalizers stored (Finalizers monitorStack))
              (Spec monitorStack) in
          match DeletionTimestamp stored, Finalizers monitorStack with
          | Some _, [] =>
              (Val None,
               setMonitorStacks (delete (stackKey monitorStack) (monitorStacks w)) w)
          | _, _ =>
              (Val None,
               setMonitorStacks (<[stackKey monitorStack := updated]> (monitorStacks w)) w)
          end
      | None => (Val (Some (notFound (stackKey monitorStack))), w)
      end
  end.

Definition StatusUpdate (monitorStack : MonitorStack) : M (option error) :=
  let* fault := request VerbStatusUpdate KindMonitorStack (stackKey monitorStack) in
  match fault with
  | Some err => ret (Some err)
  | None => fun w =>
      match monitorStacks w !! stackKey monitorStack with
      | Some stored =>
          (Val None,
           setMonitorStacks
             (<[stackKey monitorStack := withStatus stored (Status monitorStack)]>
                (monitorStacks w)) w)
      | None => (Val (Some (notFound (stackKey monitorStack))), w)
      end
  end.

(** ** The engine

    Two things the engine uses are parameters: which strings
    [resource.MustParse] accepts as a quantity, and the text of the default
    Prometheus configuration (the literal returned by [getPrometheusConfig],
    which no property depends on). *)

Class Parameters := {
  quantityOK : string -> bool;
  defaultPrometheusConfig : string }.

Section Engine.

Context {parameters : Parameters}.

(** [resource.MustParse]: panics on a string that is not a quantity. *)
Definition MustParse (str : string) : Res Quantity :=
  if quantityOK str then Val str
  else Panic "cannot parse quantity".

(** *** helpers.go: configuration text *)

Definition getPrometheusConfig (monitorStack : MonitorStack) : string :=
  if negb (p_Config (Prometheus (Spec monitorStack)) =? "")%string then
    p_Config (Prometheus (Spec monitorStack))
  else defaultPrometheusConfig.

Definition newline : string := String (ascii_of_nat 10) EmptyString.

Definition formatBool (b : bool) : string := if b then "true" else "false".

(** The loop of [buildGrafanaDatasourcesConfig], from index [i] on. *)
Fixpoint appendDatasources (i : Z) (datasources : list DatasourceSpec) (config : string)
  : string :=
  match datasources with
  | [] => config
  | ds :: rest =>
      let isDefault := (i =? 0) && (ds_Type ds =? "prometheus")%string in
      appendDatasources (i + 1) rest
        (config +:+ newline +:+ "  - name: " +:+ ds_Name ds
                +:+ newline +:+ "    type: " +:+ ds_Type ds
                +:+ newline +:+ "    url: " +:+ ds_URL ds
                +:+ newline +:+ "    access: proxy"
                +:+ newline +:+ "    isDefault: " +:+ formatBool isDefault)
  end.

Definition buildGrafanaDatasourcesConfig (monitorStack : MonitorStack) : string :=
  appendDatasources 0 (g_Datasources (Grafana (Spec monitorStack)))
    ("apiVersion: 1" +:+ newline +:+ "datasources:").

(** *** The resource builders *)

Definition nonEmpty (s : string) : bool := negb (s =? "")%string.

Definition buildResourceList (list : ResourceList) : Res (gmap string Quantity) :=
  if nonEmpty (rl_CPU list) || nonEmpty (rl_Memory list) then
    do withCPU <- (if nonEmpty (rl_CPU list)
                   then do q <- MustParse (rl_CPU list); Val (<["cpu" := q]> ∅)
                   else Val (∅ : gmap string Quantity));
    if nonEmpty (rl_Memory list)
    then do q <- MustParse (rl_Memory list); Val (<["memory" := q]> withCPU)
    else Val withCPU
  else Val ∅.

Definition buildResourceRequirements (resources : ResourceRequirements)
  : Res ContainerResources :=
  do requests <- buildResourceList (rr_Requests resources);
  do limits <- buildResourceList (rr_Limits resources);
  Val {| cr_Limits := limits; cr_Requests := requests |}.

Definition buildPrometheusArgs (monitorStack : MonitorStack) : list string :=
  let args :=
    [ "--config.file=/etc/prometheus/prometheus.yml";
      "--storage.tsdb.path=/prometheus";
      "--web.console.libraries=/etc/prometheus/console_libraries";
      "--web.console.templates=/etc/prometheus/consoles";
      "--web.enable-lifecycle";
      "--web.enable-admin-api" ] in
  if nonEmpty (p_Retention (Prometheus (Spec monitorStack))) then
    args ++ [ "--storage.tsdb.retention.time="
              +:+ p_Retention (Prometheus (Spec monitorStack)) ]
  else args.

Definition buildGrafanaEnv (monitorStack : MonitorStack) : list EnvVar :=
  [ {| ev_Name := "GF_SECURITY_ADMIN_PASSWORD";
       ev_Value := g_AdminPassword (Grafana (Spec monitorStack)) |};
    {| ev_Name := "GF_USERS_ALLOW_SIGN_UP"; ev_Value := "false" |};
    {| ev_Name := "GF_PATHS_DATA"; ev_Value := "/var/lib/grafana" |};
    {| ev_Name := "GF_PATHS_LOGS"; ev_Value := "/var/log/grafana" |};
    {| ev_Name := "GF_PATHS_PLUGINS"; ev_Value := "/var/lib/grafana/plugins" |};
    {| ev_Name := "GF_PATHS_PROVISIONING"; ev_Value := "/etc/grafana/provisioning" |} ].

(** [Containers[0].VolumeMounts = append(..., mount)] and
    [Volumes = append(..., volume)] on the deployment's pod template. *)
Definition appendVolume (deployment : Deployment) (mount : VolumeMount) (volume : Volume)
  : Res Deployment :=
  let pod := d_TemplateSpec (dep_Spec deployment) in
  match ps_Containers pod with
  | [] => Panic "index out of range [0] with length 0"
  | c :: rest =>
      Val {| dep_Meta := dep_Meta deployment;
             dep_Spec :=
               {| d_Replicas := d_Replicas (dep_Spec deployment);
                  d_MatchLabels := d_MatchLabels (dep_Spec deployment);
                  d_TemplateLabels := d_TemplateLabels (dep_Spec deployment);
                  d_TemplateSpec :=
                    {| ps_SecurityContext := ps_SecurityContext pod;
                       ps_Containers :=
                         {| c_Name := c_Name c; c_Image := c_Image c;
                            c_Ports := c_Ports c; c_Args := c_Args c;
                            c_Env := c_Env c;
                            c_VolumeMounts := c_VolumeMounts c ++ [mount];
                            c_Resources := c_Resources c;
                            c_LivenessProbe := c_LivenessProbe c;
                            c_ReadinessProbe := c_ReadinessProbe c |} :: rest;
                       ps_Volumes := ps_Volumes pod ++ [volume] |} |};
             dep_Status := dep_Status deployment |}
  end.

Definition addPrometheusDataVolume (deployment : Deployment) (monitorStack : MonitorStack)
  : Res Deployment :=
  let dataVolumeMount :=
    {| vm_Name := "data"; vm_MountPath := "/prometheus"; vm_ReadOnly := false |} in
  let dataVolume :=
    if nonEmpty (st_Size (p_Storage (Prometheus (Spec monitorStack)))) then
      {| v_Name := "data";
         v_VolumeSource :=
           PersistentVolumeClaimVolumeSource (getPrometheusPVCName monitorStack) |}
    else
      {| v_Name := "data"; v_VolumeSource := EmptyDirVolumeSource |} in
  appendVolume deployment dataVolumeMount dataVolume.

Definition httpProbe (path : string) (port initialDelay period timeout : Z) : Probe :=
  {| pr_Path := path; pr_Port := port; pr_InitialDelaySeconds := initialDelay;
     pr_PeriodSeconds := period; pr_TimeoutSeconds := timeout;
     pr_FailureThreshold := 3 |}.

Definition zeroDeploymentStatus : DeploymentStatus :=
  {| dst_Replicas := 0; dst_ReadyReplicas := 0 |}.

Definition buildPrometheusDeployment (monitorStack : MonitorStack) : Res Deployment :=
  let labels := getLabels monitorStack "prometheus" in
  let replicas := 1 in
  do resources <- buildResourceRequirements (p_Resources (Prometheus (Spec monitorStack)));
  let deployment :=
    {| dep_Meta :=
         {| om_Name := getPrometheusName monitorStack;
            om_Namespace := Namespace monitorStack;
            om_Labels := labels; om_OwnerReferences := [] |};
       dep_Spec :=
         {| d_Replicas := replicas;
            d_MatchLabels := labels;
            d_TemplateLabels := labels;
            d_TemplateSpec :=
              {| ps_SecurityContext :=
                   Some {| sc_RunAsNonRoot := true; sc_RunAsUser := 65534;
                           sc_FSGroup := 65534 |};
                 ps_Containers :=
                   [ {| c_Name := "prometheus";
                        c_Image := p_Image (Prometheus (Spec monitorStack)) +:+ ":"
                                   +:+ p_Tag (Prometheus (Spec monitorStack));
                        c_Ports := [ {| cp_Name := "web"; cp_ContainerPort := 9090;
                                        cp_Protocol := "TCP" |} ];
                        c_Args := buildPrometheusArgs monitorStack;
                        c_Env := [];
                        c_VolumeMounts :=
                          [ {| vm_Name := "config"; vm_MountPath := "/etc/prometheus";
                               vm_ReadOnly := true |} ];
                        c_Resources := resources;
                        c_LivenessProbe := Some (httpProbe "/-/healthy" 9090 30 10 5);
                        c_ReadinessProbe := Some (httpProbe "/-/ready" 9090 5 5 3) |} ];
                 ps_Volumes :=
                   [ {| v_Name := "config";
                        v_VolumeSource :=
                          ConfigMapVolumeSource (getPrometheusConfigMapName monitorStack) |} ]
              |} |};
       dep_Status := zeroDeploymentStatus |} in
  addPrometheusDataVolume deployment monitorStack.

Definition addGrafanaDatasourceVolume (deployment : Deployment) (monitorStack : MonitorStack)
  : Res Deployment :=
  appendVolume deployment
    {| vm_Name := "datasources";
       vm_MountPath := "/etc/grafana/provisioning/datasources";
       vm_ReadOnly := true |}
    {| v_Name := "datasources";
       v_VolumeSource :=
         ConfigMapVolumeSource (getGrafanaDatasourcesConfigMapName monitorStack) |}.

Definition buildGrafanaDeployment (monitorStack : MonitorStack) : Res Deployment :=
  let labels := getLabels monitorStack "grafana" in
  let replicas := 1 in
  do resources <- buildResourceRequirements (g_Resources (Grafana (Spec monitorStack)));
  let deployment :=
    {| dep_Meta :=
         {| om_Name := getGrafanaName monitorStack;
            om_Namespace := Namespace monitorStack;
            om_Labels := labels; om_OwnerReferences := [] |};
       dep_Spec :=
         {| d_Replicas := replicas;
            d_MatchLabels := labels;
            d_TemplateLabels := labels;
            d_TemplateSpec :=
              {| ps_SecurityContext :=
                   Some {| sc_RunAsNonRoot := true; sc_RunAsUser := 472;
                           sc_FSGroup := 472 |};
                 ps_Containers :=
                   [ {| c_Name := "grafana";
                        c_Image := g_Image (Grafana (Spec monitorStack)) +:+ ":"
                                   +:+ g_Tag (Grafana (Spec monitorStack));
                        c_Ports := [ {| cp_Name := "grafana"; cp_ContainerPort := 3000;
                                        cp_Protocol := "TCP" |} ];
                        c_Args := [];
                        c_Env := buildGrafanaEnv monitorStack;
                        c_VolumeMounts :=
                          [ {| vm_Name := "grafana-storage";
                               vm_MountPath := "/var/lib/grafana";
                               vm_ReadOnly := false |} ];
                        c_Resources := resources;
                        c_LivenessProbe := Some (httpProbe "/api/health" 3000 30 10 5);
                        c_ReadinessProbe := Some (httpProbe "/api/health" 3000 5 5 3) |} ];
                 ps_Volumes :=
                   [ {| v_Name := "grafana-storage";
                        v_VolumeSource := EmptyDirVolumeSource |} ] |} |};
       dep_Status := zeroDeploymentStatus |} in
  if (0 <? Z.of_nat (List.length (g_Datasources (Grafana (Spec monitorStack))))) then
    addGrafanaDatasourceVolume deployment monitorStack
  else Val deployment.

(** The service of a component.  The map [labels] is shared by the metadata
    and the selector, so the loop that merges the user's service labels into
    [service.Labels] changes the selector as well. *)
Definition buildService (name namespace portName : string) (targetPort : Z)
  (labels : gmap string string) (service : ServiceSpec) : Service :=
  let nodePort :=
    if (svc_Type service =? "NodePort")%string && (svc_NodePort service >? 0)
    then svc_NodePort service else 0 in
  let labels := svc_Labels service ∪ labels in
  {| s_Meta := {| om_Name := name; om_Namespace := namespace;
                  om_Labels := labels; om_OwnerReferences := [] |};
     s_Spec := {| ss_Type := svc_Type service;
                  ss_Selector := labels;
                  ss_Ports := [ {| sp_Name := portName; sp_Port := svc_Port service;
                                   sp_TargetPort := targetPort; sp_Protocol := "TCP";
                                   sp_NodePort := nodePort |} ] |} |}.

Definition buildPrometheusService (monitorStack : MonitorStack) : Service :=
  buildService (getPrometheusServiceName monitorStack) (Namespace monitorStack)
    "web" 9090 (getLabels monitorStack "prometheus")
    (p_Service (Prometheus (Spec monitorStack))).

Definition buildGrafanaService (monitorStack : MonitorStack) : Service :=
  buildService (getGrafanaServiceName monitorStack) (Namespace monitorStack)
    "grafana" 3000 (getLabels monitorStack "grafana")
    (g_Service (Grafana (Spec monitorStack))).

(** *** monitorstack_controller.go: converging the children *)

Definition withMeta_ConfigMap (configMap : ConfigMap) (meta : ObjectMeta) : ConfigMap :=
  {| cm_Meta := meta; cm_Data := cm_Data configMap |}.

Definition withMeta_PVC (pvc : PersistentVolumeClaim) (meta : ObjectMeta)
  : PersistentVolumeClaim :=
  {| pvc_Meta := meta; pvc_AccessModes := pvc_AccessModes pvc;
     pvc_Requests := pvc_Requests pvc;
     pvc_StorageClassName := pvc_StorageClassName pvc |}.

Definition withMeta_Deployment (deployment : Deployment) (meta : ObjectMeta) : Deployment :=
  {| dep_Meta := meta; dep_Spec := dep_Spec deployment;
     dep_Status := dep_Status deployment |}.

Definition withMeta_Service (service : Service) (meta : ObjectMeta) : Service :=
  {| s_Meta := meta; s_Spec := s_Spec service |}.

Definition withLabels (meta : ObjectMeta) (labels : gmap string string) : ObjectMeta :=
  {| om_Name := om_Name meta; om_Namespace := om_Namespace meta;
     om_Labels := labels; om_OwnerReferences := om_OwnerReferences meta |}.

(** The tail shared by [createPrometheusConfigMap] and
    [createGrafanaDatasourcesConfigMap]: get; create when not found; else
    overwrite the data of the existing object and update it. *)
Definition applyConfigMap (monitorStack : MonitorStack) (configMap : ConfigMap)
  : M (option error) :=
  match SetControllerReference monitorStack (cm_Meta configMap) with
  | inl err => ret (Some err)
  | inr meta =>
      let configMap := withMeta_ConfigMap configMap meta in
      let* got := Get (keyOf configMap) in
      match got with
      | inl err => if IsNotFound err then Create configMap else ret (Some err)
      | inr existing =>
          Update {| cm_Meta := cm_Meta existing; cm_Data := cm_Data configMap |}
      end
  end.

Definition createPrometheusConfigMap (monitorStack : MonitorStack) : M (option error) :=
  applyConfigMap monitorStack
    {| cm_Meta := {| om_Name := getPrometheusConfigMapName monitorStack;
                     om_Namespace := Namespace monitorStack;
                     om_Labels := getLabels monitorStack "prometheus";
                     om_OwnerReferences := [] |};
       cm_Data := {[ "prometheus.yml" := getPrometheusConfig monitorStack ]} |}.

Definition createGrafanaDatasourcesConfigMap (monitorStack : MonitorStack)
  : M (option error) :=
  applyConfigMap monitorStack
    {| cm_Meta := {| om_Name := getGrafanaDatasourcesConfigMapName monitorStack;
                     om_Namespace := Namespace monitorStack;
                     om_Labels := getLabels monitorStack "grafana";
                     om_OwnerReferences := [] |};
       cm_Data := {[ "datasources.yaml" := buildGrafanaDatasourcesConfig monitorStack ]} |}.

Definition createPrometheusPVC (monitorStack : MonitorStack) : M (option error) :=
  let* size := lift (MustParse (st_Size (p_Storage (Prometheus (Spec monitorStack))))) in
  let pvc :=
    {| pvc_Meta := {| om_Name := getPrometheusPVCName monitorStack;
                      om_Namespace := Namespace monitorStack;
                      om_Labels := getLabels monitorStack "prometheus";
                      om_OwnerReferences := [] |};
       pvc_AccessModes := [ "ReadWriteOnce" ];
       pvc_Requests := {[ "storage" := size ]};
       pvc_StorageClassName :=
         if nonEmpty (st_StorageClass (p_Storage (Prometheus (Spec monitorStack))))
         then Some (st_StorageClass (p_Storage (Prometheus (Spec monitorStack))))
         else None |} in
  match SetControllerReference monitorStack (pvc_Meta pvc) with
  | inl err => ret (Some err)
  | inr meta =>
      let pvc := withMeta_PVC pvc meta in
      let* got := Get (T := PersistentVolumeClaim) (keyOf pvc) in
      match got with
      | inl err => if IsNotFound err then Create pvc else ret (Some err)
      | inr existing => ret None
      end
  end.

(** The tail shared by [createPrometheusDeployment] and
    [createGrafanaDeployment]: the spec and the labels of the existing
    object are overwritten. *)
Definition applyDeployment (monitorStack : MonitorStack) (deployment : Deployment)
  : M (option error) :=
  match SetControllerReference monitorStack (dep_Meta deployment) with
  | inl err => ret (Some err)
  | inr meta =>
      let deployment := withMeta_Deployment deployment meta in
      let* got := Get (keyOf deployment) in
      match got with
      | inl err => if IsNotFound err then Create deployment else ret (Some err)
      | inr existing =>
          Update {| dep_Meta := withLabels (dep_Meta existing) (om_Labels (dep_Meta deployment));
                    dep_Spec := dep_Spec deployment;
                    dep_Status := dep_Status existing |}
      end
  end.

Definition createPrometheusDeployment (monitorStack : MonitorStack) : M (option error) :=
  let* deployment := lift (buildPrometheusDeployment monitorStack) in
  applyDeployment monitorStack deployment.

Definition createGrafanaDeployment (monitorStack : MonitorStack) : M (option error) :=
  let* deployment := lift (buildGrafanaDeployment monitorStack) in
  applyDeployment monitorStack deployment.

(** The tail shared by [createPrometheusService] and [createGrafanaService]:
    the ports, the type and the labels of the existing object are
    overwritten (the node port is that of the built port list already). *)
Definition applyService (monitorStack : MonitorStack) (service : Service)
  : M (option error) :=
  match SetControllerReference monitorStack (s_Meta service) with
  | inl err => ret (Some err)
  | inr meta =>
      let service := withMeta_Service service meta in
      let* got := Get (keyOf service) in
      match got with
      | inl err => if IsNotFound err then Create service else ret (Some err)
      | inr existing =>
          Update {| s_Meta := withLabels (s_Meta existing) (om_Labels (s_Meta service));
                    s_Spec := {| ss_Type := ss_Type (s_Spec service);
                                 ss_Selector := ss_Selector (s_Spec existing);
                                 ss_Ports := ss_Ports (s_Spec service) |} |}
      end
  end.

Definition createPrometheusService (monitorStack : MonitorStack) : M (option error) :=
  applyService monitorStack (buildPrometheusService monitorStack).

Definition createGrafanaService (monitorStack : MonitorStack) : M (option error) :=
  applyService monitorStack (buildGrafanaService monitorStack).

(** *** Component status *)

Definition withPrometheusStatus (monitorStack : MonitorStack) (status : ComponentStatus)
  : MonitorStack :=
  withStatus monitorStack
    {| Phase := Phase (Status monitorStack); Message := Message (Status monitorStack);
       PrometheusStatus := status;
       GrafanaStatus := GrafanaStatus (Status monitorStack);
       LastUpdated := LastUpdated (Status monitorStack) |}.

Definition withGrafanaStatus (monitorStack : MonitorStack) (status : ComponentStatus)
  : MonitorStack :=
  withStatus monitorStack
    {| Phase := Phase (Status monitorStack); Message := Message (Status monitorStack);
       PrometheusStatus := PrometheusStatus (Status monitorStack);
       GrafanaStatus := status;
       LastUpdated := LastUpdated (Status monitorStack) |}.

(** The status assignments at the end of [reconcilePrometheus] and
    [reconcileGrafana]: [Ready] and [Replicas] are always written, the
    message is "Ready" or "Not Ready", and the endpoint is written in the
    ready branch only. *)
Definition observeDeployment (status : ComponentStatus) (deployment : Deployment)
  (serviceName : string) (port : Z) : ComponentStatus :=
  {| cs_Ready := dst_ReadyReplicas (dep_Status deployment) >? 0;
     cs_Replicas := dst_Replicas (dep_Status deployment);
     cs_Message := if dst_ReadyReplicas (dep_Status deployment) >? 0
                   then "Ready" else "Not Ready";
     cs_Endpoint := if dst_ReadyReplicas (dep_Status deployment) >? 0
                    then "http://" +:+ serviceName +:+ ":" +:+ pretty port
                    else cs_Endpoint status |}.

Definition reconcilePrometheus (monitorStack : MonitorStack)
  : M (MonitorStack * option error) :=
  let* err := createPrometheusConfigMap monitorStack in
  match err with
  | Some err =>
      ret (monitorStack, Some (wrapError "failed to create Prometheus ConfigMap" err))
  | None =>
  let* err := (if nonEmpty (st_Size (p_Storage (Prometheus (Spec monitorStack))))
               then createPrometheusPVC monitorStack else ret None) in
  match err with
  | Some err =>
      ret (monitorStack, Some (wrapError "failed to create Prometheus PVC" err))
  | None =>
  let* err := createPrometheusDeployment monitorStack in
  match err with
  | Some err =>
      ret (monitorStack, Some (wrapError "failed to create Prometheus Deployment" err))
  | None =>
  let* err := createPrometheusService monitorStack in
  match err with
  | Some err =>
      ret (monitorStack, Some (wrapError "failed to create Prometheus Service" err))
  | None =>
  let* got := Get (T := Deployment)
                (Namespace monitorStack, getPrometheusName monitorStack) in
  match got with
  | inl err => ret (monitorStack, Some err)
  | inr deployment =>
      ret (withPrometheusStatus monitorStack
             (observeDeployment (PrometheusStatus (Status monitorStack)) deployment
                (getPrometheusServiceName monitorStack)
                (svc_Port (p_Service (Prometheus (Spec monitorStack))))),
           None)
  end end end end end.

Definition reconcileGrafana (monitorStack : MonitorStack)
  : M (MonitorStack * option error) :=
  let* err := (if 0 <? Z.of_nat (List.length (g_Datasources (Grafana (Spec monitorStack))))
               then createGrafanaDatasourcesConfigMap monitorStack else ret None) in
  match err with
  | Some err =>
      ret (monitorStack,
           Some (wrapError "failed to create Grafana datasources ConfigMap" err))
  | None =>
  let* err := createGrafanaDeployment monitorStack in
  match err with
  | Some err =>
      ret (monitorStack, Some (wrapError "failed to create Grafana Deployment" err))
  | None =>
  let* err := createGrafanaService monitorStack in
  match err with
  | Some err =>
      ret (monitorStack, Some (wrapError "failed to create Grafana Service" err))
  | None =>
  let* got := Get (T := Deployment)
                (Namespace monitorStack, getGrafanaName monitorStack) in
  match got with
  | inl err => ret (monitorStack, Some err)
  | inr deployment =>
      ret (withGrafanaStatus monitorStack
             (observeDeployment (GrafanaStatus (Status monitorStack)) deployment
                (getGrafanaServiceName monitorStack)
                (svc_Port (g_Service (Grafana (Spec monitorStack))))),
           None)
  end end end end.

(** *** monitorstack_controller.go: cleanup, status and the reconciler *)

(** [if err == nil { r.Delete(ctx, obj) }]: the result of [Delete] is dropped. *)
Definition deleteIfFound `{Object T} (got : error + T) : M unit :=
  match got with
  | inr obj => let* _ := Delete obj in ret tt
  | inl _ => ret tt
  end.

Definition cleanupPrometheusResources (monitorStack : MonitorStack) : M (option error) :=
  let* deployment := Get (T := Deployment)
                       (Namespace monitorStack, getPrometheusName monitorStack) in
  let* _ := deleteIfFound deployment in
  let* service := Get (T := Service)
                    (Namespace monitorStack, getPrometheusServiceName monitorStack) in
  let* _ := deleteIfFound service in
  let* configMap := Get (T := ConfigMap)
                      (Namespace monitorStack, getPrometheusConfigMapName monitorStack) in
  let* _ := deleteIfFound configMap in
  ret None.

Definition cleanupGrafanaResources (monitorStack : MonitorStack) : M (option error) :=
  let* deployment := Get (T := Deployment)
                       (Namespace monitorStack, getGrafanaName monitorStack) in
  let* _ := deleteIfFound deployment in
  let* service := Get (T := Service)
                    (Namespace monitorStack, getGrafanaServiceName monitorStack) in
  let* _ := deleteIfFound service in
  ret None.

Definition setPhase (monitorStack : MonitorStack) (phase message : string)
  (lastUpdated : Time) : MonitorStack :=
  withStatus monitorStack
    {| Phase := phase; Message := message;
       PrometheusStatus := PrometheusStatus (Status monitorStack);
       GrafanaStatus := GrafanaStatus (Status monitorStack);
       LastUpdated := lastUpdated |}.

(** [updateStatus] returns nothing: the result of the status write is dropped. *)
Definition updateStatus (monitorStack : MonitorStack) (phase message : string)
  : M MonitorStack :=
  let* t := Now in
  let monitorStack := setPhase monitorStack phase message t in
  let* _ := StatusUpdate monitorStack in
  ret monitorStack.

Definition updateOverallStatus (monitorStack : MonitorStack)
  : M (MonitorStack * option error) :=
  let prometheusReady :=
    negb (p_Enabled (Prometheus (Spec monitorStack)))
    || cs_Ready (PrometheusStatus (Status monitorStack)) in
  let grafanaReady :=
    negb (g_Enabled (Grafana (Spec monitorStack)))
    || cs_Ready (GrafanaStatus (Status monitorStack)) in
  let* t := Now in
  let monitorStack :=
    if prometheusReady && grafanaReady
    then setPhase monitorStack "Ready" "All enabled components are ready" t
    else setPhase monitorStack "Pending" "Waiting for components to be ready" t in
  let* err := StatusUpdate monitorStack in
  ret (monitorStack, err).

(** [ctrl.Result]; durations are nanoseconds. *)
Record Result := mkResult {
  Requeue : bool;
  RequeueAfter : Z }.

Definition Second : Z := 1000000000.
Definition Minute : Z := 60 * Second.

Definition noRequeue : Result := {| Requeue := false; RequeueAfter := 0 |}.
Definition requeueAfter (d : Z) : Result := {| Requeue := false; RequeueAfter := d |}.

Definition handleDeletion (monitorStack : MonitorStack) : M (Result * option error) :=
  let* err := cleanupPrometheusResources monitorStack in
  match err with
  | Some err => ret (requeueAfter (Second * 30), Some err)
  | None =>
  let* err := cleanupGrafanaResources monitorStack in
  match err with
  | Some err => ret (requeueAfter (Second * 30), Some err)
  | None =>
  let monitorStack := RemoveFinalizer monitorStack finalizerName in
  let* err := UpdateMonitorStack monitorStack in
  ret (noRequeue, err)
  end end.

(** Step 4 of [Reconcile]: an empty phase becomes "Pending". *)
Definition initStatus (monitorStack : MonitorStack) : M (MonitorStack * option error) :=
  if (Phase (Status monitorStack) =? "")%string then
    let* t := Now in
    let monitorStack := setPhase monitorStack "Pending" "Initializing MonitorStack" t in
    let* err := StatusUpdate monitorStack in
    ret (monitorStack, err)
  else ret (monitorStack, None).

(** [Reconcile] after the fetch: steps 2 to 7 on the fetched object. *)
Definition reconcileStack (monitorStack : MonitorStack) : M (Result * option error) :=
  (* step 2: deletion *)
  match DeletionTimestamp monitorStack with
  | Some _ => handleDeletion monitorStack
  | None =>
  (* step 3: finalizer *)
  if negb (ContainsFinalizer monitorStack finalizerName) then
    let monitorStack := AddFinalizer monitorStack finalizerName in
    let* err := UpdateMonitorStack monitorStack in
    ret (noRequeue, err)
  else
  (* step 4: initial status *)
  let* (monitorStack, err) := initStatus monitorStack in
  match err with
  | Some err => ret (noRequeue, Some err)
  | None =>
  (* step 5: Prometheus *)
  let* (monitorStack, err) :=
    (if p_Enabled (Prometheus (Spec monitorStack)) then reconcilePrometheus monitorStack
     else let* _ := cleanupPrometheusResources monitorStack in
          ret (monitorStack, None)) in
  match err with
  | Some err =>
      let* _ := updateStatus monitorStack "Failed"
                  ("Prometheus reconciliation failed: " +:+ Error err) in
      ret (requeueAfter Minute, Some err)
  | None =>
  (* step 6: Grafana *)
  let* (monitorStack, err) :=
    (if g_Enabled (Grafana (Spec monitorStack)) then reconcileGrafana monitorStack
     else let* _ := cleanupGrafanaResources monitorStack in
          ret (monitorStack, None)) in
  match err with
  | Some err =>
      let* _ := updateStatus monitorStack "Failed"
                  ("Grafana reconciliation failed: " +:+ Error err) in
      ret (requeueAfter Minute, Some err)
  | None =>
  (* step 7: overall status *)
  let* (monitorStack, err) := updateOverallStatus monitorStack in
  match err with
  | Some err => ret (noRequeue, Some err)
  | None => ret (requeueAfter (Minute * 5), None)
  end end end end end.

Definition Reconcile (req : NamespacedName) : M (Result * option error) :=
  (* step 1: fetch *)
  let* got := GetMonitorStack req in
  match got with
  | inl err => if IsNotFound err then ret (noRequeue, None)
               else ret (noRequeue, Some err)
  | inr monitorStack => reconcileStack monitorStack
  end.

(** ** What the properties speak of *)

(** The conditions under which validation rejects a service, a collector
    and a dashboard. *)
Definition portOutOfRange (service : ServiceSpec) : Prop :=
  svc_Port service < 1 \/ svc_Port service > 65535.

Definition nodePortOutOfRange (service : ServiceSpec) : Prop :=
  svc_Type service = "NodePort" /\ svc_NodePort service > 0
  /\ (svc_NodePort service < 30000 \/ svc_NodePort service > 32767).

(** The same with "explicitly set" read as "non-zero". *)
Definition nonZeroNodePortOutOfRange (service : ServiceSpec) : Prop :=
  svc_Type service = "NodePort" /\ svc_NodePort service <> 0
  /\ (svc_NodePort service < 30000 \/ svc_NodePort service > 32767).

Definition datasourceIncomplete (ds : DatasourceSpec) : Prop :=
  ds_Name ds = "" \/ ds_Type ds = "" \/ ds_URL ds = "".

Definition prometheusInvalid (monitorStack : MonitorStack) : Prop :=
  let prometheus := Prometheus (Spec monitorStack) in
  portOutOfRange (p_Service prometheus)
  \/ nodePortOutOfRange (p_Service prometheus)
  \/ p_Image prometheus = "" \/ p_Tag prometheus = "".

Definition grafanaInvalid (monitorStack : MonitorStack) : Prop :=
  let grafana := Grafana (Spec monitorStack) in
  portOutOfRange (g_Service grafana)
  \/ nodePortOutOfRange (g_Service grafana)
  \/ g_Image grafana = "" \/ g_Tag grafana = ""
  \/ g_AdminPassword grafana = ""
  \/ Exists datasourceIncomplete (g_Datasources grafana).

Definition bothDisabled (monitorStack : MonitorStack) : Prop :=
  p_Enabled (Prometheus (Spec monitorStack)) = false
  /\ g_Enabled (Grafana (Spec monitorStack)) = false.

(** A collector exposed on a node port with a negative port number. *)
Definition stackNegativeNodePort : MonitorStack :=
  newStack "acme" "monitoring"
    {| p_Enabled := true; p_Image := "prom/prometheus"; p_Tag := "latest";
       p_Resources := zeroResources;
       p_Storage := {| st_Size := ""; st_StorageClass := "" |};
       p_Service := {| svc_Type := "NodePort"; svc_Port := 9090;
                       svc_NodePort := -1; svc_Labels := ∅ |};
       p_Config := ""; p_Retention := "15d" |}
    zeroGrafana.








Definition stackNamed (name : string) : MonitorStack :=
  newStack name "monitoring" zeroPrometheus zeroGrafana.

(** The last three characters of a string, last first. *)
Definition ending (s : string) : list ascii :=
  take 3 (reverse (list_ascii_of_string s)).

(** The aggregator's readiness condition: each subsystem is disabled or
    its component status is ready. *)
Definition allEnabledReady (monitorStack : MonitorStack) : Prop :=
  (p_Enabled (Prometheus (Spec monitorStack)) = false
   \/ cs_Ready (PrometheusStatus (Status monitorStack)) = true)
  /\ (g_Enabled (Grafana (Spec monitorStack)) = false
      \/ cs_Ready (GrafanaStatus (Status monitorStack)) = true).

(** The status the API server holds for a stack. *)
Definition storedStatus (w : World) (key : NamespacedName) : option MonitorStackStatus :=
  Status <$> monitorStacks w !! key.

(** ** Relations between the cluster before and after a computation *)

(** Whether [m] returns or panics, it leaves the cluster related by [R] to
    the one it started in. *)
Definition preserves {A : Type} (R : World -> World -> Prop) (m : M A) : Prop :=
  forall w, R w (m w).2.

(** [m] always returns, its result satisfies [Q], and it leaves the cluster
    related by [R] to the one it started in. *)
Definition returns {A : Type} (R : World -> World -> Prop) (Q : A -> Prop) (m : M A)
  : Prop :=
  forall w, exists a w', m w = (Val a, w') /\ R w w' /\ Q a.

(** [after] is [before] with another status. *)
Definition sameButStatus (before after : MonitorStack) : Prop :=
  after = withStatus before (Status after).

(** The log grew by requests that all satisfy [P]. *)
Definition logs (P : Request -> Prop) (w w' : World) : Prop :=
  exists new, requests w' = (new ++ requests w)%list /\ Forall P new.

(** On a durable-storage claim the engine may only get and create. *)
Definition claimRequestAllowed (r : Request) : Prop :=
  rq_Kind r = KindPersistentVolumeClaim ->
  rq_Verb r = VerbGet \/ rq_Verb r = VerbCreate.

(** Every claim of [w] is in [w'], with every field as it was. *)
Definition claimsKept (w w' : World) : Prop :=
  forall key pvc,
    persistentVolumeClaims w !! key = Some pvc ->
    persistentVolumeClaims w' !! key = Some pvc.

Definition controlledBy (owner : MonitorStack) (meta : ObjectMeta) : Prop :=
  controllerRef owner ∈ om_OwnerReferences meta.

(** A claim of [w'] that was not in [w] carries the ownership link. *)
Definition newClaimsOwned (owner : MonitorStack) (w w' : World) : Prop :=
  forall key pvc,
    persistentVolumeClaims w' !! key = Some pvc ->
    persistentVolumeClaims w !! key = Some pvc \/ controlledBy owner (pvc_Meta pvc).

Definition claimFrame (owner : MonitorStack) (w w' : World) : Prop :=
  logs claimRequestAllowed w w' /\ claimsKept w w' /\ newClaimsOwned owner w w'.

(** Nothing but the log differs. *)
Definition sameStores (w w' : World) : Prop :=
  monitorStacks w' = monitorStacks w /\ configMaps w' = configMaps w
  /\ persistentVolumeClaims w' = persistentVolumeClaims w
  /\ deployments w' = deployments w /\ services w' = services w
  /\ now w' = now w /\ faults w' = faults w.

(** The claims are exactly those of [w]. *)
Definition claimsSame (w w' : World) : Prop :=
  persistentVolumeClaims w' = persistentVolumeClaims w.

(** The durable-storage claim of a stack, and the two requests the engine
    can issue on it. *)
Definition claimKey (monitorStack : MonitorStack) : NamespacedName :=
  (Namespace monitorStack, getPrometheusPVCName monitorStack).

Definition getClaim (monitorStack : MonitorStack) : Request :=
  {| rq_Verb := VerbGet; rq_Kind := KindPersistentVolumeClaim;
     rq_Key := claimKey monitorStack |}.

Definition createClaim (monitorStack : MonitorStack) : Request :=
  {| rq_Verb := VerbCreate; rq_Kind := KindPersistentVolumeClaim;
     rq_Key := claimKey monitorStack |}.


(** On a child resource, only gets and deletes. *)
Definition childReadOrDelete (r : Request) : Prop :=
  rq_Kind r <> KindMonitorStack -> rq_Verb r = VerbGet \/ rq_Verb r = VerbDelete.

(** The stored status of the stack is as it was, or it was written with
    phase "Pending" or "Ready". *)
Definition statusKeptOrProgress (req : NamespacedName) (w w' : World) : Prop :=
  storedStatus w' req = storedStatus w req
  \/ exists status, storedStatus w' req = Some status
                    /\ (Phase status = "Pending" \/ Phase status = "Ready").

Definition quietRun (req : NamespacedName) (w w' : World) : Prop :=
  logs childReadOrDelete w w' /\ statusKeptOrProgress req w w'.

(** ** Scenarios

    A cluster holding one stack and nothing else, the steps other actors
    take between reconciliations (the deployment controller reporting
    replicas, the user editing the spec or deleting the stack, the API
    failing one request), and the stacks the examples use. *)

Definition clusterWith (monitorStack : MonitorStack) : World :=
  {| monitorStacks := {[ stackKey monitorStack := monitorStack ]};
     configMaps := ∅; persistentVolumeClaims := ∅; deployments := ∅; services := ∅;
     now := 1000; faults := fun _ => None; requests := [] |}.

(** The deployment controller reports [n] replicas, all ready. *)
Definition reportReplicas (key : NamespacedName) (n : Z) (w : World) : World :=
  {| monitorStacks := monitorStacks w; configMaps := configMaps w;
     persistentVolumeClaims := persistentVolumeClaims w;
     deployments :=
       alter (fun d => {| dep_Meta := dep_Meta d; dep_Spec := dep_Spec d;
                          dep_Status := {| dst_Replicas := n;
                                           dst_ReadyReplicas := n |} |})
         key (deployments w);
     services := services w; now := now w + 60; faults := faults w;
     requests := requests w |}.

(** The user replaces the spec of the stack. *)
Definition editSpec (key : NamespacedName) (edit : MonitorStackSpec -> MonitorStackSpec)
  (w : World) : World :=
  setMonitorStacks (alter (fun s => withSpec s (edit (Spec s))) key (monitorStacks w)) w.

(** The user deletes the stack: the API server records the deletion time. *)
Definition markDeleted (key : NamespacedName) (w : World) : World :=
  setMonitorStacks
    (alter (fun s => {| Name := Name s; Namespace := Namespace s; UID := UID s;
                        DeletionTimestamp := Some (now w);
                        Finalizers := Finalizers s;
                        Spec := Spec s; Status := Status s |})
       key (monitorStacks w)) w.

(** The API server fails the [n]-th request from now on, and no other. *)
Definition failRequest (n : nat) (w : World) : World :=
  {| monitorStacks := monitorStacks w; configMaps := configMaps w;
     persistentVolumeClaims := persistentVolumeClaims w;
     deployments := deployments w; services := services w;
     now := now w;
     faults := fun i => if (i =? List.length (requests w) + n)%nat
                        then Some "internal error" else None;
     requests := requests w |}.

Definition acmeKey : NamespacedName := ("monitoring", "acme").

Definition withStorage (size : string) (prometheus : PrometheusSpec) : PrometheusSpec :=
  {| p_Enabled := p_Enabled prometheus; p_Image := p_Image prometheus;
     p_Tag := p_Tag prometheus; p_Resources := p_Resources prometheus;
     p_Storage := {| st_Size := size; st_StorageClass := "" |};
     p_Service := p_Service prometheus; p_Config := p_Config prometheus;
     p_Retention := p_Retention prometheus |}.

Definition enableGrafana (grafana : GrafanaSpec) : GrafanaSpec :=
  {| g_Enabled := true; g_Image := g_Image grafana; g_Tag := g_Tag grafana;
     g_Resources := g_Resources grafana; g_Service := g_Service grafana;
     g_AdminPassword := g_AdminPassword grafana;
     g_Datasources := g_Datasources grafana;
     g_Dashboards := g_Dashboards grafana |}.

Definition disableGrafana (spec : MonitorStackSpec) : MonitorStackSpec :=
  {| Prometheus := Prometheus spec;
     Grafana :=
       {| g_Enabled := false; g_Image := g_Image (Grafana spec);
          g_Tag := g_Tag (Grafana spec); g_Resources := g_Resources (Grafana spec);
          g_Service := g_Service (Grafana spec);
          g_AdminPassword := g_AdminPassword (Grafana spec);
          g_Datasources := g_Datasources (Grafana spec);
          g_Dashboards := g_Dashboards (Grafana spec) |};
     spec_Namespace := spec_Namespace spec; spec_Labels := spec_Labels spec |}.

(** Both subsystems enabled, every defaulted field at its default, the
    collector on a 10Gi claim. *)
Definition acme : MonitorStack :=
  newStack "acme" "monitoring"
    (withStorage "10Gi" (setPrometheusDefaults (enablePrometheus zeroPrometheus)))
    (setGrafanaDefaults (enableGrafana zeroGrafana)).



(** A stand-in for the quantity syntax: a digit first. *)
Definition startsWithDigit (s : string) : bool :=
  match s with
  | String c _ => match Ascii.is_nat c with Some _ => true | None => false end
  | EmptyString => false
  end.

Definition sampleConfig : string := "global: {}".

(** One reconciliation of the stack [req]: the cluster it leaves. *)
Definition afterReconcile (req : NamespacedName) (w : World) : World :=
  (Reconcile req w).2.

(** [acme] reconciled until both workloads exist and report a ready replica
    and the status says so. *)
Definition acmeConverged : World :=
  afterReconcile acmeKey
    (reportReplicas ("monitoring", "acme-grafana") 1
       (reportReplicas ("monitoring", "acme-prometheus") 1
          (afterReconcile acmeKey (afterReconcile acmeKey (clusterWith acme))))).

(** ** A converged collector *)

Definition faultFree (w : World) : Prop := forall n, faults w n = None.

Definition prometheusKey (monitorStack : MonitorStack) : NamespacedName :=
  (Namespace monitorStack, getPrometheusName monitorStack).

Definition prometheusConfigKey (monitorStack : MonitorStack) : NamespacedName :=
  (Namespace monitorStack, getPrometheusConfigMapName monitorStack).

Definition grafanaKey (monitorStack : MonitorStack) : NamespacedName :=
  (Namespace monitorStack, getGrafanaName monitorStack).

(** The collector's children are what the builders give for the spec, and
    the component status is what the workload's status gives. *)
Definition prometheusChildrenConverged (monitorStack : MonitorStack) (w : World) : Prop :=
  exists built configMap deployment service,
    buildPrometheusDeployment monitorStack = Val built
    /\ configMaps w !! prometheusConfigKey monitorStack = Some configMap
    /\ keyOf configMap = prometheusConfigKey monitorStack
    /\ cm_Data configMap = {[ "prometheus.yml" := getPrometheusConfig monitorStack ]}
    /\ deployments w !! prometheusKey monitorStack = Some deployment
    /\ keyOf deployment = prometheusKey monitorStack
    /\ dep_Spec deployment = dep_Spec built
    /\ om_Labels (dep_Meta deployment) = om_Labels (dep_Meta built)
    /\ services w !! prometheusKey monitorStack = Some service
    /\ keyOf service = prometheusKey monitorStack
    /\ ss_Type (s_Spec service) = ss_Type (s_Spec (buildPrometheusService monitorStack))
    /\ ss_Ports (s_Spec service) = ss_Ports (s_Spec (buildPrometheusService monitorStack))
    /\ om_Labels (s_Meta service) = om_Labels (s_Meta (buildPrometheusService monitorStack))
    /\ (st_Size (p_Storage (Prometheus (Spec monitorStack))) <> "" ->
        quantityOK (st_Size (p_Storage (Prometheus (Spec monitorStack)))) = true
        /\ is_Some (persistentVolumeClaims w !! claimKey monitorStack))
    /\ PrometheusStatus (Status monitorStack)
       = observeDeployment (PrometheusStatus (Status monitorStack)) deployment
           (getPrometheusServiceName monitorStack)
           (svc_Port (p_Service (Prometheus (Spec monitorStack)))).

(** The collector has no child (it is disabled and was cleaned up). *)
Definition prometheusChildrenAbsent (monitorStack : MonitorStack) (w : World) : Prop :=
  deployments w !! prometheusKey monitorStack = None
  /\ services w !! prometheusKey monitorStack = None
  /\ configMaps w !! prometheusConfigKey monitorStack = None.

Definition collectorConverged (monitorStack : MonitorStack) (w : World) : Prop :=
  if p_Enabled (Prometheus (Spec monitorStack))
  then prometheusChildrenConverged monitorStack w
  else prometheusChildrenAbsent monitorStack w.

(** The dashboard's workload and endpoint exist, stored under their names. *)
Definition grafanaChildrenPresent (monitorStack : MonitorStack) (w : World) : Prop :=
  exists deployment service,
    deployments w !! grafanaKey monitorStack = Some deployment
    /\ keyOf deployment = grafanaKey monitorStack
    /\ services w !! grafanaKey monitorStack = Some service
    /\ keyOf service = grafanaKey monitorStack.

(** The stack stored under [key] (an empty one when there is none). *)
Definition storedStack (w : World) (key : NamespacedName) : MonitorStack :=
  default (stackNamed "") (monitorStacks w !! key).

(** [acmeConverged] after the user disables the dashboard. *)
Definition acmeGrafanaOff : World := editSpec acmeKey disableGrafana acmeConverged.

(** [acmeConverged] after the collector's workload lost its ready replica. *)
Definition acmeUnready : World :=
  reportReplicas ("monitoring", "acme-prometheus") 0 acmeConverged.

(** [acmeConverged] after the user deletes the stack, with the API failing
    the third request from then on: the fetch of the stack is the first, the
    get of the collector's workload the second, its delete the third. *)
Definition acmeDeleting : World := failRequest 2 (markDeleted acmeKey acmeConverged).

(** The zero values of the child resources, and the object stored under a
    key (the zero value when there is none). *)
Definition emptyMeta : ObjectMeta :=
  {| om_Name := ""; om_Namespace := ""; om_Labels := ∅; om_OwnerReferences := [] |}.

Definition emptyConfigMap : ConfigMap := {| cm_Meta := emptyMeta; cm_Data := ∅ |}.

Definition emptyDeployment : Deployment :=
  {| dep_Meta := emptyMeta;
     dep_Spec := {| d_Replicas := 0; d_MatchLabels := ∅; d_TemplateLabels := ∅;
                    d_TemplateSpec := {| ps_SecurityContext := None;
                                         ps_Containers := []; ps_Volumes := [] |} |};
     dep_Status := zeroDeploymentStatus |}.

Definition emptyService : Service :=
  {| s_Meta := emptyMeta;
     s_Spec := {| ss_Type := ""; ss_Selector := ∅; ss_Ports := [] |} |}.

Definition storedConfigMap (w : World) (key : NamespacedName) : ConfigMap :=
  default emptyConfigMap (configMaps w !! key).

Definition storedDeployment (w : World) (key : NamespacedName) : Deployment :=
  default emptyDeployment (deployments w !! key).

Definition storedService (w : World) (key : NamespacedName) : Service :=
  default emptyService (services w !! key).

Definition valueOr {A : Type} (a : A) (r : Res A) : A :=
  match r with
  | Val a' => a'
  | Panic _ => a
  end.

(** The identity labels of a component of a stack. *)
Definition identityLabels (monitorStack : MonitorStack) (component : string)
  : list (string * string) :=
  [ ("app.kubernetes.io/name", "monitor-operator");
    ("app.kubernetes.io/instance", Name monitorStack);
    ("app.kubernetes.io/component", component);
    ("app.kubernetes.io/managed-by", "monitor-operator");
    ("app.kubernetes.io/part-of", "monitoring-stack") ].

(** ** What the further properties speak of *)

(** The first empty field of a datasource, in the order validation looks at
    them. *)
Definition firstEmptyField (ds : DatasourceSpec) : option string :=
  if (ds_Name ds =? "")%string then Some "name"
  else if (ds_Type ds =? "")%string then Some "type"
  else if (ds_URL ds =? "")%string then Some "URL"
  else None.

(** Everything validation checks on a dashboard before its datasources. *)
Definition grafanaScalarsValid (monitorStack : MonitorStack) : Prop :=
  let grafana := Grafana (Spec monitorStack) in
  ~ portOutOfRange (g_Service grafana)
  /\ ~ nodePortOutOfRange (g_Service grafana)
  /\ g_Image grafana <> "" /\ g_Tag grafana <> ""
  /\ g_AdminPassword grafana <> "".

(** A port that defaulting repairs or validation accepts. *)
Definition portUnsetOrValid (service : ServiceSpec) : Prop :=
  svc_Port service = 0 \/ 1 <= svc_Port service <= 65535.

(** What validation can still reject once the defaults are set. *)
Definition rejectedAfterDefaults (monitorStack : MonitorStack) : Prop :=
  bothDisabled monitorStack
  \/ (p_Enabled (Prometheus (Spec monitorStack)) = true
      /\ (~ portUnsetOrValid (p_Service (Prometheus (Spec monitorStack)))
          \/ nodePortOutOfRange (p_Service (Prometheus (Spec monitorStack)))))
  \/ (g_Enabled (Grafana (Spec monitorStack)) = true
      /\ (~ portUnsetOrValid (g_Service (Grafana (Spec monitorStack)))
          \/ nodePortOutOfRange (g_Service (Grafana (Spec monitorStack)))
          \/ Exists datasourceIncomplete (g_Datasources (Grafana (Spec monitorStack))))).

(** One entry of the datasources file. *)
Definition datasourceEntry (ds : DatasourceSpec) (isDefault : bool) : string :=
  newline +:+ "  - name: " +:+ ds_Name ds
  +:+ newline +:+ "    type: " +:+ ds_Type ds
  +:+ newline +:+ "    url: " +:+ ds_URL ds
  +:+ newline +:+ "    access: proxy"
  +:+ newline +:+ "    isDefault: " +:+ formatBool isDefault.

(** A quantity string that is unset or parses. *)
Definition parses (s : string) : Prop := s <> "" -> quantityOK s = true.

Definition quantitiesParse (resources : ResourceRequirements) : Prop :=
  parses (rl_CPU (rr_Requests resources))
  /\ parses (rl_Memory (rr_Requests resources))
  /\ parses (rl_CPU (rr_Limits resources))
  /\ parses (rl_Memory (rr_Limits resources)).

(** The entry of a resource list under [key]: the cpu and memory strings
    that are set, and nothing else. *)
Definition resourceEntry (list : ResourceList) (key : string) : option Quantity :=
  if (key =? "cpu")%string then
    (if nonEmpty (rl_CPU list) then Some (rl_CPU list) else None)
  else if (key =? "memory")%string then
    (if nonEmpty (rl_Memory list) then Some (rl_Memory list) else None)
  else None.

(** A service port as validation wants it. *)
Definition validServicePort (port : ServicePort) : Prop :=
  1 <= sp_Port port <= 65535
  /\ (sp_NodePort port = 0 \/ 30000 <= sp_NodePort port <= 32767).

(** The pod template of a workload declares every volume its containers
    mount, under distinct names, mounted at distinct paths. *)
Definition volumesDeclared (pod : PodSpec) : Prop :=
  NoDup (v_Name <$> ps_Volumes pod)
  /\ Forall (fun c =>
       NoDup (vm_MountPath <$> c_VolumeMounts c)
       /\ Forall (fun m => vm_Name m ∈ (v_Name <$> ps_Volumes pod)) (c_VolumeMounts c))
     (ps_Containers pod).

(** A dashboard with two datasources, the second without a URL. *)
Definition acmeDatasources : MonitorStack :=
  newStack "acme" "monitoring" zeroPrometheus
    {| g_Enabled := true; g_Image := "grafana/grafana"; g_Tag := "latest";
       g_Resources := zeroResources;
       g_Service := {| svc_Type := "ClusterIP"; svc_Port := 3000;
                       svc_NodePort := 0; svc_Labels := ∅ |};
       g_AdminPassword := "admin";
       g_Datasources :=
         [ {| ds_Name := "metrics"; ds_Type := "prometheus";
              ds_URL := "http://acme-prometheus:9090" |};
           {| ds_Name := "logs"; ds_Type := "loki"; ds_URL := "" |} ];
       g_Dashboards := [] |}.

(** ** A well-formed cluster, and what one convergence step does to it *)

(** Every object is stored under its own namespace and name. *)
Definition wellKeyed (w : World) : Prop :=
  map_Forall (fun key monitorStack => stackKey monitorStack = key) (monitorStacks w)
  /\ map_Forall (fun key obj => keyOf obj = key) (configMaps w)
  /\ map_Forall (fun key obj => keyOf obj = key) (persistentVolumeClaims w)
  /\ map_Forall (fun key obj => keyOf obj = key) (deployments w)
  /\ map_Forall (fun key obj => keyOf obj = key) (services w).

(** Nothing differs but the log and the store of [kind]. *)
Definition sameBut (kind : Kind) (w w' : World) : Prop :=
  (kind <> KindMonitorStack -> monitorStacks w' = monitorStacks w)
  /\ (kind <> KindConfigMap -> configMaps w' = configMaps w)
  /\ (kind <> KindPersistentVolumeClaim ->
      persistentVolumeClaims w' = persistentVolumeClaims w)
  /\ (kind <> KindDeployment -> deployments w' = deployments w)
  /\ (kind <> KindService -> services w' = services w)
  /\ now w' = now w /\ faults w' = faults w.

(** The requests by which a child is converged: a get, then a create or an
    update. *)
Definition applyRequests (kind : Kind) (key : NamespacedName) : list Request :=
  [ {| rq_Verb := VerbGet; rq_Kind := kind; rq_Key := key |};
    {| rq_Verb := VerbCreate; rq_Kind := kind; rq_Key := key |};
    {| rq_Verb := VerbUpdate; rq_Kind := kind; rq_Key := key |} ].

(** The object a create stores: what was built, with the ownership link. *)
Definition owned (owner : MonitorStack) (meta : ObjectMeta) : ObjectMeta :=
  withOwnerReferences meta [controllerRef owner].

Definition datasourcesKey (monitorStack : MonitorStack) : NamespacedName :=
  (Namespace monitorStack, getGrafanaDatasourcesConfigMapName monitorStack).

(** The requests by which a child is cleaned up: a get, then a delete. *)
Definition cleanupRequests (kind : Kind) (key : NamespacedName) : list Request :=
  [ {| rq_Verb := VerbGet; rq_Kind := kind; rq_Key := key |};
    {| rq_Verb := VerbDelete; rq_Kind := kind; rq_Key := key |} ].

Definition stackRequests (monitorStack : MonitorStack) : list Request :=
  [ {| rq_Verb := VerbGet; rq_Kind := KindMonitorStack; rq_Key := stackKey monitorStack |};
    {| rq_Verb := VerbUpdate; rq_Kind := KindMonitorStack;
       rq_Key := stackKey monitorStack |};
    {| rq_Verb := VerbStatusUpdate; rq_Kind := KindMonitorStack;
       rq_Key := stackKey monitorStack |} ].

(** Every request the engine can issue for a stack: on the stack itself; a
    get, create or update of each of its seven children (the claim is never
    updated); and a delete of the two workloads, the two services and the
    collector's configuration. *)
Definition engineRequests (monitorStack : MonitorStack) : list Request :=
  stackRequests monitorStack
  ++ applyRequests KindConfigMap (prometheusConfigKey monitorStack)
  ++ [getClaim monitorStack; createClaim monitorStack]
  ++ applyRequests KindDeployment (prometheusKey monitorStack)
  ++ applyRequests KindService (prometheusKey monitorStack)
  ++ applyRequests KindConfigMap (datasourcesKey monitorStack)
  ++ applyRequests KindDeployment (grafanaKey monitorStack)
  ++ applyRequests KindService (grafanaKey monitorStack)
  ++ [ {| rq_Verb := VerbDelete; rq_Kind := KindDeployment;
          rq_Key := prometheusKey monitorStack |};
       {| rq_Verb := VerbDelete; rq_Kind := KindService;
          rq_Key := prometheusKey monitorStack |};
       {| rq_Verb := VerbDelete; rq_Kind := KindConfigMap;
          rq_Key := prometheusConfigKey monitorStack |};
       {| rq_Verb := VerbDelete; rq_Kind := KindDeployment;
          rq_Key := grafanaKey monitorStack |};
       {| rq_Verb := VerbDelete; rq_Kind := KindService;
          rq_Key := grafanaKey monitorStack |} ].

(** Every object that is not the stack or one of its children is as it was. *)
Definition untouched (monitorStack : MonitorStack) (w w' : World) : Prop :=
  (forall k, k <> stackKey monitorStack -> monitorStacks w' !! k = monitorStacks w !! k)
  /\ (forall k, k <> prometheusConfigKey monitorStack ->
        k <> datasourcesKey monitorStack ->
        configMaps w' !! k = configMaps w !! k)
  /\ (forall k, k <> claimKey monitorStack ->
        persistentVolumeClaims w' !! k = persistentVolumeClaims w !! k)
  /\ (forall k, k <> prometheusKey monitorStack -> k <> grafanaKey monitorStack ->
        deployments w' !! k = deployments w !! k)
  /\ (forall k, k <> prometheusKey monitorStack -> k <> grafanaKey monitorStack ->
        services w' !! k = services w !! k)
  /\ now w' = now w /\ faults w' = faults w.

(** On a well-formed cluster the computation leaves a well-formed cluster,
    issues only requests of the stack's table and touches only the stack and
    its children. *)
Definition confined (monitorStack : MonitorStack) (w w' : World) : Prop :=
  wellKeyed w ->
  wellKeyed w'
  /\ logs (fun r => r ∈ engineRequests monitorStack) w w'
  /\ untouched monitorStack w w'.

(** Whether [m] returns or panics it leaves the cluster related by [R]; and
    what it returns satisfies [Q]. *)
Definition keeps {A : Type} (R : World -> World -> Prop) (Q : A -> Prop) (m : M A)
  : Prop :=
  forall w, R w (m w).2 /\ forall a, (m w).1 = Val a -> Q a.

(** The metadata of the children of one kind. *)
Definition metas (w : World) (kind : Kind) : gmap NamespacedName ObjectMeta :=
  match kind with
  | KindMonitorStack => ∅
  | KindConfigMap => cm_Meta <$> configMaps w
  | KindPersistentVolumeClaim => pvc_Meta <$> persistentVolumeClaims w
  | KindDeployment => dep_Meta <$> deployments w
  | KindService => s_Meta <$> services w
  end.

(** Every child that existed is still there with the owner references it
    had, and every child that is new has the ownership link to [owner] as
    its only owner reference. *)
Definition ownershipKept (owner : MonitorStack) (w w' : World) : Prop :=
  (forall kind key old,
      metas w kind !! key = Some old ->
      exists meta,
        metas w' kind !! key = Some meta
        /\ om_OwnerReferences meta = om_OwnerReferences old)
  /\ (forall kind key meta,
        metas w' kind !! key = Some meta ->
        metas w kind !! key = None ->
        om_OwnerReferences meta = [controllerRef owner]).

Definition converging (owner : MonitorStack) (w w' : World) : Prop :=
  wellKeyed w -> wellKeyed w' /\ ownershipKept owner w w'.

(** ** A converged dashboard *)

(** The dashboard's children are what the builders give for the spec (the
    datasources file exists when there are datasources), and the component
    status is what the workload's status gives. *)
Definition grafanaChildrenConverged (monitorStack : MonitorStack) (w : World) : Prop :=
  exists built deployment service,
    buildGrafanaDeployment monitorStack = Val built
    /\ (g_Datasources (Grafana (Spec monitorStack)) <> [] ->
        exists configMap,
          configMaps w !! datasourcesKey monitorStack = Some configMap
          /\ keyOf configMap = datasourcesKey monitorStack
          /\ cm_Data configMap
             = {[ "datasources.yaml" := buildGrafanaDatasourcesConfig monitorStack ]})
    /\ deployments w !! grafanaKey monitorStack = Some deployment
    /\ keyOf deployment = grafanaKey monitorStack
    /\ dep_Spec deployment = dep_Spec built
    /\ om_Labels (dep_Meta deployment) = om_Labels (dep_Meta built)
    /\ services w !! grafanaKey monitorStack = Some service
    /\ keyOf service = grafanaKey monitorStack
    /\ ss_Type (s_Spec service) = ss_Type (s_Spec (buildGrafanaService monitorStack))
    /\ ss_Ports (s_Spec service) = ss_Ports (s_Spec (buildGrafanaService monitorStack))
    /\ om_Labels (s_Meta service) = om_Labels (s_Meta (buildGrafanaService monitorStack))
    /\ GrafanaStatus (Status monitorStack)
       = observeDeployment (GrafanaStatus (Status monitorStack)) deployment
           (getGrafanaServiceName monitorStack)
           (svc_Port (g_Service (Grafana (Spec monitorStack)))).

(** Every ConfigMap and claim that a volume of the pod names exists, in the
    namespace. *)
Definition volumesResolve (namespace : string) (pod : PodSpec) (w : World) : Prop :=
  Forall (fun volume =>
    match v_VolumeSource volume with
    | ConfigMapVolumeSource name => is_Some (configMaps w !! (namespace, name))
    | PersistentVolumeClaimVolumeSource claimName =>
        is_Some (persistentVolumeClaims w !! (namespace, claimName))
    | EmptyDirVolumeSource => True
    end) (ps_Volumes pod).

(** What an update of an existing child leaves as stored: the selector of a
    service, the metadata (labels included) of a ConfigMap, and the status of
    a workload. *)
Definition storedPartsKept (w w' : World) : Prop :=
  (forall key old,
      services w !! key = Some old ->
      exists obj, services w' !! key = Some obj
                  /\ ss_Selector (s_Spec obj) = ss_Selector (s_Spec old))
  /\ (forall key old,
        configMaps w !! key = Some old ->
        exists obj, configMaps w' !! key = Some obj /\ cm_Meta obj = cm_Meta old)
  /\ (forall key old,
        deployments w !! key = Some old ->
        exists obj, deployments w' !! key = Some obj
                    /\ dep_Status obj = dep_Status old).

Definition updating (w w' : World) : Prop :=
  wellKeyed w -> wellKeyed w' /\ storedPartsKept w w'.

(** Every quantity string the engine parses for an enabled subsystem is one
    that [resource.MustParse] accepts: the storage size and the four resource
    strings of the collector, the four resource strings of the dashboard. *)
Definition quantitiesAccepted (monitorStack : MonitorStack) : Prop :=
  (p_Enabled (Prometheus (Spec monitorStack)) = true ->
   parses (st_Size (p_Storage (Prometheus (Spec monitorStack))))
   /\ quantitiesParse (p_Resources (Prometheus (Spec monitorStack))))
  /\ (g_Enabled (Grafana (Spec monitorStack)) = true ->
      quantitiesParse (g_Resources (Grafana (Spec monitorStack)))).

(** [m] returns, in every cluster and whatever the API answers. *)
Definition neverPanics {A : Type} (m : M A) : Prop :=
  forall w, exists a w', m w = (Val a, w').

(** The stacks, the clock and the fault schedule are as they were. *)
Definition stacksSame (w w' : World) : Prop :=
  monitorStacks w' = monitorStacks w /\ now w' = now w /\ faults w' = faults w.

(** [acme] with the finalizer set and the user label [team]. *)
Definition acmeTeam (team : string) : MonitorStack :=
  withFinalizers
    (withSpec acme
       {| Prometheus := Prometheus (Spec acme); Grafana := Grafana (Spec acme);
          spec_Namespace := ""; spec_Labels := {[ "team" := team ]} |})
    [finalizerName].

(** [acme] with the finalizer set and a storage size that is no quantity. *)
Definition acmeBadSize : MonitorStack :=
  withFinalizers
    (withSpec acme
       {| Prometheus := withStorage "ten" (Prometheus (Spec acme));
          Grafana := Grafana (Spec acme);
          spec_Namespace := ""; spec_Labels := ∅ |})
    [finalizerName].

(** The dashboard has no workload and no service. *)
Definition grafanaChildrenAbsent (monitorStack : MonitorStack) (w : World) : Prop :=
  deployments w !! grafanaKey monitorStack = None
  /\ services w !! grafanaKey monitorStack = None.

Definition dashboardConverged (monitorStack : MonitorStack) (w : World) : Prop :=
  if g_Enabled (Grafana (Spec monitorStack))
  then grafanaChildrenConverged monitorStack w
  else grafanaChildrenAbsent monitorStack w.

(** The stack that [updateOverallStatus] writes at time [t]. *)
Definition aggregated (monitorStack : MonitorStack) (t : Time) : MonitorStack :=
  if (negb (p_Enabled (Prometheus (Spec monitorStack)))
      || cs_Ready (PrometheusStatus (Status monitorStack)))
     && (negb (g_Enabled (Grafana (Spec monitorStack)))
         || cs_Ready (GrafanaStatus (Status monitorStack)))
  then setPhase monitorStack "Ready" "All enabled components are ready" t
  else setPhase monitorStack "Pending" "Waiting for components to be ready" t.

(** The seven children of a stack are as they were (each stored as before,
    or absent as before). *)
Definition childrenSame (monitorStack : MonitorStack) (w w' : World) : Prop :=
  configMaps w' !! prometheusConfigKey monitorStack
  = configMaps w !! prometheusConfigKey monitorStack
  /\ configMaps w' !! datasourcesKey monitorStack
     = configMaps w !! datasourcesKey monitorStack
  /\ persistentVolumeClaims w' !! claimKey monitorStack
     = persistentVolumeClaims w !! claimKey monitorStack
  /\ deployments w' !! prometheusKey monitorStack
     = deployments w !! prometheusKey monitorStack
  /\ deployments w' !! grafanaKey monitorStack
     = deployments w !! grafanaKey monitorStack
  /\ services w' !! prometheusKey monitorStack
     = services w !! prometheusKey monitorStack
  /\ services w' !! grafanaKey monitorStack
     = services w !! grafanaKey monitorStack.

(** A second stack in the namespace of [acme]: the collector enabled with
    its defaults, the finalizer set. *)
Definition beta : MonitorStack :=
  withFinalizers
    (newStack "beta" "monitoring"
       (setPrometheusDefaults (enablePrometheus zeroPrometheus)) zeroGrafana)
    [finalizerName].

(** The converged cluster of [acme], with [beta] just created. *)
Definition acmeAndBeta : World :=
  setMonitorStacks (<[stackKey beta := beta]> (monitorStacks acmeConverged))
    acmeConverged.

(** Every stack is still stored, changed in its status at most. *)
Definition statusOnly (w w' : World) : Prop :=
  forall key old,
    monitorStacks w !! key = Some old ->
    exists new, monitorStacks w' !! key = Some new /\ sameButStatus old new.

End Engine.

(** The parameters the examples run with: a quantity starts with a digit. *)
Definition sample : Parameters :=
  {| quantityOK := startsWithDigit; defaultPrometheusConfig := sampleConfig |}.

(** * Properties *)

(** ** Names *)

Lemma list_ascii_of_string_app (s t : string) :
  list_ascii_of_string (s +:+ t) = (list_ascii_of_string s ++ list_ascii_of_string t)%list.
Proof. induction s as [|c s IH]; simpl; [reflexivity | by rewrite IH]. Qed.

Lemma list_ascii_of_string_inj (s t : string) :
  list_ascii_of_string s = list_ascii_of_string t -> s = t.
Proof.
  intros H. rewrite <- (string_of_list_ascii_of_string s),
    <- (string_of_list_ascii_of_string t). by rewrite H.
Qed.

Lemma length_list_ascii_of_string (s : string) :
  List.length (list_ascii_of_string s) = String.length s.
Proof. induction s as [|c s IH]; simpl; [reflexivity | by rewrite IH]. Qed.

Lemma ending_app (s suffix : string) :
  (3 <= String.length suffix)%nat -> ending (s +:+ suffix) = ending suffix.
Proof.
  intros Hlen. unfold ending.
  rewrite list_ascii_of_string_app, reverse_app.
  apply take_app_le. by rewrite length_reverse, length_list_ascii_of_string.
Qed.

Lemma append_same_suffix (s t suffix : string) :
  s +:+ suffix = t +:+ suffix -> s = t.
Proof.
  intros H. apply list_ascii_of_string_inj.
  apply (f_equal list_ascii_of_string) in H.
  rewrite !list_ascii_of_string_app in H.
  by apply app_inv_tail in H.
Qed.

Lemma child_suffix_inj (s t a b : string) :
  a ∈ childSuffixes -> b ∈ childSuffixes -> s +:+ a = t +:+ b -> s = t.
Proof.
  unfold childSuffixes. intros Ha Hb Heq.
  assert (Hend : ending a = ending b -> a = b).
  { repeat (apply elem_of_cons in Ha as [-> | Ha]);
      try (by apply elem_of_nil in Ha);
      repeat (apply elem_of_cons in Hb as [-> | Hb]);
      try (by apply elem_of_nil in Hb);
      vm_compute; intros E; first [reflexivity | discriminate E]. }
  assert (Hlen : (3 <= String.length a)%nat /\ (3 <= String.length b)%nat).
  { repeat (apply elem_of_cons in Ha as [-> | Ha]);
      try (by apply elem_of_nil in Ha);
      repeat (apply elem_of_cons in Hb as [-> | Hb]);
      try (by apply elem_of_nil in Hb); vm_compute; split; lia. }
  destruct Hlen as [Hla Hlb].
  assert (a = b) as ->.
  { apply Hend. rewrite <- (ending_app s a Hla), <- (ending_app t b Hlb).
    by rewrite Heq. }
  by apply append_same_suffix in Heq.
Qed.

Lemma childNames_suffixes (monitorStack : MonitorStack) (name : string) :
  name ∈ childNames monitorStack ->
  exists suffix, suffix ∈ childSuffixes /\ name = Name monitorStack +:+ suffix.
Proof.
  unfold childNames, childSuffixes, getPrometheusName, getPrometheusServiceName,
    getPrometheusConfigMapName, getPrometheusPVCName, getGrafanaName,
    getGrafanaServiceName, getGrafanaDatasourcesConfigMapName.
  intros H.
  repeat (apply elem_of_cons in H as [-> | H]);
    try (by apply elem_of_nil in H);
    eexists; (split; [|reflexivity]);
    repeat first [apply list_elem_of_here | apply list_elem_of_further].
Qed.

(** C9. The children of stack [s] are named [s-prometheus] (workload and
    endpoint), [s-prometheus-config], [s-prometheus-data], [s-grafana]
    (workload and endpoint) and [s-grafana-datasources]; for "acme" these are
    the five names listed; a name depends on the stack name only; and two
    stacks with different names share no child name. *)
Theorem child_names_deterministic_and_disjoint :
  childNames (stackNamed "acme")
  = [ "acme-prometheus"; "acme-prometheus"; "acme-prometheus-config";
      "acme-prometheus-data"; "acme-grafana"; "acme-grafana";
      "acme-grafana-datasources" ]
  /\ (forall s : MonitorStack,
        getPrometheusName s = Name s +:+ "-prometheus"
        /\ getPrometheusServiceName s = Name s +:+ "-prometheus"
        /\ getPrometheusConfigMapName s = Name s +:+ "-prometheus-config"
        /\ getPrometheusPVCName s = Name s +:+ "-prometheus-data"
        /\ getGrafanaName s = Name s +:+ "-grafana"
        /\ getGrafanaServiceName s = Name s +:+ "-grafana"
        /\ getGrafanaDatasourcesConfigMapName s = Name s +:+ "-grafana-datasources")
  /\ (forall s1 s2 : MonitorStack, Name s1 = Name s2 -> childNames s1 = childNames s2)
  /\ (forall (s1 s2 : MonitorStack) (name : string),
        Name s1 <> Name s2 ->
        name ∈ childNames s1 -> name ∉ childNames s2).
Proof.
  split; [reflexivity|]. split; [intros s; repeat split|]. split.
  - intros s1 s2 H. unfold childNames, getPrometheusName, getPrometheusServiceName,
      getPrometheusConfigMapName, getPrometheusPVCName, getGrafanaName,
      getGrafanaServiceName, getGrafanaDatasourcesConfigMapName. by rewrite H.
  - intros s1 s2 name Hne H1 H2.
    apply childNames_suffixes in H1 as (a & Ha & ->).
    apply childNames_suffixes in H2 as (b & Hb & Heq).
    apply Hne. by apply (child_suffix_inj _ _ a b).
Qed.

(** ** Validation *)

Lemma is_Some_if {A : Type} (c : bool) (a : A) (rest : option A) :
  is_Some (if c then Some a else rest) <-> c = true \/ is_Some rest.
Proof.
  destruct c; split; eauto.
  - intros [H|H]; [discriminate | done].
Qed.

Lemma is_Some_None_False {A : Type} : is_Some (@None A) <-> False.
Proof. split; [intros [? ?]; discriminate | done]. Qed.

Lemma gtb_true (n m : Z) : (n >? m) = true <-> n > m.
Proof. rewrite Z.gtb_ltb, Z.ltb_lt. lia. Qed.

Ltac reflect_tests :=
  repeat progress
    rewrite ?is_Some_if, ?is_Some_None_False, ?orb_true_iff, ?andb_true_iff,
      ?negb_true_iff, ?Z.ltb_lt, ?gtb_true, ?String.eqb_eq.

Lemma validateDatasources_spec (i : Z) (datasources : list DatasourceSpec) :
  is_Some (validateDatasources i datasources)
  <-> Exists datasourceIncomplete datasources.
Proof.
  revert i. induction datasources as [|ds rest IH]; intros i; simpl.
  - rewrite is_Some_None_False, Exists_nil. tauto.
  - rewrite Exists_cons. unfold datasourceIncomplete at 1.
    reflect_tests. rewrite IH. tauto.
Qed.

Lemma validatePrometheusConfig_spec (monitorStack : MonitorStack) :
  is_Some (validatePrometheusConfig monitorStack) <-> prometheusInvalid monitorStack.
Proof.
  unfold validatePrometheusConfig, prometheusInvalid, portOutOfRange, nodePortOutOfRange.
  cbv zeta. reflect_tests. tauto.
Qed.

Lemma validateGrafanaConfig_spec (monitorStack : MonitorStack) :
  is_Some (validateGrafanaConfig monitorStack) <-> grafanaInvalid monitorStack.
Proof.
  unfold validateGrafanaConfig, grafanaInvalid, portOutOfRange, nodePortOutOfRange.
  cbv zeta. reflect_tests. rewrite validateDatasources_spec. tauto.
Qed.

Lemma validateMonitorStack_error (monitorStack : MonitorStack) :
  is_Some (validateMonitorStack monitorStack)
  <-> bothDisabled monitorStack
      \/ (p_Enabled (Prometheus (Spec monitorStack)) = true
          /\ prometheusInvalid monitorStack)
      \/ (g_Enabled (Grafana (Spec monitorStack)) = true
          /\ grafanaInvalid monitorStack).
Proof.
  rewrite <- validatePrometheusConfig_spec, <- validateGrafanaConfig_spec.
  unfold validateMonitorStack, bothDisabled.
  destruct (p_Enabled _), (g_Enabled _); simpl;
    repeat match goal with
    | |- context [match ?o with Some _ => _ | None => _ end] => destruct o eqn:?
    end;
    rewrite ?is_Some_None_False; split; intros H;
    repeat match goal with
    | H : _ \/ _ |- _ => destruct H
    | H : _ /\ _ |- _ => destruct H
    | H : False |- _ => destruct H
    end; try discriminate; eauto 6.
Qed.

(** C5, amended.  Validation fails whenever both subsystems are disabled;
    it fails iff both are disabled or an enabled subsystem is invalid, where
    a subsystem is invalid when its port is outside [1,65535], or its service
    type is "NodePort" with a strictly positive node port outside
    [30000,32767], or its image or tag is empty, or (dashboard) the admin
    password is empty or a datasource lacks a name, type or URL; otherwise it
    returns nil. *)
Theorem validateMonitorStack_spec (monitorStack : MonitorStack) :
  (bothDisabled monitorStack -> is_Some (validateMonitorStack monitorStack))
  /\ (is_Some (validateMonitorStack monitorStack)
      <-> bothDisabled monitorStack
          \/ (p_Enabled (Prometheus (Spec monitorStack)) = true
              /\ prometheusInvalid monitorStack)
          \/ (g_Enabled (Grafana (Spec monitorStack)) = true
              /\ grafanaInvalid monitorStack))
  /\ (validateMonitorStack monitorStack = None
      <-> ~ (bothDisabled monitorStack
             \/ (p_Enabled (Prometheus (Spec monitorStack)) = true
                 /\ prometheusInvalid monitorStack)
             \/ (g_Enabled (Grafana (Spec monitorStack)) = true
                 /\ grafanaInvalid monitorStack))).
Proof.
  pose proof (validateMonitorStack_error monitorStack) as H.
  split; [|split]; [tauto | exact H |].
  rewrite <- H. destruct (validateMonitorStack monitorStack); split.
  - discriminate.
  - intros Hn. exfalso. apply Hn. eauto.
  - intros _ [? ?]. discriminate.
  - reflexivity.
Qed.

(** C5, as stated, fails: a collector on a "NodePort" service with node port
    -1 has a non-zero node port outside [30000,32767], and validation
    accepts it. *)
Lemma validateMonitorStack_negative_node_port :
  validateMonitorStack stackNegativeNodePort = None
  /\ p_Enabled (Prometheus (Spec stackNegativeNodePort)) = true
  /\ nonZeroNodePortOutOfRange (p_Service (Prometheus (Spec stackNegativeNodePort))).
Proof.
  split; [reflexivity|]. split; [reflexivity|].
  unfold nonZeroNodePortOutOfRange. simpl. repeat split; lia.
Qed.

(** ** Defaulting *)














(** ** The status aggregator *)

(** C2. [updateOverallStatus] always returns; the phase it sets is "Ready"
    iff every subsystem is disabled or ready, and "Pending" otherwise (so
    with the collector enabled and ready and the dashboard enabled and not
    ready it is "Pending"); it is never "Failed"; [LastUpdated] is set to the
    current time; the component statuses are left alone; and when the status
    write succeeds, the stored status is the one computed. *)
Theorem updateOverallStatus_phase (monitorStack : MonitorStack) (w : World) :
  exists (updated : MonitorStack) (err : option error) (w' : World),
    updateOverallStatus monitorStack w = (Val (updated, err), w')
    /\ (Phase (Status updated) = "Ready" <-> allEnabledReady monitorStack)
    /\ (Phase (Status updated) = "Ready" \/ Phase (Status updated) = "Pending")
    /\ Phase (Status updated) <> "Failed"
    /\ (p_Enabled (Prometheus (Spec monitorStack)) = true ->
        cs_Ready (PrometheusStatus (Status monitorStack)) = true ->
        g_Enabled (Grafana (Spec monitorStack)) = true ->
        cs_Ready (GrafanaStatus (Status monitorStack)) = false ->
        Phase (Status updated) = "Pending")
    /\ LastUpdated (Status updated) = now w
    /\ PrometheusStatus (Status updated) = PrometheusStatus (Status monitorStack)
    /\ GrafanaStatus (Status updated) = GrafanaStatus (Status monitorStack)
    /\ (err = None -> storedStatus w' (stackKey monitorStack) = Some (Status updated)).
Proof.
  unfold allEnabledReady, storedStatus.
  cbv [updateOverallStatus bind Now StatusUpdate request ret].
  set (ready := (negb _ || _) && (negb _ || _)).
  assert (Hready : ready = true <->
    (p_Enabled (Prometheus (Spec monitorStack)) = false
     \/ cs_Ready (PrometheusStatus (Status monitorStack)) = true)
    /\ (g_Enabled (Grafana (Spec monitorStack)) = false
        \/ cs_Ready (GrafanaStatus (Status monitorStack)) = true)).
  { unfold ready. rewrite andb_true_iff, !orb_true_iff, !negb_true_iff. tauto. }
  assert (Hkey : forall phase message t,
    stackKey (setPhase monitorStack phase message t) = stackKey monitorStack)
    by reflexivity.
  destruct ready; rewrite !Hkey;
    (destruct (faults w _) as [msg|];
     [|destruct (monitorStacks w !! stackKey monitorStack) as [stored|] eqn:Hs]);
    simpl; rewrite ?Hs; simpl;
    (eexists _, _, _; split; [reflexivity|]); simpl;
    rewrite ?lookup_insert_eq; simpl;
    repeat split; try tauto; try discriminate; eauto;
    intros; exfalso; intuition congruence.
Qed.

(** ** Computations and relations *)

Lemma preserves_ret {A : Type} (R : World -> World -> Prop) (a : A) :
  (forall w, R w w) -> preserves R (ret a).
Proof. intros Hrefl w. apply Hrefl. Qed.

Lemma preserves_lift {A : Type} (R : World -> World -> Prop) (r : Res A) :
  (forall w, R w w) -> preserves R (lift r).
Proof. intros Hrefl w. apply Hrefl. Qed.

Lemma preserves_bind {A B : Type} (R : World -> World -> Prop)
  (m : M A) (k : A -> M B) :
  (forall w1 w2 w3, R w1 w2 -> R w2 w3 -> R w1 w3) ->
  preserves R m -> (forall a, preserves R (k a)) -> preserves R (bind m k).
Proof.
  intros Htrans Hm Hk w. unfold bind. specialize (Hm w).
  destruct (m w) as [[a|msg] w1]; simpl in *; [|exact Hm].
  eapply Htrans; [exact Hm | apply Hk].
Qed.

Lemma returns_bind {A B : Type} (R : World -> World -> Prop)
  (Q1 : A -> Prop) (Q2 : B -> Prop) (m : M A) (k : A -> M B) :
  (forall w1 w2 w3, R w1 w2 -> R w2 w3 -> R w1 w3) ->
  returns R Q1 m -> (forall a, Q1 a -> returns R Q2 (k a)) ->
  returns R Q2 (bind m k).
Proof.
  intros Htrans Hm Hk w. unfold bind.
  destruct (Hm w) as (a & w1 & -> & HR & HQ).
  destruct (Hk a HQ w1) as (b & w2 & -> & HR2 & HQ2).
  exists b, w2. eauto.
Qed.

Lemma returns_then_preserves {A B : Type} (R : World -> World -> Prop)
  (Q : A -> Prop) (m : M A) (k : A -> M B) :
  (forall w1 w2 w3, R w1 w2 -> R w2 w3 -> R w1 w3) ->
  returns R Q m -> (forall a, Q a -> preserves R (k a)) ->
  preserves R (bind m k).
Proof.
  intros Htrans Hm Hk w. unfold bind.
  destruct (Hm w) as (a & w1 & -> & HR & HQ).
  eapply Htrans; [exact HR | apply (Hk a HQ)].
Qed.

Lemma returns_ret {A : Type} (R : World -> World -> Prop) (Q : A -> Prop) (a : A) :
  (forall w, R w w) -> Q a -> returns R Q (ret a).
Proof. intros Hrefl HQ w. exists a, w. eauto. Qed.

Lemma logs_refl (P : Request -> Prop) (w : World) : logs P w w.
Proof. exists []. by split. Qed.

Lemma logs_trans (P : Request -> Prop) (w1 w2 w3 : World) :
  logs P w1 w2 -> logs P w2 w3 -> logs P w1 w3.
Proof.
  intros (n1 & E1 & F1) (n2 & E2 & F2). exists (n2 ++ n1)%list. split.
  - by rewrite E2, E1, app_assoc.
  - by apply Forall_app.
Qed.

Lemma logs_one (P : Request -> Prop) (r : Request) (w w' : World) :
  P r -> requests w' = r :: requests w -> logs P w w'.
Proof. intros Hr E. exists [r]. split; [done | by constructor]. Qed.

Lemma claimFrame_refl (owner : MonitorStack) (w : World) : claimFrame owner w w.
Proof.
  split; [apply logs_refl|]. split; [by intros ? ? ?|]. intros ? ? ?. by left.
Qed.

Lemma claimFrame_trans (owner : MonitorStack) (w1 w2 w3 : World) :
  claimFrame owner w1 w2 -> claimFrame owner w2 w3 -> claimFrame owner w1 w3.
Proof.
  intros (L1 & K1 & N1) (L2 & K2 & N2). split; [by eapply logs_trans|]. split.
  - intros key pvc H. by apply K2, K1.
  - intros key pvc H. destruct (N2 _ _ H) as [H'|H']; [by apply N1 | by right].
Qed.

Lemma claimsSame_frame (owner : MonitorStack) (w w' : World) :
  logs claimRequestAllowed w w' -> claimsSame w w' -> claimFrame owner w w'.
Proof.
  unfold claimsSame. intros L E. split; [done|].
  split; intros key pvc H; rewrite E in *; [done | by left].
Qed.

(** *** Owner references *)

Lemma upsertOwnerRef_elem (ref : OwnerReference) (refs : list OwnerReference) :
  ref ∈ upsertOwnerRef ref refs.
Proof.
  induction refs as [|r rest IH]; simpl; [apply list_elem_of_here|].
  destruct (referSameObject r ref);
    [apply list_elem_of_here | by apply list_elem_of_further].
Qed.

Lemma SetControllerReference_controlled (owner : MonitorStack) (meta meta' : ObjectMeta) :
  SetControllerReference owner meta = inr meta' ->
  controlledBy owner meta'
  /\ om_Name meta' = om_Name meta /\ om_Namespace meta' = om_Namespace meta
  /\ om_Labels meta' = om_Labels meta.
Proof.
  unfold SetControllerReference, controlledBy.
  destruct (negb _); [discriminate|].
  destruct (List.find _ _) as [existing|];
    [destruct (referSameObject existing _); [|discriminate]|];
    intros [= <-]; simpl; (split; [apply upsertOwnerRef_elem | done]).
Qed.

(** *** The engine's requests on claims *)

(** Every request and store operation of the client, unfolded. *)
Ltac unfold_client :=
  cbv [Get Create Update Delete GetMonitorStack UpdateMonitorStack StatusUpdate
       Now deleteIfFound bind request ret lift keyOf
       kindOf metaOf objects setObjects setMonitorStacks
       ConfigMap_Object PersistentVolumeClaim_Object Deployment_Object Service_Object].

Ltac case_client :=
  repeat match goal with
  | |- context [faults ?w ?n] => destruct (faults w n)
  | |- context [match ?m !! ?k with _ => _ end] => destruct (m !! k) eqn:?
  | |- context [match DeletionTimestamp ?s with _ => _ end] =>
      destruct (DeletionTimestamp s)
  | |- context [match Finalizers ?s with _ => _ end] => destruct (Finalizers s)
  end.

(** A request that is not on a claim keeps [claimFrame]. *)
Ltac claim_leaf :=
  let w := fresh "w" in
  intros w; unfold_client; case_client; simpl;
  first
    [ apply claimFrame_refl
    | apply claimsSame_frame;
      [ eapply logs_one; [|simpl; reflexivity];
        unfold claimRequestAllowed; simpl; intros; first [discriminate | tauto]
      | reflexivity ] ].

Ltac claim_step :=
  match goal with
  | |- preserves _ (bind _ _) =>
      apply preserves_bind; [apply claimFrame_trans | | intros ?]
  | |- preserves _ (ret _) => apply preserves_ret, claimFrame_refl
  | |- preserves _ (lift _) => apply preserves_lift, claimFrame_refl
  | |- preserves _ (match ?x with _ => _ end) => destruct x
  | |- preserves _ (Get _) => claim_leaf
  | |- preserves _ (Create _) => claim_leaf
  | |- preserves _ (Update _) => claim_leaf
  | |- preserves _ (Delete _) => claim_leaf
  | |- preserves _ (deleteIfFound ?x) => unfold deleteIfFound; destruct x
  | |- preserves _ (StatusUpdate _) => claim_leaf
  | |- preserves _ (UpdateMonitorStack _) => claim_leaf
  | |- preserves _ (GetMonitorStack _) => claim_leaf
  | |- preserves _ Now => claim_leaf
  end.

Lemma applyConfigMap_claims (owner monitorStack : MonitorStack) (configMap : ConfigMap) :
  preserves (claimFrame owner) (applyConfigMap monitorStack configMap).
Proof. unfold applyConfigMap. repeat claim_step. Qed.

Lemma Create_claim (owner : MonitorStack) (pvc : PersistentVolumeClaim) :
  controlledBy owner (pvc_Meta pvc) ->
  preserves (claimFrame owner) (Create pvc).
Proof.
  intros Howned w. unfold_client. case_client; simpl.
  - apply claimsSame_frame; [|reflexivity].
    eapply logs_one; [|simpl; reflexivity]. intros _. by right.
  - apply claimsSame_frame; [|reflexivity].
    eapply logs_one; [|simpl; reflexivity]. intros _. by right.
  - split; [|split].
    + eapply logs_one; [|simpl; reflexivity]. intros _. by right.
    + intros key p Hp. simpl. rewrite lookup_insert_ne; [done|].
      intros <-. simpl in *. congruence.
    + intros key p. simpl. rewrite lookup_insert.
      case_decide as Hk; [intros [= <-]; by right | by left].
Qed.

Lemma applyDeployment_claims (owner monitorStack : MonitorStack) (deployment : Deployment) :
  preserves (claimFrame owner) (applyDeployment monitorStack deployment).
Proof. unfold applyDeployment. repeat claim_step. Qed.

Lemma applyService_claims (owner monitorStack : MonitorStack) (service : Service) :
  preserves (claimFrame owner) (applyService monitorStack service).
Proof. unfold applyService. repeat claim_step. Qed.

Lemma cleanupPrometheusResources_claims (owner monitorStack : MonitorStack) :
  preserves (claimFrame owner) (cleanupPrometheusResources monitorStack).
Proof. unfold cleanupPrometheusResources. repeat claim_step. Qed.

Lemma cleanupGrafanaResources_claims (owner monitorStack : MonitorStack) :
  preserves (claimFrame owner) (cleanupGrafanaResources monitorStack).
Proof. unfold cleanupGrafanaResources. repeat claim_step. Qed.

Lemma handleDeletion_claims (owner monitorStack : MonitorStack) :
  preserves (claimFrame owner) (handleDeletion monitorStack).
Proof.
  unfold handleDeletion.
  repeat first
    [ apply cleanupPrometheusResources_claims | apply cleanupGrafanaResources_claims
    | claim_step ].
Qed.

Lemma claimFrame_owner (owner owner' : MonitorStack) (w w' : World) :
  controllerRef owner = controllerRef owner' ->
  claimFrame owner w w' -> claimFrame owner' w w'.
Proof.
  intros E (L & K & N). split; [done|]. split; [done|].
  intros key pvc H. destruct (N key pvc H) as [H'|H']; [by left | right].
  unfold controlledBy in *. by rewrite <- E.
Qed.

Lemma sameButStatus_controllerRef (before after : MonitorStack) :
  sameButStatus before after -> controllerRef after = controllerRef before.
Proof. intros ->. reflexivity. Qed.

Lemma initStatus_claims (owner monitorStack : MonitorStack) :
  returns (claimFrame owner) (fun r => sameButStatus monitorStack r.1)
    (initStatus monitorStack).
Proof.
  intros w. unfold initStatus.
  destruct (Phase (Status monitorStack) =? "")%string.
  - unfold_client. case_client; simpl; eexists _, _;
      (split; [reflexivity|]); (split; [|reflexivity]);
      (apply claimsSame_frame; [|reflexivity]);
      (eapply logs_one; [|simpl; reflexivity]); intros [=].
  - eexists _, _. split; [reflexivity|]. split; [apply claimFrame_refl|].
    unfold sameButStatus. by destruct monitorStack.
Qed.

Lemma updateStatus_claims (owner monitorStack : MonitorStack) (phase message : string) :
  preserves (claimFrame owner) (updateStatus monitorStack phase message).
Proof. unfold updateStatus. repeat claim_step. Qed.

Lemma updateOverallStatus_claims (owner monitorStack : MonitorStack) :
  preserves (claimFrame owner) (updateOverallStatus monitorStack).
Proof. unfold updateOverallStatus. repeat claim_step. Qed.

Lemma GetMonitorStack_fetch (req : NamespacedName) (w : World) :
  exists got w1,
    GetMonitorStack req w = (Val got, w1)
    /\ sameStores w w1
    /\ requests w1
       = {| rq_Verb := VerbGet; rq_Kind := KindMonitorStack; rq_Key := req |}
         :: requests w
    /\ (forall monitorStack,
          got = inr monitorStack -> monitorStacks w !! req = Some monitorStack)
    /\ (forall monitorStack,
          faults w (List.length (requests w)) = None ->
          monitorStacks w !! req = Some monitorStack -> got = inr monitorStack)
    /\ (forall err,
          got = inl err -> IsNotFound err = true -> monitorStacks w !! req = None).
Proof.
  unfold_client. destruct (faults w _) as [msg|]; simpl.
  - eexists _, _. split; [reflexivity|].
    repeat split; try (intros; discriminate). by intros err [= <-].
  - destruct (monitorStacks w !! req) as [stored|] eqn:E; simpl;
      (eexists _, _; split; [reflexivity|]); repeat split;
      intros; congruence.
Qed.

(** ** Owner references of freshly built children *)

Lemma SetControllerReference_fresh (owner : MonitorStack) (name : string)
  (labels : gmap string string) :
  SetControllerReference owner
    {| om_Name := name; om_Namespace := Namespace owner; om_Labels := labels;
       om_OwnerReferences := [] |}
  = inr {| om_Name := name; om_Namespace := Namespace owner; om_Labels := labels;
           om_OwnerReferences := [controllerRef owner] |}.
Proof.
  unfold SetControllerReference. simpl. by rewrite String.eqb_refl.
Qed.

(** ** Cleanups and status writes, whatever the API answers *)

Lemma quietRun_refl (req : NamespacedName) (w : World) : quietRun req w w.
Proof. split; [apply logs_refl | by left]. Qed.

Lemma quietRun_trans (req : NamespacedName) (w1 w2 w3 : World) :
  quietRun req w1 w2 -> quietRun req w2 w3 -> quietRun req w1 w3.
Proof.
  intros (L1 & S1) (L2 & S2). split; [by eapply logs_trans|].
  destruct S2 as [E2|S2]; [|by right].
  destruct S1 as [E1|S1]; [left; congruence | right; by rewrite E2].
Qed.

(** A request on a child that is a get or a delete keeps [quietRun]. *)
Ltac quiet_leaf :=
  let w := fresh "w" in
  intros w; unfold_client; case_client; simpl;
  eexists _, _; (split; [reflexivity|]); (split; [|exact I]);
  first
    [ apply quietRun_refl
    | split; [|by left];
      eapply logs_one; [|simpl; reflexivity];
      unfold childReadOrDelete; simpl; intros; tauto ].

Ltac quiet_step :=
  match goal with
  | |- returns _ _ (bind _ _) =>
      eapply (returns_bind _ (fun _ => True)); [apply quietRun_trans | | intros ? _]
  | |- returns _ _ (ret _) => apply returns_ret; [apply quietRun_refl | done]
  | |- returns _ _ (deleteIfFound ?x) => unfold deleteIfFound; destruct x
  | |- returns _ _ (Get _) => quiet_leaf
  | |- returns _ _ (Delete _) => quiet_leaf
  end.

Lemma cleanupPrometheusResources_quiet (req : NamespacedName) (monitorStack : MonitorStack) :
  returns (quietRun req) (fun err => err = None)
    (cleanupPrometheusResources monitorStack).
Proof. unfold cleanupPrometheusResources. repeat quiet_step. Qed.

Lemma cleanupGrafanaResources_quiet (req : NamespacedName) (monitorStack : MonitorStack) :
  returns (quietRun req) (fun err => err = None)
    (cleanupGrafanaResources monitorStack).
Proof. unfold cleanupGrafanaResources. repeat quiet_step. Qed.



(** ** The client and the convergence steps when no request fails *)

Lemma sameStores_refl (w : World) : sameStores w w.
Proof. by repeat split. Qed.

Lemma sameStores_trans (w1 w2 w3 : World) :
  sameStores w1 w2 -> sameStores w2 w3 -> sameStores w1 w3.
Proof.
  unfold sameStores. intros (?&?&?&?&?&?&?) (?&?&?&?&?&?&?).
  repeat split; congruence.
Qed.

Lemma sameStores_faultFree (w w' : World) :
  sameStores w w' -> faultFree w -> faultFree w'.
Proof. intros (_&_&_&_&_&_&E) H n. by rewrite E. Qed.

(** The client on a cluster where no request fails, kind by kind. *)
Ltac run_client Hf :=
  unfold_client; rewrite ?Hf; simpl;
  repeat match goal with
  | H : ?m !! ?k = _ |- context [?m !! ?k] => rewrite H
  end; simpl.

Lemma Get_ConfigMap_found (key : NamespacedName) (obj : ConfigMap) (w : World) :
  faultFree w -> configMaps w !! key = Some obj ->
  exists w', Get key w = (Val (inr obj), w') /\ sameStores w w'.
Proof. intros Hf Hl. run_client Hf. eexists. split; [reflexivity | by repeat split]. Qed.

Lemma Get_Claim_found (key : NamespacedName) (obj : PersistentVolumeClaim) (w : World) :
  faultFree w -> persistentVolumeClaims w !! key = Some obj ->
  exists w', Get key w = (Val (inr obj), w') /\ sameStores w w'.
Proof. intros Hf Hl. run_client Hf. eexists. split; [reflexivity | by repeat split]. Qed.

Lemma Get_Deployment_found (key : NamespacedName) (obj : Deployment) (w : World) :
  faultFree w -> deployments w !! key = Some obj ->
  exists w', Get key w = (Val (inr obj), w') /\ sameStores w w'.
Proof. intros Hf Hl. run_client Hf. eexists. split; [reflexivity | by repeat split]. Qed.

Lemma Get_Service_found (key : NamespacedName) (obj : Service) (w : World) :
  faultFree w -> services w !! key = Some obj ->
  exists w', Get key w = (Val (inr obj), w') /\ sameStores w w'.
Proof. intros Hf Hl. run_client Hf. eexists. split; [reflexivity | by repeat split]. Qed.

Lemma Get_ConfigMap_absent (key : NamespacedName) (w : World) :
  faultFree w -> configMaps w !! key = None ->
  exists w', Get (T := ConfigMap) key w = (Val (inl (notFound key)), w')
             /\ sameStores w w'.
Proof. intros Hf Hl. run_client Hf. eexists. split; [reflexivity | by repeat split]. Qed.

Lemma Get_Deployment_absent (key : NamespacedName) (w : World) :
  faultFree w -> deployments w !! key = None ->
  exists w', Get (T := Deployment) key w = (Val (inl (notFound key)), w')
             /\ sameStores w w'.
Proof. intros Hf Hl. run_client Hf. eexists. split; [reflexivity | by repeat split]. Qed.

Lemma Get_Service_absent (key : NamespacedName) (w : World) :
  faultFree w -> services w !! key = None ->
  exists w', Get (T := Service) key w = (Val (inl (notFound key)), w')
             /\ sameStores w w'.
Proof. intros Hf Hl. run_client Hf. eexists. split; [reflexivity | by repeat split]. Qed.

(** Updating an object to what is stored changes nothing. *)
Lemma Update_ConfigMap_same (obj : ConfigMap) (w : World) :
  faultFree w -> configMaps w !! keyOf obj = Some obj ->
  exists w', Update obj w = (Val None, w') /\ sameStores w w'.
Proof.
  intros Hf Hl. unfold keyOf in Hl. simpl in Hl. run_client Hf.
  eexists. split; [reflexivity|]. repeat split. simpl. by apply insert_id.
Qed.

Lemma Update_Deployment_same (obj : Deployment) (w : World) :
  faultFree w -> deployments w !! keyOf obj = Some obj ->
  exists w', Update obj w = (Val None, w') /\ sameStores w w'.
Proof.
  intros Hf Hl. unfold keyOf in Hl. simpl in Hl. run_client Hf.
  eexists. split; [reflexivity|]. repeat split. simpl. by apply insert_id.
Qed.

Lemma Update_Service_same (obj : Service) (w : World) :
  faultFree w -> services w !! keyOf obj = Some obj ->
  exists w', Update obj w = (Val None, w') /\ sameStores w w'.
Proof.
  intros Hf Hl. unfold keyOf in Hl. simpl in Hl. run_client Hf.
  eexists. split; [reflexivity|]. repeat split. simpl. by apply insert_id.
Qed.

(** Deleting an object that is stored removes it and nothing else. *)
Lemma Delete_Deployment_found (obj stored : Deployment) (w : World) :
  faultFree w -> deployments w !! keyOf obj = Some stored ->
  exists w',
    Delete obj w = (Val None, w')
    /\ deployments w' = delete (keyOf obj) (deployments w)
    /\ monitorStacks w' = monitorStacks w /\ configMaps w' = configMaps w
    /\ persistentVolumeClaims w' = persistentVolumeClaims w
    /\ services w' = services w /\ now w' = now w /\ faults w' = faults w.
Proof.
  intros Hf Hl. unfold keyOf in Hl. simpl in Hl. run_client Hf.
  eexists. split; [reflexivity|]. by repeat split.
Qed.

Lemma Delete_Service_found (obj stored : Service) (w : World) :
  faultFree w -> services w !! keyOf obj = Some stored ->
  exists w',
    Delete obj w = (Val None, w')
    /\ services w' = delete (keyOf obj) (services w)
    /\ monitorStacks w' = monitorStacks w /\ configMaps w' = configMaps w
    /\ persistentVolumeClaims w' = persistentVolumeClaims w
    /\ deployments w' = deployments w /\ now w' = now w /\ faults w' = faults w.
Proof.
  intros Hf Hl. unfold keyOf in Hl. simpl in Hl. run_client Hf.
  eexists. split; [reflexivity|]. by repeat split.
Qed.

Lemma bind_returns {A B : Type} (m : M A) (k : A -> M B) (w w1 : World) (a : A) :
  m w = (Val a, w1) -> bind m k w = k a w1.
Proof. intros E. unfold bind. by rewrite E. Qed.

(** Run the next bind with a lemma that gives its result and [sameStores]. *)
Ltac step_same lem Hf w1 S :=
  let E := fresh "E" in
  let Hf1 := fresh "Hf" in
  destruct lem as (w1 & E & S);
  [ try exact Hf; try done ..
  | rewrite (bind_returns _ _ _ _ _ E); clear E;
    pose proof (sameStores_faultFree _ _ S Hf) as Hf1 ].

Lemma withLabels_same (meta : ObjectMeta) : withLabels meta (om_Labels meta) = meta.
Proof. by destruct meta. Qed.

Lemma applyDeployment_converged (monitorStack : MonitorStack)
  (built deployment : Deployment) (w : World) :
  faultFree w ->
  dep_Meta built
  = {| om_Name := om_Name (dep_Meta built); om_Namespace := Namespace monitorStack;
       om_Labels := om_Labels (dep_Meta built); om_OwnerReferences := [] |} ->
  deployments w !! keyOf built = Some deployment ->
  keyOf deployment = keyOf built ->
  dep_Spec deployment = dep_Spec built ->
  om_Labels (dep_Meta deployment) = om_Labels (dep_Meta built) ->
  exists w', applyDeployment monitorStack built w = (Val None, w')
             /\ sameStores w w'.
Proof.
  intros Hf Hm Hl Hk Hs Hlab.
  unfold applyDeployment. rewrite Hm, SetControllerReference_fresh.
  assert (Hkey : keyOf built = (Namespace monitorStack, om_Name (dep_Meta built))).
  { unfold keyOf. simpl. by rewrite Hm. }
  change (keyOf (withMeta_Deployment _ _))
    with (Namespace monitorStack, om_Name (dep_Meta built)).
  rewrite <- Hkey.
  step_same (Get_Deployment_found (keyOf built) deployment w Hf Hl) Hf w1 S1.
  cbn [withMeta_Deployment dep_Meta dep_Spec om_Labels].
  rewrite <- Hlab, withLabels_same, <- Hs.
  replace {| dep_Meta := dep_Meta deployment; dep_Spec := _; dep_Status := _ |}
    with deployment by (by destruct deployment).
  destruct (Update_Deployment_same deployment w1) as (w2 & E & S2); [done| |].
  { rewrite Hk. destruct S1 as (_ & _ & _ & -> & _). done. }
  exists w2. split; [done | by eapply sameStores_trans].
Qed.

Lemma applyService_converged (monitorStack : MonitorStack)
  (built service : Service) (w : World) :
  faultFree w ->
  s_Meta built
  = {| om_Name := om_Name (s_Meta built); om_Namespace := Namespace monitorStack;
       om_Labels := om_Labels (s_Meta built); om_OwnerReferences := [] |} ->
  services w !! keyOf built = Some service ->
  keyOf service = keyOf built ->
  ss_Type (s_Spec service) = ss_Type (s_Spec built) ->
  ss_Ports (s_Spec service) = ss_Ports (s_Spec built) ->
  om_Labels (s_Meta service) = om_Labels (s_Meta built) ->
  exists w', applyService monitorStack built w = (Val None, w')
             /\ sameStores w w'.
Proof.
  intros Hf Hm Hl Hk Ht Hp Hlab.
  unfold applyService. rewrite Hm, SetControllerReference_fresh.
  assert (Hkey : keyOf built = (Namespace monitorStack, om_Name (s_Meta built))).
  { unfold keyOf. simpl. by rewrite Hm. }
  change (keyOf (withMeta_Service _ _))
    with (Namespace monitorStack, om_Name (s_Meta built)).
  rewrite <- Hkey.
  step_same (Get_Service_found (keyOf built) service w Hf Hl) Hf w1 S1.
  cbn [withMeta_Service s_Meta s_Spec om_Labels].
  rewrite <- Hlab, withLabels_same, <- Ht, <- Hp.
  replace {| s_Meta := s_Meta service; s_Spec := _ |} with service
    by (destruct service as [m [? ? ?]]; reflexivity).
  destruct (Update_Service_same service w1) as (w2 & E & S2); [done| |].
  { rewrite Hk. destruct S1 as (_ & _ & _ & _ & -> & _). done. }
  exists w2. split; [done | by eapply sameStores_trans].
Qed.

Lemma withPrometheusStatus_same (monitorStack : MonitorStack) :
  withPrometheusStatus monitorStack (PrometheusStatus (Status monitorStack))
  = monitorStack.
Proof. by destruct monitorStack as [? ? ? ? ? ? []]. Qed.

Lemma cleanupPrometheusResources_absent (monitorStack : MonitorStack) (w : World) :
  faultFree w ->
  prometheusChildrenAbsent monitorStack w ->
  exists w', cleanupPrometheusResources monitorStack w = (Val None, w')
             /\ sameStores w w'.
Proof.
  intros Hf (Hdep & Hsvc & Hcm).
  unfold cleanupPrometheusResources.
  step_same (Get_Deployment_absent (prometheusKey monitorStack) w Hf Hdep) Hf w1 S1.
  unfold deleteIfFound at 1. rewrite (bind_returns _ _ _ w1 tt eq_refl).
  step_same (Get_Service_absent (prometheusKey monitorStack) w1) Hf0 w2 S2.
  { destruct S1 as (_ & _ & _ & _ & -> & _). done. }
  unfold deleteIfFound at 1. rewrite (bind_returns _ _ _ w2 tt eq_refl).
  assert (S12 : sameStores w w2) by (by eapply sameStores_trans).
  step_same (Get_ConfigMap_absent (prometheusConfigKey monitorStack) w2) Hf1 w3 S3.
  { destruct S12 as (_ & -> & _). done. }
  unfold deleteIfFound at 1. rewrite (bind_returns _ _ _ w3 tt eq_refl).
  exists w3. split; [reflexivity | by eapply sameStores_trans].
Qed.

Lemma cleanupGrafanaResources_present (monitorStack : MonitorStack) (w : World) :
  faultFree w ->
  grafanaChildrenPresent monitorStack w ->
  exists w',
    cleanupGrafanaResources monitorStack w = (Val None, w')
    /\ deployments w' = delete (grafanaKey monitorStack) (deployments w)
    /\ services w' = delete (grafanaKey monitorStack) (services w)
    /\ monitorStacks w' = monitorStacks w /\ configMaps w' = configMaps w
    /\ persistentVolumeClaims w' = persistentVolumeClaims w
    /\ now w' = now w /\ faults w' = faults w.
Proof.
  intros Hf (dep & svc & Hdep & Hdepk & Hsvc & Hsvck).
  unfold cleanupGrafanaResources.
  step_same (Get_Deployment_found (grafanaKey monitorStack) dep w Hf Hdep) Hf w1 S1.
  unfold deleteIfFound at 1.
  destruct (Delete_Deployment_found dep dep w1) as (w2 & E2 & D2); [done| |].
  { rewrite Hdepk. destruct S1 as (_ & _ & _ & -> & _). done. }
  rewrite (bind_returns _ _ _ _ _ (bind_returns _ (fun _ => ret tt) _ _ _ E2)).
  destruct D2 as (Ddep & Dms & Dcm & Dpvc & Dsvc & Dnow & Dflt).
  destruct S1 as (Sms & Scm & Spvc & Sdep & Ssvc & Snow & Sflt).
  assert (Hf2 : faultFree w2) by (intros n; rewrite Dflt; apply Hf0).
  step_same (Get_Service_found (grafanaKey monitorStack) svc w2 Hf2) Hf2 w3 S3.
  { by rewrite Dsvc, Ssvc. }
  unfold deleteIfFound at 1.
  destruct (Delete_Service_found svc svc w3) as (w4 & E4 & D4); [done| |].
  { rewrite Hsvck. destruct S3 as (_ & _ & _ & _ & -> & _). by rewrite Dsvc, Ssvc. }
  rewrite (bind_returns _ _ _ _ _ (bind_returns _ (fun _ => ret tt) _ _ _ E4)).
  destruct D4 as (Esvc & Ems & Ecm & Epvc & Edep & Enow & Eflt).
  destruct S3 as (Tms & Tcm & Tpvc & Tdep & Tsvc & Tnow & Tflt).
  exists w4. split; [reflexivity|].
  rewrite Hdepk in Ddep. rewrite Hsvck in Esvc.
  repeat split; congruence.
Qed.

Lemma StatusUpdate_succeeds (monitorStack stored : MonitorStack) (w : World) :
  faultFree w ->
  monitorStacks w !! stackKey monitorStack = Some stored ->
  exists w',
    StatusUpdate monitorStack w = (Val None, w')
    /\ monitorStacks w'
       = <[stackKey monitorStack := withStatus stored (Status monitorStack)]>
           (monitorStacks w)
    /\ configMaps w' = configMaps w
    /\ persistentVolumeClaims w' = persistentVolumeClaims w
    /\ deployments w' = deployments w /\ services w' = services w.
Proof.
  intros Hf Hl. run_client Hf. eexists. split; [reflexivity|]. by repeat split.
Qed.

Lemma prometheusKey_not_grafanaKey (monitorStack : MonitorStack) :
  prometheusKey monitorStack <> grafanaKey monitorStack.
Proof.
  unfold prometheusKey, grafanaKey, getPrometheusName, getGrafanaName.
  intros [= H]. by apply (inj (String.app _)) in H.
Qed.

Lemma grafanaChildrenPresent_sameStores (monitorStack : MonitorStack) (w w' : World) :
  sameStores w w' -> grafanaChildrenPresent monitorStack w ->
  grafanaChildrenPresent monitorStack w'.
Proof.
  intros (Sms & Scm & Spvc & Sdep & Ssvc & _).
  unfold grafanaChildrenPresent. by rewrite Sdep, Ssvc.
Qed.

Lemma updateOverallStatus_succeeds (monitorStack stored : MonitorStack) (w : World) :
  faultFree w ->
  monitorStacks w !! stackKey monitorStack = Some stored ->
  exists updated w',
    updateOverallStatus monitorStack w = (Val (updated, None), w')
    /\ PrometheusStatus (Status updated) = PrometheusStatus (Status monitorStack)
    /\ GrafanaStatus (Status updated) = GrafanaStatus (Status monitorStack)
    /\ monitorStacks w'
       = <[stackKey monitorStack := withStatus stored (Status updated)]>
           (monitorStacks w)
    /\ configMaps w' = configMaps w
    /\ persistentVolumeClaims w' = persistentVolumeClaims w
    /\ deployments w' = deployments w /\ services w' = services w.
Proof.
  intros Hf Hl. unfold updateOverallStatus. cbv [bind Now ret].
  destruct (_ && _);
    match goal with
    | |- context [StatusUpdate ?u w] =>
        destruct (StatusUpdate_succeeds u stored w Hf Hl) as (w' & -> & H)
    end;
    eexists _, w'; (split; [reflexivity|]); (split; [reflexivity|]);
    (split; [reflexivity|]); exact H.
Qed.

(** ** What the code does where it departs from the specification *)

(** Observing a workload with no ready replica keeps the endpoint that the
    status already holds. *)
Lemma observeDeployment_not_ready (status : ComponentStatus) (deployment : Deployment)
  (serviceName : string) (port : Z) :
  dst_ReadyReplicas (dep_Status deployment) <= 0 ->
  observeDeployment status deployment serviceName port
  = {| cs_Ready := false;
       cs_Replicas := dst_Replicas (dep_Status deployment);
       cs_Message := "Not Ready";
       cs_Endpoint := cs_Endpoint status |}.
Proof.
  intros H. unfold observeDeployment.
  replace (_ >? 0) with false; [reflexivity|].
  symmetry. rewrite Z.gtb_ltb. by apply Z.ltb_ge.
Qed.

(** The deletion protocol never takes its retry branch: the cleanups return
    nil whatever the API answers, so the finalizer removal is always
    attempted and the result carries no requeue interval. *)
Lemma handleDeletion_never_retries (monitorStack : MonitorStack) (w : World) :
  exists err w1 w',
    handleDeletion monitorStack w = (Val (noRequeue, err), w')
    /\ UpdateMonitorStack (RemoveFinalizer monitorStack finalizerName) w1
       = (Val err, w').
Proof.
  unfold handleDeletion.
  destruct (cleanupPrometheusResources_quiet (stackKey monitorStack) monitorStack w)
    as (e1 & w1 & E1 & _ & ->).
  rewrite (bind_returns _ _ _ _ _ E1).
  destruct (cleanupGrafanaResources_quiet (stackKey monitorStack) monitorStack w1)
    as (e2 & w2 & E2 & _ & ->).
  rewrite (bind_returns _ _ _ _ _ E2).
  unfold bind, ret.
  destruct (UpdateMonitorStack _ w2) as [[err|msg] w'] eqn:E.
  - by exists err, w2, w'.
  - exfalso. revert E. unfold_client. case_client; discriminate.
Qed.

(** ** Labels *)

(** X1. The labels of a child carry every identity label, with the
    generated value unless the user's labels give the key another value; and
    every user label is carried as given. *)
Theorem getLabels_identity (monitorStack : MonitorStack) (component : string) :
  (forall key value,
      (key, value) ∈ identityLabels monitorStack component ->
      getLabels monitorStack component !! key
      = Some (default value (spec_Labels (Spec monitorStack) !! key)))
  /\ (forall key value,
        spec_Labels (Spec monitorStack) !! key = Some value ->
        getLabels monitorStack component !! key = Some value).
Proof.
  unfold getLabels, identityLabels. split.
  - intros key value Hin.
    destruct (spec_Labels (Spec monitorStack) !! key) as [user|] eqn:E; simpl.
    + by apply lookup_union_Some_l.
    + rewrite lookup_union_r by done.
      repeat (apply elem_of_cons in Hin as [[= -> ->] | Hin]);
        [ reflexivity .. | by apply elem_of_nil in Hin ].
  - intros key value E. by apply lookup_union_Some_l.
Qed.

(** ** Validation: which error is reported *)

Lemma validateDatasources_first (datasources : list DatasourceSpec) (k : Z) (i : nat)
  (ds : DatasourceSpec) :
  datasources !! i = Some ds ->
  datasourceIncomplete ds ->
  Forall (fun d => ~ datasourceIncomplete d) (take i datasources) ->
  exists field,
    firstEmptyField ds = Some field
    /\ validateDatasources k datasources
       = Some (errorString ("datasource[" +:+ pretty (k + Z.of_nat i) +:+ "] " +:+ field
                            +:+ " cannot be empty")).
Proof.
  revert k i. induction datasources as [|d rest IH]; intros k i Hl Hinc Hall.
  { by rewrite lookup_nil in Hl. }
  destruct i as [|i]; simpl in *.
  - injection Hl as ->. rewrite Z.add_0_r. unfold firstEmptyField.
    destruct Hinc as [H | [H | H]];
      destruct (ds_Name ds =? "")%string eqn:En; eauto;
      destruct (ds_Type ds =? "")%string eqn:Et; eauto;
      destruct (ds_URL ds =? "")%string eqn:Eu; eauto;
      apply String.eqb_neq in En, Et, Eu; congruence.
  - apply Forall_cons in Hall as [Hd Hall].
    unfold datasourceIncomplete in Hd.
    destruct (ds_Name d =? "")%string eqn:En;
      [apply String.eqb_eq in En; tauto|].
    destruct (ds_Type d =? "")%string eqn:Et;
      [apply String.eqb_eq in Et; tauto|].
    destruct (ds_URL d =? "")%string eqn:Eu;
      [apply String.eqb_eq in Eu; tauto|].
    destruct (IH (k + 1) i Hl Hinc Hall) as (field & Hf & ->).
    exists field. split; [done|].
    by replace (k + 1 + Z.of_nat i) with (k + Z.pos (Pos.of_succ_nat i)) by lia.
Qed.

(** X4. On a dashboard whose port, node port, image, tag and admin password
    pass, validation reports the first incomplete datasource: the error
    names its index and the first of its name, type and URL that is empty. *)
Theorem validateGrafanaConfig_first_datasource (monitorStack : MonitorStack) (i : nat)
  (ds : DatasourceSpec) :
  grafanaScalarsValid monitorStack ->
  g_Datasources (Grafana (Spec monitorStack)) !! i = Some ds ->
  datasourceIncomplete ds ->
  Forall (fun d => ~ datasourceIncomplete d)
    (take i (g_Datasources (Grafana (Spec monitorStack)))) ->
  exists field,
    firstEmptyField ds = Some field
    /\ validateGrafanaConfig monitorStack
       = Some (errorString ("datasource[" +:+ pretty (Z.of_nat i) +:+ "] " +:+ field
                            +:+ " cannot be empty")).
Proof.
  intros (Hport & Hnode & Himage & Htag & Hpw) Hl Hinc Hall.
  destruct (validateDatasources_first _ 0 i ds Hl Hinc Hall) as (field & Hf & E).
  exists field. split; [done|].
  unfold validateGrafanaConfig. cbv zeta.
  unfold portOutOfRange in Hport. unfold nodePortOutOfRange in Hnode.
  destruct (_ || _) eqn:E1.
  { exfalso. apply Hport. revert E1. reflect_tests. lia. }
  destruct (_ && _ && _) eqn:E2.
  { exfalso. apply Hnode. revert E2. reflect_tests. tauto. }
  apply String.eqb_neq in Himage as ->. apply String.eqb_neq in Htag as ->.
  apply String.eqb_neq in Hpw as ->. exact E.
Qed.

(** ** Defaulting, then validation *)

Lemma orDefault_nonempty (s d : string) : d <> "" -> orDefault s d <> "".
Proof.
  intros Hd. unfold orDefault. destruct (s =? "")%string eqn:E; [done|].
  by apply String.eqb_neq.
Qed.

Lemma orDefault_NodePort (s : string) :
  orDefault s "ClusterIP" = "NodePort" <-> s = "NodePort".
Proof.
  unfold orDefault. destruct (s =? "")%string eqn:E.
  - apply String.eqb_eq in E as ->. split; discriminate.
  - reflexivity.
Qed.

Lemma setServiceDefaults_port (port : Z) (service : ServiceSpec) :
  1 <= port <= 65535 ->
  portOutOfRange (setServiceDefaults port service) <-> ~ portUnsetOrValid service.
Proof.
  intros Hp. unfold portOutOfRange, portUnsetOrValid, setServiceDefaults. simpl.
  destruct (svc_Port service =? 0) eqn:E; [apply Z.eqb_eq in E | apply Z.eqb_neq in E];
    lia.
Qed.

Lemma setServiceDefaults_nodePort (port : Z) (service : ServiceSpec) :
  nodePortOutOfRange (setServiceDefaults port service) <-> nodePortOutOfRange service.
Proof.
  unfold nodePortOutOfRange, setServiceDefaults. simpl.
  by rewrite orDefault_NodePort.
Qed.

Lemma setPrometheusDefaults_invalid (monitorStack : MonitorStack) :
  p_Enabled (Prometheus (Spec monitorStack)) = true ->
  prometheusInvalid (setDefaultValues monitorStack)
  <-> ~ portUnsetOrValid (p_Service (Prometheus (Spec monitorStack)))
      \/ nodePortOutOfRange (p_Service (Prometheus (Spec monitorStack))).
Proof.
  intros Hp. unfold prometheusInvalid, setDefaultValues. simpl. rewrite Hp. simpl.
  rewrite setServiceDefaults_port, setServiceDefaults_nodePort by lia.
  pose proof (orDefault_nonempty (p_Image (Prometheus (Spec monitorStack)))
                "prom/prometheus").
  pose proof (orDefault_nonempty (p_Tag (Prometheus (Spec monitorStack))) "latest").
  intuition congruence.
Qed.

Lemma setGrafanaDefaults_invalid (monitorStack : MonitorStack) :
  g_Enabled (Grafana (Spec monitorStack)) = true ->
  grafanaInvalid (setDefaultValues monitorStack)
  <-> ~ portUnsetOrValid (g_Service (Grafana (Spec monitorStack)))
      \/ nodePortOutOfRange (g_Service (Grafana (Spec monitorStack)))
      \/ Exists datasourceIncomplete (g_Datasources (Grafana (Spec monitorStack))).
Proof.
  intros Hg. unfold grafanaInvalid, setDefaultValues. simpl. rewrite Hg. simpl.
  rewrite setServiceDefaults_port, setServiceDefaults_nodePort by lia.
  pose proof (orDefault_nonempty (g_Image (Grafana (Spec monitorStack)))
                "grafana/grafana").
  pose proof (orDefault_nonempty (g_Tag (Grafana (Spec monitorStack))) "latest").
  pose proof (orDefault_nonempty (g_AdminPassword (Grafana (Spec monitorStack)))
                "admin").
  intuition congruence.
Qed.

Lemma setDefaultValues_enabled (monitorStack : MonitorStack) :
  p_Enabled (Prometheus (Spec (setDefaultValues monitorStack)))
  = p_Enabled (Prometheus (Spec monitorStack))
  /\ g_Enabled (Grafana (Spec (setDefaultValues monitorStack)))
     = g_Enabled (Grafana (Spec monitorStack)).
Proof.
  unfold setDefaultValues. simpl.
  by destruct (p_Enabled (Prometheus (Spec monitorStack))) eqn:Ep,
    (g_Enabled (Grafana (Spec monitorStack))) eqn:Eg.
Qed.

Lemma validate_after_defaults (monitorStack : MonitorStack) :
  is_Some (validateMonitorStack (setDefaultValues monitorStack))
  <-> rejectedAfterDefaults monitorStack.
Proof.
  rewrite validateMonitorStack_error. unfold rejectedAfterDefaults, bothDisabled.
  destruct (setDefaultValues_enabled monitorStack) as [-> ->].
  destruct (p_Enabled (Prometheus (Spec monitorStack))) eqn:Ep,
    (g_Enabled (Grafana (Spec monitorStack))) eqn:Eg;
    rewrite ?setPrometheusDefaults_invalid, ?setGrafanaDefaults_invalid by done;
    intuition congruence.
Qed.

(** X5. Validation of a defaulted spec fails iff both subsystems are
    disabled, or an enabled subsystem has an explicit port outside
    [1,65535] or a node port that is out of range, or the dashboard has an
    incomplete datasource: an empty image, tag or admin password and an
    unset port are repaired by the defaults.  A spec that validation accepts
    is still accepted once defaulted. *)
Theorem setDefaultValues_then_validate (monitorStack : MonitorStack) :
  (is_Some (validateMonitorStack (setDefaultValues monitorStack))
   <-> rejectedAfterDefaults monitorStack)
  /\ (validateMonitorStack (setDefaultValues monitorStack) = None
      <-> ~ rejectedAfterDefaults monitorStack)
  /\ (validateMonitorStack monitorStack = None ->
      validateMonitorStack (setDefaultValues monitorStack) = None).
Proof.
  pose proof (validate_after_defaults monitorStack) as H.
  assert (Hnone : forall o : option error, o = None <-> ~ is_Some o).
  { intros [e|]; split; intros Ho;
      first [done | exfalso; apply Ho; eauto | intros [? ?]; discriminate]. }
  split; [exact H|]. split; [by rewrite Hnone, H|].
  rewrite !Hnone, H, validateMonitorStack_error.
  unfold rejectedAfterDefaults, prometheusInvalid, grafanaInvalid, portUnsetOrValid,
    portOutOfRange.
  intros Hv Hr. apply Hv. clear Hv.
  destruct Hr as [Hr | [[Hp Hr] | [Hg Hr]]]; [by left | right; left | right; right];
    (split; [done|]); cbv zeta.
  - destruct Hr as [Hr|Hr]; [left; lia | by right; left].
  - destruct Hr as [Hr|[Hr|Hr]]; [left; lia | by right; left | by do 5 right].
Qed.

(** ** Labels of the two components *)

(** X6. The labels generated for two different components differ, unless the
    user's labels set the component key: then both components get the same
    labels (and the same selectors). *)
Theorem getLabels_component (monitorStack : MonitorStack) (c1 c2 : string) :
  c1 <> c2 ->
  getLabels monitorStack c1 = getLabels monitorStack c2
  <-> is_Some (spec_Labels (Spec monitorStack) !! "app.kubernetes.io/component").
Proof.
  intros Hne. unfold getLabels. split.
  - intros E.
    destruct (spec_Labels (Spec monitorStack) !! "app.kubernetes.io/component")
      as [user|] eqn:Hu; [eauto|].
    exfalso. apply Hne.
    apply (f_equal (fun m => m !! "app.kubernetes.io/component")) in E.
    rewrite !lookup_union_r in E by done.
    vm_compute in E. congruence.
  - intros [user Hu]. apply map_eq. intros key.
    destruct (spec_Labels (Spec monitorStack) !! key) as [v|] eqn:Hk.
    + by rewrite !(lookup_union_Some_l _ _ _ v).
    + rewrite !lookup_union_r by done.
      assert (Hkey : key <> "app.kubernetes.io/component") by congruence.
      rewrite !lookup_insert.
      repeat case_decide; try done; congruence.
Qed.

(** ** The datasources file *)

Lemma string_app_assoc (s t u : string) : (s +:+ t) +:+ u = s +:+ (t +:+ u).
Proof.
  apply list_ascii_of_string_inj.
  by rewrite !list_ascii_of_string_app, app_assoc.
Qed.

Lemma string_app_empty_r (s : string) : s +:+ "" = s.
Proof.
  apply list_ascii_of_string_inj.
  by rewrite list_ascii_of_string_app, app_nil_r.
Qed.

Lemma appendDatasources_rest (i : Z) (datasources : list DatasourceSpec) (config : string) :
  0 < i ->
  appendDatasources i datasources config
  = config +:+ foldr (fun ds rest => datasourceEntry ds false +:+ rest) "" datasources.
Proof.
  revert i config. induction datasources as [|ds rest IH]; intros i config Hi.
  - simpl. by rewrite string_app_empty_r.
  - cbn [appendDatasources foldr]. rewrite IH by lia.
    replace (i =? 0) with false by (symmetry; apply Z.eqb_neq; lia).
    cbn [andb]. fold (datasourceEntry ds false).
    by rewrite string_app_assoc.
Qed.

(** X7. The datasources file is the two header lines followed by one entry
    per datasource, in order; only the first entry can be marked as the
    default, and it is iff its type is "prometheus"; with no datasource the
    file is the header alone. *)
Theorem buildGrafanaDatasourcesConfig_entries (monitorStack : MonitorStack) :
  buildGrafanaDatasourcesConfig monitorStack
  = ("apiVersion: 1" +:+ newline +:+ "datasources:")
    +:+ match g_Datasources (Grafana (Spec monitorStack)) with
        | [] => ""
        | first :: rest =>
            datasourceEntry first (ds_Type first =? "prometheus")%string
            +:+ foldr (fun ds rest => datasourceEntry ds false +:+ rest) "" rest
        end.
Proof.
  unfold buildGrafanaDatasourcesConfig.
  destruct (g_Datasources (Grafana (Spec monitorStack))) as [|first rest].
  - simpl. by rewrite string_app_empty_r.
  - cbn [appendDatasources]. rewrite appendDatasources_rest by lia.
    cbn [Z.eqb andb]. fold (datasourceEntry first (ds_Type first =? "prometheus")%string).
    by rewrite string_app_assoc.
Qed.


(** ** Services *)

Lemma buildService_ports_valid (name namespace portName : string) (targetPort : Z)
  (labels : gmap string string) (service : ServiceSpec) :
  ~ portOutOfRange service -> ~ nodePortOutOfRange service ->
  Forall validServicePort
    (ss_Ports (s_Spec (buildService name namespace portName targetPort labels service))).
Proof.
  unfold portOutOfRange, nodePortOutOfRange. intros Hp Hn.
  unfold buildService. simpl. apply Forall_cons. split; [|constructor].
  unfold validServicePort. simpl. split; [lia|].
  destruct (_ =? "NodePort")%string eqn:Et; simpl; [|by left].
  destruct (_ >? 0) eqn:En; [|by left].
  apply String.eqb_eq in Et. apply gtb_true in En.
  assert (~ (svc_NodePort service < 30000 \/ svc_NodePort service > 32767)) by tauto.
  right. lia.
Qed.

(** X11. The service built for an enabled subsystem of a spec that
    validation accepts has a port in [1,65535] and a node port that is 0
    (left to the cluster) or in [30000,32767]. *)
Theorem validated_service_ports (monitorStack : MonitorStack) :
  validateMonitorStack monitorStack = None ->
  (p_Enabled (Prometheus (Spec monitorStack)) = true ->
   Forall validServicePort (ss_Ports (s_Spec (buildPrometheusService monitorStack))))
  /\ (g_Enabled (Grafana (Spec monitorStack)) = true ->
      Forall validServicePort (ss_Ports (s_Spec (buildGrafanaService monitorStack)))).
Proof.
  intros Hv.
  assert (Hn : ~ is_Some (validateMonitorStack monitorStack))
    by (rewrite Hv; intros [? ?]; discriminate).
  rewrite validateMonitorStack_error in Hn.
  unfold prometheusInvalid, grafanaInvalid in Hn. cbv zeta in Hn.
  split; intros He; apply buildService_ports_valid; tauto.
Qed.

(** ** One convergence step, whatever the API answers *)

Lemma sameBut_refl (kind : Kind) (w : World) : sameBut kind w w.
Proof. by repeat split. Qed.

Ltac solve_sameBut :=
  repeat split; simpl; first [done | intros; congruence].

Ltac solve_member :=
  unfold applyRequests, cleanupRequests; repeat first [apply list_elem_of_here | apply list_elem_of_further].

Ltac solve_logs :=
  first
    [ apply logs_refl
    | unfold logs; eexists [_]; split; [reflexivity|]
    | unfold logs; eexists [_; _]; split; [reflexivity|] ];
  repeat (apply Forall_cons; split; [solve_member|]); by apply Forall_nil.

Ltac solve_wellKeyed :=
  unfold wellKeyed; simpl; repeat split; try done;
  first [ apply map_Forall_insert_2; [|done]; first [done | reflexivity]
        | by apply map_Forall_delete ].

Ltac no_fault Hf := let H := fresh in intros H; rewrite H in Hf; discriminate Hf.

Lemma applyDeployment_run (monitorStack : MonitorStack) (built : Deployment) (w : World) :
  wellKeyed w ->
  om_Namespace (dep_Meta built) = Namespace monitorStack ->
  om_OwnerReferences (dep_Meta built) = [] ->
  exists err w',
    applyDeployment monitorStack built w = (Val err, w')
    /\ wellKeyed w'
    /\ sameBut KindDeployment w w'
    /\ (forall k, k <> keyOf built -> deployments w' !! k = deployments w !! k)
    /\ logs (fun r => r ∈ applyRequests KindDeployment (keyOf built)) w w'
    /\ (faultFree w -> err = None)
    /\ match deployments w !! keyOf built with
       | Some old =>
           exists obj,
             deployments w' !! keyOf built = Some obj
             /\ om_OwnerReferences (dep_Meta obj) = om_OwnerReferences (dep_Meta old)
             /\ dep_Status obj = dep_Status old
             /\ (err = None ->
                 dep_Spec obj = dep_Spec built
                 /\ om_Labels (dep_Meta obj) = om_Labels (dep_Meta built))
             /\ (is_Some err -> obj = old)
       | None =>
           (err = None ->
            deployments w' !! keyOf built
            = Some (withMeta_Deployment built (owned monitorStack (dep_Meta built))))
           /\ (is_Some err -> deployments w' !! keyOf built = None)
       end.
Proof.
  intros (Kms & Kcm & Kpvc & Kdep & Ksvc) Hns Hrefs.
  unfold applyDeployment.
  replace (dep_Meta built)
    with {| om_Name := om_Name (dep_Meta built); om_Namespace := Namespace monitorStack;
            om_Labels := om_Labels (dep_Meta built); om_OwnerReferences := [] |}
    by (destruct built as [[] ? ?]; simpl in *; congruence).
  rewrite SetControllerReference_fresh.
  assert (Hkey : keyOf built = (Namespace monitorStack, om_Name (dep_Meta built))).
  { unfold keyOf. simpl. by rewrite Hns. }
  rewrite Hkey. set (key := (Namespace monitorStack, om_Name (dep_Meta built))).
  unfold_client. simpl. fold key.
  destruct (faults w (Datatypes.length (requests w))) as [msg|] eqn:Hf0; simpl.
  { eexists _, _. split; [reflexivity|]. simpl.
    split; [solve_wellKeyed|]. split; [solve_sameBut|]. split; [done|].
    split; [solve_logs|]. split; [no_fault Hf0|].
    destruct (deployments w !! key) as [old|]; [|by split].
    exists old. repeat split; first [done | intros; discriminate]. }
  destruct (deployments w !! key) as [old|] eqn:Hold; simpl.
  - pose proof (Kdep _ _ Hold) as Hk. unfold keyOf in Hk. simpl in Hk. rewrite Hk.
    destruct (faults w (S (Datatypes.length (requests w)))) as [msg|] eqn:Hf1; simpl.
    { eexists _, _. split; [reflexivity|]. simpl.
      split; [solve_wellKeyed|]. split; [solve_sameBut|]. split; [done|].
      split; [solve_logs|]. split; [no_fault Hf1|].
      exists old. repeat split; first [done | intros; discriminate]. }
    rewrite Hold. eexists _, _. split; [reflexivity|]. simpl.
    split; [solve_wellKeyed|]. split; [solve_sameBut|].
    split; [intros k Hne; by rewrite lookup_insert_ne|].
    split; [solve_logs|]. split; [done|].
    eexists. rewrite lookup_insert_eq. split; [reflexivity|].
    repeat split; first [done | intros [? ?]; discriminate].
  - destruct (faults w (S (Datatypes.length (requests w)))) as [msg|] eqn:Hf1; simpl.
    { eexists _, _. split; [reflexivity|]. simpl.
      split; [solve_wellKeyed|]. split; [solve_sameBut|]. split; [done|].
      split; [solve_logs|]. split; [no_fault Hf1|].
      split; [intros; discriminate | done]. }
    rewrite Hold. eexists _, _. split; [reflexivity|]. simpl.
    split; [solve_wellKeyed|]. split; [solve_sameBut|].
    split; [intros k Hne; by rewrite lookup_insert_ne|].
    split; [solve_logs|]. split; [done|].
    rewrite lookup_insert_eq. split; [|intros [? ?]; discriminate].
    intros _. reflexivity.
Qed.

Lemma applyService_run (monitorStack : MonitorStack) (built : Service) (w : World) :
  wellKeyed w ->
  om_Namespace (s_Meta built) = Namespace monitorStack ->
  om_OwnerReferences (s_Meta built) = [] ->
  exists err w',
    applyService monitorStack built w = (Val err, w')
    /\ wellKeyed w'
    /\ sameBut KindService w w'
    /\ (forall k, k <> keyOf built -> services w' !! k = services w !! k)
    /\ logs (fun r => r ∈ applyRequests KindService (keyOf built)) w w'
    /\ (faultFree w -> err = None)
    /\ match services w !! keyOf built with
       | Some old =>
           exists obj,
             services w' !! keyOf built = Some obj
             /\ om_OwnerReferences (s_Meta obj) = om_OwnerReferences (s_Meta old)
             /\ ss_Selector (s_Spec obj) = ss_Selector (s_Spec old)
             /\ (err = None ->
                 ss_Type (s_Spec obj) = ss_Type (s_Spec built)
                 /\ ss_Ports (s_Spec obj) = ss_Ports (s_Spec built)
                 /\ om_Labels (s_Meta obj) = om_Labels (s_Meta built))
             /\ (is_Some err -> obj = old)
       | None =>
           (err = None ->
            services w' !! keyOf built
            = Some (withMeta_Service built (owned monitorStack (s_Meta built))))
           /\ (is_Some err -> services w' !! keyOf built = None)
       end.
Proof.
  intros (Kms & Kcm & Kpvc & Kdep & Ksvc) Hns Hrefs.
  unfold applyService.
  replace (s_Meta built)
    with {| om_Name := om_Name (s_Meta built); om_Namespace := Namespace monitorStack;
            om_Labels := om_Labels (s_Meta built); om_OwnerReferences := [] |}
    by (destruct built as [[] ?]; simpl in *; congruence).
  rewrite SetControllerReference_fresh.
  assert (Hkey : keyOf built = (Namespace monitorStack, om_Name (s_Meta built))).
  { unfold keyOf. simpl. by rewrite Hns. }
  rewrite Hkey. set (key := (Namespace monitorStack, om_Name (s_Meta built))).
  unfold_client. simpl. fold key.
  destruct (faults w (Datatypes.length (requests w))) as [msg|] eqn:Hf0; simpl.
  { eexists _, _. split; [reflexivity|]. simpl.
    split; [solve_wellKeyed|]. split; [solve_sameBut|]. split; [done|].
    split; [solve_logs|]. split; [no_fault Hf0|].
    destruct (services w !! key) as [old|]; [|by split].
    exists old. repeat split; first [done | intros; discriminate]. }
  destruct (services w !! key) as [old|] eqn:Hold; simpl.
  - pose proof (Ksvc _ _ Hold) as Hk. unfold keyOf in Hk. simpl in Hk. rewrite Hk.
    destruct (faults w (S (Datatypes.length (requests w)))) as [msg|] eqn:Hf1; simpl.
    { eexists _, _. split; [reflexivity|]. simpl.
      split; [solve_wellKeyed|]. split; [solve_sameBut|]. split; [done|].
      split; [solve_logs|]. split; [no_fault Hf1|].
      exists old. repeat split; first [done | intros; discriminate]. }
    rewrite Hold. eexists _, _. split; [reflexivity|]. simpl.
    split; [solve_wellKeyed|]. split; [solve_sameBut|].
    split; [intros k Hne; by rewrite lookup_insert_ne|].
    split; [solve_logs|]. split; [done|].
    eexists. rewrite lookup_insert_eq. split; [reflexivity|].
    repeat split; first [done | intros [? ?]; discriminate].
  - destruct (faults w (S (Datatypes.length (requests w)))) as [msg|] eqn:Hf1; simpl.
    { eexists _, _. split; [reflexivity|]. simpl.
      split; [solve_wellKeyed|]. split; [solve_sameBut|]. split; [done|].
      split; [solve_logs|]. split; [no_fault Hf1|].
      split; [intros; discriminate | done]. }
    rewrite Hold. eexists _, _. split; [reflexivity|]. simpl.
    split; [solve_wellKeyed|]. split; [solve_sameBut|].
    split; [intros k Hne; by rewrite lookup_insert_ne|].
    split; [solve_logs|]. split; [done|].
    rewrite lookup_insert_eq. split; [|intros [? ?]; discriminate].
    intros _. reflexivity.
Qed.

Lemma applyConfigMap_run (monitorStack : MonitorStack) (built : ConfigMap) (w : World) :
  wellKeyed w ->
  om_Namespace (cm_Meta built) = Namespace monitorStack ->
  om_OwnerReferences (cm_Meta built) = [] ->
  exists err w',
    applyConfigMap monitorStack built w = (Val err, w')
    /\ wellKeyed w'
    /\ sameBut KindConfigMap w w'
    /\ (forall k, k <> keyOf built -> configMaps w' !! k = configMaps w !! k)
    /\ logs (fun r => r ∈ applyRequests KindConfigMap (keyOf built)) w w'
    /\ (faultFree w -> err = None)
    /\ match configMaps w !! keyOf built with
       | Some old =>
           exists obj,
             configMaps w' !! keyOf built = Some obj
             /\ cm_Meta obj = cm_Meta old
             /\ (err = None -> cm_Data obj = cm_Data built)
             /\ (is_Some err -> obj = old)
       | None =>
           (err = None ->
            configMaps w' !! keyOf built
            = Some (withMeta_ConfigMap built (owned monitorStack (cm_Meta built))))
           /\ (is_Some err -> configMaps w' !! keyOf built = None)
       end.
Proof.
  intros (Kms & Kcm & Kpvc & Kdep & Ksvc) Hns Hrefs.
  unfold applyConfigMap.
  replace (cm_Meta built)
    with {| om_Name := om_Name (cm_Meta built); om_Namespace := Namespace monitorStack;
            om_Labels := om_Labels (cm_Meta built); om_OwnerReferences := [] |}
    by (destruct built as [[] ?]; simpl in *; congruence).
  rewrite SetControllerReference_fresh.
  assert (Hkey : keyOf built = (Namespace monitorStack, om_Name (cm_Meta built))).
  { unfold keyOf. simpl. by rewrite Hns. }
  rewrite Hkey. set (key := (Namespace monitorStack, om_Name (cm_Meta built))).
  unfold_client. simpl. fold key.
  destruct (faults w (Datatypes.length (requests w))) as [msg|] eqn:Hf0; simpl.
  { eexists _, _. split; [reflexivity|]. simpl.
    split; [solve_wellKeyed|]. split; [solve_sameBut|]. split; [done|].
    split; [solve_logs|]. split; [no_fault Hf0|].
    destruct (configMaps w !! key) as [old|]; [|by split].
    exists old. repeat split; first [done | intros; discriminate]. }
  destruct (configMaps w !! key) as [old|] eqn:Hold; simpl.
  - pose proof (Kcm _ _ Hold) as Hk. unfold keyOf in Hk. simpl in Hk. rewrite Hk.
    destruct (faults w (S (Datatypes.length (requests w)))) as [msg|] eqn:Hf1; simpl.
    { eexists _, _. split; [reflexivity|]. simpl.
      split; [solve_wellKeyed|]. split; [solve_sameBut|]. split; [done|].
      split; [solve_logs|]. split; [no_fault Hf1|].
      exists old. repeat split; first [done | intros; discriminate]. }
    rewrite Hold. eexists _, _. split; [reflexivity|]. simpl.
    split; [solve_wellKeyed|]. split; [solve_sameBut|].
    split; [intros k Hne; by rewrite lookup_insert_ne|].
    split; [solve_logs|]. split; [done|].
    eexists. rewrite lookup_insert_eq. split; [reflexivity|].
    repeat split; first [done | intros [? ?]; discriminate].
  - destruct (faults w (S (Datatypes.length (requests w)))) as [msg|] eqn:Hf1; simpl.
    { eexists _, _. split; [reflexivity|]. simpl.
      split; [solve_wellKeyed|]. split; [solve_sameBut|]. split; [done|].
      split; [solve_logs|]. split; [no_fault Hf1|].
      split; [intros; discriminate | done]. }
    rewrite Hold. eexists _, _. split; [reflexivity|]. simpl.
    split; [solve_wellKeyed|]. split; [solve_sameBut|].
    split; [intros k Hne; by rewrite lookup_insert_ne|].
    split; [solve_logs|]. split; [done|].
    rewrite lookup_insert_eq. split; [|intros [? ?]; discriminate].
    intros _. reflexivity.
Qed.

(** Getting a child and deleting it when the get found it. *)
Lemma cleanup_Deployment_run (key : NamespacedName) (w : World) :
  wellKeyed w ->
  exists w',
    (forall (B : Type) (rest : M B),
        (let* got := Get (T := Deployment) key in
         let* _ := deleteIfFound got in rest) w = rest w')
    /\ wellKeyed w'
    /\ sameBut KindDeployment w w'
    /\ (forall k, k <> key -> deployments w' !! k = deployments w !! k)
    /\ logs (fun r => r ∈ cleanupRequests KindDeployment key) w w'
    /\ (deployments w' !! key = deployments w !! key \/ deployments w' !! key = None)
    /\ (faultFree w -> deployments w' !! key = None).
Proof.
  intros (Kms & Kcm & Kpvc & Kdep & Ksvc).
  unfold_client. simpl.
  destruct (faults w (Datatypes.length (requests w))) as [msg|] eqn:Hf0; simpl.
  { eexists. split; [reflexivity|]. simpl.
    split; [solve_wellKeyed|]. split; [solve_sameBut|]. split; [done|].
    split; [solve_logs|]. split; [by left | no_fault Hf0]. }
  destruct (deployments w !! key) as [old|] eqn:Hold; simpl.
  - pose proof (Kdep _ _ Hold) as Hk. unfold keyOf in Hk. simpl in Hk. rewrite Hk.
    destruct (faults w (S (Datatypes.length (requests w)))) as [msg|] eqn:Hf1; simpl.
    { eexists. split; [reflexivity|]. simpl.
      split; [solve_wellKeyed|]. split; [solve_sameBut|]. split; [done|].
      split; [solve_logs|]. split; [by left | no_fault Hf1]. }
    rewrite Hold. eexists. split; [reflexivity|]. simpl.
    split; [solve_wellKeyed|]. split; [solve_sameBut|].
    split; [intros k Hne; by rewrite lookup_delete_ne|].
    split; [solve_logs|]. rewrite lookup_delete_eq. by split; [right|].
  - eexists. split; [reflexivity|]. simpl.
    split; [solve_wellKeyed|]. split; [solve_sameBut|]. split; [done|].
    split; [solve_logs|]. by split; [left|].
Qed.

Lemma cleanup_Service_run (key : NamespacedName) (w : World) :
  wellKeyed w ->
  exists w',
    (forall (B : Type) (rest : M B),
        (let* got := Get (T := Service) key in
         let* _ := deleteIfFound got in rest) w = rest w')
    /\ wellKeyed w'
    /\ sameBut KindService w w'
    /\ (forall k, k <> key -> services w' !! k = services w !! k)
    /\ logs (fun r => r ∈ cleanupRequests KindService key) w w'
    /\ (services w' !! key = services w !! key \/ services w' !! key = None)
    /\ (faultFree w -> services w' !! key = None).
Proof.
  intros (Kms & Kcm & Kpvc & Kdep & Ksvc).
  unfold_client. simpl.
  destruct (faults w (Datatypes.length (requests w))) as [msg|] eqn:Hf0; simpl.
  { eexists. split; [reflexivity|]. simpl.
    split; [solve_wellKeyed|]. split; [solve_sameBut|]. split; [done|].
    split; [solve_logs|]. split; [by left | no_fault Hf0]. }
  destruct (services w !! key) as [old|] eqn:Hold; simpl.
  - pose proof (Ksvc _ _ Hold) as Hk. unfold keyOf in Hk. simpl in Hk. rewrite Hk.
    destruct (faults w (S (Datatypes.length (requests w)))) as [msg|] eqn:Hf1; simpl.
    { eexists. split; [reflexivity|]. simpl.
      split; [solve_wellKeyed|]. split; [solve_sameBut|]. split; [done|].
      split; [solve_logs|]. split; [by left | no_fault Hf1]. }
    rewrite Hold. eexists. split; [reflexivity|]. simpl.
    split; [solve_wellKeyed|]. split; [solve_sameBut|].
    split; [intros k Hne; by rewrite lookup_delete_ne|].
    split; [solve_logs|]. rewrite lookup_delete_eq. by split; [right|].
  - eexists. split; [reflexivity|]. simpl.
    split; [solve_wellKeyed|]. split; [solve_sameBut|]. split; [done|].
    split; [solve_logs|]. by split; [left|].
Qed.

Lemma cleanup_ConfigMap_run (key : NamespacedName) (w : World) :
  wellKeyed w ->
  exists w',
    (forall (B : Type) (rest : M B),
        (let* got := Get (T := ConfigMap) key in
         let* _ := deleteIfFound got in rest) w = rest w')
    /\ wellKeyed w'
    /\ sameBut KindConfigMap w w'
    /\ (forall k, k <> key -> configMaps w' !! k = configMaps w !! k)
    /\ logs (fun r => r ∈ cleanupRequests KindConfigMap key) w w'
    /\ (configMaps w' !! key = configMaps w !! key \/ configMaps w' !! key = None)
    /\ (faultFree w -> configMaps w' !! key = None).
Proof.
  intros (Kms & Kcm & Kpvc & Kdep & Ksvc).
  unfold_client. simpl.
  destruct (faults w (Datatypes.length (requests w))) as [msg|] eqn:Hf0; simpl.
  { eexists. split; [reflexivity|]. simpl.
    split; [solve_wellKeyed|]. split; [solve_sameBut|]. split; [done|].
    split; [solve_logs|]. split; [by left | no_fault Hf0]. }
  destruct (configMaps w !! key) as [old|] eqn:Hold; simpl.
  - pose proof (Kcm _ _ Hold) as Hk. unfold keyOf in Hk. simpl in Hk. rewrite Hk.
    destruct (faults w (S (Datatypes.length (requests w)))) as [msg|] eqn:Hf1; simpl.
    { eexists. split; [reflexivity|]. simpl.
      split; [solve_wellKeyed|]. split; [solve_sameBut|]. split; [done|].
      split; [solve_logs|]. split; [by left | no_fault Hf1]. }
    rewrite Hold. eexists. split; [reflexivity|]. simpl.
    split; [solve_wellKeyed|]. split; [solve_sameBut|].
    split; [intros k Hne; by rewrite lookup_delete_ne|].
    split; [solve_logs|]. rewrite lookup_delete_eq. by split; [right|].
  - eexists. split; [reflexivity|]. simpl.
    split; [solve_wellKeyed|]. split; [solve_sameBut|]. split; [done|].
    split; [solve_logs|]. by split; [left|].
Qed.

(** Writes on the stack itself, whatever the API answers. *)
Lemma StatusUpdate_run (monitorStack : MonitorStack) (w : World) :
  wellKeyed w ->
  exists err w',
    StatusUpdate monitorStack w = (Val err, w')
    /\ wellKeyed w'
    /\ sameBut KindMonitorStack w w'
    /\ (forall k, k <> stackKey monitorStack ->
          monitorStacks w' !! k = monitorStacks w !! k)
    /\ logs (fun r => r ∈ stackRequests monitorStack) w w'
    /\ (err = None ->
        exists stored,
          monitorStacks w !! stackKey monitorStack = Some stored
          /\ monitorStacks w' !! stackKey monitorStack
             = Some (withStatus stored (Status monitorStack)))
    /\ (is_Some err -> monitorStacks w' = monitorStacks w)
    /\ (faultFree w -> is_Some (monitorStacks w !! stackKey monitorStack) -> err = None).
Proof.
  intros (Kms & Kcm & Kpvc & Kdep & Ksvc).
  unfold_client. simpl.
  destruct (faults w (Datatypes.length (requests w))) as [msg|] eqn:Hf0; simpl.
  { eexists _, _. split; [reflexivity|]. simpl.
    split; [solve_wellKeyed|]. split; [solve_sameBut|]. split; [done|].
    split; [unfold stackRequests; solve_logs|].
    split; [intros; discriminate|]. split; [done | no_fault Hf0]. }
  destruct (monitorStacks w !! stackKey monitorStack) as [stored|] eqn:Hs; simpl.
  - eexists _, _. split; [reflexivity|]. simpl.
    split.
    { unfold wellKeyed; simpl; repeat split; try done.
      apply map_Forall_insert_2; [|done]. apply (Kms _ _ Hs). }
    split; [solve_sameBut|].
    split; [intros k Hne; by rewrite lookup_insert_ne|].
    split; [unfold stackRequests; solve_logs|].
    split; [intros _; exists stored; by rewrite lookup_insert_eq|].
    split; [intros [? ?]; discriminate | done].
  - eexists _, _. split; [reflexivity|]. simpl.
    split; [solve_wellKeyed|]. split; [solve_sameBut|]. split; [done|].
    split; [unfold stackRequests; solve_logs|].
    split; [intros; discriminate|]. split; [done|].
    intros _ [? ?]; discriminate.
Qed.

Lemma UpdateMonitorStack_run (monitorStack : MonitorStack) (w : World) :
  wellKeyed w ->
  exists err w',
    UpdateMonitorStack monitorStack w = (Val err, w')
    /\ wellKeyed w'
    /\ sameBut KindMonitorStack w w'
    /\ (forall k, k <> stackKey monitorStack ->
          monitorStacks w' !! k = monitorStacks w !! k)
    /\ logs (fun r => r ∈ stackRequests monitorStack) w w'
    /\ (err = None ->
        exists stored,
          monitorStacks w !! stackKey monitorStack = Some stored
          /\ monitorStacks w' !! stackKey monitorStack
             = match DeletionTimestamp stored, Finalizers monitorStack with
               | Some _, [] => None
               | _, _ => Some (withSpec (withFinalizers stored (Finalizers monitorStack))
                                 (Spec monitorStack))
               end)
    /\ (is_Some err -> monitorStacks w' = monitorStacks w)
    /\ (faultFree w -> is_Some (monitorStacks w !! stackKey monitorStack) -> err = None).
Proof.
  intros (Kms & Kcm & Kpvc & Kdep & Ksvc).
  unfold_client. simpl.
  destruct (faults w (Datatypes.length (requests w))) as [msg|] eqn:Hf0; simpl.
  { eexists _, _. split; [reflexivity|]. simpl.
    split; [solve_wellKeyed|]. split; [solve_sameBut|]. split; [done|].
    split; [unfold stackRequests; solve_logs|].
    split; [intros; discriminate|]. split; [done | no_fault Hf0]. }
  destruct (monitorStacks w !! stackKey monitorStack) as [stored|] eqn:Hs; simpl.
  - destruct (DeletionTimestamp stored) as [t|] eqn:Hd;
      [destruct (Finalizers monitorStack) as [|f fs] eqn:Hfin|];
      (eexists _, _; split; [reflexivity|]); simpl;
      (split;
       [unfold wellKeyed; simpl; repeat split; try done;
        first [ by apply map_Forall_delete
              | apply map_Forall_insert_2; [|done]; apply (Kms _ _ Hs) ]|]);
      (split; [solve_sameBut|]);
      (split; [intros k Hne; by rewrite ?lookup_insert_ne, ?lookup_delete_ne|]);
      (split; [unfold stackRequests; solve_logs|]);
      (split; [intros _; exists stored;
               by rewrite ?lookup_insert_eq, ?lookup_delete_eq, ?Hd|]);
      (split; [intros [? ?]; discriminate | done]).
  - eexists _, _. split; [reflexivity|]. simpl.
    split; [solve_wellKeyed|]. split; [solve_sameBut|]. split; [done|].
    split; [unfold stackRequests; solve_logs|].
    split; [intros; discriminate|]. split; [done|].
    intros _ [? ?]; discriminate.
Qed.

(** *** Composing computations *)

Lemma keeps_ret {A : Type} (R : World -> World -> Prop) (Q : A -> Prop) (a : A) :
  (forall w, R w w) -> Q a -> keeps R Q (ret a).
Proof. intros Hrefl HQ w. split; [apply Hrefl|]. by intros ? [= <-]. Qed.

Lemma keeps_lift {A : Type} (R : World -> World -> Prop) (r : Res A) :
  (forall w, R w w) -> keeps R (fun _ => True) (lift r).
Proof. intros Hrefl w. split; [apply Hrefl | done]. Qed.

Lemma keeps_bind {A B : Type} (R : World -> World -> Prop)
  (Q1 : A -> Prop) (Q2 : B -> Prop) (m : M A) (k : A -> M B) :
  (forall w1 w2 w3, R w1 w2 -> R w2 w3 -> R w1 w3) ->
  keeps R Q1 m -> (forall a, Q1 a -> keeps R Q2 (k a)) -> keeps R Q2 (bind m k).
Proof.
  intros Htrans Hm Hk w. unfold bind. destruct (Hm w) as [HR HQ].
  destruct (m w) as [[a|msg] w1]; simpl in *; [|by split].
  destruct (Hk a (HQ a eq_refl) w1) as [HR2 HQ2].
  split; [by eapply Htrans | done].
Qed.

Lemma keeps_weaken {A : Type} (R : World -> World -> Prop) (Q Q' : A -> Prop) (m : M A) :
  (forall a, Q a -> Q' a) -> keeps R Q m -> keeps R Q' m.
Proof. intros HQ Hm w. destruct (Hm w) as [HR H]. split; [done | eauto]. Qed.

Lemma keeps_returns {A : Type} (R : World -> World -> Prop) (Q : A -> Prop) (m : M A) :
  (forall w, exists a w', m w = (Val a, w') /\ R w w' /\ Q a) -> keeps R Q m.
Proof.
  intros H w. destruct (H w) as (a & w' & -> & HR & HQ). split; [done|].
  by intros ? [= <-].
Qed.

Lemma logs_weaken (P Q : Request -> Prop) (w w' : World) :
  (forall r, P r -> Q r) -> logs P w w' -> logs Q w w'.
Proof.
  intros HPQ (new & E & F). exists new. split; [done|].
  eapply Forall_impl; [exact F | exact HPQ].
Qed.

(** *** Confinement *)

Lemma untouched_refl (monitorStack : MonitorStack) (w : World) :
  untouched monitorStack w w.
Proof. by repeat split. Qed.

Lemma untouched_trans (monitorStack : MonitorStack) (w1 w2 w3 : World) :
  untouched monitorStack w1 w2 -> untouched monitorStack w2 w3 ->
  untouched monitorStack w1 w3.
Proof.
  intros (A1 & A2 & A3 & A4 & A5 & A6 & A7) (B1 & B2 & B3 & B4 & B5 & B6 & B7).
  repeat split; intros; first [congruence | by rewrite B1, A1 | by rewrite B2, A2
    | by rewrite B3, A3 | by rewrite B4, A4 | by rewrite B5, A5].
Qed.

Lemma confined_refl (monitorStack : MonitorStack) (w : World) : confined monitorStack w w.
Proof. intros Hw. split; [done|]. split; [apply logs_refl | apply untouched_refl]. Qed.

Lemma confined_trans (monitorStack : MonitorStack) (w1 w2 w3 : World) :
  confined monitorStack w1 w2 -> confined monitorStack w2 w3 ->
  confined monitorStack w1 w3.
Proof.
  intros H12 H23 Hw. destruct (H12 Hw) as (Hw2 & L12 & U12).
  destruct (H23 Hw2) as (Hw3 & L23 & U23).
  split; [done|]. split; [by eapply logs_trans | by eapply untouched_trans].
Qed.

Ltac use_sameBut H :=
  let Sms := fresh "Sms" in let Scm := fresh "Scm" in let Spvc := fresh "Spvc" in
  let Sdep := fresh "Sdep" in let Ssvc := fresh "Ssvc" in
  let Snow := fresh "Snow" in let Sflt := fresh "Sflt" in
  destruct H as (Sms & Scm & Spvc & Sdep & Ssvc & Snow & Sflt);
  try specialize (Sms ltac:(discriminate));
  try specialize (Scm ltac:(discriminate));
  try specialize (Spvc ltac:(discriminate));
  try specialize (Sdep ltac:(discriminate));
  try specialize (Ssvc ltac:(discriminate)).

Ltac solve_engine_member :=
  unfold engineRequests, stackRequests, applyRequests, cleanupRequests,
    getClaim, createClaim, datasourcesKey, prometheusKey, prometheusConfigKey,
    grafanaKey, claimKey; simpl;
  repeat first [apply list_elem_of_here | apply list_elem_of_further].

Lemma engineRequests_apply (monitorStack : MonitorStack) (kind : Kind)
  (key : NamespacedName) (r : Request) :
  (kind, key) ∈ [ (KindConfigMap, prometheusConfigKey monitorStack);
                  (KindDeployment, prometheusKey monitorStack);
                  (KindService, prometheusKey monitorStack);
                  (KindConfigMap, datasourcesKey monitorStack);
                  (KindDeployment, grafanaKey monitorStack);
                  (KindService, grafanaKey monitorStack) ] ->
  r ∈ applyRequests kind key -> r ∈ engineRequests monitorStack.
Proof.
  intros Hk Hr. unfold applyRequests in Hr.
  repeat (apply elem_of_cons in Hk as [[= -> ->] | Hk]);
    try (by apply elem_of_nil in Hk);
    repeat (apply elem_of_cons in Hr as [-> | Hr]);
    try (by apply elem_of_nil in Hr); solve_engine_member.
Qed.

Lemma engineRequests_cleanup (monitorStack : MonitorStack) (kind : Kind)
  (key : NamespacedName) (r : Request) :
  (kind, key) ∈ [ (KindConfigMap, prometheusConfigKey monitorStack);
                  (KindDeployment, prometheusKey monitorStack);
                  (KindService, prometheusKey monitorStack);
                  (KindDeployment, grafanaKey monitorStack);
                  (KindService, grafanaKey monitorStack) ] ->
  r ∈ cleanupRequests kind key -> r ∈ engineRequests monitorStack.
Proof.
  intros Hk Hr. unfold cleanupRequests in Hr.
  repeat (apply elem_of_cons in Hk as [[= -> ->] | Hk]);
    try (by apply elem_of_nil in Hk);
    repeat (apply elem_of_cons in Hr as [-> | Hr]);
    try (by apply elem_of_nil in Hr); solve_engine_member.
Qed.

Lemma engineRequests_stack (monitorStack : MonitorStack) (r : Request) :
  r ∈ stackRequests monitorStack -> r ∈ engineRequests monitorStack.
Proof.
  intros Hr. unfold stackRequests in Hr.
  repeat (apply elem_of_cons in Hr as [-> | Hr]);
    try (by apply elem_of_nil in Hr); solve_engine_member.
Qed.

Lemma confined_unit (monitorStack : MonitorStack) (w w' : World)
  (P : Request -> Prop) :
  wellKeyed w' ->
  logs P w w' -> (forall r, P r -> r ∈ engineRequests monitorStack) ->
  untouched monitorStack w w' ->
  confined monitorStack w w'.
Proof.
  intros Hw L HP U _. split; [done|]. split; [|done]. by eapply logs_weaken.
Qed.

Lemma applyConfigMap_confined (monitorStack : MonitorStack) (built : ConfigMap) :
  om_Namespace (cm_Meta built) = Namespace monitorStack ->
  om_OwnerReferences (cm_Meta built) = [] ->
  keyOf built = prometheusConfigKey monitorStack
  \/ keyOf built = datasourcesKey monitorStack ->
  keeps (confined monitorStack) (fun _ => True) (applyConfigMap monitorStack built).
Proof.
  intros Hns Hrefs Hkey w. split; [|done]. intros Hw.
  destruct (applyConfigMap_run monitorStack built w Hw Hns Hrefs)
    as (err & w' & -> & Hw' & S & F & L & _). simpl.
  revert Hw. eapply confined_unit; [done | exact L | |].
  - intros r. apply engineRequests_apply.
    destruct Hkey as [-> | ->];
      repeat first [apply list_elem_of_here | apply list_elem_of_further].
  - use_sameBut S. repeat split; intros; first [congruence | apply F].
    destruct Hkey; congruence.
Qed.

Lemma applyDeployment_confined (monitorStack : MonitorStack) (built : Deployment) :
  om_Namespace (dep_Meta built) = Namespace monitorStack ->
  om_OwnerReferences (dep_Meta built) = [] ->
  keyOf built = prometheusKey monitorStack \/ keyOf built = grafanaKey monitorStack ->
  keeps (confined monitorStack) (fun _ => True) (applyDeployment monitorStack built).
Proof.
  intros Hns Hrefs Hkey w. split; [|done]. intros Hw.
  destruct (applyDeployment_run monitorStack built w Hw Hns Hrefs)
    as (err & w' & -> & Hw' & S & F & L & _). simpl.
  revert Hw. eapply confined_unit; [done | exact L | |].
  - intros r. apply engineRequests_apply.
    destruct Hkey as [-> | ->];
      repeat first [apply list_elem_of_here | apply list_elem_of_further].
  - use_sameBut S. repeat split; intros; first [congruence | apply F].
    destruct Hkey; congruence.
Qed.

Lemma applyService_confined (monitorStack : MonitorStack) (built : Service) :
  om_Namespace (s_Meta built) = Namespace monitorStack ->
  om_OwnerReferences (s_Meta built) = [] ->
  keyOf built = prometheusKey monitorStack \/ keyOf built = grafanaKey monitorStack ->
  keeps (confined monitorStack) (fun _ => True) (applyService monitorStack built).
Proof.
  intros Hns Hrefs Hkey w. split; [|done]. intros Hw.
  destruct (applyService_run monitorStack built w Hw Hns Hrefs)
    as (err & w' & -> & Hw' & S & F & L & _). simpl.
  revert Hw. eapply confined_unit; [done | exact L | |].
  - intros r. apply engineRequests_apply.
    destruct Hkey as [-> | ->];
      repeat first [apply list_elem_of_here | apply list_elem_of_further].
  - use_sameBut S. repeat split; intros; first [congruence | apply F].
    destruct Hkey; congruence.
Qed.

Lemma Get_Deployment_confined (monitorStack : MonitorStack) (key : NamespacedName) :
  key = prometheusKey monitorStack \/ key = grafanaKey monitorStack ->
  keeps (confined monitorStack) (fun _ => True) (Get (T := Deployment) key).
Proof.
  intros Hkey w. split; [|done]. intros Hw.
  assert (Hr : {| rq_Verb := VerbGet; rq_Kind := KindDeployment; rq_Key := key |}
               ∈ engineRequests monitorStack)
    by (destruct Hkey as [-> | ->]; solve_engine_member).
  unfold_client. case_client; simpl;
    (split; [exact Hw|]);
    (split; [eapply logs_one; [exact Hr | reflexivity] | by repeat split]).
Qed.

Lemma StatusUpdate_confined (monitorStack current : MonitorStack) :
  stackKey current = stackKey monitorStack ->
  keeps (confined monitorStack) (fun _ => True) (StatusUpdate current).
Proof.
  intros Hkey w. split; [|done]. intros Hw.
  destruct (StatusUpdate_run current w Hw) as (err & w' & -> & Hw' & S & F & L & _).
  simpl. revert Hw. eapply confined_unit; [done | exact L | |].
  - intros r Hr. apply engineRequests_stack. unfold stackRequests in *.
    by rewrite <- Hkey.
  - use_sameBut S. repeat split; intros; first [congruence | apply F]. congruence.
Qed.

Lemma UpdateMonitorStack_confined (monitorStack current : MonitorStack) :
  stackKey current = stackKey monitorStack ->
  keeps (confined monitorStack) (fun _ => True) (UpdateMonitorStack current).
Proof.
  intros Hkey w. split; [|done]. intros Hw.
  destruct (UpdateMonitorStack_run current w Hw)
    as (err & w' & -> & Hw' & S & F & L & _).
  simpl. revert Hw. eapply confined_unit; [done | exact L | |].
  - intros r Hr. apply engineRequests_stack. unfold stackRequests in *.
    by rewrite <- Hkey.
  - use_sameBut S. repeat split; intros; first [congruence | apply F]. congruence.
Qed.

Lemma Now_confined (monitorStack : MonitorStack) :
  keeps (confined monitorStack) (fun _ => True) Now.
Proof. intros w. split; [apply confined_refl | done]. Qed.

Ltac solve_untouched S F :=
  use_sameBut S; repeat split; intros; first [congruence | apply F]; congruence.

Lemma cleanupPrometheusResources_confined (monitorStack : MonitorStack) :
  keeps (confined monitorStack) (fun err => err = None)
    (cleanupPrometheusResources monitorStack).
Proof.
  intros w. split.
  - intros Hw. unfold cleanupPrometheusResources.
    destruct (cleanup_Deployment_run (prometheusKey monitorStack) w Hw)
      as (w1 & E1 & Hw1 & S1 & F1 & L1 & _).
    unfold prometheusKey in E1. rewrite E1.
    destruct (cleanup_Service_run (prometheusKey monitorStack) w1 Hw1)
      as (w2 & E2 & Hw2 & S2 & F2 & L2 & _).
    unfold prometheusKey, getPrometheusName in E2.
    unfold getPrometheusServiceName. rewrite E2.
    destruct (cleanup_ConfigMap_run (prometheusConfigKey monitorStack) w2 Hw2)
      as (w3 & E3 & Hw3 & S3 & F3 & L3 & _).
    unfold prometheusConfigKey in E3. rewrite E3.
    simpl. revert Hw. change (confined monitorStack w w3).
    apply (confined_trans _ _ w1); [|apply (confined_trans _ _ w2)];
      (eapply confined_unit;
       [ done
       | eassumption
       | intros r; apply engineRequests_cleanup;
         repeat first [apply list_elem_of_here | apply list_elem_of_further]
       | ]).
    + solve_untouched S1 F1.
    + solve_untouched S2 F2.
    + solve_untouched S3 F3.
  - intros a E.
    destruct (cleanupPrometheusResources_quiet (stackKey monitorStack) monitorStack w)
      as (e & w' & E' & _ & ->).
    rewrite E' in E. by injection E as <-.
Qed.

Lemma cleanupGrafanaResources_confined (monitorStack : MonitorStack) :
  keeps (confined monitorStack) (fun err => err = None)
    (cleanupGrafanaResources monitorStack).
Proof.
  intros w. split.
  - intros Hw. unfold cleanupGrafanaResources.
    destruct (cleanup_Deployment_run (grafanaKey monitorStack) w Hw)
      as (w1 & E1 & Hw1 & S1 & F1 & L1 & _).
    unfold grafanaKey in E1. rewrite E1.
    destruct (cleanup_Service_run (grafanaKey monitorStack) w1 Hw1)
      as (w2 & E2 & Hw2 & S2 & F2 & L2 & _).
    unfold grafanaKey, getGrafanaName in E2.
    unfold getGrafanaServiceName. rewrite E2.
    simpl. revert Hw. change (confined monitorStack w w2).
    apply (confined_trans _ _ w1);
      (eapply confined_unit;
       [ done
       | eassumption
       | intros r; apply engineRequests_cleanup;
         repeat first [apply list_elem_of_here | apply list_elem_of_further]
       | ]).
    + solve_untouched S1 F1.
    + solve_untouched S2 F2.
  - intros a E.
    destruct (cleanupGrafanaResources_quiet (stackKey monitorStack) monitorStack w)
      as (e & w' & E' & _ & ->).
    rewrite E' in E. by injection E as <-.
Qed.

Lemma sameButStatus_refl (monitorStack : MonitorStack) :
  sameButStatus monitorStack monitorStack.
Proof. unfold sameButStatus. by destruct monitorStack. Qed.

Lemma confined_sameButStatus (monitorStack current : MonitorStack) (w w' : World) :
  sameButStatus monitorStack current ->
  confined current w w' -> confined monitorStack w w'.
Proof. intros ->. exact id. Qed.

Ltac confined_step :=
  match goal with
  | |- keeps _ _ (bind _ _) =>
      eapply (keeps_bind _ (fun _ => True)); [apply confined_trans | | intros ? _]
  | |- keeps _ _ (ret _) =>
      apply keeps_ret; [apply confined_refl | first [done | apply sameButStatus_refl]]
  | |- keeps _ _ (lift _) => apply keeps_lift, confined_refl
  | |- keeps _ _ Now => apply Now_confined
  | |- keeps _ _ (StatusUpdate _) => by apply StatusUpdate_confined
  | |- keeps _ _ (UpdateMonitorStack _) => by apply UpdateMonitorStack_confined
  | |- keeps _ _ (match ?x with _ => _ end) => destruct x
  end.

Lemma initStatus_confined (monitorStack : MonitorStack) :
  keeps (confined monitorStack) (fun r => sameButStatus monitorStack r.1)
    (initStatus monitorStack).
Proof. unfold initStatus. repeat confined_step. Qed.

Lemma updateStatus_confined (monitorStack current : MonitorStack) (phase message : string) :
  sameButStatus monitorStack current ->
  keeps (confined monitorStack) (fun _ => True) (updateStatus current phase message).
Proof.
  intros Hs. unfold updateStatus. repeat confined_step.
  apply StatusUpdate_confined. by rewrite Hs.
Qed.

Lemma updateOverallStatus_confined (monitorStack current : MonitorStack) :
  sameButStatus monitorStack current ->
  keeps (confined monitorStack) (fun _ => True) (updateOverallStatus current).
Proof.
  intros Hs. unfold updateOverallStatus. repeat confined_step.
  destruct (_ && _); apply StatusUpdate_confined; by rewrite Hs.
Qed.

Lemma handleDeletion_confined (monitorStack : MonitorStack) :
  keeps (confined monitorStack) (fun _ => True) (handleDeletion monitorStack).
Proof.
  unfold handleDeletion.
  repeat first
    [ eapply keeps_weaken; [|apply cleanupPrometheusResources_confined]; done
    | eapply keeps_weaken; [|apply cleanupGrafanaResources_confined]; done
    | confined_step ].
Qed.

(** *** Ownership *)

Lemma ownershipKept_refl (owner : MonitorStack) (w : World) : ownershipKept owner w w.
Proof.
  split.
  - intros kind key old H. by exists old.
  - intros kind key meta H1 H2. congruence.
Qed.

Lemma ownershipKept_trans (owner : MonitorStack) (w1 w2 w3 : World) :
  ownershipKept owner w1 w2 -> ownershipKept owner w2 w3 -> ownershipKept owner w1 w3.
Proof.
  intros [K1 N1] [K2 N2]. split.
  - intros kind key old H.
    destruct (K1 _ _ _ H) as (m2 & H2 & E2).
    destruct (K2 _ _ _ H2) as (m3 & H3 & E3).
    exists m3. split; [done | congruence].
  - intros kind key meta H3 H1.
    destruct (metas w2 kind !! key) as [m2|] eqn:H2.
    + destruct (K2 _ _ _ H2) as (m3 & H3' & E3).
      rewrite H3 in H3'. injection H3' as <-.
      rewrite E3. by eapply N1.
    + by eapply N2.
Qed.

Lemma converging_refl (owner : MonitorStack) (w : World) : converging owner w w.
Proof. intros Hw. split; [done | apply ownershipKept_refl]. Qed.

Lemma converging_trans (owner : MonitorStack) (w1 w2 w3 : World) :
  converging owner w1 w2 -> converging owner w2 w3 -> converging owner w1 w3.
Proof.
  intros H12 H23 Hw. destruct (H12 Hw) as [Hw2 O12]. destruct (H23 Hw2) as [Hw3 O23].
  split; [done | by eapply ownershipKept_trans].
Qed.

Lemma sameStores_converging (owner : MonitorStack) (w w' : World) :
  sameStores w w' -> converging owner w w'.
Proof.
  intros (E1 & E2 & E3 & E4 & E5 & _) Hw. split.
  - unfold wellKeyed. by rewrite E1, E2, E3, E4, E5.
  - split.
    + intros kind key old H. exists old. split; [|done].
      destruct kind; simpl in *; by rewrite ?E2, ?E3, ?E4, ?E5.
    + intros kind key meta H1 H2. exfalso.
      destruct kind; simpl in *; rewrite ?E2, ?E3, ?E4, ?E5 in H1; congruence.
Qed.

Lemma applyDeployment_converging (monitorStack : MonitorStack) (built : Deployment) :
  om_Namespace (dep_Meta built) = Namespace monitorStack ->
  om_OwnerReferences (dep_Meta built) = [] ->
  keeps (converging monitorStack) (fun _ => True) (applyDeployment monitorStack built).
Proof.
  intros Hns Hrefs w. split; [|done]. intros Hw.
  destruct (applyDeployment_run monitorStack built w Hw Hns Hrefs)
    as (err & w' & -> & Hw' & S & F & L & _ & M). simpl.
  split; [done|]. use_sameBut S. split.
  - intros kind key old Hold.
    destruct kind; simpl in *; rewrite ?Scm, ?Spvc, ?Ssvc; try by exists old.
    rewrite lookup_fmap in *.
    destruct (decide (key = keyOf built)) as [->|Hne];
      [|rewrite F by done; by exists old].
    destruct (deployments w !! keyOf built) as [o|]; [|discriminate].
    injection Hold as <-. destruct M as (obj & -> & Hr & _).
    by exists (dep_Meta obj).
  - intros kind key meta Hnew Hnone.
    destruct kind; simpl in *; rewrite ?Scm, ?Spvc, ?Ssvc in Hnew; try congruence.
    rewrite lookup_fmap in *.
    destruct (decide (key = keyOf built)) as [->|Hne];
      [|rewrite F in Hnew by done; congruence].
    destruct (deployments w !! keyOf built) as [o|]; [discriminate|].
    destruct M as [Mok Merr]. destruct err as [e|].
    + rewrite Merr in Hnew by eauto. discriminate.
    + rewrite Mok in Hnew by done. by injection Hnew as <-.
Qed.

Lemma applyService_converging (monitorStack : MonitorStack) (built : Service) :
  om_Namespace (s_Meta built) = Namespace monitorStack ->
  om_OwnerReferences (s_Meta built) = [] ->
  keeps (converging monitorStack) (fun _ => True) (applyService monitorStack built).
Proof.
  intros Hns Hrefs w. split; [|done]. intros Hw.
  destruct (applyService_run monitorStack built w Hw Hns Hrefs)
    as (err & w' & -> & Hw' & S & F & L & _ & M). simpl.
  split; [done|]. use_sameBut S. split.
  - intros kind key old Hold.
    destruct kind; simpl in *; rewrite ?Scm, ?Spvc, ?Sdep; try by exists old.
    rewrite lookup_fmap in *.
    destruct (decide (key = keyOf built)) as [->|Hne];
      [|rewrite F by done; by exists old].
    destruct (services w !! keyOf built) as [o|]; [|discriminate].
    injection Hold as <-. destruct M as (obj & -> & Hr & _).
    by exists (s_Meta obj).
  - intros kind key meta Hnew Hnone.
    destruct kind; simpl in *; rewrite ?Scm, ?Spvc, ?Sdep in Hnew; try congruence.
    rewrite lookup_fmap in *.
    destruct (decide (key = keyOf built)) as [->|Hne];
      [|rewrite F in Hnew by done; congruence].
    destruct (services w !! keyOf built) as [o|]; [discriminate|].
    destruct M as [Mok Merr]. destruct err as [e|].
    + rewrite Merr in Hnew by eauto. discriminate.
    + rewrite Mok in Hnew by done. by injection Hnew as <-.
Qed.

Lemma applyConfigMap_converging (monitorStack : MonitorStack) (built : ConfigMap) :
  om_Namespace (cm_Meta built) = Namespace monitorStack ->
  om_OwnerReferences (cm_Meta built) = [] ->
  keeps (converging monitorStack) (fun _ => True) (applyConfigMap monitorStack built).
Proof.
  intros Hns Hrefs w. split; [|done]. intros Hw.
  destruct (applyConfigMap_run monitorStack built w Hw Hns Hrefs)
    as (err & w' & -> & Hw' & S & F & L & _ & M). simpl.
  split; [done|]. use_sameBut S. split.
  - intros kind key old Hold.
    destruct kind; simpl in *; rewrite ?Ssvc, ?Spvc, ?Sdep; try by exists old.
    rewrite lookup_fmap in *.
    destruct (decide (key = keyOf built)) as [->|Hne];
      [|rewrite F by done; by exists old].
    destruct (configMaps w !! keyOf built) as [o|]; [|discriminate].
    injection Hold as <-. destruct M as (obj & -> & Hr & _).
    exists (cm_Meta obj). split; [done | by rewrite Hr].
  - intros kind key meta Hnew Hnone.
    destruct kind; simpl in *; rewrite ?Ssvc, ?Spvc, ?Sdep in Hnew; try congruence.
    rewrite lookup_fmap in *.
    destruct (decide (key = keyOf built)) as [->|Hne];
      [|rewrite F in Hnew by done; congruence].
    destruct (configMaps w !! keyOf built) as [o|]; [discriminate|].
    destruct M as [Mok Merr]. destruct err as [e|].
    + rewrite Merr in Hnew by eauto. discriminate.
    + rewrite Mok in Hnew by done. by injection Hnew as <-.
Qed.

Lemma Get_Deployment_converging (monitorStack : MonitorStack) (key : NamespacedName) :
  keeps (converging monitorStack) (fun _ => True) (Get (T := Deployment) key).
Proof.
  intros w. split; [|done]. apply sameStores_converging.
  unfold_client. case_client; by repeat split.
Qed.

Ltac converging_step :=
  match goal with
  | |- keeps _ _ (bind _ _) =>
      eapply (keeps_bind _ (fun _ => True)); [apply converging_trans | | intros ? _]
  | |- keeps _ _ (ret _) => apply keeps_ret; [apply converging_refl | done]
  | |- keeps _ _ (lift _) => apply keeps_lift, converging_refl
  | |- keeps _ _ (match ?x with _ => _ end) => destruct x
  end.

(** *** A convergence step that succeeds *)

Lemma applyConfigMap_ok (monitorStack : MonitorStack) (built : ConfigMap) (w w' : World) :
  wellKeyed w ->
  om_Namespace (cm_Meta built) = Namespace monitorStack ->
  om_OwnerReferences (cm_Meta built) = [] ->
  applyConfigMap monitorStack built w = (Val None, w') ->
  wellKeyed w' /\ sameBut KindConfigMap w w'
  /\ (forall k, k <> keyOf built -> configMaps w' !! k = configMaps w !! k)
  /\ exists obj, configMaps w' !! keyOf built = Some obj
                 /\ cm_Data obj = cm_Data built.
Proof.
  intros Hw Hns Hrefs E.
  destruct (applyConfigMap_run monitorStack built w Hw Hns Hrefs)
    as (err & w1 & E1 & Hw1 & S & F & L & _ & M).
  rewrite E in E1. injection E1 as <- <-.
  do 3 (split; [done|]).
  destruct (configMaps w !! keyOf built) as [old|].
  - destruct M as (obj & Hobj & _ & Hd & _). exists obj. split; [done | by apply Hd].
  - destruct M as [Mok _]. rewrite Mok by done. by eexists.
Qed.

Lemma applyDeployment_ok (monitorStack : MonitorStack) (built : Deployment)
  (w w' : World) :
  wellKeyed w ->
  om_Namespace (dep_Meta built) = Namespace monitorStack ->
  om_OwnerReferences (dep_Meta built) = [] ->
  applyDeployment monitorStack built w = (Val None, w') ->
  wellKeyed w' /\ sameBut KindDeployment w w'
  /\ (forall k, k <> keyOf built -> deployments w' !! k = deployments w !! k)
  /\ exists obj, deployments w' !! keyOf built = Some obj
                 /\ dep_Spec obj = dep_Spec built
                 /\ om_Labels (dep_Meta obj) = om_Labels (dep_Meta built).
Proof.
  intros Hw Hns Hrefs E.
  destruct (applyDeployment_run monitorStack built w Hw Hns Hrefs)
    as (err & w1 & E1 & Hw1 & S & F & L & _ & M).
  rewrite E in E1. injection E1 as <- <-.
  do 3 (split; [done|]).
  destruct (deployments w !! keyOf built) as [old|].
  - destruct M as (obj & Hobj & _ & _ & Hd & _). exists obj. split; [done | by apply Hd].
  - destruct M as [Mok _]. rewrite Mok by done. by eexists.
Qed.

Lemma applyService_ok (monitorStack : MonitorStack) (built : Service) (w w' : World) :
  wellKeyed w ->
  om_Namespace (s_Meta built) = Namespace monitorStack ->
  om_OwnerReferences (s_Meta built) = [] ->
  applyService monitorStack built w = (Val None, w') ->
  wellKeyed w' /\ sameBut KindService w w'
  /\ (forall k, k <> keyOf built -> services w' !! k = services w !! k)
  /\ exists obj, services w' !! keyOf built = Some obj
                 /\ ss_Type (s_Spec obj) = ss_Type (s_Spec built)
                 /\ ss_Ports (s_Spec obj) = ss_Ports (s_Spec built)
                 /\ om_Labels (s_Meta obj) = om_Labels (s_Meta built).
Proof.
  intros Hw Hns Hrefs E.
  destruct (applyService_run monitorStack built w Hw Hns Hrefs)
    as (err & w1 & E1 & Hw1 & S & F & L & _ & M).
  rewrite E in E1. injection E1 as <- <-.
  do 3 (split; [done|]).
  destruct (services w !! keyOf built) as [old|].
  - destruct M as (obj & Hobj & _ & _ & Hd & _). exists obj. split; [done | by apply Hd].
  - destruct M as [Mok _]. rewrite Mok by done. by eexists.
Qed.

Lemma Get_Deployment_run (key : NamespacedName) (w : World) :
  exists got w',
    Get (T := Deployment) key w = (Val got, w')
    /\ sameStores w w'
    /\ (forall deployment, got = inr deployment -> deployments w !! key = Some deployment)
    /\ (faultFree w ->
        got = match deployments w !! key with
              | Some deployment => inr deployment
              | None => inl (notFound key)
              end).
Proof.
  unfold_client.
  destruct (faults w (Datatypes.length (requests w))) as [msg|] eqn:Hf; simpl.
  - eexists _, _. split; [reflexivity|]. split; [by repeat split|].
    split; [intros; discriminate | no_fault Hf].
  - destruct (deployments w !! key) as [d|] eqn:Hd;
      (eexists _, _; split; [reflexivity|]; split; [by repeat split|]);
      (split; [intros; congruence | done]).
Qed.

Lemma sameStores_wellKeyed (w w' : World) :
  sameStores w w' -> wellKeyed w -> wellKeyed w'.
Proof.
  intros (E1 & E2 & E3 & E4 & E5 & _). unfold wellKeyed.
  by rewrite E1, E2, E3, E4, E5.
Qed.

Lemma observeDeployment_idem (status : ComponentStatus) (deployment : Deployment)
  (serviceName : string) (port : Z) :
  observeDeployment (observeDeployment status deployment serviceName port)
    deployment serviceName port
  = observeDeployment status deployment serviceName port.
Proof. unfold observeDeployment. simpl. by destruct (_ >? 0). Qed.

Lemma sameBut_ConfigMap (w w' : World) :
  sameBut KindConfigMap w w' ->
  monitorStacks w' = monitorStacks w
  /\ persistentVolumeClaims w' = persistentVolumeClaims w
  /\ deployments w' = deployments w /\ services w' = services w
  /\ now w' = now w /\ faults w' = faults w.
Proof. intros S. use_sameBut S. by repeat split. Qed.

Lemma sameBut_Claim (w w' : World) :
  sameBut KindPersistentVolumeClaim w w' ->
  monitorStacks w' = monitorStacks w /\ configMaps w' = configMaps w
  /\ deployments w' = deployments w /\ services w' = services w
  /\ now w' = now w /\ faults w' = faults w.
Proof. intros S. use_sameBut S. by repeat split. Qed.

Lemma sameBut_Deployment (w w' : World) :
  sameBut KindDeployment w w' ->
  monitorStacks w' = monitorStacks w /\ configMaps w' = configMaps w
  /\ persistentVolumeClaims w' = persistentVolumeClaims w
  /\ services w' = services w
  /\ now w' = now w /\ faults w' = faults w.
Proof. intros S. use_sameBut S. by repeat split. Qed.

Lemma sameBut_Service (w w' : World) :
  sameBut KindService w w' ->
  monitorStacks w' = monitorStacks w /\ configMaps w' = configMaps w
  /\ persistentVolumeClaims w' = persistentVolumeClaims w
  /\ deployments w' = deployments w
  /\ now w' = now w /\ faults w' = faults w.
Proof. intros S. use_sameBut S. by repeat split. Qed.

Lemma sameBut_MonitorStack (w w' : World) :
  sameBut KindMonitorStack w w' ->
  configMaps w' = configMaps w
  /\ persistentVolumeClaims w' = persistentVolumeClaims w
  /\ deployments w' = deployments w /\ services w' = services w
  /\ now w' = now w /\ faults w' = faults w.
Proof. intros S. use_sameBut S. by repeat split. Qed.

Lemma bind_Val_inv {A B : Type} (m : M A) (k : A -> M B) (w w' : World) (b : B) :
  bind m k w = (Val b, w') ->
  exists a w1, m w = (Val a, w1) /\ k a w1 = (Val b, w').
Proof.
  unfold bind. destruct (m w) as [[a|msg] w1]; [|discriminate].
  intros E. by exists a, w1.
Qed.

Lemma lift_Val_inv {A : Type} (r : Res A) (w w' : World) (a : A) :
  lift r w = (Val a, w') -> r = Val a /\ w' = w.
Proof. unfold lift. by intros [= -> ->]. Qed.

(** *** The cleanups, the status writes and the fetch, step by step *)

Lemma cleanupPrometheusResources_run (monitorStack : MonitorStack) (w : World) :
  wellKeyed w ->
  exists w',
    cleanupPrometheusResources monitorStack w = (Val None, w')
    /\ wellKeyed w'
    /\ monitorStacks w' = monitorStacks w
    /\ persistentVolumeClaims w' = persistentVolumeClaims w
    /\ now w' = now w /\ faults w' = faults w
    /\ (forall k, k <> prometheusConfigKey monitorStack ->
          configMaps w' !! k = configMaps w !! k)
    /\ (forall k, k <> prometheusKey monitorStack ->
          deployments w' !! k = deployments w !! k)
    /\ (forall k, k <> prometheusKey monitorStack -> services w' !! k = services w !! k)
    /\ (faultFree w -> prometheusChildrenAbsent monitorStack w').
Proof.
  intros Hw. unfold cleanupPrometheusResources.
  destruct (cleanup_Deployment_run (prometheusKey monitorStack) w Hw)
    as (w1 & E1 & Hw1 & S1 & F1 & _ & _ & N1).
  unfold prometheusKey in E1. rewrite E1.
  destruct (cleanup_Service_run (prometheusKey monitorStack) w1 Hw1)
    as (w2 & E2 & Hw2 & S2 & F2 & _ & _ & N2).
  unfold prometheusKey, getPrometheusName in E2.
  unfold getPrometheusServiceName. rewrite E2.
  destruct (cleanup_ConfigMap_run (prometheusConfigKey monitorStack) w2 Hw2)
    as (w3 & E3 & Hw3 & S3 & F3 & _ & _ & N3).
  unfold prometheusConfigKey in E3. rewrite E3.
  apply sameBut_Deployment in S1 as (A1 & A2 & A3 & A5 & A6 & A7).
  apply sameBut_Service in S2 as (B1 & B2 & B3 & B4 & B6 & B7).
  apply sameBut_ConfigMap in S3 as (C1 & C3 & C4 & C5 & C6 & C7).
  exists w3. split; [reflexivity|]. split; [done|].
  split; [congruence|]. split; [congruence|]. split; [congruence|].
  split; [congruence|].
  split; [intros k Hk; rewrite F3 by done; by rewrite B2, A2|].
  split; [intros k Hk; rewrite C4, B4; by apply F1|].
  split; [intros k Hk; rewrite C5; rewrite F2 by done; by rewrite A5|].
  intros Hf.
  assert (Hf1 : faultFree w1) by (intros n; rewrite A7; apply Hf).
  assert (Hf2 : faultFree w2) by (intros n; rewrite B7; apply Hf1).
  split; [rewrite C4, B4; by apply N1|].
  split; [rewrite C5; by apply N2 | by apply N3].
Qed.

Lemma cleanupGrafanaResources_run (monitorStack : MonitorStack) (w : World) :
  wellKeyed w ->
  exists w',
    cleanupGrafanaResources monitorStack w = (Val None, w')
    /\ wellKeyed w'
    /\ monitorStacks w' = monitorStacks w
    /\ configMaps w' = configMaps w
    /\ persistentVolumeClaims w' = persistentVolumeClaims w
    /\ now w' = now w /\ faults w' = faults w
    /\ (forall k, k <> grafanaKey monitorStack ->
          deployments w' !! k = deployments w !! k)
    /\ (forall k, k <> grafanaKey monitorStack -> services w' !! k = services w !! k)
    /\ (faultFree w ->
        deployments w' !! grafanaKey monitorStack = None
        /\ services w' !! grafanaKey monitorStack = None).
Proof.
  intros Hw. unfold cleanupGrafanaResources.
  destruct (cleanup_Deployment_run (grafanaKey monitorStack) w Hw)
    as (w1 & E1 & Hw1 & S1 & F1 & _ & _ & N1).
  unfold grafanaKey in E1. rewrite E1.
  destruct (cleanup_Service_run (grafanaKey monitorStack) w1 Hw1)
    as (w2 & E2 & Hw2 & S2 & F2 & _ & _ & N2).
  unfold grafanaKey, getGrafanaName in E2.
  unfold getGrafanaServiceName. rewrite E2.
  apply sameBut_Deployment in S1 as (A1 & A2 & A3 & A5 & A6 & A7).
  apply sameBut_Service in S2 as (B1 & B2 & B3 & B4 & B6 & B7).
  exists w2. split; [reflexivity|]. split; [done|].
  split; [congruence|]. split; [congruence|]. split; [congruence|].
  split; [congruence|]. split; [congruence|].
  split; [intros k Hk; rewrite B4; by apply F1|].
  split; [intros k Hk; rewrite F2 by done; by rewrite A5|].
  intros Hf.
  assert (Hf1 : faultFree w1) by (intros n; rewrite A7; apply Hf).
  split; [rewrite B4; by apply N1 | by apply N2].
Qed.

Lemma sameButStatus_withStatus (monitorStack stored current : MonitorStack) :
  sameButStatus monitorStack stored -> sameButStatus monitorStack current ->
  withStatus stored (Status current) = current.
Proof. unfold sameButStatus. intros -> ->. reflexivity. Qed.

Lemma sameButStatus_key (monitorStack current : MonitorStack) :
  sameButStatus monitorStack current -> stackKey current = stackKey monitorStack.
Proof. by intros ->. Qed.

(** A status write that succeeds stores the stack as the engine holds it. *)
Lemma StatusUpdate_ok (monitorStack stored current : MonitorStack) (w w' : World) :
  wellKeyed w ->
  monitorStacks w !! stackKey monitorStack = Some stored ->
  sameButStatus monitorStack stored -> sameButStatus monitorStack current ->
  StatusUpdate current w = (Val None, w') ->
  wellKeyed w'
  /\ monitorStacks w' !! stackKey monitorStack = Some current
  /\ configMaps w' = configMaps w
  /\ persistentVolumeClaims w' = persistentVolumeClaims w
  /\ deployments w' = deployments w /\ services w' = services w
  /\ now w' = now w /\ faults w' = faults w.
Proof.
  intros Hw Hs Hss Hsc E.
  destruct (StatusUpdate_run current w Hw)
    as (err & w1 & E1 & Hw1 & S & F & _ & Hok & _).
  rewrite E in E1. injection E1 as <- <-.
  apply sameBut_MonitorStack in S as (A2 & A3 & A4 & A5 & A6 & A7).
  split; [done|]. split; [|by repeat split].
  destruct (Hok eq_refl) as (stored' & Hs' & Hnew).
  rewrite (sameButStatus_key _ _ Hsc) in Hs', Hnew. rewrite Hs in Hs'.
  injection Hs' as <-. rewrite Hnew. f_equal. by eapply sameButStatus_withStatus.
Qed.

Lemma initStatus_ok (monitorStack current : MonitorStack) (w w' : World) :
  wellKeyed w ->
  monitorStacks w !! stackKey monitorStack = Some monitorStack ->
  initStatus monitorStack w = (Val (current, None), w') ->
  wellKeyed w'
  /\ sameButStatus monitorStack current
  /\ PrometheusStatus (Status current) = PrometheusStatus (Status monitorStack)
  /\ GrafanaStatus (Status current) = GrafanaStatus (Status monitorStack)
  /\ monitorStacks w' !! stackKey monitorStack = Some current
  /\ configMaps w' = configMaps w
  /\ persistentVolumeClaims w' = persistentVolumeClaims w
  /\ deployments w' = deployments w /\ services w' = services w
  /\ now w' = now w /\ faults w' = faults w.
Proof.
  intros Hw Hs E. unfold initStatus in E.
  destruct (Phase (Status monitorStack) =? "")%string.
  - apply bind_Val_inv in E as (t & w0 & Et & E). injection Et as <- <-.
    apply bind_Val_inv in E as (err & w1 & E1 & E).
    unfold ret in E. injection E as ? ? ?; subst.
    eapply StatusUpdate_ok in E1 as (Hw1 & Hs1 & R); [|done|exact Hs|..].
    + split; [done|]. split; [reflexivity|]. do 3 (split; [done|]). exact R.
    + apply sameButStatus_refl.
    + reflexivity.
  - unfold ret in E. injection E as ? ?; subst. split; [done|].
    split; [apply sameButStatus_refl|]. by repeat split.
Qed.

Lemma updateOverallStatus_ok (monitorStack stored current updated : MonitorStack)
  (w w' : World) :
  wellKeyed w ->
  monitorStacks w !! stackKey monitorStack = Some stored ->
  sameButStatus monitorStack stored -> sameButStatus monitorStack current ->
  updateOverallStatus current w = (Val (updated, None), w') ->
  wellKeyed w'
  /\ sameButStatus monitorStack updated
  /\ PrometheusStatus (Status updated) = PrometheusStatus (Status current)
  /\ GrafanaStatus (Status updated) = GrafanaStatus (Status current)
  /\ LastUpdated (Status updated) = now w
  /\ (Phase (Status updated) = "Ready" <-> allEnabledReady current)
  /\ (Phase (Status updated) = "Ready" \/ Phase (Status updated) = "Pending")
  /\ monitorStacks w' !! stackKey monitorStack = Some updated
  /\ configMaps w' = configMaps w
  /\ persistentVolumeClaims w' = persistentVolumeClaims w
  /\ deployments w' = deployments w /\ services w' = services w
  /\ now w' = now w /\ faults w' = faults w.
Proof.
  intros Hw Hs Hss Hsc E. unfold updateOverallStatus in E.
  apply bind_Val_inv in E as (t & w0 & Et & E). injection Et as <- <-.
  apply bind_Val_inv in E as (err & w1 & E1 & E).
  unfold ret in E. injection E as ? ? ?; subst.
  assert (Hready :
    (negb (p_Enabled (Prometheus (Spec current)))
     || cs_Ready (PrometheusStatus (Status current)))
    && (negb (g_Enabled (Grafana (Spec current)))
        || cs_Ready (GrafanaStatus (Status current))) = true
    <-> allEnabledReady current).
  { unfold allEnabledReady.
    rewrite andb_true_iff, !orb_true_iff, !negb_true_iff. tauto. }
  destruct (_ && _) eqn:Er.
  - eapply StatusUpdate_ok in E1 as (Hw1 & Hs1 & R); [|done|exact Hs|done|].
    2:{ rewrite Hsc. reflexivity. }
    split; [done|]. split; [by rewrite Hsc|]. do 3 (split; [done|]).
    split; [simpl; tauto|]. split; [by left|]. split; [done | exact R].
  - eapply StatusUpdate_ok in E1 as (Hw1 & Hs1 & R); [|done|exact Hs|done|].
    2:{ rewrite Hsc. reflexivity. }
    split; [done|]. split; [by rewrite Hsc|]. do 3 (split; [done|]).
    split; [simpl; split; [discriminate|]; intros H; apply Hready in H; discriminate|].
    split; [by right|]. split; [done | exact R].
Qed.

Lemma prometheusConfigKey_not_datasourcesKey (monitorStack : MonitorStack) :
  prometheusConfigKey monitorStack <> datasourcesKey monitorStack.
Proof.
  unfold prometheusConfigKey, datasourcesKey, getPrometheusConfigMapName,
    getGrafanaDatasourcesConfigMapName.
  intros [= H]. by apply (inj (String.app _)) in H.
Qed.

Lemma clusterWith_wellKeyed (monitorStack : MonitorStack) :
  wellKeyed (clusterWith monitorStack).
Proof.
  unfold wellKeyed, clusterWith; simpl.
  split; [by apply map_Forall_singleton|].
  repeat split; apply map_Forall_empty.
Qed.

(** [wellKeyed] of a concrete cluster, by listing its stores. *)
Ltac compute_wellKeyed :=
  unfold wellKeyed; repeat split; apply map_Forall_to_list; vm_compute;
  repeat (constructor; [reflexivity|]); constructor.

(** *** What an update leaves as stored *)

Lemma storedPartsKept_refl (w : World) : storedPartsKept w w.
Proof. repeat split; intros key old H; by exists old. Qed.

Lemma storedPartsKept_trans (w1 w2 w3 : World) :
  storedPartsKept w1 w2 -> storedPartsKept w2 w3 -> storedPartsKept w1 w3.
Proof.
  intros (S1 & C1 & D1) (S2 & C2 & D2). repeat split; intros key old H.
  - destruct (S1 _ _ H) as (o2 & H2 & E2). destruct (S2 _ _ H2) as (o3 & H3 & E3).
    exists o3. split; [done | congruence].
  - destruct (C1 _ _ H) as (o2 & H2 & E2). destruct (C2 _ _ H2) as (o3 & H3 & E3).
    exists o3. split; [done | congruence].
  - destruct (D1 _ _ H) as (o2 & H2 & E2). destruct (D2 _ _ H2) as (o3 & H3 & E3).
    exists o3. split; [done | congruence].
Qed.

Lemma updating_refl (w : World) : updating w w.
Proof. intros Hw. split; [done | apply storedPartsKept_refl]. Qed.

Lemma updating_trans (w1 w2 w3 : World) :
  updating w1 w2 -> updating w2 w3 -> updating w1 w3.
Proof.
  intros H12 H23 Hw. destruct (H12 Hw) as [Hw2 O12]. destruct (H23 Hw2) as [Hw3 O23].
  split; [done | by eapply storedPartsKept_trans].
Qed.

Lemma sameStores_updating (w w' : World) : sameStores w w' -> updating w w'.
Proof.
  intros S Hw. split; [by eapply sameStores_wellKeyed|].
  destruct S as (E1 & E2 & E3 & E4 & E5 & _).
  unfold storedPartsKept; rewrite E2, E4, E5. apply storedPartsKept_refl.
Qed.

Lemma applyDeployment_updating (monitorStack : MonitorStack) (built : Deployment) :
  om_Namespace (dep_Meta built) = Namespace monitorStack ->
  om_OwnerReferences (dep_Meta built) = [] ->
  keeps updating (fun _ => True) (applyDeployment monitorStack built).
Proof.
  intros Hns Hrefs w. split; [|done]. intros Hw.
  destruct (applyDeployment_run monitorStack built w Hw Hns Hrefs)
    as (err & w' & -> & Hw' & S & F & L & _ & M). simpl.
  split; [done|]. use_sameBut S.
  unfold storedPartsKept; rewrite Scm, Ssvc.
  split; [by eauto|]. split; [by eauto|].
  intros key old Hold.
  destruct (decide (key = keyOf built)) as [->|Hne];
    [|rewrite F; [|done]; by exists old].
  rewrite Hold in M. destruct M as (obj & Hobj & _ & Hst & _). by exists obj.
Qed.

Lemma applyService_updating (monitorStack : MonitorStack) (built : Service) :
  om_Namespace (s_Meta built) = Namespace monitorStack ->
  om_OwnerReferences (s_Meta built) = [] ->
  keeps updating (fun _ => True) (applyService monitorStack built).
Proof.
  intros Hns Hrefs w. split; [|done]. intros Hw.
  destruct (applyService_run monitorStack built w Hw Hns Hrefs)
    as (err & w' & -> & Hw' & S & F & L & _ & M). simpl.
  split; [done|]. use_sameBut S.
  unfold storedPartsKept; rewrite Scm, Sdep.
  split; [|split; by eauto].
  intros key old Hold.
  destruct (decide (key = keyOf built)) as [->|Hne];
    [|rewrite F; [|done]; by exists old].
  rewrite Hold in M. destruct M as (obj & Hobj & _ & Hsel & _). by exists obj.
Qed.

Lemma applyConfigMap_updating (monitorStack : MonitorStack) (built : ConfigMap) :
  om_Namespace (cm_Meta built) = Namespace monitorStack ->
  om_OwnerReferences (cm_Meta built) = [] ->
  keeps updating (fun _ => True) (applyConfigMap monitorStack built).
Proof.
  intros Hns Hrefs w. split; [|done]. intros Hw.
  destruct (applyConfigMap_run monitorStack built w Hw Hns Hrefs)
    as (err & w' & -> & Hw' & S & F & L & _ & M). simpl.
  split; [done|]. use_sameBut S.
  unfold storedPartsKept; rewrite Ssvc, Sdep.
  split; [by eauto|]. split; [|by eauto].
  intros key old Hold.
  destruct (decide (key = keyOf built)) as [->|Hne];
    [|rewrite F; [|done]; by exists old].
  rewrite Hold in M. destruct M as (obj & Hobj & Hmeta & _). by exists obj.
Qed.

Lemma Get_Deployment_updating (key : NamespacedName) :
  keeps updating (fun _ => True) (Get (T := Deployment) key).
Proof.
  intros w. split; [|done]. apply sameStores_updating.
  unfold_client. case_client; by repeat split.
Qed.

Ltac updating_step :=
  match goal with
  | |- keeps _ _ (bind _ _) =>
      eapply (keeps_bind _ (fun _ => True)); [apply updating_trans | | intros ? _]
  | |- keeps _ _ (ret _) => apply keeps_ret; [apply updating_refl | done]
  | |- keeps _ _ (lift _) => apply keeps_lift, updating_refl
  | |- keeps _ _ (match ?x with _ => _ end) => destruct x
  end.

Lemma stackRequests_kind (monitorStack : MonitorStack) (r : Request) :
  r ∈ stackRequests monitorStack -> rq_Kind r = KindMonitorStack.
Proof.
  unfold stackRequests. intros H.
  repeat (apply elem_of_cons in H as [->|H]; [reflexivity|]).
  by apply elem_of_nil in H.
Qed.

(** *** Computations that cannot panic *)

Lemma neverPanics_ret {A : Type} (a : A) : neverPanics (ret a).
Proof. intros w. by eexists _, _. Qed.

Lemma neverPanics_bind {A B : Type} (m : M A) (k : A -> M B) :
  neverPanics m -> (forall a, neverPanics (k a)) -> neverPanics (bind m k).
Proof.
  intros Hm Hk w. unfold bind. destruct (Hm w) as (a & w1 & ->). apply Hk.
Qed.

Lemma neverPanics_bind_keeps {A B : Type} (R : World -> World -> Prop) (Q : A -> Prop)
  (m : M A) (k : A -> M B) :
  neverPanics m -> keeps R Q m -> (forall a, Q a -> neverPanics (k a)) -> neverPanics (bind m k).
Proof.
  intros Hm HQ Hk w. unfold bind. destruct (Hm w) as (a & w1 & E).
  destruct (HQ w) as [_ Hq]. rewrite E in *. apply Hk. by apply Hq.
Qed.

Lemma returns_neverPanics {A : Type} (R : World -> World -> Prop) (Q : A -> Prop) (m : M A) :
  returns R Q m -> neverPanics m.
Proof. intros H w. destruct (H w) as (a & w' & E & _). eauto. Qed.

Ltac neverPanics_leaf :=
  let w := fresh "w" in
  intros w; unfold_client; case_client; simpl; by eexists _, _.

Ltac neverPanics_step :=
  match goal with
  | |- neverPanics (bind _ _) => apply neverPanics_bind; [|intros ?]
  | |- neverPanics (ret _) => apply neverPanics_ret
  | |- neverPanics (match ?x with _ => _ end) => destruct x
  | |- neverPanics (deleteIfFound ?x) => unfold deleteIfFound; destruct x
  | |- neverPanics (Get _) => neverPanics_leaf
  | |- neverPanics (Create _) => neverPanics_leaf
  | |- neverPanics (Update _) => neverPanics_leaf
  | |- neverPanics (Delete _) => neverPanics_leaf
  | |- neverPanics (StatusUpdate _) => neverPanics_leaf
  | |- neverPanics (UpdateMonitorStack _) => neverPanics_leaf
  | |- neverPanics (GetMonitorStack _) => neverPanics_leaf
  | |- neverPanics Now => neverPanics_leaf
  end.

Lemma applyConfigMap_neverPanics (monitorStack : MonitorStack) (built : ConfigMap) :
  neverPanics (applyConfigMap monitorStack built).
Proof. unfold applyConfigMap. repeat neverPanics_step. Qed.

Lemma applyDeployment_neverPanics (monitorStack : MonitorStack) (built : Deployment) :
  neverPanics (applyDeployment monitorStack built).
Proof. unfold applyDeployment. repeat neverPanics_step. Qed.

Lemma applyService_neverPanics (monitorStack : MonitorStack) (built : Service) :
  neverPanics (applyService monitorStack built).
Proof. unfold applyService. repeat neverPanics_step. Qed.

Lemma updateStatus_neverPanics (monitorStack : MonitorStack) (phase message : string) :
  neverPanics (updateStatus monitorStack phase message).
Proof. unfold updateStatus. repeat neverPanics_step. Qed.

Lemma updateOverallStatus_neverPanics (monitorStack : MonitorStack) :
  neverPanics (updateOverallStatus monitorStack).
Proof. unfold updateOverallStatus. repeat neverPanics_step. Qed.

Lemma initStatus_neverPanics (monitorStack : MonitorStack) : neverPanics (initStatus monitorStack).
Proof. unfold initStatus. repeat neverPanics_step. Qed.

Lemma cleanupPrometheusResources_neverPanics (monitorStack : MonitorStack) :
  neverPanics (cleanupPrometheusResources monitorStack).
Proof. eapply returns_neverPanics, (cleanupPrometheusResources_quiet ("", "")). Qed.

Lemma cleanupGrafanaResources_neverPanics (monitorStack : MonitorStack) :
  neverPanics (cleanupGrafanaResources monitorStack).
Proof. eapply returns_neverPanics, (cleanupGrafanaResources_quiet ("", "")). Qed.

Lemma handleDeletion_neverPanics (monitorStack : MonitorStack) :
  neverPanics (handleDeletion monitorStack).
Proof.
  intros w. destruct (handleDeletion_never_retries monitorStack w) as (e & _ & w' & E & _).
  eauto.
Qed.

Lemma sameBut_faultFree (kind : Kind) (w w' : World) :
  sameBut kind w w' -> faultFree w -> faultFree w'.
Proof. intros (_ & _ & _ & _ & _ & _ & Hflt) Hf n. rewrite Hflt. apply Hf. Qed.

(** With no API failure, converging a child returns no error and the child
    is stored afterwards. *)
Lemma applyConfigMap_faultFree (monitorStack : MonitorStack) (built : ConfigMap)
  (err : option error) (w w' : World) :
  wellKeyed w -> faultFree w ->
  om_Namespace (cm_Meta built) = Namespace monitorStack ->
  om_OwnerReferences (cm_Meta built) = [] ->
  applyConfigMap monitorStack built w = (Val err, w') ->
  err = None /\ wellKeyed w' /\ faultFree w'.
Proof.
  intros Hw Hf Hns Hrefs E.
  destruct (applyConfigMap_run monitorStack built w Hw Hns Hrefs)
    as (err' & w1 & E1 & Hw1 & S & _ & _ & Hnone & _).
  rewrite E in E1. injection E1 as <- <-.
  split; [by apply Hnone|]. split; [done | by eapply sameBut_faultFree].
Qed.

Lemma applyService_faultFree (monitorStack : MonitorStack) (built : Service)
  (err : option error) (w w' : World) :
  wellKeyed w -> faultFree w ->
  om_Namespace (s_Meta built) = Namespace monitorStack ->
  om_OwnerReferences (s_Meta built) = [] ->
  applyService monitorStack built w = (Val err, w') ->
  err = None /\ wellKeyed w' /\ faultFree w' /\ deployments w' = deployments w.
Proof.
  intros Hw Hf Hns Hrefs E.
  destruct (applyService_run monitorStack built w Hw Hns Hrefs)
    as (err' & w1 & E1 & Hw1 & S & _ & _ & Hnone & _).
  rewrite E in E1. injection E1 as <- <-.
  split; [by apply Hnone|]. split; [done|].
  split; [by eapply sameBut_faultFree|].
  by apply sameBut_Service in S as (_ & _ & _ & ? & _).
Qed.

Lemma applyDeployment_faultFree (monitorStack : MonitorStack) (built : Deployment)
  (err : option error) (w w' : World) :
  wellKeyed w -> faultFree w ->
  om_Namespace (dep_Meta built) = Namespace monitorStack ->
  om_OwnerReferences (dep_Meta built) = [] ->
  applyDeployment monitorStack built w = (Val err, w') ->
  err = None /\ wellKeyed w' /\ faultFree w'
  /\ is_Some (deployments w' !! keyOf built).
Proof.
  intros Hw Hf Hns Hrefs E.
  destruct (applyDeployment_run monitorStack built w Hw Hns Hrefs)
    as (err' & w1 & E1 & Hw1 & S & _ & _ & Hnone & M).
  rewrite E in E1. injection E1 as <- <-.
  specialize (Hnone Hf). subst err.
  split; [done|]. split; [done|]. split; [by eapply sameBut_faultFree|].
  destruct (deployments w !! keyOf built) as [old|].
  - destruct M as (obj & -> & _). eauto.
  - destruct M as [-> _]; eauto.
Qed.

Lemma StatusUpdate_faultFree (monitorStack : MonitorStack) (err : option error)
  (w w' : World) :
  wellKeyed w -> faultFree w ->
  is_Some (monitorStacks w !! stackKey monitorStack) ->
  StatusUpdate monitorStack w = (Val err, w') -> err = None.
Proof.
  intros Hw Hf Hs E.
  destruct (StatusUpdate_run monitorStack w Hw)
    as (err' & w1 & E1 & _ & _ & _ & _ & _ & _ & Hnone).
  rewrite E in E1. injection E1 as <- <-. by apply Hnone.
Qed.

Lemma initStatus_faultFree (monitorStack current : MonitorStack) (err : option error)
  (w w' : World) :
  wellKeyed w -> faultFree w ->
  is_Some (monitorStacks w !! stackKey monitorStack) ->
  initStatus monitorStack w = (Val (current, err), w') -> err = None.
Proof.
  intros Hw Hf Hs E. unfold initStatus in E.
  destruct (Phase (Status monitorStack) =? "")%string.
  - apply bind_Val_inv in E as (t & w0 & Et & E). injection Et as <- <-.
    apply bind_Val_inv in E as (e & w1 & E1 & E).
    unfold ret in E. injection E as _ <- _.
    eapply (StatusUpdate_faultFree (setPhase monitorStack _ _ _));
      [exact Hw | exact Hf | exact Hs | exact E1].
  - unfold ret in E. by injection E as _ <- _.
Qed.

Lemma updateOverallStatus_faultFree (monitorStack updated : MonitorStack)
  (err : option error) (w w' : World) :
  wellKeyed w -> faultFree w ->
  is_Some (monitorStacks w !! stackKey monitorStack) ->
  updateOverallStatus monitorStack w = (Val (updated, err), w') -> err = None.
Proof.
  intros Hw Hf Hs E. unfold updateOverallStatus in E.
  apply bind_Val_inv in E as (t & w0 & Et & E). injection Et as <- <-.
  apply bind_Val_inv in E as (e & w1 & E1 & E).
  unfold ret in E. injection E as _ <- _.
  destruct (_ && _);
    (eapply (StatusUpdate_faultFree (setPhase monitorStack _ _ _));
     [exact Hw | exact Hf | exact Hs | exact E1]).
Qed.

(** *** A reconciliation that fails *)

Lemma stacksSame_refl (w : World) : stacksSame w w.
Proof. by repeat split. Qed.

Lemma stacksSame_trans (w1 w2 w3 : World) :
  stacksSame w1 w2 -> stacksSame w2 w3 -> stacksSame w1 w3.
Proof. intros (A1 & A2 & A3) (B1 & B2 & B3). repeat split; congruence. Qed.

Ltac stacks_leaf :=
  let w := fresh "w" in
  intros w; unfold_client; case_client; simpl; by repeat split.

Ltac stacks_step :=
  match goal with
  | |- preserves _ (bind _ _) =>
      apply preserves_bind; [apply stacksSame_trans | | intros ?]
  | |- preserves _ (ret _) => apply preserves_ret, stacksSame_refl
  | |- preserves _ (lift _) => apply preserves_lift, stacksSame_refl
  | |- preserves _ (match ?x with _ => _ end) => destruct x
  | |- preserves _ (deleteIfFound ?x) => unfold deleteIfFound; destruct x
  | |- preserves _ (Get _) => stacks_leaf
  | |- preserves _ (Create _) => stacks_leaf
  | |- preserves _ (Update _) => stacks_leaf
  | |- preserves _ (Delete _) => stacks_leaf
  end.

Lemma cleanupPrometheusResources_stacks (monitorStack : MonitorStack) :
  preserves stacksSame (cleanupPrometheusResources monitorStack).
Proof. unfold cleanupPrometheusResources. repeat stacks_step. Qed.

Lemma cleanupGrafanaResources_stacks (monitorStack : MonitorStack) :
  preserves stacksSame (cleanupGrafanaResources monitorStack).
Proof. unfold cleanupGrafanaResources. repeat stacks_step. Qed.

(** The status write: the request it logs, and what is stored when the API
    does not fail it. *)
Lemma StatusUpdate_write (monitorStack stored : MonitorStack) (w : World) :
  monitorStacks w !! stackKey monitorStack = Some stored ->
  exists err w',
    StatusUpdate monitorStack w = (Val err, w')
    /\ requests w'
       = {| rq_Verb := VerbStatusUpdate; rq_Kind := KindMonitorStack;
            rq_Key := stackKey monitorStack |} :: requests w
    /\ (faults w (List.length (requests w)) = None ->
        monitorStacks w' !! stackKey monitorStack
        = Some (withStatus stored (Status monitorStack))).
Proof.
  intros Hs. unfold_client. simpl.
  destruct (faults w (Datatypes.length (requests w))) as [msg|]; simpl.
  - eexists _, _. split; [reflexivity|]. split; [reflexivity | discriminate].
  - rewrite Hs. eexists _, _. split; [reflexivity|]. split; [reflexivity|].
    intros _. simpl. by rewrite lookup_insert_eq.
Qed.

Lemma updateStatus_write (monitorStack stored updated : MonitorStack)
  (phase message : string) (w w' : World) :
  monitorStacks w !! stackKey monitorStack = Some stored ->
  updateStatus monitorStack phase message w = (Val updated, w') ->
  requests w'
  = {| rq_Verb := VerbStatusUpdate; rq_Kind := KindMonitorStack;
       rq_Key := stackKey monitorStack |} :: requests w
  /\ (faults w (List.length (requests w)) = None ->
      monitorStacks w' !! stackKey monitorStack
      = Some (withStatus stored
                {| Phase := phase; Message := message;
                   PrometheusStatus := PrometheusStatus (Status monitorStack);
                   GrafanaStatus := GrafanaStatus (Status monitorStack);
                   LastUpdated := now w |})).
Proof.
  intros Hs E. unfold updateStatus in E.
  apply bind_Val_inv in E as (t & w0 & Et & E). injection Et as <- <-.
  apply bind_Val_inv in E as (e & w1 & E1 & E).
  unfold ret in E. injection E as _ <-.
  destruct (StatusUpdate_write (setPhase monitorStack phase message (now w)) stored w Hs)
    as (e' & w1' & E1' & Hlog & Hok).
  rewrite E1 in E1'. injection E1' as <- <-. by split.
Qed.

(** *** The steady state *)

Lemma updateOverallStatus_aggregated (monitorStack : MonitorStack) :
  updateOverallStatus monitorStack
  = (let* t := Now in
     let* err := StatusUpdate (aggregated monitorStack t) in
     ret (aggregated monitorStack t, err)).
Proof. reflexivity. Qed.

Lemma aggregated_idem (monitorStack : MonitorStack) (t : Time) :
  aggregated (aggregated monitorStack t) t = aggregated monitorStack t.
Proof.
  unfold aggregated.
  destruct ((negb (p_Enabled (Prometheus (Spec monitorStack)))
             || cs_Ready (PrometheusStatus (Status monitorStack)))
            && (negb (g_Enabled (Grafana (Spec monitorStack)))
                || cs_Ready (GrafanaStatus (Status monitorStack)))) eqn:Hb;
    simpl; rewrite Hb; reflexivity.
Qed.

Lemma aggregated_phase (monitorStack : MonitorStack) (t : Time) :
  (Phase (Status (aggregated monitorStack t)) =? "")%string = false.
Proof. unfold aggregated. by destruct (_ && _). Qed.

Lemma aggregated_sameButStatus (monitorStack : MonitorStack) (t : Time) :
  sameButStatus monitorStack (aggregated monitorStack t).
Proof. unfold aggregated. by destruct (_ && _). Qed.

Lemma aggregated_components (monitorStack : MonitorStack) (t : Time) :
  PrometheusStatus (Status (aggregated monitorStack t))
  = PrometheusStatus (Status monitorStack)
  /\ GrafanaStatus (Status (aggregated monitorStack t))
     = GrafanaStatus (Status monitorStack).
Proof. unfold aggregated. by destruct (_ && _). Qed.

Lemma cleanupGrafanaResources_absent (monitorStack : MonitorStack) (w : World) :
  faultFree w ->
  grafanaChildrenAbsent monitorStack w ->
  exists w', cleanupGrafanaResources monitorStack w = (Val None, w')
             /\ sameStores w w'.
Proof.
  intros Hf (Hdep & Hsvc).
  unfold cleanupGrafanaResources.
  step_same (Get_Deployment_absent (grafanaKey monitorStack) w Hf Hdep) Hf w1 S1.
  unfold deleteIfFound at 1. rewrite (bind_returns _ _ _ w1 tt eq_refl).
  step_same (Get_Service_absent (grafanaKey monitorStack) w1) Hf0 w2 S2.
  { destruct S1 as (_ & _ & _ & _ & -> & _). done. }
  unfold deleteIfFound at 1. rewrite (bind_returns _ _ _ w2 tt eq_refl).
  exists w2. split; [reflexivity | by eapply sameStores_trans].
Qed.

(** *** Two stacks do not interfere *)

Lemma child_key_ne (a b : MonitorStack) (sa sb : string) :
  stackKey b <> stackKey a ->
  sa ∈ childSuffixes -> sb ∈ childSuffixes ->
  (Namespace b, Name b +:+ sb) <> (Namespace a, Name a +:+ sa).
Proof.
  intros Hne Ha Hb [= Hns Hname]. apply Hne. unfold stackKey.
  by rewrite Hns, (child_suffix_inj _ _ _ _ Hb Ha Hname).
Qed.

Lemma untouched_other (a b : MonitorStack) (w w' : World) :
  stackKey b <> stackKey a ->
  untouched a w w' ->
  monitorStacks w' !! stackKey b = monitorStacks w !! stackKey b
  /\ childrenSame b w w'.
Proof.
  intros Hne (Ums & Ucm & Upvc & Udep & Usvc & _).
  assert (Hk : forall sa sb, sa ∈ childSuffixes -> sb ∈ childSuffixes ->
            (Namespace b, Name b +:+ sb) <> (Namespace a, Name a +:+ sa))
    by (intros; by apply child_key_ne).
  assert (H1 : "-prometheus" ∈ childSuffixes) by (unfold childSuffixes;
        repeat first [apply list_elem_of_here | apply list_elem_of_further]).
  assert (H2 : "-prometheus-config" ∈ childSuffixes)
    by (unfold childSuffixes;
        repeat first [apply list_elem_of_here | apply list_elem_of_further]).
  assert (H3 : "-prometheus-data" ∈ childSuffixes)
    by (unfold childSuffixes;
        repeat first [apply list_elem_of_here | apply list_elem_of_further]).
  assert (H4 : "-grafana" ∈ childSuffixes) by (unfold childSuffixes;
        repeat first [apply list_elem_of_here | apply list_elem_of_further]).
  assert (H5 : "-grafana-datasources" ∈ childSuffixes)
    by (unfold childSuffixes;
        repeat first [apply list_elem_of_here | apply list_elem_of_further]).
  split; [by apply Ums|].
  unfold childrenSame.
  split; [apply Ucm; by apply Hk|]. split; [apply Ucm; by apply Hk|].
  split; [apply Upvc; by apply Hk|].
  split; [apply Udep; by apply Hk|]. split; [apply Udep; by apply Hk|].
  split; [apply Usvc; by apply Hk | apply Usvc; by apply Hk].
Qed.

(** *** What a reconciliation does to the stack itself *)

Lemma statusOnly_refl (w : World) : statusOnly w w.
Proof. intros key old H. exists old. split; [done | apply sameButStatus_refl]. Qed.

Lemma statusOnly_trans (w1 w2 w3 : World) :
  statusOnly w1 w2 -> statusOnly w2 w3 -> statusOnly w1 w3.
Proof.
  intros H12 H23 key old H.
  destruct (H12 _ _ H) as (o2 & H2 & S2). destruct (H23 _ _ H2) as (o3 & H3 & S3).
  exists o3. split; [done|]. unfold sameButStatus in *. rewrite S3, S2. reflexivity.
Qed.

Lemma statusOnly_stacks (w w' : World) :
  monitorStacks w' = monitorStacks w -> statusOnly w w'.
Proof. intros E key old H. rewrite E. by apply statusOnly_refl. Qed.

Lemma stacksSame_statusOnly (w w' : World) : stacksSame w w' -> statusOnly w w'.
Proof. intros (E & _). by apply statusOnly_stacks. Qed.

Lemma preserves_stacksSame_statusOnly {A : Type} (m : M A) :
  preserves stacksSame m -> preserves statusOnly m.
Proof. intros H w. apply stacksSame_statusOnly, H. Qed.

Lemma StatusUpdate_statusOnly (monitorStack : MonitorStack) :
  preserves statusOnly (StatusUpdate monitorStack).
Proof.
  intros w. unfold_client. simpl.
  destruct (faults w _); simpl; [by apply statusOnly_stacks|].
  destruct (monitorStacks w !! stackKey monitorStack) as [stored|] eqn:Hs; simpl;
    [|by apply statusOnly_stacks].
  intros key old H. simpl.
  destruct (decide (key = stackKey monitorStack)) as [->|Hne].
  - rewrite lookup_insert_eq. eexists. split; [reflexivity|].
    rewrite Hs in H. injection H as <-. reflexivity.
  - rewrite lookup_insert_ne by done. exists old. split; [done|].
    apply sameButStatus_refl.
Qed.

Ltac status_step :=
  match goal with
  | |- preserves _ (bind _ _) =>
      apply preserves_bind; [apply statusOnly_trans | | intros ?]
  | |- preserves _ (ret _) => apply preserves_ret, statusOnly_refl
  | |- preserves _ (StatusUpdate _) => apply StatusUpdate_statusOnly
  | |- preserves _ Now => intros ?; apply statusOnly_refl
  | |- preserves _ (match ?x with _ => _ end) => destruct x
  end.

Lemma initStatus_statusOnly (monitorStack : MonitorStack) :
  preserves statusOnly (initStatus monitorStack).
Proof. unfold initStatus. repeat status_step. Qed.

Lemma updateStatus_statusOnly (monitorStack : MonitorStack) (phase message : string) :
  preserves statusOnly (updateStatus monitorStack phase message).
Proof. unfold updateStatus. repeat status_step. Qed.

Lemma updateOverallStatus_statusOnly (monitorStack : MonitorStack) :
  preserves statusOnly (updateOverallStatus monitorStack).
Proof. unfold updateOverallStatus. repeat status_step. Qed.

(** ** The engine, for every choice of the parameters *)

Section EngineProperties.

Context {parameters : Parameters}.

(** *** Durable-storage claims are never deleted *)

Lemma createPrometheusPVC_claims (monitorStack : MonitorStack) :
  preserves (claimFrame monitorStack) (createPrometheusPVC monitorStack).
Proof.
  unfold createPrometheusPVC. claim_step; [claim_step|].
  destruct (SetControllerReference _ _) as [err|meta] eqn:Hset; [claim_step|].
  apply SetControllerReference_controlled in Hset as (Howned & _).
  claim_step; [claim_step|]. destruct a0 as [err|existing]; [|claim_step].
  destruct (IsNotFound err); [|claim_step].
  by apply Create_claim.
Qed.

Lemma reconcilePrometheus_claims (monitorStack : MonitorStack) :
  preserves (claimFrame monitorStack) (reconcilePrometheus monitorStack).
Proof.
  unfold reconcilePrometheus, createPrometheusConfigMap, createPrometheusDeployment,
    createPrometheusService.
  repeat first
    [ apply applyConfigMap_claims | apply applyDeployment_claims
    | apply applyService_claims | apply createPrometheusPVC_claims | claim_step ].
Qed.

Lemma reconcileGrafana_claims (owner monitorStack : MonitorStack) :
  preserves (claimFrame owner) (reconcileGrafana monitorStack).
Proof.
  unfold reconcileGrafana, createGrafanaDatasourcesConfigMap, createGrafanaDeployment,
    createGrafanaService.
  repeat first
    [ apply applyConfigMap_claims | apply applyDeployment_claims
    | apply applyService_claims | claim_step ].
Qed.

Lemma reconcileStack_claims (monitorStack : MonitorStack) :
  preserves (claimFrame monitorStack) (reconcileStack monitorStack).
Proof.
  unfold reconcileStack.
  destruct (DeletionTimestamp monitorStack); [apply handleDeletion_claims|].
  destruct (negb _); [repeat claim_step|].
  eapply returns_then_preserves;
    [apply claimFrame_trans | apply initStatus_claims |].
  intros [current err] Hsame%sameButStatus_controllerRef. simpl in Hsame.
  destruct err; [repeat claim_step|].
  apply preserves_bind; [apply claimFrame_trans | |].
  - destruct (p_Enabled _).
    + intros w. apply (claimFrame_owner current); [done|].
      apply reconcilePrometheus_claims.
    + repeat first [apply cleanupPrometheusResources_claims | claim_step].
  - intros [current' err]. destruct err.
    { repeat first [apply updateStatus_claims | claim_step]. }
    repeat first
      [ apply reconcileGrafana_claims | apply cleanupGrafanaResources_claims
      | apply updateStatus_claims | apply updateOverallStatus_claims
      | claim_step ].
Qed.

(** C10. Whatever the cluster holds and however the API fails, a
    reconciliation (the deletion protocol and the disable path included)
    issues on durable-storage claims only gets and creates, never a delete or
    an update; every claim that existed is still there with every field
    unchanged; and a claim it created carries the ownership link to the
    stack, which is what the garbage collector acts on. *)
Theorem Reconcile_never_deletes_claim (req : NamespacedName) (w : World) :
  logs claimRequestAllowed w (Reconcile req w).2
  /\ claimsKept w (Reconcile req w).2
  /\ (forall monitorStack,
        monitorStacks w !! req = Some monitorStack ->
        newClaimsOwned monitorStack w (Reconcile req w).2).
Proof.
  unfold Reconcile, bind.
  destruct (GetMonitorStack_fetch req w)
    as (got & w1 & -> & Hsame & Hlog & Hgot & _ & _).
  assert (Hfetch : forall owner, claimFrame owner w w1).
  { intros owner. apply claimsSame_frame; [|apply Hsame].
    eapply logs_one; [|exact Hlog]. intros [=]. }
  destruct got as [err|monitorStack].
  - assert (Hend : forall owner,
       claimFrame owner w
         ((if IsNotFound err then ret (noRequeue, None) else ret (noRequeue, Some err))
            w1).2).
    { intros owner. by destruct (IsNotFound err). }
    destruct (Hend (stackNamed "")) as (L & K & _).
    split; [done|]. split; [done|]. intros owner _. apply Hend.
  - pose proof (claimFrame_trans monitorStack _ _ _ (Hfetch monitorStack)
                  (reconcileStack_claims monitorStack w1)) as (L & K & N).
    split; [done|]. split; [done|].
    intros owner Hs. rewrite (Hgot monitorStack eq_refl) in Hs.
    by injection Hs as <-.
Qed.

(** *** The durable-storage claim is create-only *)


(** *** Reconciling a stack with both subsystems disabled *)


(** *** Disabling the dashboard of a converged stack *)

Lemma createPrometheusConfigMap_converged (monitorStack : MonitorStack)
  (configMap : ConfigMap) (w : World) :
  faultFree w ->
  configMaps w !! prometheusConfigKey monitorStack = Some configMap ->
  keyOf configMap = prometheusConfigKey monitorStack ->
  cm_Data configMap = {[ "prometheus.yml" := getPrometheusConfig monitorStack ]} ->
  exists w', createPrometheusConfigMap monitorStack w = (Val None, w')
             /\ sameStores w w'.
Proof.
  intros Hf Hl Hk Hd.
  unfold createPrometheusConfigMap, applyConfigMap. cbn [cm_Meta].
  rewrite SetControllerReference_fresh.
  change (keyOf (withMeta_ConfigMap _ _)) with (prometheusConfigKey monitorStack).
  step_same (Get_ConfigMap_found (prometheusConfigKey monitorStack) configMap w Hf Hl)
    Hf w1 S1.
  cbn [withMeta_ConfigMap cm_Data].
  replace {| cm_Meta := cm_Meta configMap; cm_Data := _ |} with configMap
    by (destruct configMap; simpl in *; congruence).
  destruct (Update_ConfigMap_same configMap w1) as (w2 & E & S2); [done| |].
  { rewrite Hk. destruct S1 as (_ & -> & _). done. }
  exists w2. split; [done | by eapply sameStores_trans].
Qed.

Lemma createPrometheusPVC_converged (monitorStack : MonitorStack) (w : World) :
  faultFree w ->
  quantityOK (st_Size (p_Storage (Prometheus (Spec monitorStack)))) = true ->
  is_Some (persistentVolumeClaims w !! claimKey monitorStack) ->
  exists w', createPrometheusPVC monitorStack w = (Val None, w')
             /\ sameStores w w'.
Proof.
  intros Hf Hq [existing Hl].
  unfold createPrometheusPVC. cbv [lift MustParse]. rewrite Hq.
  unfold bind at 1. cbn [pvc_Meta]. rewrite SetControllerReference_fresh.
  change (keyOf (withMeta_PVC _ _)) with (claimKey monitorStack).
  step_same (Get_Claim_found (claimKey monitorStack) existing w Hf Hl) Hf w1 S1.
  exists w1. by split.
Qed.

Lemma buildPrometheusDeployment_meta (monitorStack : MonitorStack) (built : Deployment) :
  buildPrometheusDeployment monitorStack = Val built ->
  dep_Meta built
  = {| om_Name := getPrometheusName monitorStack;
       om_Namespace := Namespace monitorStack;
       om_Labels := getLabels monitorStack "prometheus";
       om_OwnerReferences := [] |}.
Proof.
  unfold buildPrometheusDeployment, addPrometheusDataVolume, appendVolume.
  destruct (buildResourceRequirements _); simpl; [|discriminate].
  by intros [= <-].
Qed.

Lemma reconcilePrometheus_converged (monitorStack : MonitorStack) (w : World) :
  faultFree w ->
  prometheusChildrenConverged monitorStack w ->
  exists w', reconcilePrometheus monitorStack w = (Val (monitorStack, None), w')
             /\ sameStores w w'.
Proof.
  intros Hf (built & cm & dep & svc & Hbuilt & Hcm & Hcmk & Hcmd & Hdep & Hdepk
             & Hspec & Hlab & Hsvc & Hsvck & Htype & Hports & Hslab & Hpvc & Hstatus).
  pose proof (buildPrometheusDeployment_meta _ _ Hbuilt) as Hmeta.
  unfold reconcilePrometheus.
  step_same (createPrometheusConfigMap_converged monitorStack cm w Hf Hcm Hcmk Hcmd)
    Hf w1 S1.
  assert (S2 : exists w2,
    (if nonEmpty (st_Size (p_Storage (Prometheus (Spec monitorStack))))
     then createPrometheusPVC monitorStack else ret None) w1 = (Val None, w2)
    /\ sameStores w1 w2).
  { unfold nonEmpty. destruct (_ =? "")%string eqn:Esize; simpl.
    - exists w1. split; [reflexivity | apply sameStores_refl].
    - apply String.eqb_neq in Esize. destruct (Hpvc Esize) as [Hq Hclaim].
      apply createPrometheusPVC_converged; [done..|].
      destruct S1 as (_ & _ & -> & _). done. }
  step_same S2 Hf0 w2 S2'.
  replace (createPrometheusDeployment monitorStack)
    with (applyDeployment monitorStack built)
    by (unfold createPrometheusDeployment; by rewrite Hbuilt).
  assert (Hbk : keyOf built = prometheusKey monitorStack).
  { unfold keyOf. simpl. by rewrite Hmeta. }
  assert (S12 : sameStores w w2) by (by eapply sameStores_trans).
  step_same (applyDeployment_converged monitorStack built dep w2) Hf1 w3 S3.
  { rewrite Hmeta. reflexivity. }
  { rewrite Hbk. destruct S12 as (_ & _ & _ & -> & _). done. }
  { congruence. }
  unfold createPrometheusService.
  assert (S13 : sameStores w w3) by (by eapply sameStores_trans).
  step_same (applyService_converged monitorStack
               (buildPrometheusService monitorStack) svc w3) Hf2 w4 S4.
  { change (keyOf (buildPrometheusService monitorStack))
      with (prometheusKey monitorStack).
    destruct S13 as (_ & _ & _ & _ & -> & _). done. }
  assert (S14 : sameStores w w4) by (by eapply sameStores_trans).
  step_same (Get_Deployment_found (prometheusKey monitorStack) dep w4) Hf3 w5 S5.
  { destruct S14 as (_ & _ & _ & -> & _). done. }
  rewrite <- Hstatus, withPrometheusStatus_same.
  exists w5. split; [reflexivity | by eapply sameStores_trans].
Qed.

Lemma collectorConverged_sameStores (monitorStack : MonitorStack) (w w' : World) :
  sameStores w w' -> collectorConverged monitorStack w ->
  collectorConverged monitorStack w'.
Proof.
  intros (Sms & Scm & Spvc & Sdep & Ssvc & _).
  unfold collectorConverged, prometheusChildrenConverged, prometheusChildrenAbsent.
  by rewrite Scm, Spvc, Sdep, Ssvc.
Qed.

(** The collector step of [Reconcile] on a converged collector. *)
Lemma collector_step_converged (monitorStack : MonitorStack) (w : World) :
  faultFree w ->
  collectorConverged monitorStack w ->
  exists w',
    (if p_Enabled (Prometheus (Spec monitorStack))
     then reconcilePrometheus monitorStack
     else let* _ := cleanupPrometheusResources monitorStack in
          ret (monitorStack, None)) w
    = (Val (monitorStack, None), w')
    /\ sameStores w w'.
Proof.
  intros Hf Hc. unfold collectorConverged in Hc.
  destruct (p_Enabled _).
  - by apply reconcilePrometheus_converged.
  - destruct (cleanupPrometheusResources_absent monitorStack w Hf Hc)
      as (w' & E & S).
    exists w'. split; [|done]. by rewrite (bind_returns _ _ _ _ _ E).
Qed.

(** C6, amended.  Take a stack that is stored, not marked for deletion,
    carries the finalizer and has a phase; its dashboard is disabled, the
    dashboard's workload and endpoint exist, the collector is converged, and
    no API request fails.  Then the reconciliation succeeds and asks for the
    next one in five minutes; it removes the dashboard's workload and
    endpoint and changes no other child (the collector's workload, endpoint,
    configuration and claim are as they were); and in the stored status the
    collector's component status is as it was, and so is the dashboard's: it
    is not reset. *)
Theorem Reconcile_grafana_disabled (req : NamespacedName) (w : World)
  (monitorStack : MonitorStack) :
  monitorStacks w !! req = Some monitorStack ->
  stackKey monitorStack = req ->
  DeletionTimestamp monitorStack = None ->
  ContainsFinalizer monitorStack finalizerName = true ->
  Phase (Status monitorStack) <> "" ->
  g_Enabled (Grafana (Spec monitorStack)) = false ->
  faultFree w ->
  grafanaChildrenPresent monitorStack w ->
  collectorConverged monitorStack w ->
  exists w',
    Reconcile req w = (Val (requeueAfter (Minute * 5), None), w')
    /\ deployments w' = delete (grafanaKey monitorStack) (deployments w)
    /\ services w' = delete (grafanaKey monitorStack) (services w)
    /\ deployments w' !! grafanaKey monitorStack = None
    /\ services w' !! grafanaKey monitorStack = None
    /\ deployments w' !! prometheusKey monitorStack
       = deployments w !! prometheusKey monitorStack
    /\ services w' !! prometheusKey monitorStack
       = services w !! prometheusKey monitorStack
    /\ configMaps w' = configMaps w
    /\ persistentVolumeClaims w' = persistentVolumeClaims w
    /\ exists status,
         storedStatus w' req = Some status
         /\ PrometheusStatus status = PrometheusStatus (Status monitorStack)
         /\ GrafanaStatus status = GrafanaStatus (Status monitorStack).
Proof.
  intros Hstored Hkey Hdel Hfin Hphase Hg Hf Hgraf Hcoll.
  unfold Reconcile.
  destruct (GetMonitorStack_fetch req w)
    as (got & w1 & E1 & S1 & _ & _ & Hfound & _).
  rewrite (bind_returns _ _ _ _ _ E1).
  rewrite (Hfound monitorStack (Hf _) Hstored).
  pose proof (sameStores_faultFree _ _ S1 Hf) as Hf1.
  unfold reconcileStack. rewrite Hdel, Hfin. cbn [negb].
  assert (Einit : initStatus monitorStack w1 = (Val (monitorStack, None), w1)).
  { unfold initStatus. by apply String.eqb_neq in Hphase as ->. }
  rewrite (bind_returns _ _ _ _ _ Einit).
  destruct (collector_step_converged monitorStack w1 Hf1)
    as (w2 & E2 & S2); [by eapply collectorConverged_sameStores|].
  rewrite (bind_returns _ _ _ _ _ E2).
  pose proof (sameStores_faultFree _ _ S2 Hf1) as Hf2.
  assert (S12 : sameStores w w2) by (by eapply sameStores_trans).
  rewrite Hg.
  destruct (cleanupGrafanaResources_present monitorStack w2 Hf2)
    as (w3 & E3 & Ddep & Dsvc & Dms & Dcm & Dpvc & Dnow & Dflt);
    [by eapply grafanaChildrenPresent_sameStores|].
  rewrite (bind_returns _ _ _ _ _
             (bind_returns _ (fun _ => ret (monitorStack, None)) _ _ _ E3)).
  destruct S12 as (Sms & Scm & Spvc & Sdep & Ssvc & Snow & Sflt).
  assert (Hf3 : faultFree w3) by (intros n; rewrite Dflt; apply Hf2).
  destruct (updateOverallStatus_succeeds monitorStack monitorStack w3 Hf3)
    as (updated & w4 & E4 & Hup & Hug & Ums & Ucm & Upvc & Udep & Usvc).
  { by rewrite Hkey, Dms, Sms. }
  rewrite (bind_returns _ _ _ _ _ E4).
  exists w4. split; [reflexivity|].
  rewrite Udep, Usvc, Ucm, Upvc, Ddep, Dsvc, Dcm, Dpvc, Sdep, Ssvc, Scm, Spvc.
  repeat split.
  - apply lookup_delete_eq.
  - apply lookup_delete_eq.
  - apply lookup_delete_ne. intros H. by apply (prometheusKey_not_grafanaKey monitorStack).
  - apply lookup_delete_ne. intros H. by apply (prometheusKey_not_grafanaKey monitorStack).
  - unfold storedStatus. rewrite Ums, Hkey, lookup_insert_eq. simpl.
    eexists. split; [reflexivity|]. by split.
Qed.

(** *** Workloads, and a stack that is gone *)

(** X2. A workload that is built has exactly one replica and exactly one
    container. *)
Theorem built_workload_single (monitorStack : MonitorStack) (built : Deployment) :
  buildPrometheusDeployment monitorStack = Val built
  \/ buildGrafanaDeployment monitorStack = Val built ->
  d_Replicas (dep_Spec built) = 1
  /\ List.length (ps_Containers (d_TemplateSpec (dep_Spec built))) = 1%nat.
Proof.
  unfold buildPrometheusDeployment, buildGrafanaDeployment,
    addPrometheusDataVolume, addGrafanaDatasourceVolume, appendVolume.
  intros [H | H]; revert H;
    (destruct (buildResourceRequirements _); simpl; [|discriminate]).
  - by intros [= <-].
  - destruct (0 <? _); by intros [= <-].
Qed.

(** X3. When the stack is not in the store and the API does not fail the
    fetch, the reconciliation issues that one get and nothing else, changes
    nothing, and returns no error and no requeue. *)
Theorem Reconcile_not_found (req : NamespacedName) (w : World) :
  monitorStacks w !! req = None ->
  faults w (List.length (requests w)) = None ->
  exists w',
    Reconcile req w = (Val (noRequeue, None), w')
    /\ sameStores w w'
    /\ requests w'
       = {| rq_Verb := VerbGet; rq_Kind := KindMonitorStack; rq_Key := req |}
         :: requests w.
Proof.
  intros Hn Hf. unfold Reconcile. unfold_client. rewrite Hf. simpl. rewrite Hn.
  eexists. split; [reflexivity|]. by repeat split.
Qed.

(** *** What the builders give *)

Ltac reflect_eqb :=
  repeat match goal with
  | H : (_ =? _)%string = true |- _ => apply String.eqb_eq in H
  | H : (_ =? _)%string = false |- _ => apply String.eqb_neq in H
  end.

Lemma buildResourceList_spec (list : ResourceList) :
  match buildResourceList list with
  | Val built => parses (rl_CPU list) /\ parses (rl_Memory list)
                 /\ forall key, built !! key = resourceEntry list key
  | Panic _ => ~ (parses (rl_CPU list) /\ parses (rl_Memory list))
  end.
Proof.
  unfold buildResourceList, MustParse, parses, resourceEntry, nonEmpty.
  destruct (rl_CPU list =? "")%string eqn:Ec, (rl_Memory list =? "")%string eqn:Em;
    simpl;
    try (destruct (quantityOK (rl_CPU list)) eqn:Qc; simpl);
    try (destruct (quantityOK (rl_Memory list)) eqn:Qm; simpl);
    reflect_eqb;
    try (intros [Hc Hm]; try specialize (Hc Ec); try specialize (Hm Em); congruence);
    (split; [done|]); (split; [done|]); intros key;
    rewrite ?lookup_insert, ?lookup_empty;
    destruct (key =? "cpu")%string eqn:Kc, (key =? "memory")%string eqn:Km;
    reflect_eqb; subst; repeat case_decide; try done; congruence.
Qed.

(** X8. [buildResourceRequirements] returns iff each of the four quantity
    strings is unset or parses (otherwise it panics); what it returns holds,
    for requests and for limits, the cpu and memory strings that are set and
    no other entry. *)
Theorem buildResourceRequirements_spec (resources : ResourceRequirements) :
  ((exists built, buildResourceRequirements resources = Val built)
   <-> quantitiesParse resources)
  /\ (forall built,
        buildResourceRequirements resources = Val built ->
        forall key,
          cr_Requests built !! key = resourceEntry (rr_Requests resources) key
          /\ cr_Limits built !! key = resourceEntry (rr_Limits resources) key).
Proof.
  unfold buildResourceRequirements, quantitiesParse.
  pose proof (buildResourceList_spec (rr_Requests resources)) as Hr.
  pose proof (buildResourceList_spec (rr_Limits resources)) as Hl.
  destruct (buildResourceList (rr_Requests resources)) as [requests|msg]; simpl.
  2:{ split; [|intros; discriminate]. split; [intros [? ?]; discriminate | tauto]. }
  destruct (buildResourceList (rr_Limits resources)) as [limits|msg]; simpl.
  2:{ split; [|intros; discriminate]. split; [intros [? ?]; discriminate | tauto]. }
  split; [split; [tauto | eauto]|].
  intros built [= <-] key. simpl. split; [apply Hr | apply Hl].
Qed.

(** X9. A workload that is built selects its own pods (the selector, the pod
    labels and the object labels are one map), and its pod template declares
    every volume its container mounts, under distinct names and at distinct
    paths. *)
Theorem built_workload_wellformed (monitorStack : MonitorStack) (built : Deployment) :
  buildPrometheusDeployment monitorStack = Val built
  \/ buildGrafanaDeployment monitorStack = Val built ->
  d_MatchLabels (dep_Spec built) = d_TemplateLabels (dep_Spec built)
  /\ om_Labels (dep_Meta built) = d_TemplateLabels (dep_Spec built)
  /\ volumesDeclared (d_TemplateSpec (dep_Spec built)).
Proof.
  unfold buildPrometheusDeployment, buildGrafanaDeployment,
    addPrometheusDataVolume, addGrafanaDatasourceVolume, appendVolume, volumesDeclared.
  intros [H | H]; revert H;
    (destruct (buildResourceRequirements _); simpl; [|discriminate]).
  - intros [= <-]. simpl. do 2 (split; [done|]).
    destruct (nonEmpty _); simpl;
      (split; [compute_done|]);
      (apply Forall_cons; split; [|by apply Forall_nil]); simpl;
      (split; [compute_done|]);
      repeat (apply Forall_cons; split; [compute_done|]); by apply Forall_nil.
  - destruct (0 <? _); intros [= <-]; simpl; do 2 (split; [done|]);
      (split; [compute_done|]);
      (apply Forall_cons; split; [|by apply Forall_nil]); simpl;
      (split; [compute_done|]);
      repeat (apply Forall_cons; split; [compute_done|]); by apply Forall_nil.
Qed.

(** X10. The selector of a built service is the map of its labels, user
    service labels included; so the service selects the pods of the built
    workload iff every service label is one of the pod's labels. *)
Theorem built_service_selector (monitorStack : MonitorStack) :
  (forall built,
      buildPrometheusDeployment monitorStack = Val built ->
      ss_Selector (s_Spec (buildPrometheusService monitorStack))
      = om_Labels (s_Meta (buildPrometheusService monitorStack))
      /\ (ss_Selector (s_Spec (buildPrometheusService monitorStack))
          ⊆ d_TemplateLabels (dep_Spec built)
          <-> svc_Labels (p_Service (Prometheus (Spec monitorStack)))
              ⊆ getLabels monitorStack "prometheus"))
  /\ (forall built,
        buildGrafanaDeployment monitorStack = Val built ->
        ss_Selector (s_Spec (buildGrafanaService monitorStack))
        = om_Labels (s_Meta (buildGrafanaService monitorStack))
        /\ (ss_Selector (s_Spec (buildGrafanaService monitorStack))
            ⊆ d_TemplateLabels (dep_Spec built)
            <-> svc_Labels (g_Service (Grafana (Spec monitorStack)))
                ⊆ getLabels monitorStack "grafana")).
Proof.
  assert (Hsub : forall user labels : gmap string string,
             user ∪ labels ⊆ labels <-> user ⊆ labels).
  { intros user labels. split.
    - intros H. etrans; [apply map_union_subseteq_l | exact H].
    - intros H. by rewrite (map_subseteq_union _ _ H). }
  unfold buildPrometheusDeployment, buildGrafanaDeployment,
    addPrometheusDataVolume, addGrafanaDatasourceVolume, appendVolume.
  split; intros built;
    (destruct (buildResourceRequirements _); simpl; [|discriminate]).
  - intros [= <-]. simpl. split; [done | apply Hsub].
  - destruct (0 <? _); intros [= <-]; simpl; (split; [done | apply Hsub]).
Qed.

(** *** One convergence step of the engine *)

Lemma createPrometheusPVC_run (monitorStack : MonitorStack) (w : World) :
  wellKeyed w ->
  quantityOK (st_Size (p_Storage (Prometheus (Spec monitorStack)))) = true ->
  exists err w',
    createPrometheusPVC monitorStack w = (Val err, w')
    /\ wellKeyed w'
    /\ sameBut KindPersistentVolumeClaim w w'
    /\ (forall k, k <> claimKey monitorStack ->
          persistentVolumeClaims w' !! k = persistentVolumeClaims w !! k)
    /\ logs (fun r => r ∈ [getClaim monitorStack; createClaim monitorStack]) w w'
    /\ (faultFree w -> err = None)
    /\ match persistentVolumeClaims w !! claimKey monitorStack with
       | Some old => persistentVolumeClaims w' !! claimKey monitorStack = Some old
       | None =>
           (err = None ->
            exists pvc,
              persistentVolumeClaims w' !! claimKey monitorStack = Some pvc
              /\ om_OwnerReferences (pvc_Meta pvc) = [controllerRef monitorStack]
              /\ pvc_Requests pvc
                 = {[ "storage" := st_Size (p_Storage (Prometheus (Spec monitorStack))) ]})
           /\ (is_Some err -> persistentVolumeClaims w' !! claimKey monitorStack = None)
       end.
Proof.
  intros (Kms & Kcm & Kpvc & Kdep & Ksvc) Hq.
  unfold createPrometheusPVC. cbv [lift MustParse]. rewrite Hq.
  unfold bind at 1. cbn [pvc_Meta]. rewrite SetControllerReference_fresh.
  unfold getClaim, createClaim.
  set (key := claimKey monitorStack).
  unfold_client. simpl. fold (claimKey monitorStack). fold key.
  destruct (faults w (Datatypes.length (requests w))) as [msg|] eqn:Hf0; simpl.
  { eexists _, _. split; [reflexivity|]. simpl.
    split; [solve_wellKeyed|]. split; [solve_sameBut|]. split; [done|].
    split; [solve_logs|]. split; [no_fault Hf0|].
    destruct (persistentVolumeClaims w !! key) as [old|]; [done|].
    split; [intros; discriminate | done]. }
  destruct (persistentVolumeClaims w !! key) as [old|] eqn:Hold; simpl.
  - eexists _, _. split; [reflexivity|]. simpl.
    split; [solve_wellKeyed|]. split; [solve_sameBut|]. split; [done|].
    split; [solve_logs|]. by split.
  - destruct (faults w (S (Datatypes.length (requests w)))) as [msg|] eqn:Hf1; simpl.
    { eexists _, _. split; [reflexivity|]. simpl.
      split; [solve_wellKeyed|]. split; [solve_sameBut|]. split; [done|].
      split; [solve_logs|]. split; [no_fault Hf1|].
      split; [intros; discriminate | done]. }
    rewrite Hold. eexists _, _. split; [reflexivity|]. simpl.
    split; [solve_wellKeyed|]. split; [solve_sameBut|].
    split; [intros k Hne; by rewrite lookup_insert_ne|].
    split; [solve_logs|]. split; [done|].
    rewrite lookup_insert_eq. split; [|intros [? ?]; discriminate].
    intros _. eexists. split; [reflexivity|]. by split.
Qed.

Lemma createPrometheusPVC_confined (monitorStack : MonitorStack) :
  keeps (confined monitorStack) (fun _ => True) (createPrometheusPVC monitorStack).
Proof.
  intros w. split; [|done].
  destruct (quantityOK (st_Size (p_Storage (Prometheus (Spec monitorStack))))) eqn:Hq.
  2:{ unfold createPrometheusPVC. cbv [bind lift MustParse]. rewrite Hq.
      apply confined_refl. }
  intros Hw.
  destruct (createPrometheusPVC_run monitorStack w Hw Hq)
    as (err & w' & -> & Hw' & S & F & L & _). simpl.
  revert Hw. eapply confined_unit; [done | exact L | |].
  - intros r Hr.
    repeat (apply elem_of_cons in Hr as [-> | Hr]);
      try (by apply elem_of_nil in Hr); solve_engine_member.
  - solve_untouched S F.
Qed.

Lemma buildGrafanaDeployment_meta (monitorStack : MonitorStack) (built : Deployment) :
  buildGrafanaDeployment monitorStack = Val built ->
  dep_Meta built
  = {| om_Name := getGrafanaName monitorStack;
       om_Namespace := Namespace monitorStack;
       om_Labels := getLabels monitorStack "grafana";
       om_OwnerReferences := [] |}.
Proof.
  unfold buildGrafanaDeployment, addGrafanaDatasourceVolume, appendVolume.
  destruct (buildResourceRequirements _); simpl; [|discriminate].
  by destruct (0 <? _); intros [= <-].
Qed.

Lemma createPrometheusDeployment_confined (monitorStack : MonitorStack) :
  keeps (confined monitorStack) (fun _ => True)
    (createPrometheusDeployment monitorStack).
Proof.
  unfold createPrometheusDeployment.
  destruct (buildPrometheusDeployment monitorStack) as [built|msg] eqn:Hb.
  - pose proof (buildPrometheusDeployment_meta _ _ Hb) as Hm.
    intros w. unfold bind, lift.
    apply applyDeployment_confined; [by rewrite Hm.. | left].
    unfold keyOf. simpl. by rewrite Hm.
  - intros w. split; [apply confined_refl | done].
Qed.

Lemma createGrafanaDeployment_confined (monitorStack : MonitorStack) :
  keeps (confined monitorStack) (fun _ => True)
    (createGrafanaDeployment monitorStack).
Proof.
  unfold createGrafanaDeployment.
  destruct (buildGrafanaDeployment monitorStack) as [built|msg] eqn:Hb.
  - pose proof (buildGrafanaDeployment_meta _ _ Hb) as Hm.
    intros w. unfold bind, lift.
    apply applyDeployment_confined; [by rewrite Hm.. | right].
    unfold keyOf. simpl. by rewrite Hm.
  - intros w. split; [apply confined_refl | done].
Qed.

Lemma reconcilePrometheus_confined (monitorStack : MonitorStack) :
  keeps (confined monitorStack) (fun r => sameButStatus monitorStack r.1)
    (reconcilePrometheus monitorStack).
Proof.
  unfold reconcilePrometheus, createPrometheusConfigMap, createPrometheusService.
  repeat first
    [ apply applyConfigMap_confined; [reflexivity | reflexivity | by left]
    | apply applyService_confined; [reflexivity | reflexivity | by left]
    | apply createPrometheusPVC_confined
    | apply createPrometheusDeployment_confined
    | apply Get_Deployment_confined; by left
    | confined_step ].
Qed.

Lemma reconcileGrafana_confined (monitorStack : MonitorStack) :
  keeps (confined monitorStack) (fun r => sameButStatus monitorStack r.1)
    (reconcileGrafana monitorStack).
Proof.
  unfold reconcileGrafana, createGrafanaDatasourcesConfigMap, createGrafanaService.
  repeat first
    [ apply applyConfigMap_confined; [reflexivity | reflexivity | by right]
    | apply applyService_confined; [reflexivity | reflexivity | by right]
    | apply createGrafanaDeployment_confined
    | apply Get_Deployment_confined; by right
    | confined_step ].
Qed.

Lemma keeps_confined_status {A : Type} (monitorStack : MonitorStack)
  (status : MonitorStackStatus) (Q : A -> Prop) (m : M A) :
  keeps (confined (withStatus monitorStack status)) Q m ->
  keeps (confined monitorStack) Q m.
Proof. exact id. Qed.

Lemma keeps_confined_same {A : Type} (monitorStack current : MonitorStack)
  (Q : A -> Prop) (m : M A) :
  sameButStatus monitorStack current ->
  keeps (confined current) Q m -> keeps (confined monitorStack) Q m.
Proof. intros Hs. rewrite Hs. exact id. Qed.

Lemma sameButStatus_trans (a b c : MonitorStack) :
  sameButStatus a b -> sameButStatus b c -> sameButStatus a c.
Proof. unfold sameButStatus. intros -> ->. reflexivity. Qed.

Lemma reconcileStack_confined (monitorStack : MonitorStack) :
  keeps (confined monitorStack) (fun _ => True) (reconcileStack monitorStack).
Proof.
  unfold reconcileStack.
  destruct (DeletionTimestamp monitorStack); [apply handleDeletion_confined|].
  destruct (negb _).
  { repeat confined_step. apply UpdateMonitorStack_confined.
    unfold AddFinalizer. by destruct (ContainsFinalizer _ _). }
  eapply keeps_bind; [apply confined_trans | apply initStatus_confined |].
  intros [current err] Hs. simpl in Hs. destruct err; [repeat confined_step|].
  eapply (keeps_bind _ (fun r => sameButStatus monitorStack r.1));
    [apply confined_trans | |].
  { destruct (p_Enabled _).
    - apply (keeps_confined_same _ current); [done|].
      eapply keeps_weaken; [|apply reconcilePrometheus_confined].
      intros r Hr. by eapply sameButStatus_trans.
    - eapply (keeps_bind _ (fun _ => True)); [apply confined_trans | | intros ? _].
      + apply (keeps_confined_same _ current); [done|].
        eapply keeps_weaken; [|apply cleanupPrometheusResources_confined]; done.
      + by apply keeps_ret; [apply confined_refl|]. }
  intros [current1 err1] Hs1. simpl in Hs1. destruct err1.
  { eapply (keeps_bind _ (fun _ => True)); [apply confined_trans | | intros ? _].
    - by apply updateStatus_confined.
    - confined_step. }
  eapply (keeps_bind _ (fun r => sameButStatus monitorStack r.1));
    [apply confined_trans | |].
  { destruct (g_Enabled _).
    - apply (keeps_confined_same _ current1); [done|].
      eapply keeps_weaken; [|apply reconcileGrafana_confined].
      intros r Hr. by eapply sameButStatus_trans.
    - eapply (keeps_bind _ (fun _ => True)); [apply confined_trans | | intros ? _].
      + apply (keeps_confined_same _ current1); [done|].
        eapply keeps_weaken; [|apply cleanupGrafanaResources_confined]; done.
      + by apply keeps_ret; [apply confined_refl|]. }
  intros [current2 err2] Hs2. simpl in Hs2. destruct err2.
  { eapply (keeps_bind _ (fun _ => True)); [apply confined_trans | | intros ? _].
    - by apply updateStatus_confined.
    - confined_step. }
  eapply (keeps_bind _ (fun _ => True)); [apply confined_trans | | intros [? ?] _].
  - by apply updateOverallStatus_confined.
  - repeat confined_step.
Qed.

(** X12. On a well-formed cluster and whatever the API answers, a
    reconciliation of a stored stack issues only requests of the stack's
    table and changes no object but the stack and its seven children, and
    the cluster stays well-formed; when the stack is not stored it issues the
    fetch alone and changes nothing.  Every request of the table is in the
    stack's namespace and on the stack or a child name; the only ConfigMap
    the engine can delete is the collector's configuration (never the
    dashboard's datasources), and the claim is only got and created. *)
Theorem Reconcile_confined (req : NamespacedName) (w : World) :
  wellKeyed w ->
  wellKeyed (Reconcile req w).2
  /\ match monitorStacks w !! req with
     | Some monitorStack =>
         logs (fun r => r ∈ engineRequests monitorStack) w (Reconcile req w).2
         /\ untouched monitorStack w (Reconcile req w).2
     | None =>
         sameStores w (Reconcile req w).2
         /\ requests (Reconcile req w).2
            = {| rq_Verb := VerbGet; rq_Kind := KindMonitorStack; rq_Key := req |}
              :: requests w
     end
  /\ (forall monitorStack r,
        r ∈ engineRequests monitorStack ->
        (rq_Key r).1 = Namespace monitorStack
        /\ ((rq_Key r).2 = Name monitorStack \/ (rq_Key r).2 ∈ childNames monitorStack)
        /\ (rq_Verb r = VerbDelete -> rq_Kind r = KindConfigMap ->
            rq_Key r = prometheusConfigKey monitorStack)
        /\ (rq_Kind r = KindPersistentVolumeClaim ->
            rq_Verb r = VerbGet \/ rq_Verb r = VerbCreate)).
Proof.
  intros Hw.
  assert (Htable : forall monitorStack r,
    r ∈ engineRequests monitorStack ->
    (rq_Key r).1 = Namespace monitorStack
    /\ ((rq_Key r).2 = Name monitorStack \/ (rq_Key r).2 ∈ childNames monitorStack)
    /\ (rq_Verb r = VerbDelete -> rq_Kind r = KindConfigMap ->
        rq_Key r = prometheusConfigKey monitorStack)
    /\ (rq_Kind r = KindPersistentVolumeClaim ->
        rq_Verb r = VerbGet \/ rq_Verb r = VerbCreate)).
  { intros monitorStack r Hr.
    unfold engineRequests, stackRequests, applyRequests, getClaim, createClaim in Hr.
    simpl in Hr.
    repeat (apply elem_of_cons in Hr as [-> | Hr]);
      try (by apply elem_of_nil in Hr); simpl;
      (split; [reflexivity|]);
      (split;
       [first [by left
              | right; unfold childNames;
                repeat first [apply list_elem_of_here | apply list_elem_of_further]]|]);
      (split; intros; first [discriminate | reflexivity | by left | by right]). }
  unfold Reconcile, bind.
  destruct (GetMonitorStack_fetch req w)
    as (got & w1 & -> & Hsame & Hlog & Hgot & _ & Hnf).
  assert (Hw1 : wellKeyed w1).
  { destruct Hsame as (E1 & E2 & E3 & E4 & E5 & _). unfold wellKeyed.
    by rewrite E1, E2, E3, E4, E5. }
  destruct got as [err|monitorStack].
  - assert (E : (if IsNotFound err then ret (noRequeue, None)
                 else ret (noRequeue, Some err)) w1
                = (Val (if IsNotFound err then (noRequeue, None)
                        else (noRequeue, Some err)), w1))
      by (by destruct (IsNotFound err)).
    rewrite E. simpl. split; [done|]. split; [|done].
    destruct (monitorStacks w !! req) as [monitorStack|] eqn:Hs; [|done].
    split.
    + eapply logs_one; [|exact Hlog]. apply engineRequests_stack.
      destruct Hw as (Kms & _). unfold stackRequests. rewrite (Kms _ _ Hs).
      apply list_elem_of_here.
    + destruct Hsame as (E1 & E2 & E3 & E4 & E5 & E6 & E7).
      repeat split; intros; congruence.
  - rewrite (Hgot monitorStack eq_refl).
    assert (Hkey : stackKey monitorStack = req).
    { destruct Hw as (Kms & _). apply (Kms _ _ (Hgot monitorStack eq_refl)). }
    destruct (reconcileStack_confined monitorStack w1) as [Hc _].
    destruct (Hc Hw1) as (Hw2 & L & U).
    split; [done|]. split; [|done]. split.
    + eapply logs_trans; [|exact L].
      eapply logs_one; [|exact Hlog]. apply engineRequests_stack.
      unfold stackRequests. rewrite Hkey. apply list_elem_of_here.
    + eapply untouched_trans; [|exact U].
      destruct Hsame as (E1 & E2 & E3 & E4 & E5 & E6 & E7).
      repeat split; intros; congruence.
Qed.

(** *** The engine owns what it creates and adopts nothing *)

Lemma createPrometheusPVC_converging (monitorStack : MonitorStack) :
  keeps (converging monitorStack) (fun _ => True) (createPrometheusPVC monitorStack).
Proof.
  intros w. split; [|done].
  destruct (quantityOK (st_Size (p_Storage (Prometheus (Spec monitorStack))))) eqn:Hq.
  2:{ unfold createPrometheusPVC. cbv [bind lift MustParse]. rewrite Hq.
      apply converging_refl. }
  intros Hw.
  destruct (createPrometheusPVC_run monitorStack w Hw Hq)
    as (err & w' & -> & Hw' & S & F & L & _ & M). simpl.
  split; [done|]. use_sameBut S. split.
  - intros kind key old Hold.
    destruct kind; simpl in *; rewrite ?Ssvc, ?Scm, ?Sdep; try by exists old.
    rewrite lookup_fmap in *.
    destruct (decide (key = claimKey monitorStack)) as [->|Hne];
      [|rewrite F by done; by exists old].
    destruct (persistentVolumeClaims w !! claimKey monitorStack) as [o|];
      [|discriminate].
    injection Hold as <-. rewrite M. by exists (pvc_Meta o).
  - intros kind key meta Hnew Hnone.
    destruct kind; simpl in *; rewrite ?Ssvc, ?Scm, ?Sdep in Hnew; try congruence.
    rewrite lookup_fmap in *.
    destruct (decide (key = claimKey monitorStack)) as [->|Hne];
      [|rewrite F in Hnew by done; congruence].
    destruct (persistentVolumeClaims w !! claimKey monitorStack) as [o|];
      [discriminate|].
    destruct M as [Mok Merr]. destruct err as [e|].
    + rewrite Merr in Hnew by eauto. discriminate.
    + destruct (Mok eq_refl) as (pvc & Hpvc & Hr & _). rewrite Hpvc in Hnew.
      by injection Hnew as <-.
Qed.

Lemma createPrometheusDeployment_converging (monitorStack : MonitorStack) :
  keeps (converging monitorStack) (fun _ => True)
    (createPrometheusDeployment monitorStack).
Proof.
  unfold createPrometheusDeployment.
  destruct (buildPrometheusDeployment monitorStack) as [built|msg] eqn:Hb.
  - pose proof (buildPrometheusDeployment_meta _ _ Hb) as Hm.
    intros w. unfold bind, lift.
    apply applyDeployment_converging; by rewrite Hm.
  - intros w. split; [apply converging_refl | done].
Qed.

Lemma createGrafanaDeployment_converging (monitorStack : MonitorStack) :
  keeps (converging monitorStack) (fun _ => True)
    (createGrafanaDeployment monitorStack).
Proof.
  unfold createGrafanaDeployment.
  destruct (buildGrafanaDeployment monitorStack) as [built|msg] eqn:Hb.
  - pose proof (buildGrafanaDeployment_meta _ _ Hb) as Hm.
    intros w. unfold bind, lift.
    apply applyDeployment_converging; by rewrite Hm.
  - intros w. split; [apply converging_refl | done].
Qed.

Lemma reconcilePrometheus_converging (monitorStack : MonitorStack) :
  keeps (converging monitorStack) (fun _ => True) (reconcilePrometheus monitorStack).
Proof.
  unfold reconcilePrometheus, createPrometheusConfigMap, createPrometheusService.
  repeat first
    [ apply applyConfigMap_converging; reflexivity
    | apply applyService_converging; reflexivity
    | apply createPrometheusPVC_converging
    | apply createPrometheusDeployment_converging
    | apply Get_Deployment_converging
    | converging_step ].
Qed.

Lemma reconcileGrafana_converging (monitorStack : MonitorStack) :
  keeps (converging monitorStack) (fun _ => True) (reconcileGrafana monitorStack).
Proof.
  unfold reconcileGrafana, createGrafanaDatasourcesConfigMap, createGrafanaService.
  repeat first
    [ apply applyConfigMap_converging; reflexivity
    | apply applyService_converging; reflexivity
    | apply createGrafanaDeployment_converging
    | apply Get_Deployment_converging
    | converging_step ].
Qed.

(** X13. On a well-formed cluster and whatever the API answers, converging a
    subsystem removes no child and never changes the owner references of a
    child that exists (an object found under a child's name is updated in
    place, not adopted), and every child it creates has the ownership link to
    the stack as its only owner reference. *)
Theorem reconcile_owns_what_it_creates (monitorStack : MonitorStack) (w : World) :
  wellKeyed w ->
  ownershipKept monitorStack w (reconcilePrometheus monitorStack w).2
  /\ ownershipKept monitorStack w (reconcileGrafana monitorStack w).2.
Proof.
  intros Hw. split.
  - by apply (reconcilePrometheus_converging monitorStack w).
  - by apply (reconcileGrafana_converging monitorStack w).
Qed.

(** *** A subsystem that converged *)

Lemma createPrometheusPVC_ok (monitorStack : MonitorStack) (w w' : World) :
  wellKeyed w ->
  createPrometheusPVC monitorStack w = (Val None, w') ->
  quantityOK (st_Size (p_Storage (Prometheus (Spec monitorStack)))) = true
  /\ wellKeyed w' /\ sameBut KindPersistentVolumeClaim w w'
  /\ (forall k, k <> claimKey monitorStack ->
        persistentVolumeClaims w' !! k = persistentVolumeClaims w !! k)
  /\ is_Some (persistentVolumeClaims w' !! claimKey monitorStack).
Proof.
  intros Hw E.
  destruct (quantityOK (st_Size (p_Storage (Prometheus (Spec monitorStack))))) eqn:Hq.
  2:{ revert E. unfold createPrometheusPVC. cbv [bind lift MustParse]. rewrite Hq.
      discriminate. }
  destruct (createPrometheusPVC_run monitorStack w Hw Hq)
    as (err & w1 & E1 & Hw1 & S & F & L & _ & M).
  rewrite E in E1. injection E1 as <- <-.
  do 4 (split; [done|]).
  destruct (persistentVolumeClaims w !! claimKey monitorStack) as [old|].
  - rewrite M. eauto.
  - destruct M as [Mok _]. destruct (Mok eq_refl) as (pvc & -> & _). eauto.
Qed.

Lemma reconcilePrometheus_success (monitorStack updated : MonitorStack) (w w' : World) :
  wellKeyed w ->
  reconcilePrometheus monitorStack w = (Val (updated, None), w') ->
  wellKeyed w'
  /\ monitorStacks w' = monitorStacks w
  /\ faults w' = faults w /\ now w' = now w
  /\ (forall k, k <> prometheusConfigKey monitorStack ->
        configMaps w' !! k = configMaps w !! k)
  /\ (forall k, k <> claimKey monitorStack ->
        persistentVolumeClaims w' !! k = persistentVolumeClaims w !! k)
  /\ (forall k, k <> prometheusKey monitorStack ->
        deployments w' !! k = deployments w !! k)
  /\ (forall k, k <> prometheusKey monitorStack -> services w' !! k = services w !! k)
  /\ prometheusChildrenConverged updated w'
  /\ exists deployment,
       deployments w' !! prometheusKey monitorStack = Some deployment
       /\ updated
          = withPrometheusStatus monitorStack
              (observeDeployment (PrometheusStatus (Status monitorStack)) deployment
                 (getPrometheusServiceName monitorStack)
                 (svc_Port (p_Service (Prometheus (Spec monitorStack))))).
Proof.
  intros Hw E. unfold reconcilePrometheus in E.
  (* the configuration *)
  apply bind_Val_inv in E as (e1 & w1 & E1 & E).
  destruct e1 as [e1|]; [discriminate E|].
  apply applyConfigMap_ok in E1 as (Hw1 & S1 & F1 & cm & Hcm & Hdata);
    [|done..].
  change (keyOf _) with (prometheusConfigKey monitorStack) in F1, Hcm.
  simpl in Hdata.
  (* the claim *)
  apply bind_Val_inv in E as (e2 & w2 & E2 & E).
  destruct e2 as [e2|]; [discriminate E|].
  assert (H2 : wellKeyed w2 /\ sameBut KindPersistentVolumeClaim w1 w2
               /\ (forall k, k <> claimKey monitorStack ->
                     persistentVolumeClaims w2 !! k = persistentVolumeClaims w1 !! k)
               /\ (st_Size (p_Storage (Prometheus (Spec monitorStack))) <> "" ->
                   quantityOK (st_Size (p_Storage (Prometheus (Spec monitorStack))))
                   = true
                   /\ is_Some (persistentVolumeClaims w2 !! claimKey monitorStack))).
  { unfold nonEmpty in E2.
    destruct (st_Size (p_Storage (Prometheus (Spec monitorStack))) =? "")%string
      eqn:Hsize; simpl in E2.
    - unfold ret in E2. injection E2 as <-. apply String.eqb_eq in Hsize.
      split; [done|]. split; [apply sameBut_refl|]. by split.
    - apply createPrometheusPVC_ok in E2 as (Hq & Hw2 & S2 & F2 & Hpvc); [|done].
      do 3 (split; [done|]). intros _. by split. }
  destruct H2 as (Hw2 & S2 & F2 & Hpvc).
  (* the workload *)
  apply bind_Val_inv in E as (e3 & w3 & E3 & E).
  destruct e3 as [e3|]; [discriminate E|].
  unfold createPrometheusDeployment in E3.
  apply bind_Val_inv in E3 as (built & w2' & Hb & E3).
  apply lift_Val_inv in Hb as [Hb ->].
  pose proof (buildPrometheusDeployment_meta _ _ Hb) as Hm.
  apply applyDeployment_ok in E3 as (Hw3 & S3 & F3 & dep & Hdep & Hspec & Hlab);
    [|done|by rewrite Hm..].
  assert (Hbk : keyOf built = prometheusKey monitorStack)
    by (unfold keyOf; simpl; by rewrite Hm).
  rewrite Hbk in *.
  (* the service *)
  apply bind_Val_inv in E as (e4 & w4 & E4 & E).
  destruct e4 as [e4|]; [discriminate E|].
  apply applyService_ok in E4 as (Hw4 & S4 & F4 & svc & Hsvc & Htype & Hports & Hslab);
    [|done..].
  change (keyOf (buildPrometheusService monitorStack))
    with (prometheusKey monitorStack) in *.
  (* the observation *)
  apply bind_Val_inv in E as (got & w5 & E5 & E).
  destruct (Get_Deployment_run (prometheusKey monitorStack) w4)
    as (got' & w5' & E5' & S5 & Hgot & _).
  unfold prometheusKey in E5'. rewrite E5 in E5'. injection E5' as <- <-.
  destruct got as [err|observed]; [discriminate E|].
  injection E as <- <-.
  specialize (Hgot observed eq_refl).
  apply sameBut_ConfigMap in S1 as (A1 & A3 & A4 & A5 & A6 & A7).
  apply sameBut_Claim in S2 as (B1 & B2 & B4 & B5 & B6 & B7).
  apply sameBut_Deployment in S3 as (C1 & C2 & C3 & C5 & C6 & C7).
  apply sameBut_Service in S4 as (D1 & D2 & D3 & D4 & D6 & D7).
  destruct S5 as (T1 & T2 & T3 & T4 & T5 & T6 & T7).
  assert (Hobs : observed = dep) by (rewrite D4 in Hgot; congruence).
  subst observed.
  pose proof (sameStores_wellKeyed w4 w5 ltac:(by repeat split) Hw4) as Hw5.
  split; [done|]. split; [congruence|]. split; [congruence|]. split; [congruence|].
  split; [intros k Hk; rewrite T2, D2, C2, B2; by apply F1|].
  split; [intros k Hk; rewrite T3, D3, C3; rewrite F2 by done; by rewrite A3|].
  split; [intros k Hk; rewrite T4, D4; rewrite F3 by done; by rewrite B4, A4|].
  split; [intros k Hk; rewrite T5; rewrite F4 by done; by rewrite C5, B5, A5|].
  split; [|exists dep; split; [by rewrite T4, D4|reflexivity]].
  exists built, cm, dep, svc.
  destruct Hw5 as (K1 & K2 & K3 & K4 & K5).
  assert (Hcm5 : configMaps w5 !! prometheusConfigKey monitorStack = Some cm)
    by (by rewrite T2, D2, C2, B2).
  assert (Hdep5 : deployments w5 !! prometheusKey monitorStack = Some dep)
    by (by rewrite T4, D4).
  assert (Hsvc5 : services w5 !! prometheusKey monitorStack = Some svc)
    by (by rewrite T5).
  split; [exact Hb|]. split; [exact Hcm5|]. split; [exact (K2 _ _ Hcm5)|].
  split; [exact Hdata|]. split; [exact Hdep5|]. split; [exact (K4 _ _ Hdep5)|].
  split; [exact Hspec|]. split; [exact Hlab|]. split; [exact Hsvc5|].
  split; [exact (K5 _ _ Hsvc5)|]. split; [exact Htype|]. split; [exact Hports|].
  split; [exact Hslab|].
  split.
  { intros Hsize. destruct (Hpvc Hsize) as [Hq Hc]. split; [done|].
    by rewrite T3, D3, C3. }
  simpl. symmetry. apply observeDeployment_idem.
Qed.

Lemma datasources_guard (monitorStack : MonitorStack) :
  (0 <? Z.of_nat (List.length (g_Datasources (Grafana (Spec monitorStack))))) = true
  <-> g_Datasources (Grafana (Spec monitorStack)) <> [].
Proof.
  destruct (g_Datasources (Grafana (Spec monitorStack))); simpl; split;
    first [done | discriminate | intros _; by apply Z.ltb_lt].
Qed.

Lemma reconcileGrafana_success (monitorStack updated : MonitorStack) (w w' : World) :
  wellKeyed w ->
  reconcileGrafana monitorStack w = (Val (updated, None), w') ->
  wellKeyed w'
  /\ monitorStacks w' = monitorStacks w
  /\ faults w' = faults w /\ now w' = now w
  /\ (forall k, k <> datasourcesKey monitorStack ->
        configMaps w' !! k = configMaps w !! k)
  /\ persistentVolumeClaims w' = persistentVolumeClaims w
  /\ (forall k, k <> grafanaKey monitorStack ->
        deployments w' !! k = deployments w !! k)
  /\ (forall k, k <> grafanaKey monitorStack -> services w' !! k = services w !! k)
  /\ grafanaChildrenConverged updated w'
  /\ exists deployment,
       deployments w' !! grafanaKey monitorStack = Some deployment
       /\ updated
          = withGrafanaStatus monitorStack
              (observeDeployment (GrafanaStatus (Status monitorStack)) deployment
                 (getGrafanaServiceName monitorStack)
                 (svc_Port (g_Service (Grafana (Spec monitorStack))))).
Proof.
  intros Hw E. unfold reconcileGrafana in E.
  (* the datasources file *)
  apply bind_Val_inv in E as (e1 & w1 & E1 & E).
  destruct e1 as [e1|]; [discriminate E|].
  assert (H1 : wellKeyed w1 /\ sameBut KindConfigMap w w1
               /\ (forall k, k <> datasourcesKey monitorStack ->
                     configMaps w1 !! k = configMaps w !! k)
               /\ (g_Datasources (Grafana (Spec monitorStack)) <> [] ->
                   exists cm,
                     configMaps w1 !! datasourcesKey monitorStack = Some cm
                     /\ cm_Data cm
                        = {[ "datasources.yaml"
                             := buildGrafanaDatasourcesConfig monitorStack ]})).
  { destruct (0 <? _) eqn:Hds.
    - apply applyConfigMap_ok in E1 as (Hw1 & S1 & F1 & cm & Hcm & Hdata); [|done..].
      do 3 (split; [done|]). intros _. by exists cm.
    - unfold ret in E1. injection E1 as <-.
      split; [done|]. split; [apply sameBut_refl|]. split; [done|].
      intros Hne. apply datasources_guard in Hne. congruence. }
  destruct H1 as (Hw1 & S1 & F1 & Hcm).
  (* the workload *)
  apply bind_Val_inv in E as (e3 & w3 & E3 & E).
  destruct e3 as [e3|]; [discriminate E|].
  unfold createGrafanaDeployment in E3.
  apply bind_Val_inv in E3 as (built & w2' & Hb & E3).
  apply lift_Val_inv in Hb as [Hb ->].
  pose proof (buildGrafanaDeployment_meta _ _ Hb) as Hm.
  apply applyDeployment_ok in E3 as (Hw3 & S3 & F3 & dep & Hdep & Hspec & Hlab);
    [|done|by rewrite Hm..].
  assert (Hbk : keyOf built = grafanaKey monitorStack)
    by (unfold keyOf; simpl; by rewrite Hm).
  rewrite Hbk in *.
  (* the service *)
  apply bind_Val_inv in E as (e4 & w4 & E4 & E).
  destruct e4 as [e4|]; [discriminate E|].
  apply applyService_ok in E4 as (Hw4 & S4 & F4 & svc & Hsvc & Htype & Hports & Hslab);
    [|done..].
  change (keyOf (buildGrafanaService monitorStack))
    with (grafanaKey monitorStack) in *.
  (* the observation *)
  apply bind_Val_inv in E as (got & w5 & E5 & E).
  destruct (Get_Deployment_run (grafanaKey monitorStack) w4)
    as (got' & w5' & E5' & S5 & Hgot & _).
  unfold grafanaKey in E5'. rewrite E5 in E5'. injection E5' as <- <-.
  destruct got as [err|observed]; [discriminate E|].
  injection E as <- <-.
  specialize (Hgot observed eq_refl).
  apply sameBut_ConfigMap in S1 as (A1 & A3 & A4 & A5 & A6 & A7).
  apply sameBut_Deployment in S3 as (C1 & C2 & C3 & C5 & C6 & C7).
  apply sameBut_Service in S4 as (D1 & D2 & D3 & D4 & D6 & D7).
  destruct S5 as (T1 & T2 & T3 & T4 & T5 & T6 & T7).
  assert (Hobs : observed = dep) by (rewrite D4 in Hgot; congruence).
  subst observed.
  pose proof (sameStores_wellKeyed w4 w5 ltac:(by repeat split) Hw4) as Hw5.
  split; [done|]. split; [congruence|]. split; [congruence|]. split; [congruence|].
  split; [intros k Hk; rewrite T2, D2, C2; by apply F1|].
  split; [congruence|].
  split; [intros k Hk; rewrite T4, D4; rewrite F3 by done; by rewrite A4|].
  split; [intros k Hk; rewrite T5; rewrite F4 by done; by rewrite C5, A5|].
  split; [|exists dep; split; [by rewrite T4, D4|reflexivity]].
  exists built, dep, svc.
  destruct Hw5 as (K1 & K2 & K3 & K4 & K5).
  assert (Hdep5 : deployments w5 !! grafanaKey monitorStack = Some dep)
    by (by rewrite T4, D4).
  assert (Hsvc5 : services w5 !! grafanaKey monitorStack = Some svc)
    by (by rewrite T5).
  split; [exact Hb|].
  split.
  { intros Hne. destruct (Hcm Hne) as (cm & Hcm1 & Hdata).
    assert (Hcm5 : configMaps w5 !! datasourcesKey monitorStack = Some cm)
      by (by rewrite T2, D2, C2).
    exists cm. split; [exact Hcm5|]. split; [exact (K2 _ _ Hcm5) | exact Hdata]. }
  split; [exact Hdep5|]. split; [exact (K4 _ _ Hdep5)|].
  split; [exact Hspec|]. split; [exact Hlab|]. split; [exact Hsvc5|].
  split; [exact (K5 _ _ Hsvc5)|]. split; [exact Htype|]. split; [exact Hports|].
  split; [exact Hslab|].
  simpl. symmetry. apply observeDeployment_idem.
Qed.

Lemma createGrafanaDatasourcesConfigMap_converged (monitorStack : MonitorStack)
  (configMap : ConfigMap) (w : World) :
  faultFree w ->
  configMaps w !! datasourcesKey monitorStack = Some configMap ->
  keyOf configMap = datasourcesKey monitorStack ->
  cm_Data configMap
  = {[ "datasources.yaml" := buildGrafanaDatasourcesConfig monitorStack ]} ->
  exists w', createGrafanaDatasourcesConfigMap monitorStack w = (Val None, w')
             /\ sameStores w w'.
Proof.
  intros Hf Hl Hk Hd.
  unfold createGrafanaDatasourcesConfigMap, applyConfigMap. cbn [cm_Meta].
  rewrite SetControllerReference_fresh.
  change (keyOf (withMeta_ConfigMap _ _)) with (datasourcesKey monitorStack).
  step_same (Get_ConfigMap_found (datasourcesKey monitorStack) configMap w Hf Hl)
    Hf w1 S1.
  cbn [withMeta_ConfigMap cm_Data].
  replace {| cm_Meta := cm_Meta configMap; cm_Data := _ |} with configMap
    by (destruct configMap; simpl in *; congruence).
  destruct (Update_ConfigMap_same configMap w1) as (w2 & E & S2); [done| |].
  { rewrite Hk. destruct S1 as (_ & -> & _). done. }
  exists w2. split; [done | by eapply sameStores_trans].
Qed.

Lemma withGrafanaStatus_same (monitorStack : MonitorStack) :
  withGrafanaStatus monitorStack (GrafanaStatus (Status monitorStack)) = monitorStack.
Proof. by destruct monitorStack as [? ? ? ? ? ? []]. Qed.

Lemma reconcileGrafana_converged (monitorStack : MonitorStack) (w : World) :
  faultFree w ->
  grafanaChildrenConverged monitorStack w ->
  exists w', reconcileGrafana monitorStack w = (Val (monitorStack, None), w')
             /\ sameStores w w'.
Proof.
  intros Hf (built & dep & svc & Hbuilt & Hcm & Hdep & Hdepk
             & Hspec & Hlab & Hsvc & Hsvck & Htype & Hports & Hslab & Hstatus).
  pose proof (buildGrafanaDeployment_meta _ _ Hbuilt) as Hmeta.
  unfold reconcileGrafana.
  assert (S1 : exists w1,
    (if 0 <? Z.of_nat (List.length (g_Datasources (Grafana (Spec monitorStack))))
     then createGrafanaDatasourcesConfigMap monitorStack else ret None) w
    = (Val None, w1) /\ sameStores w w1).
  { destruct (0 <? _) eqn:Hds.
    - apply datasources_guard in Hds. destruct (Hcm Hds) as (cm & Hl & Hk & Hd).
      by apply (createGrafanaDatasourcesConfigMap_converged _ cm).
    - exists w. split; [reflexivity | apply sameStores_refl]. }
  step_same S1 Hf w1 S1'.
  replace (createGrafanaDeployment monitorStack)
    with (applyDeployment monitorStack built)
    by (unfold createGrafanaDeployment; by rewrite Hbuilt).
  assert (Hbk : keyOf built = grafanaKey monitorStack).
  { unfold keyOf. simpl. by rewrite Hmeta. }
  step_same (applyDeployment_converged monitorStack built dep w1) Hf0 w3 S3.
  { rewrite Hmeta. reflexivity. }
  { rewrite Hbk. destruct S1' as (_ & _ & _ & -> & _). done. }
  { congruence. }
  unfold createGrafanaService.
  assert (S13 : sameStores w w3) by (by eapply sameStores_trans).
  step_same (applyService_converged monitorStack
               (buildGrafanaService monitorStack) svc w3) Hf1 w4 S4.
  { change (keyOf (buildGrafanaService monitorStack))
      with (grafanaKey monitorStack).
    destruct S13 as (_ & _ & _ & _ & -> & _). done. }
  assert (S14 : sameStores w w4) by (by eapply sameStores_trans).
  step_same (Get_Deployment_found (grafanaKey monitorStack) dep w4) Hf2 w5 S5.
  { destruct S14 as (_ & _ & _ & -> & _). done. }
  rewrite <- Hstatus, withGrafanaStatus_same.
  exists w5. split; [reflexivity | by eapply sameStores_trans].
Qed.

Lemma prometheus_volumes_resolve (monitorStack : MonitorStack) (w : World) :
  prometheusChildrenConverged monitorStack w ->
  exists deployment,
    deployments w !! prometheusKey monitorStack = Some deployment
    /\ volumesResolve (Namespace monitorStack)
         (d_TemplateSpec (dep_Spec deployment)) w.
Proof.
  intros (built & cm & dep & svc & Hbuilt & Hcm & _ & _ & Hdep & _ & Hspec & _ & _
          & _ & _ & _ & _ & Hpvc & _).
  exists dep. split; [done|]. rewrite Hspec. revert Hbuilt.
  unfold buildPrometheusDeployment, addPrometheusDataVolume, appendVolume.
  destruct (buildResourceRequirements _); simpl; [|discriminate].
  intros [= <-]. unfold volumesResolve. simpl.
  apply Forall_cons. split; [simpl; eauto|].
  apply Forall_cons. split; [|by apply Forall_nil].
  unfold nonEmpty in *.
  destruct (st_Size (p_Storage (Prometheus (Spec monitorStack))) =? "")%string eqn:Hs;
    simpl; [done|].
  apply String.eqb_neq in Hs. by apply Hpvc.
Qed.

Lemma grafana_volumes_resolve (monitorStack : MonitorStack) (w : World) :
  grafanaChildrenConverged monitorStack w ->
  exists deployment,
    deployments w !! grafanaKey monitorStack = Some deployment
    /\ volumesResolve (Namespace monitorStack)
         (d_TemplateSpec (dep_Spec deployment)) w.
Proof.
  intros (built & dep & svc & Hbuilt & Hcm & Hdep & _ & Hspec & _).
  exists dep. split; [done|]. rewrite Hspec. revert Hbuilt.
  unfold buildGrafanaDeployment, addGrafanaDatasourceVolume, appendVolume.
  destruct (buildResourceRequirements _); simpl; [|discriminate].
  destruct (0 <? _) eqn:Hds; intros [= <-]; unfold volumesResolve; simpl.
  - apply Forall_cons. split; [done|].
    apply Forall_cons. split; [|by apply Forall_nil]. simpl.
    apply datasources_guard in Hds. destruct (Hcm Hds) as (cm & Hl & _). eauto.
  - apply Forall_cons. split; [done | by apply Forall_nil].
Qed.

(** X14. When converging a subsystem returns no error (on a well-formed
    cluster, whatever the API answered on the way), the subsystem is
    converged: its configuration, workload and service are stored with what
    the builders give for the spec, the returned component status is the one
    read off the stored workload, and every ConfigMap and claim that a volume
    of the stored workload names exists. *)
Theorem reconcile_success_converged (monitorStack updated : MonitorStack)
  (w w' : World) :
  wellKeyed w ->
  (reconcilePrometheus monitorStack w = (Val (updated, None), w') ->
   prometheusChildrenConverged updated w'
   /\ exists deployment,
        deployments w' !! prometheusKey monitorStack = Some deployment
        /\ volumesResolve (Namespace monitorStack)
             (d_TemplateSpec (dep_Spec deployment)) w'
        /\ cs_Ready (PrometheusStatus (Status updated))
           = (dst_ReadyReplicas (dep_Status deployment) >? 0)
        /\ cs_Replicas (PrometheusStatus (Status updated))
           = dst_Replicas (dep_Status deployment))
  /\ (reconcileGrafana monitorStack w = (Val (updated, None), w') ->
      grafanaChildrenConverged updated w'
      /\ exists deployment,
           deployments w' !! grafanaKey monitorStack = Some deployment
           /\ volumesResolve (Namespace monitorStack)
                (d_TemplateSpec (dep_Spec deployment)) w'
           /\ cs_Ready (GrafanaStatus (Status updated))
              = (dst_ReadyReplicas (dep_Status deployment) >? 0)
           /\ cs_Replicas (GrafanaStatus (Status updated))
              = dst_Replicas (dep_Status deployment)).
Proof.
  intros Hw. split; intros E.
  - destruct (reconcilePrometheus_success _ _ _ _ Hw E)
      as (_ & _ & _ & _ & _ & _ & _ & _ & Hc & dep & Hdep & ->).
    split; [done|].
    destruct (prometheus_volumes_resolve _ _ Hc) as (dep' & Hdep' & Hv).
    change (prometheusKey (withPrometheusStatus _ _))
      with (prometheusKey monitorStack) in Hdep'.
    rewrite Hdep in Hdep'. injection Hdep' as <-.
    exists dep. by repeat split.
  - destruct (reconcileGrafana_success _ _ _ _ Hw E)
      as (_ & _ & _ & _ & _ & _ & _ & _ & Hc & dep & Hdep & ->).
    split; [done|].
    destruct (grafana_volumes_resolve _ _ Hc) as (dep' & Hdep' & Hv).
    change (grafanaKey (withGrafanaStatus _ _))
      with (grafanaKey monitorStack) in Hdep'.
    rewrite Hdep in Hdep'. injection Hdep' as <-.
    exists dep. by repeat split.
Qed.

(** X15. Converging a subsystem is idempotent: after a run that returned no
    error, a second run on the cluster it left, with no API failure, returns
    no error and the same stack, and changes nothing in the cluster. *)
Theorem reconcile_idempotent (monitorStack updated : MonitorStack) (w w' : World) :
  wellKeyed w ->
  faultFree w' ->
  (reconcilePrometheus monitorStack w = (Val (updated, None), w') ->
   exists w'', reconcilePrometheus updated w' = (Val (updated, None), w'')
               /\ sameStores w' w'')
  /\ (reconcileGrafana monitorStack w = (Val (updated, None), w') ->
      exists w'', reconcileGrafana updated w' = (Val (updated, None), w'')
                  /\ sameStores w' w'').
Proof.
  intros Hw Hf. split; intros E.
  - apply reconcilePrometheus_converged; [done|].
    by apply (reconcilePrometheus_success _ _ _ _ Hw E).
  - apply reconcileGrafana_converged; [done|].
    by apply (reconcileGrafana_success _ _ _ _ Hw E).
Qed.

(** *** A reconciliation that succeeds *)

Lemma prometheusChildrenConverged_frame (monitorStack current : MonitorStack)
  (w w' : World) :
  sameButStatus monitorStack current ->
  PrometheusStatus (Status current) = PrometheusStatus (Status monitorStack) ->
  (forall k, k <> datasourcesKey monitorStack ->
     configMaps w' !! k = configMaps w !! k) ->
  persistentVolumeClaims w' = persistentVolumeClaims w ->
  (forall k, k <> grafanaKey monitorStack -> deployments w' !! k = deployments w !! k) ->
  (forall k, k <> grafanaKey monitorStack -> services w' !! k = services w !! k) ->
  prometheusChildrenConverged monitorStack w ->
  prometheusChildrenConverged current w'.
Proof.
  intros Hs Hps Hcm Hpvc Hdep Hsvc
    (built & cm & dep & svc & H1 & H2 & H3 & H4 & H5 & H6 & H7 & H8 & H9 & H10
     & H11 & H12 & H13 & H14 & H15).
  rewrite Hs. exists built, cm, dep, svc.
  change (PrometheusStatus (Status (withStatus monitorStack (Status current))))
    with (PrometheusStatus (Status current)).
  rewrite Hps.
  pose proof (prometheusKey_not_grafanaKey monitorStack) as Hne.
  pose proof (prometheusConfigKey_not_datasourcesKey monitorStack) as Hne2.
  split; [exact H1|].
  split; [change (configMaps w' !! prometheusConfigKey monitorStack = Some cm);
          by rewrite Hcm|].
  split; [exact H3|]. split; [exact H4|].
  split; [change (deployments w' !! prometheusKey monitorStack = Some dep);
          by rewrite Hdep|].
  split; [exact H6|]. split; [exact H7|]. split; [exact H8|].
  split; [change (services w' !! prometheusKey monitorStack = Some svc);
          by rewrite Hsvc|].
  split; [exact H10|]. split; [exact H11|]. split; [exact H12|].
  split; [exact H13|].
  split; [|exact H15].
  intros Hsize. destruct (H14 Hsize) as [Hq Hc]. split; [exact Hq|].
  change (is_Some (persistentVolumeClaims w' !! claimKey monitorStack)).
  by rewrite Hpvc.
Qed.

Lemma grafanaChildrenConverged_frame (monitorStack current : MonitorStack)
  (w w' : World) :
  sameButStatus monitorStack current ->
  GrafanaStatus (Status current) = GrafanaStatus (Status monitorStack) ->
  configMaps w' = configMaps w ->
  deployments w' = deployments w -> services w' = services w ->
  grafanaChildrenConverged monitorStack w ->
  grafanaChildrenConverged current w'.
Proof.
  intros Hs Hgs Hcm Hdep Hsvc
    (built & dep & svc & H1 & H2 & H3 & H4 & H5 & H6 & H7 & H8 & H9 & H10 & H11 & H12).
  rewrite Hs. exists built, dep, svc.
  change (GrafanaStatus (Status (withStatus monitorStack (Status current))))
    with (GrafanaStatus (Status current)).
  rewrite Hgs.
  split; [exact H1|].
  split.
  { intros Hne. destruct (H2 Hne) as (cm & Ha & Hb & Hc). exists cm.
    split; [|by split].
    change (configMaps w' !! datasourcesKey monitorStack = Some cm). by rewrite Hcm. }
  split; [change (deployments w' !! grafanaKey monitorStack = Some dep);
          by rewrite Hdep|].
  split; [exact H4|]. split; [exact H5|]. split; [exact H6|].
  split; [change (services w' !! grafanaKey monitorStack = Some svc);
          by rewrite Hsvc|].
  split; [exact H8|]. split; [exact H9|]. split; [exact H10|].
  split; [exact H11 | exact H12].
Qed.

(** The collector step of [Reconcile] when it returns no error. *)
Lemma collector_step_ok (monitorStack current : MonitorStack) (w w' : World) :
  wellKeyed w ->
  (if p_Enabled (Prometheus (Spec monitorStack))
   then reconcilePrometheus monitorStack
   else let* _ := cleanupPrometheusResources monitorStack in
        ret (monitorStack, None)) w
  = (Val (current, None), w') ->
  wellKeyed w'
  /\ monitorStacks w' = monitorStacks w /\ now w' = now w
  /\ sameButStatus monitorStack current
  /\ GrafanaStatus (Status current) = GrafanaStatus (Status monitorStack)
  /\ (if p_Enabled (Prometheus (Spec monitorStack))
      then prometheusChildrenConverged current w'
      else current = monitorStack).
Proof.
  intros Hw E. destruct (p_Enabled _).
  - destruct (reconcilePrometheus_success _ _ _ _ Hw E)
      as (Hw' & Hms & _ & Hnow & _ & _ & _ & _ & Hc & dep & _ & Hu).
    split; [done|]. split; [done|]. split; [done|].
    split; [by rewrite Hu|]. split; [by rewrite Hu | done].
  - apply bind_Val_inv in E as (e & w1 & E1 & E).
    unfold ret in E. injection E as <- <-.
    destruct (cleanupPrometheusResources_run monitorStack w Hw)
      as (w2 & E2 & Hw2 & Hms & _ & Hnow & _).
    rewrite E1 in E2. injection E2 as ? ?; subst.
    split; [done|]. split; [done|]. split; [done|].
    split; [apply sameButStatus_refl | done].
Qed.

(** The dashboard step of [Reconcile] when it returns no error. *)
Lemma dashboard_step_ok (monitorStack current : MonitorStack) (w w' : World) :
  wellKeyed w ->
  (if g_Enabled (Grafana (Spec monitorStack))
   then reconcileGrafana monitorStack
   else let* _ := cleanupGrafanaResources monitorStack in
        ret (monitorStack, None)) w
  = (Val (current, None), w') ->
  wellKeyed w'
  /\ monitorStacks w' = monitorStacks w /\ now w' = now w
  /\ sameButStatus monitorStack current
  /\ PrometheusStatus (Status current) = PrometheusStatus (Status monitorStack)
  /\ (forall k, k <> datasourcesKey monitorStack ->
        configMaps w' !! k = configMaps w !! k)
  /\ persistentVolumeClaims w' = persistentVolumeClaims w
  /\ (forall k, k <> grafanaKey monitorStack ->
        deployments w' !! k = deployments w !! k)
  /\ (forall k, k <> grafanaKey monitorStack -> services w' !! k = services w !! k)
  /\ (if g_Enabled (Grafana (Spec monitorStack))
      then grafanaChildrenConverged current w'
      else current = monitorStack).
Proof.
  intros Hw E. destruct (g_Enabled _).
  - destruct (reconcileGrafana_success _ _ _ _ Hw E)
      as (Hw' & Hms & _ & Hnow & Fcm & Fpvc & Fdep & Fsvc & Hc & dep & _ & Hu).
    split; [done|]. split; [done|]. split; [done|].
    split; [by rewrite Hu|]. split; [by rewrite Hu|]. by repeat split.
  - apply bind_Val_inv in E as (e & w1 & E1 & E).
    unfold ret in E. injection E as <- <-.
    destruct (cleanupGrafanaResources_run monitorStack w Hw)
      as (w2 & E2 & Hw2 & Hms & Hcm & Hpvc & Hnow & _ & Fdep & Fsvc & _).
    rewrite E1 in E2. injection E2 as ? ?; subst.
    split; [done|]. split; [done|]. split; [done|].
    split; [apply sameButStatus_refl|]. split; [done|].
    split; [intros; by rewrite Hcm|]. by repeat split.
Qed.

(** X16. When [Reconcile] answers with the five-minute requeue and no error,
    the stack it fetched was not being deleted and carried the finalizer; the
    stack stored afterwards differs from it in the status only, that status is
    stamped with the current time, its phase is "Ready" exactly when every
    enabled subsystem reports ready and "Pending" otherwise, and the children
    of every enabled subsystem are in place as built from the spec. *)
Theorem Reconcile_success (req : NamespacedName) (w w' : World) :
  wellKeyed w ->
  Reconcile req w = (Val (requeueAfter (Minute * 5), None), w') ->
  wellKeyed w'
  /\ exists monitorStack stored,
       monitorStacks w !! req = Some monitorStack
       /\ DeletionTimestamp monitorStack = None
       /\ ContainsFinalizer monitorStack finalizerName = true
       /\ monitorStacks w' !! req = Some stored
       /\ sameButStatus monitorStack stored
       /\ LastUpdated (Status stored) = now w
       /\ (Phase (Status stored) = "Ready" <-> allEnabledReady stored)
       /\ (Phase (Status stored) = "Ready" \/ Phase (Status stored) = "Pending")
       /\ (p_Enabled (Prometheus (Spec monitorStack)) = true ->
           prometheusChildrenConverged stored w')
       /\ (g_Enabled (Grafana (Spec monitorStack)) = true ->
           grafanaChildrenConverged stored w').
Proof.
  intros Hw E. unfold Reconcile in E.
  apply bind_Val_inv in E as (got & w0 & E0 & E).
  destruct (GetMonitorStack_fetch req w) as (got' & w0' & E0' & S0 & _ & Hin & _).
  rewrite E0 in E0'. injection E0' as <- <-.
  pose proof (sameStores_wellKeyed _ _ S0 Hw) as Hw0.
  destruct S0 as (M0 & C0 & P0 & D0 & V0 & N0 & F0).
  destruct got as [err|monitorStack].
  { destruct (IsNotFound err); unfold ret in E; injection E as E _;
      try discriminate E. }
  specialize (Hin monitorStack eq_refl).
  assert (Hkey : stackKey monitorStack = req).
  { destruct Hw as (Hk & _). exact (Hk _ _ Hin). }
  unfold reconcileStack in E.
  destruct (DeletionTimestamp monitorStack) as [t|] eqn:Hdel.
  { unfold handleDeletion in E.
    apply bind_Val_inv in E as ([e1|] & wa & _ & E);
      [unfold ret in E; discriminate E|].
    apply bind_Val_inv in E as ([e2|] & wb & _ & E);
      [unfold ret in E; discriminate E|].
    apply bind_Val_inv in E as (e3 & wc & _ & E).
    unfold ret in E. injection E as E _. discriminate E. }
  destruct (ContainsFinalizer monitorStack finalizerName) eqn:Hfin; simpl in E.
  2:{ apply bind_Val_inv in E as (e3 & wc & _ & E).
      unfold ret in E. injection E as E _. discriminate E. }
  (* the initial status *)
  apply bind_Val_inv in E as ([current1 e1] & w1 & E1 & E).
  destruct e1 as [e1|]; [unfold ret in E; discriminate E|].
  apply initStatus_ok in E1
    as (Hw1 & S1 & PS1 & GS1 & M1 & C1 & P1 & D1 & V1 & N1 & F1);
    [|exact Hw0|by rewrite Hkey, M0].
  (* the collector *)
  apply bind_Val_inv in E as ([current2 e2] & w2 & E2 & E).
  destruct e2 as [e2|].
  { apply bind_Val_inv in E as (? & ? & _ & E). unfold ret in E. discriminate E. }
  apply collector_step_ok in E2 as (Hw2 & M2 & N2 & S2 & GS2 & Hp); [|done].
  (* the dashboard *)
  apply bind_Val_inv in E as ([current3 e3] & w3 & E3 & E).
  destruct e3 as [e3|].
  { apply bind_Val_inv in E as (? & ? & _ & E). unfold ret in E. discriminate E. }
  apply dashboard_step_ok in E3
    as (Hw3 & M3 & N3 & S3 & PS3 & Fcm & Fpvc & Fdep & Fsvc & Hg); [|done].
  (* the overall status *)
  apply bind_Val_inv in E as ([updated e4] & w4 & E4 & E).
  destruct e4 as [e4|]; [unfold ret in E; discriminate E|].
  unfold ret in E. injection E as <-.
  pose proof (sameButStatus_trans _ _ _ S1 S2) as S12.
  pose proof (sameButStatus_trans _ _ _ S12 S3) as S13.
  eapply (updateOverallStatus_ok monitorStack current1 current3 updated) in E4
    as (Hw4 & S4 & PS4 & GS4 & L4 & Ph4 & Ph4' & M4 & C4 & P4 & D4 & V4 & N4 & F4);
    [|done|by rewrite M3, M2|done|done].
  split; [done|]. exists monitorStack, updated.
  rewrite Hkey in M4.
  split; [done|]. split; [done|]. split; [done|]. split; [done|].
  split; [done|]. split; [by rewrite L4, N3, N2, N1, N0|].
  assert (S34 : sameButStatus current3 updated).
  { unfold sameButStatus in *. rewrite S4 at 1. rewrite S13. reflexivity. }
  split.
  { rewrite Ph4. unfold allEnabledReady. rewrite PS4, GS4.
    rewrite S34. reflexivity. }
  split; [done|].
  rewrite S1 in Hp. change (Spec (withStatus monitorStack _)) with (Spec monitorStack) in Hp.
  rewrite S12 in Hg.
  change (Spec (withStatus monitorStack _)) with (Spec monitorStack) in Hg.
  split.
  - intros Hen. rewrite Hen in Hp.
    eapply (prometheusChildrenConverged_frame current3); [exact S34|exact PS4|..].
    { by intros; rewrite C4. } { done. } { by intros; rewrite D4. }
    { by intros; rewrite V4. }
    eapply (prometheusChildrenConverged_frame current2); [exact S3|exact PS3|..];
      done.
  - intros Hen. rewrite Hen in Hg.
    by eapply (grafanaChildrenConverged_frame current3).
Qed.

(** *** An update never repairs the selector *)

Lemma createPrometheusPVC_updating (monitorStack : MonitorStack) :
  keeps updating (fun _ => True) (createPrometheusPVC monitorStack).
Proof.
  intros w. split; [|done].
  destruct (quantityOK (st_Size (p_Storage (Prometheus (Spec monitorStack))))) eqn:Hq.
  2:{ unfold createPrometheusPVC. cbv [bind lift MustParse]. rewrite Hq.
      apply updating_refl. }
  intros Hw.
  destruct (createPrometheusPVC_run monitorStack w Hw Hq)
    as (err & w' & -> & Hw' & S & F & L & _ & M). simpl.
  split; [done|]. use_sameBut S.
  unfold storedPartsKept; rewrite Ssvc, Sdep, Scm. apply storedPartsKept_refl.
Qed.

Lemma createPrometheusDeployment_updating (monitorStack : MonitorStack) :
  keeps updating (fun _ => True) (createPrometheusDeployment monitorStack).
Proof.
  unfold createPrometheusDeployment.
  destruct (buildPrometheusDeployment monitorStack) as [built|msg] eqn:Hb.
  - pose proof (buildPrometheusDeployment_meta _ _ Hb) as Hm.
    intros w. unfold bind, lift.
    apply applyDeployment_updating; by rewrite Hm.
  - intros w. split; [apply updating_refl | done].
Qed.

Lemma createGrafanaDeployment_updating (monitorStack : MonitorStack) :
  keeps updating (fun _ => True) (createGrafanaDeployment monitorStack).
Proof.
  unfold createGrafanaDeployment.
  destruct (buildGrafanaDeployment monitorStack) as [built|msg] eqn:Hb.
  - pose proof (buildGrafanaDeployment_meta _ _ Hb) as Hm.
    intros w. unfold bind, lift.
    apply applyDeployment_updating; by rewrite Hm.
  - intros w. split; [apply updating_refl | done].
Qed.

Lemma reconcilePrometheus_updating (monitorStack : MonitorStack) :
  keeps updating (fun _ => True) (reconcilePrometheus monitorStack).
Proof.
  unfold reconcilePrometheus, createPrometheusConfigMap, createPrometheusService.
  repeat first
    [ apply applyConfigMap_updating; reflexivity
    | apply applyService_updating; reflexivity
    | apply createPrometheusPVC_updating
    | apply createPrometheusDeployment_updating
    | apply Get_Deployment_updating
    | updating_step ].
Qed.

Lemma reconcileGrafana_updating (monitorStack : MonitorStack) :
  keeps updating (fun _ => True) (reconcileGrafana monitorStack).
Proof.
  unfold reconcileGrafana, createGrafanaDatasourcesConfigMap, createGrafanaService.
  repeat first
    [ apply applyConfigMap_updating; reflexivity
    | apply applyService_updating; reflexivity
    | apply createGrafanaDeployment_updating
    | apply Get_Deployment_updating
    | updating_step ].
Qed.

(** X17. On a well-formed cluster and whatever the API answers, converging a
    subsystem leaves the selector of every service that exists as stored (it
    overwrites type, ports and labels only), the metadata of every ConfigMap
    that exists as stored (it overwrites the data only, so never the labels),
    and the status of every workload that exists as stored.  So
    when the labels of the stack change, the workload gets the new pod labels
    and the service keeps selecting by the old ones. *)
Theorem reconcile_update_keeps_selector (monitorStack : MonitorStack) (w : World) :
  wellKeyed w ->
  storedPartsKept w (reconcilePrometheus monitorStack w).2
  /\ storedPartsKept w (reconcileGrafana monitorStack w).2.
Proof.
  intros Hw. split.
  - by apply (reconcilePrometheus_updating monitorStack w).
  - by apply (reconcileGrafana_updating monitorStack w).
Qed.

(** *** The first reconciliation of a stack *)

(** X18. The reconciliation of a stored stack that is not being deleted and
    does not carry the finalizer does one thing: it asks the API to add the
    finalizer, and returns its answer with no requeue.  Whatever the API
    answers, it issues no request on a child, creates nothing and writes no
    status; when the update succeeds the stored stack is the fetched one with
    the finalizer appended. *)
Theorem Reconcile_adds_finalizer (req : NamespacedName) (monitorStack : MonitorStack)
  (w : World) :
  wellKeyed w ->
  monitorStacks w !! req = Some monitorStack ->
  DeletionTimestamp monitorStack = None ->
  ContainsFinalizer monitorStack finalizerName = false ->
  exists err w',
    Reconcile req w = (Val (noRequeue, err), w')
    /\ logs (fun r => rq_Kind r = KindMonitorStack) w w'
    /\ configMaps w' = configMaps w
    /\ persistentVolumeClaims w' = persistentVolumeClaims w
    /\ deployments w' = deployments w /\ services w' = services w
    /\ (forall k, k <> req -> monitorStacks w' !! k = monitorStacks w !! k)
    /\ (err = None ->
        monitorStacks w' !! req
        = Some (withFinalizers monitorStack (Finalizers monitorStack ++ [finalizerName])))
    /\ (is_Some err -> monitorStacks w' = monitorStacks w)
    /\ (faultFree w -> err = None).
Proof.
  intros Hw Hin Hdel Hfin.
  assert (Hkey : stackKey monitorStack = req).
  { destruct Hw as (Hk & _). exact (Hk _ _ Hin). }
  destruct (GetMonitorStack_fetch req w) as (got & w0 & E0 & S0 & L0 & Hinr & Hok & Hnf).
  pose proof (sameStores_wellKeyed _ _ S0 Hw) as Hw0.
  destruct S0 as (M0 & C0 & P0 & D0 & V0 & N0 & F0).
  unfold Reconcile. rewrite (bind_returns _ _ _ _ _ E0).
  assert (Hlog0 : logs (fun r => rq_Kind r = KindMonitorStack) w w0).
  { exists [ {| rq_Verb := VerbGet; rq_Kind := KindMonitorStack; rq_Key := req |} ].
    split; [exact L0|]. by apply Forall_cons. }
  destruct got as [err|fetched].
  { assert (Hfault : faultFree w -> False).
    { intros Hf. specialize (Hok monitorStack (Hf _) Hin). discriminate. }
    destruct (IsNotFound err) eqn:Hnot.
    { specialize (Hnf err eq_refl Hnot). congruence. }
    unfold ret. eexists _, _. split; [reflexivity|]. split; [exact Hlog0|].
    do 4 (split; [done|]). split; [by intros; rewrite M0|].
    split; [intros; discriminate|]. split; [done|].
    intros Hf. destruct (Hfault Hf). }
  specialize (Hinr fetched eq_refl). rewrite Hin in Hinr. injection Hinr as <-.
  unfold reconcileStack. rewrite Hdel, Hfin. simpl.
  assert (Hadd : AddFinalizer monitorStack finalizerName
                 = withFinalizers monitorStack (Finalizers monitorStack ++ [finalizerName]))
    by (unfold AddFinalizer; by rewrite Hfin).
  rewrite Hadd.
  destruct (UpdateMonitorStack_run
              (withFinalizers monitorStack (Finalizers monitorStack ++ [finalizerName]))
              w0 Hw0)
    as (err & w1 & E1 & Hw1 & S1 & F1 & L1 & Hnone & Hsome & Hff).
  rewrite (bind_returns _ _ _ _ _ E1). unfold ret.
  change (stackKey (withFinalizers monitorStack _)) with (stackKey monitorStack)
    in F1, Hnone, Hff.
  rewrite Hkey in F1, Hnone, Hff.
  use_sameBut S1.
  exists err, w1. split; [reflexivity|].
  split.
  { eapply logs_trans; [exact Hlog0|].
    eapply logs_weaken; [|exact L1]. intros r. apply stackRequests_kind. }
  split; [congruence|]. split; [congruence|]. split; [congruence|].
  split; [congruence|].
  split; [intros k Hk; rewrite F1 by done; by rewrite M0|].
  split.
  { intros He. destruct (Hnone He) as (stored & Hst & Hnew).
    rewrite M0, Hin in Hst. injection Hst as <-. rewrite Hnew, Hdel.
    reflexivity. }
  split; [intros He; by rewrite Hsome, M0|].
  intros Hf. apply Hff; [intros n; rewrite F0; apply Hf | rewrite M0, Hin; eauto].
Qed.

(** *** When the engine panics *)

Lemma buildResourceRequirements_returns (resources : ResourceRequirements) :
  (exists built, buildResourceRequirements resources = Val built)
  <-> quantitiesParse resources.
Proof.
  unfold buildResourceRequirements, quantitiesParse.
  pose proof (buildResourceList_spec (rr_Requests resources)) as Hr.
  pose proof (buildResourceList_spec (rr_Limits resources)) as Hl.
  destruct (buildResourceList (rr_Requests resources)) as [requests|msg]; simpl.
  2:{ split; [intros [? ?]; discriminate | tauto]. }
  destruct (buildResourceList (rr_Limits resources)) as [limits|msg]; simpl.
  2:{ split; [intros [? ?]; discriminate | tauto]. }
  split; [tauto | eauto].
Qed.

Lemma buildPrometheusDeployment_returns (monitorStack : MonitorStack) :
  (exists built, buildPrometheusDeployment monitorStack = Val built)
  <-> quantitiesParse (p_Resources (Prometheus (Spec monitorStack))).
Proof.
  rewrite <- buildResourceRequirements_returns.
  unfold buildPrometheusDeployment, addPrometheusDataVolume, appendVolume.
  destruct (buildResourceRequirements _) as [r|msg]; simpl.
  - split; intros _; eauto.
  - split; intros [? ?]; discriminate.
Qed.

Lemma buildGrafanaDeployment_returns (monitorStack : MonitorStack) :
  (exists built, buildGrafanaDeployment monitorStack = Val built)
  <-> quantitiesParse (g_Resources (Grafana (Spec monitorStack))).
Proof.
  rewrite <- buildResourceRequirements_returns.
  unfold buildGrafanaDeployment, addGrafanaDatasourceVolume, appendVolume.
  destruct (buildResourceRequirements _) as [r|msg]; simpl.
  - split; intros _; [eauto|]. destruct (0 <? _); eauto.
  - split; intros [? ?]; discriminate.
Qed.

Lemma createPrometheusPVC_neverPanics (monitorStack : MonitorStack) :
  quantityOK (st_Size (p_Storage (Prometheus (Spec monitorStack)))) = true ->
  neverPanics (createPrometheusPVC monitorStack).
Proof.
  intros Hq. unfold createPrometheusPVC. apply neverPanics_bind.
  - intros w. cbv [lift MustParse]. rewrite Hq. by eexists _, _.
  - intros size. repeat neverPanics_step.
Qed.

Lemma reconcilePrometheus_neverPanics (monitorStack : MonitorStack) :
  parses (st_Size (p_Storage (Prometheus (Spec monitorStack)))) ->
  quantitiesParse (p_Resources (Prometheus (Spec monitorStack))) ->
  neverPanics (reconcilePrometheus monitorStack).
Proof.
  intros Hsize Hres.
  apply buildPrometheusDeployment_returns in Hres as [built Hb].
  unfold reconcilePrometheus, createPrometheusConfigMap, createPrometheusService,
    createPrometheusDeployment.
  rewrite Hb.
  apply neverPanics_bind; [apply applyConfigMap_neverPanics|]. intros [e1|]; [apply neverPanics_ret|].
  apply neverPanics_bind.
  { unfold nonEmpty.
    destruct (st_Size (p_Storage (Prometheus (Spec monitorStack))) =? "")%string
      eqn:Hs; simpl; [apply neverPanics_ret|].
    apply createPrometheusPVC_neverPanics, Hsize. by apply String.eqb_neq. }
  intros [e2|]; [apply neverPanics_ret|].
  apply neverPanics_bind.
  { apply neverPanics_bind; [intros w; by eexists _, _|]. intros d.
    apply applyDeployment_neverPanics. }
  intros [e3|]; [apply neverPanics_ret|].
  apply neverPanics_bind; [apply applyService_neverPanics|]. intros [e4|]; [apply neverPanics_ret|].
  repeat neverPanics_step.
Qed.

Lemma reconcileGrafana_neverPanics (monitorStack : MonitorStack) :
  quantitiesParse (g_Resources (Grafana (Spec monitorStack))) ->
  neverPanics (reconcileGrafana monitorStack).
Proof.
  intros Hres.
  apply buildGrafanaDeployment_returns in Hres as [built Hb].
  unfold reconcileGrafana, createGrafanaDatasourcesConfigMap, createGrafanaService,
    createGrafanaDeployment.
  rewrite Hb.
  apply neverPanics_bind.
  { destruct (0 <? _); [apply applyConfigMap_neverPanics | apply neverPanics_ret]. }
  intros [e1|]; [apply neverPanics_ret|].
  apply neverPanics_bind.
  { apply neverPanics_bind; [intros w; by eexists _, _|]. intros d.
    apply applyDeployment_neverPanics. }
  intros [e3|]; [apply neverPanics_ret|].
  apply neverPanics_bind; [apply applyService_neverPanics|]. intros [e4|]; [apply neverPanics_ret|].
  repeat neverPanics_step.
Qed.

Lemma quantitiesAccepted_sameButStatus (monitorStack current : MonitorStack) :
  sameButStatus monitorStack current ->
  quantitiesAccepted monitorStack -> quantitiesAccepted current.
Proof. intros ->. exact id. Qed.

Lemma collector_step_neverPanics (monitorStack : MonitorStack) :
  quantitiesAccepted monitorStack ->
  neverPanics (if p_Enabled (Prometheus (Spec monitorStack))
         then reconcilePrometheus monitorStack
         else let* _ := cleanupPrometheusResources monitorStack in
              ret (monitorStack, None)).
Proof.
  intros [Hp _]. destruct (p_Enabled _).
  - destruct (Hp eq_refl). by apply reconcilePrometheus_neverPanics.
  - apply neverPanics_bind; [apply cleanupPrometheusResources_neverPanics|].
    intros ?. apply neverPanics_ret.
Qed.

Lemma dashboard_step_neverPanics (monitorStack : MonitorStack) :
  quantitiesAccepted monitorStack ->
  neverPanics (if g_Enabled (Grafana (Spec monitorStack))
         then reconcileGrafana monitorStack
         else let* _ := cleanupGrafanaResources monitorStack in
              ret (monitorStack, None)).
Proof.
  intros [_ Hg]. destruct (g_Enabled _).
  - by apply reconcileGrafana_neverPanics, Hg.
  - apply neverPanics_bind; [apply cleanupGrafanaResources_neverPanics|].
    intros ?. apply neverPanics_ret.
Qed.

Lemma collector_step_keeps (monitorStack : MonitorStack) :
  keeps (confined monitorStack) (fun r => sameButStatus monitorStack r.1)
    (if p_Enabled (Prometheus (Spec monitorStack))
     then reconcilePrometheus monitorStack
     else let* _ := cleanupPrometheusResources monitorStack in
          ret (monitorStack, None)).
Proof.
  destruct (p_Enabled _); [apply reconcilePrometheus_confined|].
  eapply (keeps_bind _ (fun err => err = None)); [apply confined_trans | | intros ? _].
  - apply cleanupPrometheusResources_confined.
  - apply keeps_ret; [apply confined_refl | apply sameButStatus_refl].
Qed.

Lemma reconcileStack_neverPanics (monitorStack : MonitorStack) :
  quantitiesAccepted monitorStack -> neverPanics (reconcileStack monitorStack).
Proof.
  intros Hq. unfold reconcileStack.
  destruct (DeletionTimestamp monitorStack); [apply handleDeletion_neverPanics|].
  destruct (negb _); [repeat neverPanics_step|].
  eapply neverPanics_bind_keeps;
    [apply initStatus_neverPanics | apply initStatus_confined | intros [current e0] S0].
  simpl in S0. destruct e0; [apply neverPanics_ret|].
  pose proof (quantitiesAccepted_sameButStatus _ _ S0 Hq) as Hq1.
  eapply neverPanics_bind_keeps;
    [by apply collector_step_neverPanics | apply collector_step_keeps
    | intros [current2 e1] S1].
  simpl in S1. destruct e1.
  { apply neverPanics_bind; [apply updateStatus_neverPanics|]. intros ?. apply neverPanics_ret. }
  pose proof (quantitiesAccepted_sameButStatus _ _ S1 Hq1) as Hq2.
  apply neverPanics_bind; [by apply dashboard_step_neverPanics|]. intros [current3 e2].
  destruct e2.
  { apply neverPanics_bind; [apply updateStatus_neverPanics|]. intros ?. apply neverPanics_ret. }
  apply neverPanics_bind; [apply updateOverallStatus_neverPanics|]. intros [updated e3].
  destruct e3; apply neverPanics_ret.
Qed.

(** With no API failure the collector's convergence, when it returns, returns
    no error. *)
Lemma reconcilePrometheus_faultFree (monitorStack updated : MonitorStack)
  (err : option error) (w w' : World) :
  wellKeyed w -> faultFree w ->
  reconcilePrometheus monitorStack w = (Val (updated, err), w') ->
  err = None /\ faultFree w'.
Proof.
  intros Hw Hf E. unfold reconcilePrometheus in E.
  apply bind_Val_inv in E as (e1 & w1 & E1 & E).
  apply applyConfigMap_faultFree in E1 as (-> & Hw1 & Hf1); [|done..].
  apply bind_Val_inv in E as (e2 & w2 & E2 & E).
  assert (H2 : e2 = None /\ wellKeyed w2 /\ faultFree w2).
  { destruct (nonEmpty _).
    - destruct (quantityOK (st_Size (p_Storage (Prometheus (Spec monitorStack)))))
        eqn:Hq.
      2:{ revert E2. unfold createPrometheusPVC. cbv [bind lift MustParse].
          rewrite Hq. discriminate. }
      destruct (createPrometheusPVC_run monitorStack w1 Hw1 Hq)
        as (e & w2' & E2' & Hw2 & S2 & _ & _ & Hnone & _).
      rewrite E2 in E2'. injection E2' as <- <-.
      split; [by apply Hnone|]. split; [done | by eapply sameBut_faultFree].
    - unfold ret in E2. by injection E2 as <- <-. }
  destruct H2 as (-> & Hw2 & Hf2).
  apply bind_Val_inv in E as (e3 & w3 & E3 & E).
  unfold createPrometheusDeployment in E3.
  apply bind_Val_inv in E3 as (built & w2' & Hb & E3).
  apply lift_Val_inv in Hb as [Hb ->].
  pose proof (buildPrometheusDeployment_meta _ _ Hb) as Hm.
  apply applyDeployment_faultFree in E3 as (-> & Hw3 & Hf3 & Hdep);
    [|done|done|by rewrite Hm..].
  assert (Hbk : keyOf built = prometheusKey monitorStack)
    by (unfold keyOf; simpl; by rewrite Hm).
  rewrite Hbk in Hdep.
  apply bind_Val_inv in E as (e4 & w4 & E4 & E).
  apply applyService_faultFree in E4 as (-> & Hw4 & Hf4 & D4); [|done..].
  apply bind_Val_inv in E as (got & w5 & E5 & E).
  destruct (Get_Deployment_run (prometheusKey monitorStack) w4)
    as (got' & w5' & E5' & S5 & _ & Hgot).
  unfold prometheusKey in E5'. rewrite E5 in E5'. injection E5' as <- <-.
  specialize (Hgot Hf4). fold (prometheusKey monitorStack) in Hgot.
  rewrite D4 in Hgot. destruct Hdep as [dep Hdep]. rewrite Hdep in Hgot. subst got.
  unfold ret in E. injection E as _ <- <-.
  split; [done | by eapply sameStores_faultFree].
Qed.

Lemma reconcileGrafana_faultFree (monitorStack updated : MonitorStack)
  (err : option error) (w w' : World) :
  wellKeyed w -> faultFree w ->
  reconcileGrafana monitorStack w = (Val (updated, err), w') ->
  err = None /\ faultFree w'.
Proof.
  intros Hw Hf E. unfold reconcileGrafana in E.
  apply bind_Val_inv in E as (e1 & w1 & E1 & E).
  assert (H1 : e1 = None /\ wellKeyed w1 /\ faultFree w1).
  { destruct (0 <? _).
    - by apply applyConfigMap_faultFree in E1.
    - unfold ret in E1. by injection E1 as <- <-. }
  destruct H1 as (-> & Hw1 & Hf1).
  apply bind_Val_inv in E as (e3 & w3 & E3 & E).
  unfold createGrafanaDeployment in E3.
  apply bind_Val_inv in E3 as (built & w2' & Hb & E3).
  apply lift_Val_inv in Hb as [Hb ->].
  pose proof (buildGrafanaDeployment_meta _ _ Hb) as Hm.
  apply applyDeployment_faultFree in E3 as (-> & Hw3 & Hf3 & Hdep);
    [|done|done|by rewrite Hm..].
  assert (Hbk : keyOf built = grafanaKey monitorStack)
    by (unfold keyOf; simpl; by rewrite Hm).
  rewrite Hbk in Hdep.
  apply bind_Val_inv in E as (e4 & w4 & E4 & E).
  apply applyService_faultFree in E4 as (-> & Hw4 & Hf4 & D4); [|done..].
  apply bind_Val_inv in E as (got & w5 & E5 & E).
  destruct (Get_Deployment_run (grafanaKey monitorStack) w4)
    as (got' & w5' & E5' & S5 & _ & Hgot).
  unfold grafanaKey in E5'. rewrite E5 in E5'. injection E5' as <- <-.
  specialize (Hgot Hf4). fold (grafanaKey monitorStack) in Hgot.
  rewrite D4 in Hgot. destruct Hdep as [dep Hdep]. rewrite Hdep in Hgot. subst got.
  unfold ret in E. injection E as _ <- <-.
  split; [done | by eapply sameStores_faultFree].
Qed.

Lemma sameButStatus_Spec (monitorStack current : MonitorStack) :
  sameButStatus monitorStack current -> Spec current = Spec monitorStack.
Proof. by intros ->. Qed.

Lemma prometheusChildrenConverged_parses (monitorStack : MonitorStack) (w : World) :
  prometheusChildrenConverged monitorStack w ->
  parses (st_Size (p_Storage (Prometheus (Spec monitorStack))))
  /\ quantitiesParse (p_Resources (Prometheus (Spec monitorStack))).
Proof.
  intros (built & cm & dep & svc & Hb & _ & _ & _ & _ & _ & _ & _ & _ & _ & _ & _ & _
          & Hsize & _).
  split; [intros Hne; by apply Hsize|].
  apply buildPrometheusDeployment_returns. eauto.
Qed.

Lemma grafanaChildrenConverged_parses (monitorStack : MonitorStack) (w : World) :
  grafanaChildrenConverged monitorStack w ->
  quantitiesParse (g_Resources (Grafana (Spec monitorStack))).
Proof.
  intros (built & dep & svc & Hb & _). apply buildGrafanaDeployment_returns. eauto.
Qed.

Lemma collector_step_faultFree (monitorStack current : MonitorStack)
  (err : option error) (w w' : World) :
  wellKeyed w -> faultFree w ->
  (if p_Enabled (Prometheus (Spec monitorStack))
   then reconcilePrometheus monitorStack
   else let* _ := cleanupPrometheusResources monitorStack in
        ret (monitorStack, None)) w
  = (Val (current, err), w') ->
  err = None /\ faultFree w'.
Proof.
  intros Hw Hf E. destruct (p_Enabled _).
  - by eapply reconcilePrometheus_faultFree.
  - apply bind_Val_inv in E as (e & w1 & E1 & E).
    unfold ret in E. injection E as _ <- <-.
    destruct (cleanupPrometheusResources_run monitorStack w Hw)
      as (w2 & E2 & _ & _ & _ & _ & Hflt & _).
    rewrite E1 in E2. injection E2 as _ <-.
    split; [done|]. intros n. rewrite Hflt. apply Hf.
Qed.

Lemma dashboard_step_faultFree (monitorStack current : MonitorStack)
  (err : option error) (w w' : World) :
  wellKeyed w -> faultFree w ->
  (if g_Enabled (Grafana (Spec monitorStack))
   then reconcileGrafana monitorStack
   else let* _ := cleanupGrafanaResources monitorStack in
        ret (monitorStack, None)) w
  = (Val (current, err), w') ->
  err = None /\ faultFree w'.
Proof.
  intros Hw Hf E. destruct (g_Enabled _).
  - by eapply reconcileGrafana_faultFree.
  - apply bind_Val_inv in E as (e & w1 & E1 & E).
    unfold ret in E. injection E as _ <- <-.
    destruct (cleanupGrafanaResources_run monitorStack w Hw)
      as (w2 & E2 & _ & _ & _ & _ & _ & Hflt & _).
    rewrite E1 in E2. injection E2 as _ <-.
    split; [done|]. intros n. rewrite Hflt. apply Hf.
Qed.

(** With no API failure, a reconciliation of a stack that carries the
    finalizer and is not being deleted, if it returns, returns the
    five-minute requeue and no error, and then every quantity parsed. *)
Lemma Reconcile_faultFree (req : NamespacedName) (monitorStack : MonitorStack)
  (r : Result * option error) (w w' : World) :
  wellKeyed w -> faultFree w ->
  monitorStacks w !! req = Some monitorStack ->
  DeletionTimestamp monitorStack = None ->
  ContainsFinalizer monitorStack finalizerName = true ->
  Reconcile req w = (Val r, w') ->
  r = (requeueAfter (Minute * 5), None) /\ quantitiesAccepted monitorStack.
Proof.
  intros Hw Hf Hin Hdel Hfin E. unfold Reconcile in E.
  assert (Hkey : stackKey monitorStack = req).
  { destruct Hw as (Hk & _). exact (Hk _ _ Hin). }
  apply bind_Val_inv in E as (got & w0 & E0 & E).
  destruct (GetMonitorStack_fetch req w) as (got' & w0' & E0' & S0 & _ & _ & Hok & _).
  rewrite E0 in E0'. injection E0' as <- <-.
  rewrite (Hok monitorStack (Hf _) Hin) in E.
  pose proof (sameStores_wellKeyed _ _ S0 Hw) as Hw0.
  pose proof (sameStores_faultFree _ _ S0 Hf) as Hf0.
  destruct S0 as (M0 & _).
  unfold reconcileStack in E. rewrite Hdel, Hfin in E. simpl in E.
  (* the initial status *)
  apply bind_Val_inv in E as ([current1 e1] & w1 & E1 & E).
  assert (Hin0 : monitorStacks w0 !! stackKey monitorStack = Some monitorStack)
    by (by rewrite Hkey, M0).
  pose proof (initStatus_faultFree _ _ _ _ _ Hw0 Hf0 (mk_is_Some _ _ Hin0) E1) as ->.
  apply initStatus_ok in E1
    as (Hw1 & S1 & _ & _ & M1 & _ & _ & _ & _ & _ & F1); [|done..].
  assert (Hf1 : faultFree w1) by (intros n; rewrite F1; apply Hf0).
  (* the collector *)
  apply bind_Val_inv in E as ([current2 e2] & w2 & E2 & E).
  destruct (collector_step_faultFree _ _ _ _ _ Hw1 Hf1 E2) as [-> Hf2].
  apply collector_step_ok in E2 as (Hw2 & M2 & _ & S2 & _ & Hp); [|done].
  (* the dashboard *)
  apply bind_Val_inv in E as ([current3 e3] & w3 & E3 & E).
  destruct (dashboard_step_faultFree _ _ _ _ _ Hw2 Hf2 E3) as [-> Hf3].
  apply dashboard_step_ok in E3 as (Hw3 & M3 & _ & S3 & _ & _ & _ & _ & _ & Hg);
    [|done].
  (* the overall status *)
  apply bind_Val_inv in E as ([updated e4] & w4 & E4 & E).
  pose proof (sameButStatus_trans _ _ _ S1 S2) as S12.
  pose proof (sameButStatus_trans _ _ _ S12 S3) as S13.
  assert (Hin3 : is_Some (monitorStacks w3 !! stackKey current3)).
  { rewrite (sameButStatus_key _ _ S13), M3, M2, M1. eauto. }
  pose proof (updateOverallStatus_faultFree _ _ _ _ _ Hw3 Hf3 Hin3 E4) as ->.
  unfold ret in E. injection E as <- _. split; [reflexivity|].
  rewrite (sameButStatus_Spec _ _ S1) in Hp.
  rewrite (sameButStatus_Spec _ _ S12) in Hg.
  split.
  - intros Hen. rewrite Hen in Hp.
    apply prometheusChildrenConverged_parses in Hp.
    by rewrite (sameButStatus_Spec _ _ S12) in Hp.
  - intros Hen. rewrite Hen in Hg.
    apply grafanaChildrenConverged_parses in Hg.
    by rewrite (sameButStatus_Spec _ _ S13) in Hg.
Qed.

(** X19. A reconciliation panics only on a quantity that does not parse.
    When the storage size and the resource strings of the enabled
    subsystems parse, [Reconcile] returns, whatever the API answers.  With no
    API failure, for a stack that carries the finalizer and is not being
    deleted, it returns the five-minute requeue without error exactly when
    they parse, and panics (in [resource.MustParse]) exactly when one does
    not. *)
Theorem Reconcile_panics_iff (req : NamespacedName) (monitorStack : MonitorStack)
  (w : World) :
  monitorStacks w !! req = Some monitorStack ->
  (quantitiesAccepted monitorStack -> exists r w', Reconcile req w = (Val r, w'))
  /\ (wellKeyed w -> faultFree w ->
      DeletionTimestamp monitorStack = None ->
      ContainsFinalizer monitorStack finalizerName = true ->
      (quantitiesAccepted monitorStack
       <-> exists w', Reconcile req w = (Val (requeueAfter (Minute * 5), None), w'))
      /\ (~ quantitiesAccepted monitorStack
          <-> exists msg w', Reconcile req w = (Panic msg, w'))).
Proof.
  intros Hin.
  assert (Htotal : quantitiesAccepted monitorStack ->
                   exists r w', Reconcile req w = (Val r, w')).
  { intros Hq. unfold Reconcile.
    destruct (GetMonitorStack_fetch req w) as (got & w0 & E0 & _ & _ & Hinr & _).
    rewrite (bind_returns _ _ _ _ _ E0).
    destruct got as [err|fetched].
    - destruct (IsNotFound err); unfold ret; eauto.
    - rewrite (Hinr fetched eq_refl) in Hin. injection Hin as ->.
      by apply reconcileStack_neverPanics. }
  split; [exact Htotal|].
  intros Hw Hf Hdel Hfin.
  split; split.
  - intros Hq. destruct (Htotal Hq) as (r & w' & E).
    destruct (Reconcile_faultFree _ _ _ _ _ Hw Hf Hin Hdel Hfin E) as [-> _]. eauto.
  - intros [w' E]. by eapply Reconcile_faultFree.
  - intros Hq. destruct (Reconcile req w) as [[r|msg] w'] eqn:E; [|eauto].
    destruct Hq. by eapply Reconcile_faultFree.
  - intros (msg & w' & E) Hq. destruct (Htotal Hq) as (r & w'' & E').
    rewrite E in E'. discriminate.
Qed.

(** *** A subsystem that fails *)

Lemma reconcilePrometheus_stacks (monitorStack : MonitorStack) :
  preserves stacksSame (reconcilePrometheus monitorStack).
Proof.
  unfold reconcilePrometheus, createPrometheusConfigMap, createPrometheusPVC,
    createPrometheusDeployment, createPrometheusService,
    applyConfigMap, applyDeployment, applyService.
  repeat stacks_step.
Qed.

Lemma reconcileGrafana_stacks (monitorStack : MonitorStack) :
  preserves stacksSame (reconcileGrafana monitorStack).
Proof.
  unfold reconcileGrafana, createGrafanaDatasourcesConfigMap,
    createGrafanaDeployment, createGrafanaService,
    applyConfigMap, applyDeployment, applyService.
  repeat stacks_step.
Qed.

Lemma collector_step_stacks (monitorStack : MonitorStack) :
  preserves stacksSame
    (if p_Enabled (Prometheus (Spec monitorStack))
     then reconcilePrometheus monitorStack
     else let* _ := cleanupPrometheusResources monitorStack in
          ret (monitorStack, None)).
Proof.
  destruct (p_Enabled _); [apply reconcilePrometheus_stacks|].
  apply preserves_bind; [apply stacksSame_trans | | intros ?].
  - apply cleanupPrometheusResources_stacks.
  - apply preserves_ret, stacksSame_refl.
Qed.

Lemma dashboard_step_stacks (monitorStack : MonitorStack) :
  preserves stacksSame
    (if g_Enabled (Grafana (Spec monitorStack))
     then reconcileGrafana monitorStack
     else let* _ := cleanupGrafanaResources monitorStack in
          ret (monitorStack, None)).
Proof.
  destruct (g_Enabled _); [apply reconcileGrafana_stacks|].
  apply preserves_bind; [apply stacksSame_trans | | intros ?].
  - apply cleanupGrafanaResources_stacks.
  - apply preserves_ret, stacksSame_refl.
Qed.

Lemma dashboard_step_keeps (monitorStack : MonitorStack) :
  keeps (confined monitorStack) (fun r => sameButStatus monitorStack r.1)
    (if g_Enabled (Grafana (Spec monitorStack))
     then reconcileGrafana monitorStack
     else let* _ := cleanupGrafanaResources monitorStack in
          ret (monitorStack, None)).
Proof.
  destruct (g_Enabled _); [apply reconcileGrafana_confined|].
  eapply (keeps_bind _ (fun err => err = None)); [apply confined_trans | | intros ? _].
  - apply cleanupGrafanaResources_confined.
  - apply keeps_ret; [apply confined_refl | apply sameButStatus_refl].
Qed.

(** The failure branch of steps 5 and 6: the status write that follows a
    subsystem error. *)
Lemma failure_recorded (monitorStack current failed : MonitorStack)
  (prefix : string) (err : error) (e : option error) (w0 w w' : World) :
  sameButStatus monitorStack current -> sameButStatus monitorStack failed ->
  monitorStacks w !! stackKey monitorStack = Some current ->
  now w = now w0 -> faults w = faults w0 ->
  (let* _ := updateStatus failed "Failed" (prefix +:+ Error err) in
   ret (requeueAfter Minute, Some err)) w
  = (Val (requeueAfter Minute, e), w') ->
  e = Some err
  /\ requests w'
     = {| rq_Verb := VerbStatusUpdate; rq_Kind := KindMonitorStack;
          rq_Key := stackKey monitorStack |} :: requests w
  /\ (faults w0 (List.length (requests w)) = None ->
      exists stored,
        monitorStacks w' !! stackKey monitorStack = Some stored
        /\ sameButStatus monitorStack stored
        /\ Phase (Status stored) = "Failed"
        /\ Message (Status stored) = prefix +:+ Error err
        /\ LastUpdated (Status stored) = now w0).
Proof.
  intros Sc Sf Hs Hnow Hflt E.
  apply bind_Val_inv in E as (u & w1 & E1 & E).
  unfold ret in E. injection E as <- <-.
  rewrite <- (sameButStatus_key _ _ Sf) in Hs.
  apply (updateStatus_write _ current) in E1 as [Hlog Hok]; [|done].
  rewrite (sameButStatus_key _ _ Sf) in Hlog, Hok.
  split; [done|]. split; [done|].
  intros Hf. rewrite <- Hflt in Hf. eexists. split; [exact (Hok Hf)|].
  split; [|by rewrite <- Hnow].
  unfold sameButStatus. rewrite Sc. reflexivity.
Qed.

(** X20. [Reconcile] answers with the one-minute requeue only after a
    subsystem failed: the answer then carries the subsystem's error, and the
    last request of the run is the status write that records it.  When the
    API does not fail that write, the stored stack differs from the fetched
    one in the status only, with phase "Failed", the message
    "Prometheus reconciliation failed: <error>" or
    "Grafana reconciliation failed: <error>" and the current time. *)
Theorem Reconcile_failure (req : NamespacedName) (e : option error) (w w' : World) :
  wellKeyed w ->
  Reconcile req w = (Val (requeueAfter Minute, e), w') ->
  exists monitorStack err rest,
    monitorStacks w !! req = Some monitorStack
    /\ e = Some err
    /\ requests w'
       = {| rq_Verb := VerbStatusUpdate; rq_Kind := KindMonitorStack; rq_Key := req |}
         :: rest
    /\ (faults w (List.length rest) = None ->
        exists stored,
          monitorStacks w' !! req = Some stored
          /\ sameButStatus monitorStack stored
          /\ Phase (Status stored) = "Failed"
          /\ (Message (Status stored)
              = "Prometheus reconciliation failed: " +:+ Error err
              \/ Message (Status stored)
                 = "Grafana reconciliation failed: " +:+ Error err)
          /\ LastUpdated (Status stored) = now w).
Proof.
  intros Hw E. unfold Reconcile in E.
  apply bind_Val_inv in E as (got & w0 & E0 & E).
  destruct (GetMonitorStack_fetch req w) as (got' & w0' & E0' & S0 & _ & Hin & _).
  rewrite E0 in E0'. injection E0' as <- <-.
  pose proof (sameStores_wellKeyed _ _ S0 Hw) as Hw0.
  destruct S0 as (M0 & _ & _ & _ & _ & N0 & F0).
  destruct got as [err|monitorStack].
  { destruct (IsNotFound err); unfold ret in E; injection E as E _;
      discriminate E. }
  specialize (Hin monitorStack eq_refl).
  assert (Hkey : stackKey monitorStack = req).
  { destruct Hw as (Hk & _). exact (Hk _ _ Hin). }
  unfold reconcileStack in E.
  destruct (DeletionTimestamp monitorStack) as [t|] eqn:Hdel.
  { destruct (handleDeletion_never_retries monitorStack w0) as (e' & _ & w1 & E1 & _).
    rewrite E1 in E. injection E as E _. discriminate E. }
  destruct (ContainsFinalizer monitorStack finalizerName) eqn:Hfin; simpl in E.
  2:{ apply bind_Val_inv in E as (e3 & wc & _ & E).
      unfold ret in E. injection E as E _. discriminate E. }
  (* the initial status *)
  apply bind_Val_inv in E as ([current1 e1] & w1 & E1 & E).
  destruct e1 as [e1|].
  { unfold ret in E. injection E as E _. discriminate E. }
  apply initStatus_ok in E1
    as (Hw1 & S1 & _ & _ & M1 & _ & _ & _ & _ & N1 & F1);
    [|done|by rewrite Hkey, M0].
  (* the collector *)
  apply bind_Val_inv in E as ([current2 e2] & w2 & E2 & E).
  pose proof (collector_step_stacks current1 w1) as (M2 & N2 & F2).
  pose proof (proj2 (collector_step_keeps current1 w1) (current2, e2)) as S2.
  rewrite E2 in M2, N2, F2, S2. simpl in M2, N2, F2, S2. specialize (S2 eq_refl).
  pose proof (sameButStatus_trans _ _ _ S1 S2) as S12.
  destruct e2 as [err|].
  { eapply (failure_recorded monitorStack current1 current2 _ err e w) in E
      as (-> & Hlog & Hok);
      [|done|done|by rewrite M2|congruence|congruence].
    rewrite Hkey in Hlog, Hok.
    exists monitorStack, err, (requests w2).
    split; [done|]. split; [done|]. split; [done|].
    intros Hf. destruct (Hok Hf) as (stored & ? & ? & ? & ? & ?).
    exists stored. repeat split; try done. by left. }
  (* the dashboard *)
  apply bind_Val_inv in E as ([current3 e3] & w3 & E3 & E).
  pose proof (dashboard_step_stacks current2 w2) as (M3 & N3 & F3).
  pose proof (proj2 (dashboard_step_keeps current2 w2) (current3, e3)) as S3.
  rewrite E3 in M3, N3, F3, S3. simpl in M3, N3, F3, S3. specialize (S3 eq_refl).
  pose proof (sameButStatus_trans _ _ _ S12 S3) as S13.
  destruct e3 as [err|].
  { eapply (failure_recorded monitorStack current1 current3 _ err e w) in E
      as (-> & Hlog & Hok);
      [|done|done|by rewrite M3, M2|congruence|congruence].
    rewrite Hkey in Hlog, Hok.
    exists monitorStack, err, (requests w3).
    split; [done|]. split; [done|]. split; [done|].
    intros Hf. destruct (Hok Hf) as (stored & ? & ? & ? & ? & ?).
    exists stored. repeat split; try done. by right. }
  (* the overall status *)
  apply bind_Val_inv in E as ([updated e4] & w4 & E4 & E).
  destruct e4 as [e4|]; unfold ret in E; injection E as E _.
  - discriminate E.
  - discriminate E.
Qed.

(** *** The deletion protocol *)

(** X21. With no API failure, the reconciliation of a stack that is being
    deleted returns no error and no requeue and leaves the cluster without
    the two workloads, the two services and the collector's configuration;
    the claim and the dashboard's datasources ConfigMap are left as they
    were (for the garbage collector); and the finalizer is removed from the
    stack, which is gone from the store when it carried no other finalizer. *)
Theorem Reconcile_deletion (req : NamespacedName) (monitorStack : MonitorStack)
  (t : Time) (w : World) :
  wellKeyed w -> faultFree w ->
  monitorStacks w !! req = Some monitorStack ->
  DeletionTimestamp monitorStack = Some t ->
  exists w',
    Reconcile req w = (Val (noRequeue, None), w')
    /\ prometheusChildrenAbsent monitorStack w'
    /\ deployments w' !! grafanaKey monitorStack = None
    /\ services w' !! grafanaKey monitorStack = None
    /\ persistentVolumeClaims w' = persistentVolumeClaims w
    /\ configMaps w' !! datasourcesKey monitorStack
       = configMaps w !! datasourcesKey monitorStack
    /\ monitorStacks w' !! req
       = match filter (fun f => f ≠ finalizerName) (Finalizers monitorStack) with
         | [] => None
         | finalizers => Some (withFinalizers monitorStack finalizers)
         end.
Proof.
  intros Hw Hf Hin Hdel.
  assert (Hkey : stackKey monitorStack = req).
  { destruct Hw as (Hk & _). exact (Hk _ _ Hin). }
  destruct (GetMonitorStack_fetch req w) as (got & w0 & E0 & S0 & _ & _ & Hok & _).
  rewrite (Hok monitorStack (Hf _) Hin) in E0.
  pose proof (sameStores_wellKeyed _ _ S0 Hw) as Hw0.
  pose proof (sameStores_faultFree _ _ S0 Hf) as Hf0.
  destruct S0 as (M0 & C0 & P0 & D0 & V0 & _).
  unfold Reconcile. rewrite (bind_returns _ _ _ _ _ E0).
  unfold reconcileStack. rewrite Hdel. unfold handleDeletion.
  destruct (cleanupPrometheusResources_run monitorStack w0 Hw0)
    as (w1 & E1 & Hw1 & M1 & P1 & _ & F1 & Fcm1 & Fdep1 & Fsvc1 & Habsent).
  rewrite (bind_returns _ _ _ _ _ E1).
  destruct (Habsent Hf0) as (A1 & A2 & A3).
  assert (Hf1 : faultFree w1) by (intros n; rewrite F1; apply Hf0).
  destruct (cleanupGrafanaResources_run monitorStack w1 Hw1)
    as (w2 & E2 & Hw2 & M2 & C2 & P2 & _ & F2 & Fdep2 & Fsvc2 & Hgone).
  rewrite (bind_returns _ _ _ _ _ E2).
  destruct (Hgone Hf1) as (G1 & G2).
  assert (Hf2 : faultFree w2) by (intros n; rewrite F2; apply Hf1).
  destruct (UpdateMonitorStack_run (RemoveFinalizer monitorStack finalizerName) w2 Hw2)
    as (err & w3 & E3 & Hw3 & S3 & _ & _ & Hnone & _ & Hff).
  rewrite (bind_returns _ _ _ _ _ E3). unfold ret.
  change (stackKey (RemoveFinalizer monitorStack finalizerName))
    with (stackKey monitorStack) in Hnone, Hff.
  rewrite Hkey in Hnone, Hff.
  assert (Hin2 : monitorStacks w2 !! req = Some monitorStack)
    by (by rewrite M2, M1, M0).
  specialize (Hff Hf2 (mk_is_Some _ _ Hin2)). subst err.
  destruct (Hnone eq_refl) as (stored & Hst & Hnew).
  rewrite Hin2 in Hst. injection Hst as <-.
  apply sameBut_MonitorStack in S3 as (B2 & B3 & B4 & B5 & _).
  pose proof (prometheusKey_not_grafanaKey monitorStack) as Hne.
  pose proof (prometheusConfigKey_not_datasourcesKey monitorStack) as Hne2.
  exists w3. split; [reflexivity|].
  split.
  { unfold prometheusChildrenAbsent. rewrite B4, B5, B2, C2.
    rewrite Fdep2, Fsvc2 by done. by repeat split. }
  split; [by rewrite B4|]. split; [by rewrite B5|].
  split; [congruence|].
  split; [rewrite B2, C2, Fcm1 by done; by rewrite C0|].
  rewrite Hnew, Hdel. simpl.
  by destruct (filter _ (Finalizers monitorStack)).
Qed.

(** *** A reconciliation that changes nothing *)

Lemma dashboard_step_converged (monitorStack : MonitorStack) (w : World) :
  faultFree w ->
  dashboardConverged monitorStack w ->
  exists w',
    (if g_Enabled (Grafana (Spec monitorStack))
     then reconcileGrafana monitorStack
     else let* _ := cleanupGrafanaResources monitorStack in
          ret (monitorStack, None)) w
    = (Val (monitorStack, None), w')
    /\ sameStores w w'.
Proof.
  intros Hf Hc. unfold dashboardConverged in Hc.
  destruct (g_Enabled _).
  - by apply reconcileGrafana_converged.
  - destruct (cleanupGrafanaResources_absent monitorStack w Hf Hc)
      as (w' & E & S).
    exists w'. split; [|done]. by rewrite (bind_returns _ _ _ _ _ E).
Qed.

Lemma dashboardConverged_sameStores (monitorStack : MonitorStack) (w w' : World) :
  sameStores w w' -> dashboardConverged monitorStack w ->
  dashboardConverged monitorStack w'.
Proof.
  intros (Sms & Scm & Spvc & Sdep & Ssvc & _).
  unfold dashboardConverged, grafanaChildrenConverged, grafanaChildrenAbsent.
  by rewrite Scm, Sdep, Ssvc.
Qed.

(** What the collector step leaves when it returns no error and the API
    failed nothing. *)
Lemma collector_step_state (monitorStack current : MonitorStack) (w w' : World) :
  wellKeyed w -> faultFree w ->
  (if p_Enabled (Prometheus (Spec monitorStack))
   then reconcilePrometheus monitorStack
   else let* _ := cleanupPrometheusResources monitorStack in
        ret (monitorStack, None)) w
  = (Val (current, None), w') ->
  collectorConverged current w'.
Proof.
  intros Hw Hf E.
  pose proof (collector_step_ok _ _ _ _ Hw E) as (_ & _ & _ & S & _ & Hc).
  unfold collectorConverged. rewrite (sameButStatus_Spec _ _ S).
  destruct (p_Enabled _); [done|]. subst current.
  apply bind_Val_inv in E as (e & w1 & E1 & E).
  unfold ret in E. injection E as <-.
  destruct (cleanupPrometheusResources_run monitorStack w Hw)
    as (w2 & E2 & _ & _ & _ & _ & _ & _ & _ & _ & Habsent).
  rewrite E1 in E2. injection E2 as _ <-. by apply Habsent.
Qed.

Lemma dashboard_step_state (monitorStack current : MonitorStack) (w w' : World) :
  wellKeyed w -> faultFree w ->
  (if g_Enabled (Grafana (Spec monitorStack))
   then reconcileGrafana monitorStack
   else let* _ := cleanupGrafanaResources monitorStack in
        ret (monitorStack, None)) w
  = (Val (current, None), w') ->
  dashboardConverged current w'.
Proof.
  intros Hw Hf E.
  pose proof (dashboard_step_ok _ _ _ _ Hw E)
    as (_ & _ & _ & S & _ & _ & _ & _ & _ & Hc).
  unfold dashboardConverged. rewrite (sameButStatus_Spec _ _ S).
  destruct (g_Enabled _); [done|]. subst current.
  apply bind_Val_inv in E as (e & w1 & E1 & E).
  unfold ret in E. injection E as <-.
  destruct (cleanupGrafanaResources_run monitorStack w Hw)
    as (w2 & E2 & _ & _ & _ & _ & _ & _ & _ & _ & Habsent).
  rewrite E1 in E2. injection E2 as _ <-. by apply Habsent.
Qed.

Lemma collectorConverged_frame (monitorStack current : MonitorStack) (w w' : World) :
  sameButStatus monitorStack current ->
  PrometheusStatus (Status current) = PrometheusStatus (Status monitorStack) ->
  (forall k, k <> datasourcesKey monitorStack ->
     configMaps w' !! k = configMaps w !! k) ->
  persistentVolumeClaims w' = persistentVolumeClaims w ->
  (forall k, k <> grafanaKey monitorStack -> deployments w' !! k = deployments w !! k) ->
  (forall k, k <> grafanaKey monitorStack -> services w' !! k = services w !! k) ->
  collectorConverged monitorStack w -> collectorConverged current w'.
Proof.
  intros Hs Hps Hcm Hpvc Hdep Hsvc Hc. unfold collectorConverged in *.
  rewrite (sameButStatus_Spec _ _ Hs). destruct (p_Enabled _).
  - by eapply prometheusChildrenConverged_frame.
  - destruct Hc as (A1 & A2 & A3). rewrite Hs.
    pose proof (prometheusKey_not_grafanaKey monitorStack) as Hne.
    pose proof (prometheusConfigKey_not_datasourcesKey monitorStack) as Hne2.
    unfold prometheusChildrenAbsent.
    change (prometheusKey (withStatus monitorStack _))
      with (prometheusKey monitorStack).
    change (prometheusConfigKey (withStatus monitorStack _))
      with (prometheusConfigKey monitorStack).
    by rewrite Hdep, Hsvc, Hcm.
Qed.

Lemma dashboardConverged_frame (monitorStack current : MonitorStack) (w w' : World) :
  sameButStatus monitorStack current ->
  GrafanaStatus (Status current) = GrafanaStatus (Status monitorStack) ->
  configMaps w' = configMaps w ->
  deployments w' = deployments w -> services w' = services w ->
  dashboardConverged monitorStack w -> dashboardConverged current w'.
Proof.
  intros Hs Hgs Hcm Hdep Hsvc Hc. unfold dashboardConverged in *.
  rewrite (sameButStatus_Spec _ _ Hs). destruct (g_Enabled _).
  - by eapply grafanaChildrenConverged_frame.
  - destruct Hc as (A1 & A2). rewrite Hs. unfold grafanaChildrenAbsent.
    change (grafanaKey (withStatus monitorStack _)) with (grafanaKey monitorStack).
    by rewrite Hdep, Hsvc.
Qed.

(** The cluster a reconciliation leaves when it answers with the five-minute
    requeue and the API failed nothing. *)
Lemma Reconcile_steady_state (req : NamespacedName) (w w' : World) :
  wellKeyed w -> faultFree w ->
  Reconcile req w = (Val (requeueAfter (Minute * 5), None), w') ->
  wellKeyed w' /\ faultFree w' /\ now w' = now w
  /\ exists stored,
       monitorStacks w' !! req = Some stored
       /\ stackKey stored = req
       /\ DeletionTimestamp stored = None
       /\ ContainsFinalizer stored finalizerName = true
       /\ aggregated stored (now w) = stored
       /\ collectorConverged stored w'
       /\ dashboardConverged stored w'.
Proof.
  intros Hw Hf E. unfold Reconcile in E.
  apply bind_Val_inv in E as (got & w0 & E0 & E).
  destruct (GetMonitorStack_fetch req w) as (got' & w0' & E0' & S0 & _ & Hin & _).
  rewrite E0 in E0'. injection E0' as <- <-.
  pose proof (sameStores_wellKeyed _ _ S0 Hw) as Hw0.
  pose proof (sameStores_faultFree _ _ S0 Hf) as Hf0.
  destruct S0 as (M0 & C0 & P0 & D0 & V0 & N0 & F0).
  destruct got as [err|monitorStack].
  { destruct (IsNotFound err); unfold ret in E; injection E as E _;
      try discriminate E. }
  specialize (Hin monitorStack eq_refl).
  assert (Hkey : stackKey monitorStack = req).
  { destruct Hw as (Hk & _). exact (Hk _ _ Hin). }
  unfold reconcileStack in E.
  destruct (DeletionTimestamp monitorStack) as [t|] eqn:Hdel.
  { destruct (handleDeletion_never_retries monitorStack w0) as (e' & _ & w1 & E1 & _).
    rewrite E1 in E. injection E as E _. discriminate E. }
  destruct (ContainsFinalizer monitorStack finalizerName) eqn:Hfin; simpl in E.
  2:{ apply bind_Val_inv in E as (e3 & wc & _ & E).
      unfold ret in E. injection E as E _. discriminate E. }
  (* the initial status *)
  apply bind_Val_inv in E as ([current1 e1] & w1 & E1 & E).
  destruct e1 as [e1|]; [unfold ret in E; discriminate E|].
  apply initStatus_ok in E1
    as (Hw1 & S1 & PS1 & GS1 & M1 & C1 & P1 & D1 & V1 & N1 & F1);
    [|done|by rewrite Hkey, M0].
  assert (Hf1 : faultFree w1) by (intros n; rewrite F1; apply Hf0).
  (* the collector *)
  apply bind_Val_inv in E as ([current2 e2] & w2 & E2 & E).
  destruct e2 as [e2|].
  { apply bind_Val_inv in E as (? & ? & _ & E). unfold ret in E. discriminate E. }
  pose proof (collector_step_state _ _ _ _ Hw1 Hf1 E2) as Hp.
  destruct (collector_step_faultFree _ _ _ _ _ Hw1 Hf1 E2) as [_ Hf2].
  apply collector_step_ok in E2 as (Hw2 & M2 & N2 & S2 & GS2 & _); [|done].
  (* the dashboard *)
  apply bind_Val_inv in E as ([current3 e3] & w3 & E3 & E).
  destruct e3 as [e3|].
  { apply bind_Val_inv in E as (? & ? & _ & E). unfold ret in E. discriminate E. }
  pose proof (dashboard_step_state _ _ _ _ Hw2 Hf2 E3) as Hg.
  destruct (dashboard_step_faultFree _ _ _ _ _ Hw2 Hf2 E3) as [_ Hf3].
  apply dashboard_step_ok in E3
    as (Hw3 & M3 & N3 & S3 & PS3 & Fcm & Fpvc & Fdep & Fsvc & _); [|done].
  (* the overall status *)
  apply bind_Val_inv in E as ([updated e4] & w4 & E4 & E).
  destruct e4 as [e4|]; [unfold ret in E; discriminate E|].
  unfold ret in E. injection E as <-.
  pose proof (sameButStatus_trans _ _ _ S1 S2) as S12.
  pose proof (sameButStatus_trans _ _ _ S12 S3) as S13.
  assert (Hupd : updated = aggregated current3 (now w3)).
  { rewrite updateOverallStatus_aggregated in E4.
    apply bind_Val_inv in E4 as (t & w3' & Et & E4). injection Et as <- <-.
    apply bind_Val_inv in E4 as (e & w4' & _ & E4).
    unfold ret in E4. by injection E4 as <- _ _. }
  eapply (updateOverallStatus_ok monitorStack current1 current3 updated) in E4
    as (Hw4 & S4 & PS4 & GS4 & L4 & _ & _ & M4 & C4 & P4 & D4 & V4 & N4 & F4);
    [|done|by rewrite M3, M2|done|done].
  rewrite Hkey in M4.
  assert (S34 : sameButStatus current3 updated)
    by (rewrite Hupd; apply aggregated_sameButStatus).
  assert (Hnow : now w3 = now w) by congruence.
  split; [done|]. split; [intros n; rewrite F4; apply Hf3|].
  split; [congruence|].
  exists updated.
  split; [done|]. split; [by rewrite (sameButStatus_key _ _ S4)|].
  split; [by rewrite S4|]. split; [by rewrite S4|].
  split; [rewrite Hupd, Hnow; apply aggregated_idem|].
  split.
  - eapply (collectorConverged_frame current3); [exact S34 | exact PS4 | ..].
    { by intros; rewrite C4. } { done. } { by intros; rewrite D4. }
    { by intros; rewrite V4. }
    by eapply (collectorConverged_frame current2).
  - by eapply (dashboardConverged_frame current3).
Qed.

(** X22. A reconciliation that succeeds reaches a fixed point: when, with no
    API failure, [Reconcile] answers with the five-minute requeue, the next
    reconciliation (the clock not having moved) answers the same and changes
    nothing in the cluster, the stored status included. *)
Theorem Reconcile_fixed_point (req : NamespacedName) (w w' : World) :
  wellKeyed w -> faultFree w ->
  Reconcile req w = (Val (requeueAfter (Minute * 5), None), w') ->
  exists w'',
    Reconcile req w' = (Val (requeueAfter (Minute * 5), None), w'')
    /\ sameStores w' w''.
Proof.
  intros Hw Hf E.
  destruct (Reconcile_steady_state _ _ _ Hw Hf E)
    as (Hw' & Hf' & Hnow & stored & Hin & Hkey & Hdel & Hfin & Hagg & Hp & Hg).
  clear E. unfold Reconcile.
  destruct (GetMonitorStack_fetch req w') as (got & w0 & E0 & S0 & _ & _ & Hok & _).
  rewrite (Hok stored (Hf' _) Hin) in E0.
  rewrite (bind_returns _ _ _ _ _ E0).
  pose proof (sameStores_faultFree _ _ S0 Hf') as Hf0.
  unfold reconcileStack. rewrite Hdel, Hfin. simpl.
  assert (Hph : (Phase (Status stored) =? "")%string = false)
    by (rewrite <- Hagg; apply aggregated_phase).
  unfold initStatus. rewrite Hph.
  rewrite (bind_returns (ret (stored, None)) _ w0 w0 (stored, None) eq_refl).
  destruct (collector_step_converged stored w0 Hf0) as (w1 & E1 & S1).
  { by eapply collectorConverged_sameStores. }
  rewrite (bind_returns _ _ _ _ _ E1).
  pose proof (sameStores_trans _ _ _ S0 S1) as S01.
  pose proof (sameStores_faultFree _ _ S1 Hf0) as Hf1.
  destruct (dashboard_step_converged stored w1 Hf1) as (w2 & E2 & S2).
  { by eapply dashboardConverged_sameStores. }
  rewrite (bind_returns _ _ _ _ _ E2).
  pose proof (sameStores_trans _ _ _ S01 S2) as S02.
  pose proof (sameStores_faultFree _ _ S2 Hf1) as Hf2.
  assert (Hnow2 : now w2 = now w) by (destruct S02 as (_&_&_&_&_&->&_); done).
  assert (Hin2 : monitorStacks w2 !! stackKey stored = Some stored).
  { destruct S02 as (-> & _). by rewrite Hkey. }
  destruct (StatusUpdate_succeeds stored stored w2 Hf2 Hin2)
    as (w3 & E3 & M3 & C3 & P3 & D3 & V3).
  assert (E4 : updateOverallStatus stored w2 = (Val (stored, None), w3)).
  { rewrite updateOverallStatus_aggregated. unfold bind, Now.
    rewrite Hnow2, Hagg, E3. reflexivity. }
  rewrite (bind_returns _ _ _ _ _ E4). unfold ret.
  exists w3. split; [reflexivity|].
  pose proof (sameStores_wellKeyed _ _ S02 Hw') as Hw2.
  destruct (StatusUpdate_run stored w2 Hw2) as (err & w3' & E3' & _ & S3 & _).
  rewrite E3 in E3'. injection E3' as <- <-.
  apply sameBut_MonitorStack in S3 as (_ & _ & _ & _ & N3 & F3).
  assert (Hsame : withStatus stored (Status stored) = stored) by (by destruct stored).
  rewrite Hsame, (insert_id _ _ _ Hin2) in M3.
  eapply sameStores_trans; [exact S02|]. by repeat split.
Qed.

(** *** Two stacks do not interfere: the engine *)

(** X23. Reconciling one stack never changes another: whatever the API
    answers, and even when the run panics, the reconciliation of [req]
    leaves every stack stored under another key, and each of that stack's
    seven children, exactly as it was. *)
Theorem Reconcile_isolated (req : NamespacedName) (other : MonitorStack) (w : World) :
  wellKeyed w ->
  stackKey other <> req ->
  monitorStacks (Reconcile req w).2 !! stackKey other
  = monitorStacks w !! stackKey other
  /\ childrenSame other w (Reconcile req w).2.
Proof.
  intros Hw Hne. unfold Reconcile, bind.
  destruct (GetMonitorStack_fetch req w)
    as (got & w1 & -> & Hsame & _ & Hgot & _).
  pose proof (sameStores_wellKeyed _ _ Hsame Hw) as Hw1.
  destruct Hsame as (E1 & E2 & E3 & E4 & E5 & E6 & E7).
  destruct got as [err|monitorStack].
  - assert (E : ((if IsNotFound err then ret (noRequeue, None)
                  else ret (noRequeue, Some err)) w1).2 = w1)
      by (by destruct (IsNotFound err)).
    rewrite E. unfold childrenSame. by rewrite E1, E2, E3, E4, E5.
  - assert (Hkey : stackKey monitorStack = req).
    { destruct Hw as (Kms & _). apply (Kms _ _ (Hgot monitorStack eq_refl)). }
    destruct (reconcileStack_confined monitorStack w1) as [Hc _].
    destruct (Hc Hw1) as (_ & _ & U).
    apply (untouched_other monitorStack); [by rewrite Hkey|].
    eapply untouched_trans; [|exact U].
    repeat split; intros; congruence.
Qed.

(** *** What a reconciliation does to the stack itself: the engine *)

Lemma reconcileStack_statusOnly (monitorStack : MonitorStack) :
  DeletionTimestamp monitorStack = None ->
  ContainsFinalizer monitorStack finalizerName = true ->
  preserves statusOnly (reconcileStack monitorStack).
Proof.
  intros Hdel Hfin. unfold reconcileStack. rewrite Hdel, Hfin. simpl.
  apply preserves_bind; [apply statusOnly_trans | apply initStatus_statusOnly|].
  intros [current1 [e1|]]; [apply preserves_ret, statusOnly_refl|].
  apply preserves_bind; [apply statusOnly_trans | |].
  { apply preserves_stacksSame_statusOnly, collector_step_stacks. }
  intros [current2 [e2|]].
  { apply preserves_bind; [apply statusOnly_trans | apply updateStatus_statusOnly|].
    intros ?. apply preserves_ret, statusOnly_refl. }
  apply preserves_bind; [apply statusOnly_trans | |].
  { apply preserves_stacksSame_statusOnly, dashboard_step_stacks. }
  intros [current3 [e3|]].
  { apply preserves_bind; [apply statusOnly_trans | apply updateStatus_statusOnly|].
    intros ?. apply preserves_ret, statusOnly_refl. }
  apply preserves_bind; [apply statusOnly_trans | apply updateOverallStatus_statusOnly|].
  intros [updated [e4|]]; apply preserves_ret, statusOnly_refl.
Qed.

(** X24. What a reconciliation can do to a stored stack, whatever the API
    answers and even when the run panics: it changes the status only; or,
    for the stack it reconciles, it adds its finalizer (the stack not
    being deleted) or removes its finalizer (the stack being deleted), the
    stack leaving the store exactly when no other finalizer is left.  The
    spec, the name, the UID and the deletion timestamp are never written. *)
Theorem Reconcile_stack_kept (req key : NamespacedName) (old : MonitorStack)
  (w : World) :
  wellKeyed w ->
  monitorStacks w !! key = Some old ->
  match monitorStacks (Reconcile req w).2 !! key with
  | Some new =>
      sameButStatus old new
      \/ (key = req /\ DeletionTimestamp old = None
          /\ new = AddFinalizer old finalizerName)
      \/ (key = req /\ is_Some (DeletionTimestamp old)
          /\ new = RemoveFinalizer old finalizerName)
  | None =>
      key = req /\ is_Some (DeletionTimestamp old)
      /\ Finalizers (RemoveFinalizer old finalizerName) = []
  end.
Proof.
  intros Hw Hold. unfold Reconcile, bind.
  destruct (GetMonitorStack_fetch req w)
    as (got & w1 & -> & Hsame & _ & Hgot & _).
  pose proof (sameStores_wellKeyed _ _ Hsame Hw) as Hw1.
  destruct Hsame as (E1 & _).
  destruct got as [err|monitorStack].
  { assert (E : ((if IsNotFound err then ret (noRequeue, None)
                  else ret (noRequeue, Some err)) w1).2 = w1)
      by (by destruct (IsNotFound err)).
    rewrite E, E1, Hold. left. apply sameButStatus_refl. }
  specialize (Hgot monitorStack eq_refl).
  assert (Hkey : stackKey monitorStack = req).
  { destruct Hw as (Kms & _). apply (Kms _ _ Hgot). }
  destruct (DeletionTimestamp monitorStack) as [t|] eqn:Hdel.
  - (* the deletion protocol *)
    unfold reconcileStack. rewrite Hdel. unfold handleDeletion.
    destruct (cleanupPrometheusResources_run monitorStack w1 Hw1)
      as (w2 & E2 & Hw2 & M2 & _).
    rewrite (bind_returns _ _ _ _ _ E2).
    destruct (cleanupGrafanaResources_run monitorStack w2 Hw2)
      as (w3 & E3 & Hw3 & M3 & _).
    rewrite (bind_returns _ _ _ _ _ E3).
    destruct (UpdateMonitorStack_run (RemoveFinalizer monitorStack finalizerName)
                w3 Hw3)
      as (err & w4 & E4 & _ & _ & F4 & _ & Hnone & Hsome & _).
    rewrite (bind_returns _ _ _ _ _ E4). unfold ret. simpl.
    change (stackKey (RemoveFinalizer monitorStack finalizerName))
      with (stackKey monitorStack) in F4, Hnone.
    rewrite Hkey in F4, Hnone.
    assert (H3 : monitorStacks w3 = monitorStacks w) by congruence.
    destruct (decide (key = req)) as [->|Hne].
    2:{ rewrite F4, H3, Hold by done. left. apply sameButStatus_refl. }
    rewrite Hgot in Hold. injection Hold as <-.
    destruct err as [e|].
    { rewrite Hsome, H3, Hgot by eauto. left. apply sameButStatus_refl. }
    destruct (Hnone eq_refl) as (stored & Hst & Hnew).
    rewrite H3, Hgot in Hst. injection Hst as <-.
    rewrite Hnew, Hdel.
    destruct (Finalizers (RemoveFinalizer monitorStack finalizerName)) eqn:Hfs.
    + split; [done|]. split; [eauto | done].
    + right. right. split; [done|]. split; [eauto|].
      rewrite <- Hfs. by destruct monitorStack.
  - destruct (ContainsFinalizer monitorStack finalizerName) eqn:Hfin.
    + (* steps 4 to 7 *)
      destruct (reconcileStack_statusOnly monitorStack Hdel Hfin w1 key old)
        as (new & -> & Hs); [by rewrite E1|].
      by left.
    + (* the finalizer *)
      unfold reconcileStack. rewrite Hdel, Hfin. simpl.
      destruct (UpdateMonitorStack_run (AddFinalizer monitorStack finalizerName)
                  w1 Hw1)
        as (err & w4 & E4 & _ & _ & F4 & _ & Hnone & Hsome & _).
      rewrite (bind_returns _ _ _ _ _ E4). unfold ret. simpl.
      assert (Hk : stackKey (AddFinalizer monitorStack finalizerName) = req).
      { unfold AddFinalizer. by rewrite Hfin. }
      rewrite Hk in F4, Hnone.
      destruct (decide (key = req)) as [->|Hne].
      2:{ rewrite F4, E1, Hold by done. left. apply sameButStatus_refl. }
      rewrite Hgot in Hold. injection Hold as <-.
      destruct err as [e|].
      { rewrite Hsome, E1, Hgot by eauto. left. apply sameButStatus_refl. }
      destruct (Hnone eq_refl) as (stored & Hst & Hnew).
      rewrite E1, Hgot in Hst. injection Hst as <-.
      rewrite Hnew, Hdel.
      right. left. split; [done|]. split; [done|].
      unfold AddFinalizer. rewrite Hfin. by destruct monitorStack.
Qed.

End EngineProperties.

(** * The scenarios, run *)

Lemma child_names_witness :
  Name (stackNamed "acme") <> Name (stackNamed "acme-prometheus")
  /\ "acme-grafana" ∉ childNames (stackNamed "acme-prometheus").
Proof.
  assert (H : Name (stackNamed "acme") <> Name (stackNamed "acme-prometheus"))
    by (vm_compute; discriminate).
  split; [exact H|].
  apply (proj2 (proj2 (proj2 child_names_deterministic_and_disjoint))
           (stackNamed "acme") (stackNamed "acme-prometheus") "acme-grafana" H).
  unfold childNames.
  repeat first [apply list_elem_of_here | apply list_elem_of_further].
Defined.



(** C7 fails on the code: after the collector was ready and its endpoint
    published, a reconciliation that observes no ready replica sets ready to
    false and leaves the endpoint in the status. *)
Lemma stale_endpoint_after_unready :
  PrometheusStatus <$> storedStatus (acmeConverged (parameters := sample)) acmeKey
  = Some {| cs_Ready := true; cs_Replicas := 1; cs_Message := "Ready";
            cs_Endpoint := "http://acme-prometheus:9090" |}
  /\ PrometheusStatus
       <$> storedStatus
             (afterReconcile (parameters := sample) acmeKey
                (acmeUnready (parameters := sample))) acmeKey
     = Some {| cs_Ready := false; cs_Replicas := 0; cs_Message := "Not Ready";
               cs_Endpoint := "http://acme-prometheus:9090" |}.
Proof. split; vm_compute; reflexivity. Qed.

(** C3 fails on the code: the stack is marked for deletion and the API fails
    the delete of the collector's workload; the reconciliation still returns
    no error and no retry, the finalizer is removed (the stack is gone from
    the store), and the workload whose delete failed is still there. *)
Lemma handleDeletion_ignores_failed_delete :
  (Reconcile (parameters := sample) acmeKey
     (acmeDeleting (parameters := sample))).1
  = Val (noRequeue, None)
  /\ monitorStacks
       (afterReconcile (parameters := sample) acmeKey
          (acmeDeleting (parameters := sample))) !! acmeKey
     = None
  /\ is_Some
       (deployments
          (afterReconcile (parameters := sample) acmeKey
             (acmeDeleting (parameters := sample)))
        !! ("monitoring", "acme-prometheus"))
  /\ deployments
       (afterReconcile (parameters := sample) acmeKey
          (acmeDeleting (parameters := sample)))
     !! ("monitoring", "acme-grafana")
     = None.
Proof.
  split; [vm_compute; reflexivity|]. split; [vm_compute; reflexivity|].
  split; [vm_compute; eauto | vm_compute; reflexivity].
Qed.

(** C6, as stated, fails: the dashboard was enabled, converged and ready;
    after it is disabled, a reconciliation deletes its workload and endpoint
    and the stored status still reports the dashboard ready, with its
    endpoint. *)
Lemma disabled_grafana_status_stays_ready :
  deployments
    (afterReconcile (parameters := sample) acmeKey
       (acmeGrafanaOff (parameters := sample)))
  !! ("monitoring", "acme-grafana") = None
  /\ services
       (afterReconcile (parameters := sample) acmeKey
          (acmeGrafanaOff (parameters := sample)))
     !! ("monitoring", "acme-grafana") = None
  /\ GrafanaStatus
       <$> storedStatus
             (afterReconcile (parameters := sample) acmeKey
                (acmeGrafanaOff (parameters := sample))) acmeKey
     = Some {| cs_Ready := true; cs_Replicas := 1; cs_Message := "Ready";
               cs_Endpoint := "http://acme-grafana:3000" |}.
Proof. repeat split; vm_compute; reflexivity. Qed.

(** C6, amended, at [acme] converged and then edited to disable the dashboard. *)
Lemma Reconcile_grafana_disabled_witness :
  exists w',
    Reconcile (parameters := sample) acmeKey
      (acmeGrafanaOff (parameters := sample))
    = (Val (requeueAfter (Minute * 5), None), w')
    /\ deployments w' !! ("monitoring", "acme-grafana") = None
    /\ services w' !! ("monitoring", "acme-grafana") = None
    /\ configMaps w' = configMaps (acmeGrafanaOff (parameters := sample))
    /\ persistentVolumeClaims w'
       = persistentVolumeClaims (acmeGrafanaOff (parameters := sample))
    /\ exists status,
         storedStatus w' acmeKey = Some status
         /\ cs_Ready (GrafanaStatus status) = true.
Proof.
  destruct (Reconcile_grafana_disabled (parameters := sample) acmeKey
              (acmeGrafanaOff (parameters := sample))
              (storedStack (acmeGrafanaOff (parameters := sample)) acmeKey))
    as (w' & E & _ & _ & Hd & Hs & _ & _ & Hcm & Hpvc & status & Hst & _ & Hg).
  - vm_compute. reflexivity.
  - vm_compute. reflexivity.
  - vm_compute. reflexivity.
  - vm_compute. reflexivity.
  - vm_compute. discriminate.
  - vm_compute. reflexivity.
  - intros n. reflexivity.
  - exists (storedDeployment (acmeGrafanaOff (parameters := sample))
              ("monitoring", "acme-grafana")),
      (storedService (acmeGrafanaOff (parameters := sample))
         ("monitoring", "acme-grafana")).
    do 3 (split; [vm_compute; reflexivity|]). vm_compute; reflexivity.
  - unfold collectorConverged.
    replace (p_Enabled _) with true by (vm_compute; reflexivity).
    exists (valueOr emptyDeployment
              (buildPrometheusDeployment (parameters := sample)
                 (storedStack (acmeGrafanaOff (parameters := sample)) acmeKey))),
      (storedConfigMap (acmeGrafanaOff (parameters := sample))
         ("monitoring", "acme-prometheus-config")),
      (storedDeployment (acmeGrafanaOff (parameters := sample))
         ("monitoring", "acme-prometheus")),
      (storedService (acmeGrafanaOff (parameters := sample))
         ("monitoring", "acme-prometheus")).
    do 13 (split; [vm_compute; reflexivity|]).
    split; [|vm_compute; reflexivity].
    intros _. split; [vm_compute; reflexivity | vm_compute; eauto].
  - exists w'. split; [exact E|]. split; [exact Hd|]. split; [exact Hs|].
    split; [exact Hcm|]. split; [exact Hpvc|].
    exists status. split; [exact Hst|]. rewrite Hg. vm_compute. reflexivity.
Defined.


(** C10 at [acme]: the claim created for it carries the ownership link. *)
Lemma Reconcile_never_deletes_claim_witness :
  exists pvc,
    persistentVolumeClaims (acmeConverged (parameters := sample))
    !! ("monitoring", "acme-prometheus-data") = Some pvc
    /\ controlledBy acme (pvc_Meta pvc)
    /\ pvc_Requests pvc = {[ "storage" := "10Gi" ]}.
Proof.
  pose proof (Reconcile_never_deletes_claim (parameters := sample) acmeKey
                (afterReconcile (parameters := sample) acmeKey (clusterWith acme)))
    as (_ & _ & Hown).
  set (pvc := default {| pvc_Meta := emptyMeta; pvc_AccessModes := [];
                         pvc_Requests := ∅; pvc_StorageClassName := None |}
                (persistentVolumeClaims (acmeConverged (parameters := sample))
                 !! ("monitoring", "acme-prometheus-data"))).
  exists pvc. split; [vm_compute; reflexivity|]. split; [|vm_compute; reflexivity].
  destruct (Hown (withFinalizers acme [finalizerName])
              ltac:(vm_compute; reflexivity)
              ("monitoring", "acme-prometheus-data") pvc
              ltac:(vm_compute; reflexivity)) as [Hold | Hnew].
  - vm_compute in Hold. discriminate Hold.
  - exact Hnew.
Defined.

(** X2 at the collector of [acme]. *)
Lemma built_workload_single_witness :
  d_Replicas
    (dep_Spec (valueOr emptyDeployment
                 (buildPrometheusDeployment (parameters := sample) acme))) = 1
  /\ List.length
       (ps_Containers
          (d_TemplateSpec
             (dep_Spec (valueOr emptyDeployment
                          (buildPrometheusDeployment (parameters := sample) acme)))))
     = 1%nat.
Proof.
  apply (built_workload_single (parameters := sample) acme).
  left. vm_compute. reflexivity.
Defined.

(** X3 at an empty cluster. *)
Lemma Reconcile_not_found_witness :
  exists w',
    Reconcile (parameters := sample) acmeKey
      (setMonitorStacks ∅ (clusterWith acme))
    = (Val (noRequeue, None), w')
    /\ sameStores (setMonitorStacks ∅ (clusterWith acme)) w'
    /\ requests w'
       = {| rq_Verb := VerbGet; rq_Kind := KindMonitorStack; rq_Key := acmeKey |}
         :: requests (setMonitorStacks ∅ (clusterWith acme)).
Proof.
  apply (Reconcile_not_found (parameters := sample) acmeKey
           (setMonitorStacks ∅ (clusterWith acme))).
  - vm_compute. reflexivity.
  - reflexivity.
Defined.

(** X4 at a dashboard whose second datasource has no URL. *)
Lemma validateGrafanaConfig_first_datasource_witness :
  validateGrafanaConfig acmeDatasources
  = Some (errorString "datasource[1] URL cannot be empty").
Proof.
  destruct (validateGrafanaConfig_first_datasource acmeDatasources 1
              {| ds_Name := "logs"; ds_Type := "loki"; ds_URL := "" |})
    as (field & Hfield & E).
  - unfold grafanaScalarsValid, portOutOfRange, nodePortOutOfRange. simpl.
    repeat split; first [lia | discriminate | intros (H & _); discriminate].
  - reflexivity.
  - right. right. reflexivity.
  - apply Forall_cons. split; [|by apply Forall_nil].
    intros [H | [H | H]]; discriminate.
  - injection Hfield as <-. exact E.
Defined.

(** X6 at [acme], whose labels do not set the component key. *)
Lemma getLabels_component_witness :
  getLabels acme "prometheus" = getLabels acme "grafana"
  <-> is_Some (spec_Labels (Spec acme) !! "app.kubernetes.io/component").
Proof. apply (getLabels_component acme "prometheus" "grafana"). discriminate. Defined.

(** X9 at the collector of [acme]. *)
Lemma built_workload_wellformed_witness :
  volumesDeclared
    (d_TemplateSpec
       (dep_Spec (valueOr emptyDeployment
                    (buildPrometheusDeployment (parameters := sample) acme)))).
Proof.
  apply (built_workload_wellformed (parameters := sample) acme).
  left. vm_compute. reflexivity.
Defined.

(** X11 at [acme], which validation accepts. *)
Lemma validated_service_ports_witness :
  Forall validServicePort (ss_Ports (s_Spec (buildPrometheusService acme)))
  /\ Forall validServicePort (ss_Ports (s_Spec (buildGrafanaService acme))).
Proof.
  destruct (validated_service_ports acme) as [Hp Hg]; [vm_compute; reflexivity|].
  split; [apply Hp | apply Hg]; reflexivity.
Defined.

(** X12 at a cluster that holds the stack [acme] and nothing else. *)
Lemma Reconcile_confined_witness :
  wellKeyed (clusterWith acme)
  /\ wellKeyed (afterReconcile (parameters := sample) acmeKey (clusterWith acme))
  /\ logs (fun r => r ∈ engineRequests acme) (clusterWith acme)
       (afterReconcile (parameters := sample) acmeKey (clusterWith acme))
  /\ untouched acme (clusterWith acme)
       (afterReconcile (parameters := sample) acmeKey (clusterWith acme)).
Proof.
  split; [apply clusterWith_wellKeyed|].
  destruct (Reconcile_confined (parameters := sample) acmeKey (clusterWith acme)
              (clusterWith_wellKeyed acme)) as (Hw & Hl & _).
  split; [exact Hw | exact Hl].
Defined.

(** X13 at the same cluster. *)
Lemma reconcile_owns_what_it_creates_witness :
  wellKeyed (clusterWith acme)
  /\ ownershipKept acme (clusterWith acme)
       (reconcilePrometheus (parameters := sample) acme (clusterWith acme)).2
  /\ ownershipKept acme (clusterWith acme)
       (reconcileGrafana (parameters := sample) acme (clusterWith acme)).2.
Proof.
  split; [apply clusterWith_wellKeyed|].
  apply (reconcile_owns_what_it_creates (parameters := sample) acme (clusterWith acme)).
  apply clusterWith_wellKeyed.
Defined.

(** X14 at the same cluster: both subsystems converge from nothing. *)
Lemma reconcile_success_converged_witness :
  (exists updated,
     reconcilePrometheus (parameters := sample) acme (clusterWith acme)
     = (Val (updated, None),
        (reconcilePrometheus (parameters := sample) acme (clusterWith acme)).2)
     /\ prometheusChildrenConverged (parameters := sample) updated
          (reconcilePrometheus (parameters := sample) acme (clusterWith acme)).2)
  /\ (exists updated,
        reconcileGrafana (parameters := sample) acme (clusterWith acme)
        = (Val (updated, None),
           (reconcileGrafana (parameters := sample) acme (clusterWith acme)).2)
        /\ grafanaChildrenConverged (parameters := sample) updated
             (reconcileGrafana (parameters := sample) acme (clusterWith acme)).2).
Proof.
  assert (E1 : reconcilePrometheus (parameters := sample) acme (clusterWith acme)
               = (Val (_, None),
                  (reconcilePrometheus (parameters := sample) acme
                     (clusterWith acme)).2))
    by (vm_compute; reflexivity).
  assert (E2 : reconcileGrafana (parameters := sample) acme (clusterWith acme)
               = (Val (_, None),
                  (reconcileGrafana (parameters := sample) acme
                     (clusterWith acme)).2))
    by (vm_compute; reflexivity).
  split; eexists _.
  - split; [exact E1|].
    exact (proj1 (proj1 (reconcile_success_converged (parameters := sample) acme _
                           (clusterWith acme) _ (clusterWith_wellKeyed acme)) E1)).
  - split; [exact E2|].
    exact (proj1 (proj2 (reconcile_success_converged (parameters := sample) acme _
                           (clusterWith acme) _ (clusterWith_wellKeyed acme)) E2)).
Defined.

(** X15 at the same cluster: the second run of the collector's convergence
    changes nothing. *)
Lemma reconcile_idempotent_witness :
  exists updated w'',
    reconcilePrometheus (parameters := sample) acme (clusterWith acme)
    = (Val (updated, None),
       (reconcilePrometheus (parameters := sample) acme (clusterWith acme)).2)
    /\ reconcilePrometheus (parameters := sample) updated
         (reconcilePrometheus (parameters := sample) acme (clusterWith acme)).2
       = (Val (updated, None), w'')
    /\ sameStores
         (reconcilePrometheus (parameters := sample) acme (clusterWith acme)).2 w''.
Proof.
  assert (E : reconcilePrometheus (parameters := sample) acme (clusterWith acme)
              = (Val (_, None),
                 (reconcilePrometheus (parameters := sample) acme
                    (clusterWith acme)).2))
    by (vm_compute; reflexivity).
  assert (Hf : faultFree (reconcilePrometheus (parameters := sample) acme
                            (clusterWith acme)).2)
    by (intros n; vm_compute; reflexivity).
  destruct (proj1 (reconcile_idempotent (parameters := sample) acme _
                     (clusterWith acme) _ (clusterWith_wellKeyed acme) Hf) E)
    as (w'' & E2 & S).
  eexists _, w''. split; [exact E|]. split; [exact E2 | exact S].
Defined.

(** X16 at the cluster the first reconciliation of [acme] leaves (the
    finalizer is set, no child exists yet). *)
Lemma Reconcile_success_witness :
  exists stored,
    monitorStacks
      (afterReconcile (parameters := sample) acmeKey
         (afterReconcile (parameters := sample) acmeKey (clusterWith acme)))
    !! acmeKey = Some stored
    /\ Phase (Status stored) = "Pending"
    /\ prometheusChildrenConverged (parameters := sample) stored
         (afterReconcile (parameters := sample) acmeKey
            (afterReconcile (parameters := sample) acmeKey (clusterWith acme)))
    /\ grafanaChildrenConverged (parameters := sample) stored
         (afterReconcile (parameters := sample) acmeKey
            (afterReconcile (parameters := sample) acmeKey (clusterWith acme))).
Proof.
  assert (Hw : wellKeyed (afterReconcile (parameters := sample) acmeKey
                            (clusterWith acme))) by compute_wellKeyed.
  assert (E : Reconcile (parameters := sample) acmeKey
                (afterReconcile (parameters := sample) acmeKey (clusterWith acme))
              = (Val (requeueAfter (Minute * 5), None),
                 afterReconcile (parameters := sample) acmeKey
                   (afterReconcile (parameters := sample) acmeKey (clusterWith acme))))
    by (vm_compute; reflexivity).
  destruct (Reconcile_success (parameters := sample) acmeKey _ _ Hw E)
    as (_ & monitorStack & stored & Hin & _ & _ & Hout & _ & _ & _ & Hph & Hp & Hg).
  exists stored. split; [exact Hout|].
  vm_compute in Hin. injection Hin as <-.
  split; [|split; [apply Hp; reflexivity | apply Hg; reflexivity]].
  vm_compute in Hout. injection Hout as <-. reflexivity.
Defined.

(** X17 at the cluster a reconciliation of [acme] labelled team=a leaves,
    for the stack relabelled team=b: the pods get the new label and the
    service keeps selecting by the old one. *)
Lemma reconcile_update_keeps_selector_witness :
  wellKeyed (afterReconcile (parameters := sample) acmeKey (clusterWith (acmeTeam "a")))
  /\ storedPartsKept
       (afterReconcile (parameters := sample) acmeKey (clusterWith (acmeTeam "a")))
       (reconcilePrometheus (parameters := sample) (acmeTeam "b")
          (afterReconcile (parameters := sample) acmeKey
             (clusterWith (acmeTeam "a")))).2
  /\ ss_Selector
       (s_Spec
          (storedService
             (reconcilePrometheus (parameters := sample) (acmeTeam "b")
                (afterReconcile (parameters := sample) acmeKey
                   (clusterWith (acmeTeam "a")))).2
             ("monitoring", "acme-prometheus"))) !! "team" = Some "a"
  /\ d_TemplateLabels
       (dep_Spec
          (storedDeployment
             (reconcilePrometheus (parameters := sample) (acmeTeam "b")
                (afterReconcile (parameters := sample) acmeKey
                   (clusterWith (acmeTeam "a")))).2
             ("monitoring", "acme-prometheus"))) !! "team" = Some "b".
Proof.
  assert (Hw : wellKeyed (afterReconcile (parameters := sample) acmeKey
                            (clusterWith (acmeTeam "a")))) by compute_wellKeyed.
  split; [exact Hw|].
  split; [exact (proj1 (reconcile_update_keeps_selector (parameters := sample)
                          (acmeTeam "b") _ Hw))|].
  split; vm_compute; reflexivity.
Defined.

(** X18 at a cluster that holds the new stack [acme] and nothing else. *)
Lemma Reconcile_adds_finalizer_witness :
  exists err w',
    Reconcile (parameters := sample) acmeKey (clusterWith acme)
    = (Val (noRequeue, err), w')
    /\ err = None
    /\ deployments w' = deployments (clusterWith acme)
    /\ monitorStacks w' !! acmeKey
       = Some (withFinalizers acme (Finalizers acme ++ [finalizerName])).
Proof.
  destruct (Reconcile_adds_finalizer (parameters := sample) acmeKey acme
              (clusterWith acme) (clusterWith_wellKeyed acme)
              eq_refl eq_refl eq_refl)
    as (err & w' & E & _ & _ & _ & Hd & _ & _ & Hok & _ & Hf).
  exists err, w'. split; [exact E|].
  assert (He : err = None) by (apply Hf; intros n; reflexivity).
  split; [exact He|]. split; [exact Hd | exact (Hok He)].
Defined.

(** X19 at a cluster that holds [acme] with the storage size "ten": the
    reconciliation panics. *)
Lemma Reconcile_panics_iff_witness :
  exists msg w',
    Reconcile (parameters := sample) acmeKey (clusterWith acmeBadSize)
    = (Panic msg, w').
Proof.
  apply (proj1 (proj2 (proj2 (Reconcile_panics_iff (parameters := sample) acmeKey
                                acmeBadSize (clusterWith acmeBadSize) eq_refl)
                         (clusterWith_wellKeyed acmeBadSize)
                         (fun n => eq_refl) eq_refl eq_refl))).
  intros [Hp _]. destruct (Hp eq_refl) as [Hsize _].
  specialize (Hsize ltac:(discriminate)). discriminate Hsize.
Defined.

(** X20 at the cluster the first reconciliation of [acme] leaves, with the
    API failing the third request (the get of the collector's
    configuration): the status write that follows records the failure. *)
Lemma Reconcile_failure_witness :
  exists stored,
    monitorStacks
      (afterReconcile (parameters := sample) acmeKey
         (failRequest 2 (afterReconcile (parameters := sample) acmeKey
                           (clusterWith acme))))
    !! acmeKey = Some stored
    /\ Phase (Status stored) = "Failed".
Proof.
  assert (Hw : wellKeyed (failRequest 2 (afterReconcile (parameters := sample) acmeKey
                                           (clusterWith acme))))
    by compute_wellKeyed.
  assert (E : Reconcile (parameters := sample) acmeKey
                (failRequest 2 (afterReconcile (parameters := sample) acmeKey
                                  (clusterWith acme)))
              = (Val (requeueAfter Minute, _),
                 afterReconcile (parameters := sample) acmeKey
                   (failRequest 2 (afterReconcile (parameters := sample) acmeKey
                                     (clusterWith acme)))))
    by (vm_compute; reflexivity).
  destruct (Reconcile_failure (parameters := sample) acmeKey _ _ _ Hw E)
    as (monitorStack & err & rest & _ & _ & Hlog & Hok).
  vm_compute in Hlog. injection Hlog as <-.
  destruct (Hok eq_refl) as (stored & Hs & _ & Hphase & _).
  exists stored. split; [exact Hs | exact Hphase].
Defined.

(** X21 at the converged cluster of [acme] after the user deleted the
    stack. *)
Lemma Reconcile_deletion_witness :
  exists w',
    Reconcile (parameters := sample) acmeKey
      (markDeleted acmeKey (acmeConverged (parameters := sample)))
    = (Val (noRequeue, None), w')
    /\ deployments w' !! ("monitoring", "acme-grafana") = None
    /\ monitorStacks w' !! acmeKey = None.
Proof.
  assert (Hw : wellKeyed (markDeleted acmeKey (acmeConverged (parameters := sample))))
    by compute_wellKeyed.
  assert (Hin : monitorStacks (markDeleted acmeKey (acmeConverged (parameters := sample)))
                !! acmeKey = Some _)
    by (vm_compute; reflexivity).
  destruct (Reconcile_deletion (parameters := sample) acmeKey _ _ _ Hw
              (fun n => eq_refl) Hin eq_refl)
    as (w' & E & _ & Hd & _ & _ & _ & Hs).
  exists w'. split; [exact E|]. split; [exact Hd | exact Hs].
Defined.

(** X22 at the cluster the first reconciliation of [acme] leaves: the second
    creates the children, the third changes nothing. *)
Lemma Reconcile_fixed_point_witness :
  exists w'',
    Reconcile (parameters := sample) acmeKey
      (afterReconcile (parameters := sample) acmeKey
         (afterReconcile (parameters := sample) acmeKey (clusterWith acme)))
    = (Val (requeueAfter (Minute * 5), None), w'')
    /\ sameStores
         (afterReconcile (parameters := sample) acmeKey
            (afterReconcile (parameters := sample) acmeKey (clusterWith acme)))
         w''.
Proof.
  apply (Reconcile_fixed_point (parameters := sample) acmeKey
           (afterReconcile (parameters := sample) acmeKey (clusterWith acme))).
  - compute_wellKeyed.
  - intros n. reflexivity.
  - vm_compute. reflexivity.
Defined.

(** X23 at the converged cluster of [acme] with the new stack [beta]:
    reconciling [beta] creates its workload and leaves [acme] and its
    children as they were. *)
Lemma Reconcile_isolated_witness :
  monitorStacks
    (afterReconcile (parameters := sample) (stackKey beta)
       (acmeAndBeta (parameters := sample))) !! acmeKey
  = monitorStacks (acmeAndBeta (parameters := sample)) !! acmeKey
  /\ childrenSame acme (acmeAndBeta (parameters := sample))
       (afterReconcile (parameters := sample) (stackKey beta)
          (acmeAndBeta (parameters := sample)))
  /\ is_Some
       (deployments
          (afterReconcile (parameters := sample) (stackKey beta)
             (acmeAndBeta (parameters := sample)))
        !! ("monitoring", "beta-prometheus")).
Proof.
  assert (Hw : wellKeyed (acmeAndBeta (parameters := sample)))
    by compute_wellKeyed.
  destruct (Reconcile_isolated (parameters := sample) (stackKey beta) acme
              (acmeAndBeta (parameters := sample)) Hw ltac:(discriminate))
    as [Hs Hc].
  split; [exact Hs|]. split; [exact Hc|]. vm_compute. eauto.
Defined.

(** X24 at a cluster that holds the new stack [acme]: the reconciliation
    adds the finalizer and writes nothing else of the stack. *)
Lemma Reconcile_stack_kept_witness :
  exists new,
    monitorStacks (afterReconcile (parameters := sample) acmeKey (clusterWith acme))
    !! acmeKey = Some new
    /\ (sameButStatus acme new
        \/ (acmeKey = acmeKey /\ DeletionTimestamp acme = None
            /\ new = AddFinalizer acme finalizerName)
        \/ (acmeKey = acmeKey /\ is_Some (DeletionTimestamp acme)
            /\ new = RemoveFinalizer acme finalizerName)).
Proof.
  pose proof (Reconcile_stack_kept (parameters := sample) acmeKey acmeKey acme
                (clusterWith acme) (clusterWith_wellKeyed acme) eq_refl) as H.
  unfold afterReconcile.
  destruct (monitorStacks (Reconcile (parameters := sample) acmeKey
                             (clusterWith acme)).2 !! acmeKey) as [new|] eqn:E.
  - exists new. split; [reflexivity | exact H].
  - destruct H as (_ & [t Ht] & _). discriminate Ht.
Defined.
